(* ===== verification/_CoqProject ===== *)
-Q . S2P
Prelude.v
Common.v
Hex.v
Report.v
Cal.v
Lighting.v
Enable.v
StatusRequest.v
Temperature.v
Clock.v
Application.v
Packet.v
Carried.v
Decode.v
Buffered.v
PyDict.v
Confirm.v
Pci.v
PciServer.v
Text.v
Topics.v
Periodic.v
Gateway.v
Emulator.v
Interrogator.v
EmulatorClient.v
Transport.v
SimState.v
SimParse.v
Simulator.v
SimText.v
SimServer.v
SimRobust.v
SimClient.v
Proxy.v
Relay.v
HaDiscovery.v
SimLighting.v
Discovery.v
Esp32.v
Startup.v
Toolkit.v
EmulatorLog.v
EmulatorServer.v
Web.v
PyJson.v
Harness.v
Broker.v
Graph.v
Home.v
Vectors.v
Suites.v
Behavioral.v
TransportTasks.v
VectorFiles.v
Launch.v
ProxyText.v
InterrogatorSession.v
Lifecycle.v
