(* ===== verification/Prelude.v ===== *)
(** * Verification of the python C-Bus library

    The library under [src/python-legacy/cbus] speaks the serial protocol of
    Clipsal C-Bus: it encodes and decodes packets, drives an interface (a PCI or
    CNI) over a byte stream, simulates such an interface for tests, and bridges
    the lights of a network to MQTT. This development models the parts below as
    executable definitions, named after the source's where possible, and proves
    what makes them correct. Paths are relative to [src/python-legacy/cbus],
    except that [cbus-simulator] and [cbus-proxy], two programs beside the library,
    are directories of [src/python-legacy], and [rust-migration-harness], the tests
    for a port of the library, is one of [src].

    *** Files and the code they model

    - [Prelude] (this file): python's fallible code as a [result], bytes and
      lists with the index errors and slices of python, the decoding loop that
      all message families share ([while_data]), and the class [WireCodec], the
      interface between a family of messages and the packet that carries it.
    - [Common]: [common.py], the enumerations, checksum, ramp rates and addresses.
    - [Hex]: base16 and the [struct] fields of the standard library.
    - [Report], [Cal]: [protocol/cal/*.py], status reports and device management
      messages (CALs).
    - [Lighting], [Enable], [StatusRequest], [Temperature], [Clock]:
      [protocol/application/*.py], the messages (SALs) of each application.
    - [Application]: [protocol/application/__init__.py] and [sal.py], the registry.
    - [Packet]: [protocol/*_packet.py], headers, payloads, constructors, encoders.
    - [Carried]: what the wire carries of a packet, a specification that no code is
      translated to.
    - [Decode]: [protocol/packet.py], [decode_packet] in both directions.
    - [Buffered]: [protocol/buffered_protocol.py] and [cbus_protocol.py], from
      chunks of bytes to handled packets.
    - [PyDict], [Confirm], [Pci]: [protocol/pciprotocol.py], the client: the
      bookkeeping of confirmation codes, dispatch, commands, sending, the reset
      sequence and the retry task.
    - [PciServer]: [protocol/pciserverprotocol.py], the simulated interface.
    - [Text], [Topics]: [daemon/topics.py] and [get_topic_group_address].
    - [Periodic]: [toolkit/periodic.py], the throttler of the daemon.
    - [Gateway]: [daemon/mqtt_gateway.py], with the parts of [daemon/cmqttd.py]
      that rebind a handler.
    - [Emulator]: [esp32/emulator/device.py], the emulated bridge: its units and
      groups, its own parser of lines, and what it writes.
    - [Interrogator]: [protocol/interrogator.py], questions to a unit and the
      reading of its replies; [InterrogatorSession]: the connection they go through.
    - [EmulatorClient]: the client of [Pci] against the bridge of [Emulator].
    - [Transport]: [transport/base.py], the states of a connection and the
      reconnection loop, one coroutine at a time. [TransportTasks]: any number of
      coroutines on one transport ([tcp.py] and [serial.py] included), with the lock of
      [connect], as a state machine of tasks that stop at their awaits.

    - [SimState]: [cbus-simulator/simulator/state.py] and [models.py], the shared
      state of the stand-alone simulator and its operations.
    - [SimParse], [Simulator]: [cbus-simulator/simulator/protocol.py] and
      [server.py]: commands written as text for binary, patterns, handlers, the
      buffer of a connection, and the connections as tasks that interleave.
    - [SimText]: the text commands as data, and what each one does. [SimServer]:
      the abstract server that [Simulator] refines. [SimRobust]: the simulator on
      any input. [SimClient]: the client of [Pci] against it.
    - [SimLighting]: [simulator/applications/lighting.py], a second set of handlers
      over [SimState].
    - [Launch]: [logging_config.py], the loggers and what they print; [run_simulator.py]
      and the other half of [server.py], the port, the clients and the end of the simulator.
    - [Lifecycle]: start and stop of the emulated bridge ([esp32/emulator/device.py]) and
      its pseudo terminal ([serial_port.py]).
    - [Proxy]: [cbus-proxy/proxy.py], the packet analyser and the proxy; [ProxyText]:
      the text of an analysis. [Relay]: the client of [Pci] behind the proxy.
    - [HaDiscovery]: [esp32/ha_discovery.py], discovery messages for the bridge,
      against [Topics] and [Gateway].
    - [Esp32]: [esp32/connection.py] over [Transport], and the loop of
      [daemon/cmqttd.py] that waits for a lost connection. [Startup]: the rest of [_main],
      from the options to the clean-up. [Discovery]: [esp32/discovery.py].
      [EmulatorLog], [EmulatorServer]: the log of commands of [Emulator], and its
      clients as tasks that interleave. [Web]: [web/server.py], the configuration server, with
      [Emulator], [Esp32] and [Pci].
    - [Toolkit]: [toolkit/cbz.py] and [dump_labels.py], the objects built of a parsed
      project, the summary of labels ([Graph]: its drawing, [toolkit/graph.py]), and the labels the daemon reads of a backup
      ([read_cbz_labels] of [daemon/cmqttd.py]).
    - [PyJson]: [rust-migration-harness/lib/pyjson.py], packets as JSON, with the
      recording and the check of encode vectors.
    - [Vectors]: the recording and the checks of the other test vectors
      ([generate_vectors.py], [suites/verify_vectors.py] of the same directory).
      [Suites]: all that the generator records, and the behavioural expectations.
      [VectorFiles]: the two programs over their files.
    - [Harness]: [lib/wire.py] and [lib/fake_pci.py] of the same directory, the
      harness's own reading of a client's lines and its scripted interface,
      against what [Pci] sends.
    - [Broker]: [lib/mini_broker.py], the MQTT broker of the harness, its clients'
      packets, and the abstract broker it implements.
    - [Behavioral]: [suites/behavioral.py] of the harness, the script that looks at
      [Harness] and [Broker] while a daemon runs.
    - [Home]: the daemon ([Gateway], [Pci]), the broker and its other clients
      together.

    *** How the code is modelled

    Integers are [Z]; a byte is a [Z] with [byte_ok], and every place where the
    code masks, shifts or builds [bytes] (which raises outside 0..255) is written
    out. A function that may raise returns a [result]; exceptions keep their
    class, since handlers distinguish them. Records and inductive types are the
    classes of the source with the attributes that matter; a union of classes is
    a sum. Floats occur only where the code's operations on them are exact and
    are rationals. Objects that are shared (the protocols and futures of [Esp32]) are
    numbered, and referred to by number. Dictionaries whose order matters are lists of items
    ([PyDict]); the others are [gmap]s.

    Coroutines suspend only while they sleep or wait for an MQTT publish. A
    client is the relation [Pci.step] over the atomic runs between suspension
    points, in any order and at any times; [Pci.reachable] is every state some
    schedule leads to. The gateway and the throttler are functions of a state and
    an event; theorems quantify over all sequences of events. So are the
    stand-alone simulator, whose tasks run from one wait (for data, or for the
    simulated delay of a command) to the next, and the proxy, whose events are the
    reads that return; a write returns at once. The tasks of a transport are numbered,
    and [TransportTasks.step] runs one of them from one await to the next: the code of
    [asyncio.Lock] and of [Task.cancel] is written out, since what [connect] guarantees
    rests on it. Times are integers (microseconds).

    Fuel: [while_data] gets one unit per byte, and every turn of a decoding loop
    that goes on drops a byte ([while_data_outcome]); [process_fuel] likewise
    ([process_terminates]), and so are the buffers of the simulator
    ([process_lines]), of the proxy ([packets_of]) and of the scripted interface
    ([split_lines]); the broker's loops take at least one byte a turn, or seven bits
    of a length; a retry round takes one turn
    per packet queued, and a wait of [Behavioral] one per sleep ([wait_for_decides]). The
    constant [OutOfFuel] is an exception that no theorem's conclusion admits.

    *** What the theorems show

    - The wire format: every family of messages survives encoding and decoding
      ([lighting_roundtrip], [clock_roundtrip], [cals_roundtrip],
      [report_roundtrip], [sals_roundtrip]), up to the loss each coding has by
      design ([wire_image]); packets survive in both directions with routing and
      confirmation ([packet_from_pci_roundtrip], [packet_to_pci_roundtrip]): the
      same packet when the wire holds its numbers ([packet_exact]), and otherwise
      one that differs in what the wire rounds ([packet_carried]);
      the checksum detects any changed byte; decoders are total, the
      exceptions that leave them are listed ([lighting_decode_safe],
      [decode_packet_escapes]), and so is what each defect of a line gives
      ([line_defects]).
    - The stream: the decoder never revises a report ([decode_packet_incremental]),
      so chunk boundaries do not matter ([chunking_invariant]) while the chunks fit
      the buffer and no handler raises ([chunk_over_limit]), and packets are
      delivered in order ([packets_delivered]); the buffer is bounded and its
      processing ends.
    - The client: codes are exclusive, and the check drops those timed out and of
      more than eighteen others the oldest quarter ([check_reclaims_oldest]); in every
      interleaving no packet waits under another's code
      ([pending_packets_carry_their_code]), the attempts counted for a packet are
      three at most and the retry task writes at most twice as many packets as were
      sent with a code ([attempts_bounded]; an execution with what is written in it is
      a [Pci.history]); packets are given up, confirmations settle exactly their packet; commands reach the
      interface and events reach the application.
    - The client against the simulated interface: the reset sequence configures
      it ([reset_sequence_configures]), a command is confirmed
      ([lighting_command_confirmed]); the echo of the reset sequence hides its
      confirmations, and a clock update breaks it.
    - The daemon: what the broker retains refines the abstract map of last
      reports ([broker_shows_lights]); a message is one command, reported as asked,
      which the interface takes with the next of the sixteen times of a ramp
      ([message_switches_light]); topics are unique; the throttler keeps order
      and distance; one malformed message stops the daemon's dispatcher
      ([dispatcher_stops_iff]). On the broker of the harness, among other clients
      that retain nothing on the topics of a light,
      in any pieces and interleaving, the last report of each light is retained and
      a message for a light reaches the daemon once ([lights_on_broker],
      [lights_of_packets]).
    - Backups: the labels of a project are those found by path in its document
      ([labels_by_path]).
    - The bridge: an interrogation reads back the attributes of an emulated unit,
      however its replies are cut into chunks ([interrogation_reads_unit],
      [session_reads_unit]), but a reply that comes late is taken as the answer to the
      next question ([late_reply_misreads_unit]); a lighting command of the client is confirmed, and its first message obeyed
      ([emulator_obeys_first_message]); its log explains its groups
      ([log_explains_bridge]), and clients that overlap are served as if one line
      came after the other ([lines_serialized]).
    - Connections: one failed attempt ends a reconnection, whatever its limit
      ([reconnection_tries_once]); but nothing starts one, and the daemon stays bound
      to the protocol it lost ([lost_connection_final]) and waits to be interrupted
      ([bridge_daemon_waits]). When it ends no connection to the network is left open, nor
      one to the broker unless no network was given ([broker_left_open]), but its
      clean-up fails when its options do ([main_ends]). On one transport, however its coroutines
      interleave, only the holder of the lock connects, waiters are woken in order and
      none is forgotten ([coroutines_consistent]), and all of them end
      ([coroutines_end]); [disconnect] settles a reconnection ([disconnect_settles]), but
      not a caller that is connecting ([disconnect_overtaken]) nor the loop of an earlier
      loss ([first_loop_survives]).
    - The web interface: a posted level is set in the bridge and sent to the network
      alike ([group_set_everywhere]), the configuration keeps its keys
      ([config_keys_fixed], [posted_config]), connections exclude one another while
      requests for them do not overlap ([connections_exclusive]), and a lost one
      still counts as connected ([lost_protocol_refused]).

    - The stand-alone simulator: whatever bytes arrive, its state and connections
      stay well-formed ([any_input_well_formed]); the matcher of its patterns
      decides their language ([re_match_language]), every text command reaches its
      handler ([dispatch]) and does what it says ([handler_meaning]), and clients
      whose tasks interleave get what an abstract server gives them
      ([text_clients_refined]), with the last level of each configured group
      ([status_tells_last_level]); anything else is
      refused ([unknown_text_refused]). The lighting handlers set one group each
      ([handlers_set_levels]), and the end of a ramp resets a group that is not
      configured ([unknown_group_reset]). Against the library it fails: lighting commands are confirmed and set another group ([simulator_misreads_lighting]).
    - The proxy: both directions are transparent, whole packets and commands at a time
      and with less than one held back ([interface_stream_relayed],
      [commands_multiplexed]), until the reader ends, which is for good
      ([reader_not_restarted]); a client of the library behind it that takes all it is
      written is in the state it would be in beside the interface
      ([client_behind_proxy]); the analyser's memory is bounded
      ([analyzer_bounded]); the bytes can be read back from its dumps
      ([format_hex_read_back]).
    - Starting: the simulator takes the first free port ([start_takes_first_free]) and
      closes every connection ([shutdown_closes_all]); records of modules are printed
      twice ([logged_twice]). The emulated bridge closes every other client when it
      stops ([stop_skips_clients]); its pseudo terminal leaves nothing behind
      ([close_undoes_create]).
    - Discovery: a bridge that announces itself is found as it is
      ([announced_bridge_found]), unless a property has no value
      ([valueless_property_hides]); the bridge's messages are the daemon's for the default lighting
      application and only there ([discovery_against_daemon]), and what is cleared
      is what is not configured ([removal_exact]).
    - The harness: the packets that the decoder makes of any bytes are rebuilt from
      their JSON ([decoded_packets_rebuilt]), so that the vectors recorded for them
      pass ([recorded_vectors_pass]), except for a packet without messages
      ([application_of_empty_packet_lost]); vectors of the other kinds pass their own
      checks as well ([decode_vector_accepted] and its like), each suite of the
      generator is accepted ([suites_accepted]; two of its recorded lines are
      [recorded_lines]), the checker ends with 0 exactly when every vector of every file
      is accepted ([verify_exits_0_iff]), as those that the generator writes are
      ([generated_files_pass]), and the states expected after a message of the interface are
      what the daemon then retains ([expectations_met]). The behavioural suite ends
      ([suite_ends]) and can be passed ([suite_passable]), but not by a client of this
      library, which asks for confirmations where the suite wants none
      ([library_fails_suite]). The scripted interface records each call of the client's [_send] once, however its stream is cut, and answers as
      its script says ([client_lines_recorded]). The broker serves interleaved
      clients like an abstract one ([clients_served]), reads filters as MQTT does
      ([topic_matches_spec]), and the daemon's filter for a light brings that
      light's commands alone ([light_filters_exact]); an UNSUBSCRIBE has no effect
      ([unsubscribed_still_served]), and a broker that is stopped stays as it is
      ([stopped_for_good]).

    *** What is not modelled

    The text of log messages, the parsing of command lines (argparse), signals, and what
    opens and closes sockets, whose outcomes are inputs; the parsers of ZIP, XML
    and JSON and the text of JSON, of which the results are inputs or parameters; the
    library that finds services, pydot and aiomqtt, of which the calls made are recorded
    or the answers inputs; the page of the web server; the tools that print packets and fetch documents, the scripts, and the
    configuration of the documentation, which have no logic of their own; asyncio, whose
    callbacks are the events of the model. Code of the repository in other languages (Rust, the firmware) is
    out of scope. *)

From stdpp Require Export base tactics list numbers option gmap.
From Stdlib Require Export Sorted Wf_nat.
From stdpp Require Import options.

Local Open Scope Z_scope.

(** ** Python exceptions and fallible code *)

(** The exception classes the source raises or lets escape. *)
Inductive exn :=
| ValueError
| IndexError
| KeyError
| TypeError
| NotImplementedError
| StructError
| BinasciiError
| IOError
| AttributeError
| UnicodeError
| OverflowError
| RuntimeError
| AssertionError
| OutOfFuel (* not a python exception: the model's loop bound was too small *).

#[export] Instance exn_eq_dec : EqDecision exn.
Proof. solve_decision. Defined.

(** A python expression that returns a value or raises. *)
Inductive result (A : Type) : Type :=
| Ok (a : A)
| Raise (e : exn).
Arguments Ok {A} a.
Arguments Raise {A} e.

#[export] Instance result_ret : MRet result := fun A a => Ok a.
#[export] Instance result_bind : MBind result :=
  fun A B f m => match m with Ok a => f a | Raise e => Raise e end.
#[export] Instance result_fmap : FMap result :=
  fun A B f m => match m with Ok a => Ok (f a) | Raise e => Raise e end.

#[export] Instance result_eq_dec `{EqDecision A} : EqDecision (result A).
Proof. solve_decision. Defined.

Definition is_Ok {A} (r : result A) : bool :=
  match r with Ok _ => true | Raise _ => false end.

(** [if not b: raise e] *)
Definition require (b : bool) (e : exn) : result unit :=
  if b then Ok tt else Raise e.

(** [d[k]] on a dict that may not have the key. *)
Definition or_raise {A} (e : exn) (o : option A) : result A :=
  match o with Some a => Ok a | None => Raise e end.

Fixpoint mapM_result {A B} (f : A -> result B) (l : list A) : result (list B) :=
  match l with
  | [] => Ok []
  | x :: l => y ← f x; ys ← mapM_result f l; Ok (y :: ys)
  end.

(** ** Bytes *)

(** A python [bytes] or [bytearray] object: its items are ints in 0..255, a
    range every constructor below enforces and [bytes_ok] states. *)
Abbreviation bytes := (list Z).

Definition byte_okb (b : Z) : bool := (0 <=? b) && (b <? 256).
Definition byte_ok (b : Z) : Prop := 0 <= b < 256.
Abbreviation bytes_ok := (Forall byte_ok).

(** [bytes([x, ...])] *)
Definition mk_bytes (l : list Z) : result bytes :=
  if forallb byte_okb l then Ok l else Raise ValueError.

(** [l[i]] for a non-negative index. *)
Definition item {A} (l : list A) (i : nat) : result A :=
  or_raise IndexError (l !! i).

(** [l[-1]] and [l[:-1]] *)
Definition last_item (l : bytes) : result Z := or_raise IndexError (last l).
Definition but_last (l : bytes) : bytes := take (length l - 1) l.

(** [l[a:b]] for non-negative bounds. *)
Definition slice {A} (a b : nat) (l : list A) : list A := take (b - a) (drop a l).

(** [l.startswith(p)] *)
Fixpoint startswith (p l : bytes) : bool :=
  match p, l with
  | [], _ => true
  | x :: p, y :: l => (x =? y) && startswith p l
  | _ :: _, [] => false
  end.

(** [l.find(p)]: [None] stands for python's -1. *)
Fixpoint find_sub (p l : bytes) : option nat :=
  if startswith p l then Some O
  else match l with
       | [] => None
       | _ :: l => S <$> find_sub p l
       end.

(** [x in l] for a byte [x]. *)
Definition byte_in (x : Z) (l : bytes) : bool := existsb (Z.eqb x) l.

(** [sum(l)] *)
Definition sumZ (l : list Z) : Z := foldr Z.add 0 l.

(** [len(l)] as a python int. *)
Definition len {A} (l : list A) : Z := Z.of_nat (length l).

(** [sorted(l, key=key)]: python's sort is stable, so is this insertion. *)
Fixpoint sorted_insert {A} (key : A -> Z) (x : A) (l : list A) : list A :=
  match l with
  | [] => [x]
  | y :: l' => if key x <=? key y then x :: l else y :: sorted_insert key x l'
  end.
Definition py_sorted {A} (key : A -> Z) (l : list A) : list A :=
  foldr (sorted_insert key) [] l.

(** ** Decoder loops

    The decoders of the source are [while data:] loops whose body breaks,
    raises, or consumes a prefix and maybe appends one item to the output. *)
Inductive loop_step (A : Type) : Type :=
| Break
| Next (o : option A) (rest : bytes).
Arguments Break {A}.
Arguments Next {A} o rest.

Fixpoint while_fuel {A} (step : bytes -> result (loop_step A)) (fuel : nat)
    (data : bytes) : result (list A) :=
  match data with
  | [] => Ok []
  | _ :: _ =>
      match fuel with
      | O => Raise OutOfFuel
      | S fuel =>
          s ← step data;
          match s with
          | Break => Ok []
          | Next o rest => l ← while_fuel step fuel rest; Ok (option_list o ++ l)
          end
      end
  end.

(** One unit of fuel per byte: enough for a body that always consumes, see
    [while_data_enough]. *)
Definition while_data {A} (step : bytes -> result (loop_step A)) (data : bytes)
    : result (list A) := while_fuel step (length data) data.

(** A loop body that consumes at least one byte whenever it goes on. *)
Definition consuming {A} (step : bytes -> result (loop_step A)) : Prop :=
  forall data o rest,
    step data = Ok (Next o rest) -> (length rest < length data)%nat.

(** ** Integer enumerations

    What the code relies on of [enum.IntEnum]: a value per member, and a
    constructor call [E(v)] that finds the member of a value or raises
    [ValueError]. *)
Class IntEnum (A : Type) := {
  value : A -> Z;
  members : list A;
  members_complete : forall a, a ∈ members;
  value_inj : forall a b, value a = value b -> a = b
}.

#[global] Arguments value {A _} _ : simpl never.

Fixpoint find_member {A} (val : A -> Z) (l : list A) (z : Z) : option A :=
  match l with
  | [] => None
  | a :: l => if val a =? z then Some a else find_member val l z
  end.

(** The member with value [z], as a dict lookup by [z] finds it. *)
Definition of_value {A} `{IntEnum A} (z : Z) : option A :=
  find_member value members z.

(** [E(z)] *)
Definition enum_call {A} `{IntEnum A} (z : Z) : result A :=
  or_raise ValueError (of_value z).

(** ** Interface of a self-delimiting wire format

    What an application decoder promises to the packet that embeds it: the
    encoding of a well-formed item is a non-empty run of bytes that one turn
    of the decoding loop turns back into [wire_image] of the item (the item up
    to what the wire cannot carry), whatever follows; and what was received
    once is carried unchanged. *)
Class WireCodec (A : Type) := {
  wire_ok : A -> Prop;
  wire_image : A -> A;
  wire_encode : A -> result bytes;
  wire_step : bytes -> result (loop_step A);
  wire_step_consuming : consuming wire_step;
  wire_roundtrip : forall a, wire_ok a ->
    exists b, wire_encode a = Ok b /\ b <> [] /\ bytes_ok b /\
      forall rest, wire_step (b ++ rest) = Ok (Next (Some (wire_image a)) rest);
  wire_image_fixed : forall a, wire_ok a ->
    wire_ok (wire_image a) /\ wire_image (wire_image a) = wire_image a
}.

Definition encode_items {A} (encode : A -> result bytes) (l : list A)
    : result bytes := foldr app [] <$> mapM_result encode l.

(** ** Automation *)

Lemma byte_okb_spec b : byte_okb b = true <-> byte_ok b.
Proof. unfold byte_okb, byte_ok. lia. Qed.


Create HintDb pybytes.

(** Run the reads of known leading bytes and the binds of known results. *)
Ltac run_reads := autorewrite with pybytes.

(** Solve goals about the bounds of bytes. *)
Ltac solve_byte :=
  unfold byte_ok, byte_okb in *; try lia.

(** Solve [bytes_ok] of a list built from known bytes and byte strings. *)
Ltac solve_bytes :=
  repeat match goal with
  | |- Forall _ [] => apply Forall_nil_2
  | |- Forall _ (_ :: _) => apply Forall_cons; split
  | |- Forall _ (_ ++ _) => apply Forall_app; split
  end;
  try assumption;
  try (apply (proj1 (byte_okb_spec _)); reflexivity);
  try (unfold byte_ok in *; lia); eauto with pybytes.

(** Case analysis on every match scrutinee of the goal or of a hypothesis. *)
Ltac cases_in H :=
  repeat match type of H with
  | context [match ?x with _ => _ end] =>
      lazymatch x with
      | context [match _ with _ => _ end] => fail
      | _ => destruct x eqn:?
      end
  end.
Ltac cases_goal :=
  repeat match goal with
  | |- context [match ?x with _ => _ end] =>
      lazymatch x with
      | context [match _ with _ => _ end] => fail
      | _ => destruct x eqn:?
      end
  end.

(** Split a boolean hypothesis into the propositions it decides. *)
Ltac bool_hyps :=
  repeat match goal with
  | H : _ && _ = true |- _ => apply andb_true_iff in H as [??]
  | H : _ || _ = false |- _ => apply orb_false_iff in H as [??]
  | H : negb _ = true |- _ => apply negb_true_iff in H
  | H : negb _ = false |- _ => apply negb_false_iff in H
  end.

(** ** Generic lemmas *)

Lemma forallb_byte_ok l : forallb byte_okb l = true <-> bytes_ok l.
Proof.
  induction l as [|x l IH]; simpl; [by split|].
  rewrite andb_true_iff, IH, Forall_cons, byte_okb_spec. done.
Qed.

Lemma mk_bytes_ok l : bytes_ok l -> mk_bytes l = Ok l.
Proof. intros H%forallb_byte_ok. unfold mk_bytes. by rewrite H. Qed.

Lemma mk_bytes_inv l b : mk_bytes l = Ok b -> b = l /\ bytes_ok l.
Proof.
  unfold mk_bytes. destruct (forallb byte_okb l) eqn:E; [|done].
  intros [= <-]. by apply forallb_byte_ok in E.
Qed.

Lemma item_raise {A} (l : list A) i e : item l i = Raise e -> e = IndexError.
Proof. unfold item, or_raise. case_match; congruence. Qed.

Lemma mk_bytes_raise l e : mk_bytes l = Raise e -> e = ValueError.
Proof. unfold mk_bytes. case_match; naive_solver. Qed.

#[export] Instance byte_ok_dec b : Decision (byte_ok b).
Proof. unfold byte_ok. apply _. Defined.

Lemma result_bind_Ok {A B} (m : result A) (f : A -> result B) b :
  (m ≫= f) = Ok b <-> exists a, m = Ok a /\ f a = Ok b.
Proof.
  destruct m as [a|e]; simpl; split; [by exists a|by intros (? & [= <-] & ?)|done|].
  by intros (? & ? & _).
Qed.

Lemma result_bind_Raise {A B} (m : result A) (f : A -> result B) e :
  (m ≫= f) = Raise e <-> m = Raise e \/ exists a, m = Ok a /\ f a = Raise e.
Proof.
  destruct m as [a|e']; simpl; split.
  - intros H. right. by exists a.
  - by intros [?|(? & [= <-] & ?)].
  - intros [= <-]. by left.
  - by intros [[= <-]|(? & ? & ?)].
Qed.

Lemma result_fmap_Raise {A B} (m : result A) (f : A -> B) e :
  (f <$> m) = Raise e <-> m = Raise e.
Proof. destruct m; cbn; split; congruence. Qed.

Lemma result_fmap_Ok {A B} (m : result A) (f : A -> B) b :
  (f <$> m) = Ok b <-> exists a, m = Ok a /\ f a = b.
Proof.
  destruct m as [a|e]; cbn; split; [intros [= <-]; by exists a| |done|].
  - by intros (? & [= <-] & <-).
  - by intros (? & ? & _).
Qed.

(** Follow hypotheses [... = Ok _] and [... = Raise _] through binds and
    branches. *)
Ltac follow_result :=
  repeat match goal with
  | H : (_ ≫= _) = Ok _ |- _ => apply result_bind_Ok in H as (? & ? & H)
  | H : (_ <$> _) = Ok _ |- _ => apply result_fmap_Ok in H as (? & ? & H)
  | H : (_ ≫= _) = Raise _ |- _ =>
      apply result_bind_Raise in H as [H|(? & ? & H)]
  | H : (_ <$> _) = Raise _ |- _ => apply result_fmap_Raise in H
  | H : Ok _ = Raise _ |- _ => discriminate H
  | H : Raise _ = Ok _ |- _ => discriminate H
  | H : (if ?b then _ else _) = Ok _ |- _ => destruct b eqn:?
  | H : (if ?b then _ else _) = Raise _ |- _ => destruct b eqn:?
  | H : (let '(_, _) := ?p in _) = Ok _ |- _ => destruct p eqn:?
  | H : (let '(_, _) := ?p in _) = Raise _ |- _ => destruct p eqn:?
  | H : match ?o with Some _ => _ | None => _ end = Ok _ |- _ => destruct o eqn:?
  | H : match ?o with Some _ => _ | None => _ end = Raise _ |- _ =>
      destruct o eqn:?
  | H : Raise _ = Raise _ |- _ => injection H as H
  end.

Lemma bind_Ok {A B} (a : A) (f : A -> result B) : (Ok a ≫= f) = f a.
Proof. done. Qed.

Lemma item_0 {A} (x : A) l : item (x :: l) 0 = Ok x.
Proof. done. Qed.

Lemma item_S {A} (x : A) l n : item (x :: l) (S n) = item l n.
Proof. done. Qed.

#[export] Hint Rewrite @bind_Ok @item_0 @item_S : pybytes.

Lemma land_ff_byte v : byte_ok (Z.land v 0xff).
Proof.
  change 0xff with (Z.ones 8). rewrite Z.land_ones by lia.
  apply Z.mod_pos_bound. lia.
Qed.

Lemma land_ff_id v : byte_ok v -> Z.land v 0xff = v.
Proof.
  intros Hv. change 0xff with (Z.ones 8). rewrite Z.land_ones by lia.
  by apply Z.mod_small.
Qed.

#[export] Hint Resolve land_ff_byte : pybytes.

(** A fact about every byte holds as soon as it computes on 0..255. *)
Lemma byte_forall (P : Z -> bool) :
  forallb P (seqZ 0 256) = true -> forall b, byte_ok b -> P b = true.
Proof.
  intros H b Hb. rewrite forallb_forall in H. apply H.
  apply list_elem_of_In, elem_of_seqZ. unfold byte_ok in Hb. lia.
Qed.

(** Prove a decidable statement about one byte [b] by running it on all. *)
Ltac by_bytes b Hb P :=
  refine (byte_forall P _ b Hb); vm_compute; reflexivity.

Lemma sumZ_app l1 l2 : sumZ (l1 ++ l2) = sumZ l1 + sumZ l2.
Proof. unfold sumZ. induction l1; simpl; lia. Qed.

Lemma but_last_snoc l x : but_last (l ++ [x]) = l.
Proof.
  unfold but_last. rewrite length_app. simpl.
  replace (length l + 1 - 1)%nat with (length l) by lia.
  by rewrite take_app_length.
Qed.

Lemma last_item_snoc l x : last_item (l ++ [x]) = Ok x.
Proof. unfold last_item. by rewrite last_snoc. Qed.

Lemma last_item_split l x : last_item l = Ok x -> l = but_last l ++ [x].
Proof.
  unfold last_item. destruct (last l) eqn:E; [|done]. intros [= ->].
  apply last_Some in E as [l' ->]. by rewrite but_last_snoc.
Qed.

Lemma last_item_raise l e : last_item l = Raise e -> l = [] /\ e = IndexError.
Proof.
  unfold last_item. destruct (last l) eqn:E; [done|].
  intros [= <-]. by apply last_None in E.
Qed.

Lemma startswith_app p l r : startswith p l = true -> startswith p (l ++ r) = true.
Proof.
  revert l. induction p as [|x p IH]; intros [|y l]; simpl; try done.
  intros H. bool_hyps. rewrite IH by done. lia.
Qed.

Lemma startswith_refl p l : startswith p (p ++ l) = true.
Proof. induction p; simpl; [done|]. by rewrite Z.eqb_refl. Qed.

Lemma startswith_split p l :
  startswith p l = true -> l = p ++ drop (length p) l.
Proof.
  revert l. induction p as [|x p IH]; intros [|y l]; simpl; try done.
  intros H. bool_hyps. f_equal; [lia|]. by apply IH.
Qed.

Lemma find_sub_Some p l n :
  find_sub p l = Some n ->
  startswith p (drop n l) = true /\ (n + length p <= length l)%nat.
Proof.
  revert n. induction l as [|y l IH]; intros n; simpl.
  - destruct (startswith p []) eqn:E; [|done]. intros [= <-].
    apply startswith_split in E. destruct p; simpl in *; [done|done].
  - destruct (startswith p (y :: l)) eqn:E.
    + intros [= <-]. split; [done|]. apply startswith_split in E.
      apply (f_equal length) in E. rewrite length_app in E. simpl in *. lia.
    + destruct (find_sub p l) as [m|]; [|done]. intros [= <-]. simpl.
      destruct (IH m eq_refl). split; [done|lia].
Qed.

Lemma find_sub_app p l r n :
  p <> [] -> find_sub p l = Some n -> find_sub p (l ++ r) = Some n.
Proof.
  intros Hp. revert n. induction l as [|y l IH]; intros n; simpl.
  - destruct p; done.
  - destruct (startswith p (y :: l)) eqn:E.
    + intros [= <-].
      assert (startswith p ((y :: l) ++ r) = true) as Hs by by apply startswith_app.
      simpl in Hs. by rewrite Hs.
    + destruct (find_sub p l) as [m|] eqn:Em; [|done]. intros [= <-].
      destruct (startswith p (y :: l ++ r)) eqn:E'.
      * exfalso. apply find_sub_Some in Em as [Hs Hl].
        apply startswith_split in E'. apply not_true_iff_false in E. apply E.
        assert (take (length p) (y :: l) = p) as Ht.
        { assert (take (length p) ((y :: l) ++ r) = p) as Ht'.
          { simpl in *. rewrite E'. by rewrite take_app_length. }
          rewrite take_app_le in Ht'; [done|]. simpl. lia. }
        rewrite <- (take_drop (length p) (y :: l)), Ht. apply startswith_refl.
      * by rewrite (IH m eq_refl).
Qed.

(** The first occurrence of a one-byte terminator. *)
Lemma find_sub_end1 c l r :
  c ∉ l -> find_sub [c] (l ++ c :: r) = Some (length l).
Proof.
  induction l as [|x l IH]; simpl; intros Hc.
  - by rewrite Z.eqb_refl.
  - apply not_elem_of_cons in Hc as [Hne Hc].
    rewrite (proj2 (Z.eqb_neq c x)) by done. simpl.
    by rewrite (IH Hc).
Qed.

(** The first occurrence of a two-byte terminator. *)
Lemma find_sub_end2 c d l r :
  c ∉ l -> find_sub [c; d] (l ++ c :: d :: r) = Some (length l).
Proof.
  induction l as [|x l IH]; simpl; intros Hc.
  - by rewrite !Z.eqb_refl.
  - apply not_elem_of_cons in Hc as [Hne Hc].
    rewrite (proj2 (Z.eqb_neq c x)) by done. simpl.
    by rewrite (IH Hc).
Qed.

Lemma find_sub_absent c p l : c ∉ l -> find_sub (c :: p) l = None.
Proof.
  induction l as [|x l IH]; simpl; intros Hc; [done|].
  apply not_elem_of_cons in Hc as [Hne Hc].
  rewrite (proj2 (Z.eqb_neq c x)) by done. simpl. by rewrite (IH Hc).
Qed.

Lemma find_sub_None c l : find_sub [c] l = None -> c ∉ l.
Proof.
  induction l as [|x l IH]; simpl; [intros _; apply not_elem_of_nil|].
  rewrite andb_true_r. destruct (Z.eqb_spec c x) as [|Hne]; [done|].
  destruct (find_sub [c] l); [done|]. intros _.
  apply not_elem_of_cons. split; [done|]. by apply IH.
Qed.

Lemma find_sub_first c l n :
  find_sub [c] l = Some n -> exists a b, l = a ++ c :: b /\ length a = n /\ c ∉ a.
Proof.
  revert n. induction l as [|x l IH]; intros n; simpl; [done|].
  rewrite andb_true_r. destruct (Z.eqb_spec c x) as [->|Hne].
  - intros [= <-]. exists [], l. split; [done|]. split; [done|]. apply not_elem_of_nil.
  - destruct (find_sub [c] l) as [m|]; [|done]. intros [= <-].
    destruct (IH m eq_refl) as (a & b & -> & <- & Ha). exists (x :: a), b.
    split; [done|]. split; [done|]. by apply not_elem_of_cons.
Qed.

Lemma byte_in_spec x l : byte_in x l = true <-> x ∈ l.
Proof.
  unfold byte_in. rewrite existsb_exists. split.
  - intros (y & Hy & ->%Z.eqb_eq). by apply list_elem_of_In.
  - intros H. exists x. rewrite Z.eqb_refl. split; [by apply list_elem_of_In|done].
Qed.

Lemma byte_in_false x l : byte_in x l = false <-> x ∉ l.
Proof. rewrite <- byte_in_spec. destruct (byte_in x l); naive_solver. Qed.

Lemma take_elem {A} n (l : list A) x : x ∈ take n l -> x ∈ l.
Proof. intros H. rewrite <- (take_drop n l). apply elem_of_app. by left. Qed.

Lemma drop_elem {A} n (l : list A) x : x ∈ drop n l -> x ∈ l.
Proof. intros H. rewrite <- (take_drop n l). apply elem_of_app. by right. Qed.

(** *** The stable sort *)

Lemma sorted_insert_perm {A} (key : A -> Z) x l :
  sorted_insert key x l ≡ₚ x :: l.
Proof.
  induction l as [|y l IH]; simpl; [done|].
  case_match; [done|]. rewrite IH. apply Permutation_swap.
Qed.

Lemma py_sorted_perm {A} (key : A -> Z) l : py_sorted key l ≡ₚ l.
Proof.
  induction l as [|x l IH]; simpl; [done|].
  rewrite sorted_insert_perm. by constructor.
Qed.

Lemma sorted_insert_sorted {A} (key : A -> Z) x l :
  StronglySorted (fun a b => key a <= key b) l ->
  StronglySorted (fun a b => key a <= key b) (sorted_insert key x l).
Proof.
  induction 1 as [|y l Hl IH Hy]; simpl; [by repeat constructor|].
  case_match eqn:E; bool_hyps.
  - constructor; [by constructor|]. constructor; [lia|].
    eapply Forall_impl; [done|]. simpl. intros. lia.
  - constructor; [done|]. rewrite sorted_insert_perm. constructor; [lia|done].
Qed.

Lemma py_sorted_sorted {A} (key : A -> Z) l :
  StronglySorted (fun a b => key a <= key b) (py_sorted key l).
Proof. induction l; simpl; [constructor|]. by apply sorted_insert_sorted. Qed.

(** *** Enumerations *)

Section int_enum.
Context `{IntEnum A}.

Lemma find_member_Some l z a :
  find_member value l z = Some a -> a ∈ l /\ value a = z.
Proof.
  induction l as [|b l IH]; simpl; [done|].
  destruct (Z.eqb_spec (value b) z) as [<-|].
  - intros [= <-]. split; [constructor|done].
  - intros [? ?]%IH. split; [by constructor|done].
Qed.

Lemma find_member_elem l a :
  a ∈ l -> find_member value l (value a) = Some a.
Proof.
  induction 1 as [|a b l Ha IH]; simpl; [by rewrite Z.eqb_refl|].
  destruct (Z.eqb_spec (value b) (value a)) as [E|]; [|done].
  by apply value_inj in E as ->.
Qed.

Lemma of_value_value a : of_value (value a) = Some a.
Proof. apply find_member_elem, members_complete. Qed.

Lemma value_of_value z a : of_value z = Some a -> value a = z.
Proof. intros H1. by apply find_member_Some in H1 as []. Qed.

Lemma enum_call_value a : enum_call (value a) = Ok a.
Proof. unfold enum_call. by rewrite of_value_value. Qed.

Lemma enum_call_inv z a : enum_call z = Ok a -> value a = z.
Proof.
  unfold enum_call. destruct (of_value z) eqn:E; [|done].
  intros [= <-]. by apply value_of_value.
Qed.
End int_enum.


(** *** Decoder loops *)

Lemma while_fuel_enough {A} (step : bytes -> result (loop_step A)) :
  consuming step ->
  forall n m data, (length data <= n)%nat -> (length data <= m)%nat ->
  while_fuel step n data = while_fuel step m data.
Proof.
  intros Hstep n. induction n as [|n IH]; intros m [|x data] Hn Hm;
    destruct m as [|m]; simpl in *; try done; try lia.
  destruct (step (x :: data)) as [[|o rest]|e] eqn:E; simpl; try done.
  apply Hstep in E. simpl in E. rewrite (IH m rest) by lia. done.
Qed.

(** The loop unfolds one turn at a time, so its bound is never what stops it. *)
Lemma while_data_cons {A} (step : bytes -> result (loop_step A)) data :
  consuming step -> data <> [] ->
  while_data step data =
    (s ← step data;
     match s with
     | Break => Ok []
     | Next o rest => l ← while_data step rest; Ok (option_list o ++ l)
     end).
Proof.
  intros Hstep Hne. unfold while_data at 1.
  destruct data as [|x data]; [done|]. simpl.
  destruct (step (x :: data)) as [[|o rest]|e] eqn:E; simpl; try done.
  apply Hstep in E. simpl in E.
  rewrite (while_fuel_enough step Hstep (length data) (length rest)) by lia. done.
Qed.

(** A consuming loop ends: with its output, or with an exception of its body. *)
Lemma while_data_outcome {A} (step : bytes -> result (loop_step A)) (P : exn -> Prop) :
  consuming step -> (forall d e, step d = Raise e -> P e) ->
  forall data, (exists l, while_data step data = Ok l) \/
    (exists e, while_data step data = Raise e /\ P e).
Proof.
  intros Hstep Hraise data.
  induction data as [data IH] using (induction_ltof1 _ length).
  destruct data as [|x data]; [left; by exists []|].
  rewrite while_data_cons by done.
  destruct (step (x :: data)) as [[|o rest]|e] eqn:E; simpl.
  - left. by exists [].
  - apply Hstep in E. destruct (IH rest E) as [[l ->]|(e & -> & He)]; simpl.
    + left. by eexists.
    + right. by exists e.
  - right. exists e. eauto.
Qed.

(** What every turn of a loop returns, the loop returns. *)
Lemma while_data_all {A} (step : bytes -> result (loop_step A)) (I : bytes -> Prop)
    (P : A -> Prop) :
  consuming step ->
  (forall d o rest, I d -> step d = Ok (Next o rest) -> I rest /\ from_option P True o) ->
  forall data l, I data -> while_data step data = Ok l -> Forall P l.
Proof.
  intros Hstep HP data.
  induction data as [data IH] using (induction_ltof1 _ length). intros l Hi.
  destruct data as [|x data]; [by intros [= <-]|].
  rewrite while_data_cons by done. intros (s & Hs & H)%result_bind_Ok.
  destruct s as [|o rest]; [by injection H as <-|]. follow_result. simplify_eq.
  destruct (HP _ _ _ Hi Hs) as [Hr Ho]. apply Hstep in Hs.
  apply Forall_app. split; [by destruct o; repeat constructor|eauto].
Qed.

(** Round trip of a whole message of well-formed items. *)
Lemma wire_items_roundtrip `{WireCodec A} (l : list A) :
  Forall wire_ok l ->
  exists b, encode_items wire_encode l = Ok b /\ bytes_ok b /\
    while_data wire_step b = Ok (map wire_image l).
Proof.
  induction 1 as [|a l Ha Hl IH]; [by exists []|].
  destruct IH as (bl & Hbl & Hok & Hdec).
  destruct (wire_roundtrip a Ha) as (b & Hb & Hne & Hbok & Hs).
  unfold encode_items in *. apply result_fmap_Ok in Hbl as (bs & Hbs & <-).
  exists (b ++ foldr app [] bs). split; [|split].
  - simpl. rewrite Hb. simpl. rewrite Hbs. done.
  - by apply Forall_app.
  - rewrite while_data_cons; [|apply wire_step_consuming|by destruct b].
    rewrite Hs. simpl. by rewrite Hdec.
Qed.
