(* ===== verification/Common.v ===== *)
(** * Constants and helpers of [cbus/common.py]

    The protocol's enumerations (one module per [IntEnum] of the source), the
    C-Bus checksum, ramp rates and group addresses, and what makes them
    correct: the checksum cancels the sum of the message and detects any
    change of one byte, ramp rates and durations are a round trip and a
    closest-from-above rounding, group addresses are exactly the bytes. *)

From S2P Require Import Prelude.
From stdpp Require Import options.

Local Open Scope Z_scope.

(** ** Message framing constants *)

(** [b'0123456789ABCDEF'] *)
Definition HEX_CHARS : bytes :=
  [48; 49; 50; 51; 52; 53; 54; 55; 56; 57; 65; 66; 67; 68; 69; 70].
Definition END_COMMAND : bytes := [0x0d].
Definition END_RESPONSE : bytes := [0x0d; 0x0a].
Definition MIN_MESSAGE_SIZE : Z := 2.
Definition MAX_BUFFER_SIZE : Z := 256.

(** [b'hijklmnopqrstuvwxyzg'] *)
Definition CONFIRMATION_CODES : bytes :=
  [104; 105; 106; 107; 108; 109; 110; 111; 112; 113; 114; 115; 116; 117; 118;
   119; 120; 121; 122; 103].

Definition MIN_GROUP_ADDR : Z := 0.
Definition MAX_GROUP_ADDR : Z := 255.
Definition TEMPERATURE_BROADCAST : Z := 0x02.

(** [BRIDGE_LENGTHS[n]] raises [KeyError] on a code that is not listed. *)
Definition BRIDGE_LENGTHS : list (Z * nat) :=
  [(0x09, 0%nat); (0x12, 1%nat); (0x1B, 2%nat); (0x24, 3%nat); (0x2D, 4%nat);
   (0x36, 5%nat)].

(** Lookup in a dict display. *)
Fixpoint dict_get {V} (d : list (Z * V)) (k : Z) : option V :=
  match d with
  | [] => None
  | (k', v) :: d => if k' =? k then Some v else dict_get d k
  end.

(** ** Enumerations *)

(** Destination address type, the low three bits of the flags byte. *)
Module DestinationAddressType.

Inductive t :=
| UNSET | POINT_TO_POINT_SHORT | DEVICE_MANAGEMENT_REPLY
| POINT_TO_POINT_TO_MULTIPOINT | RESERVED_4 | POINT_TO_MULTIPOINT
| POINT_TO_POINT | POINT_TO_POINT_EXTENDED.

Definition val (x : t) : Z :=
  match x with
  | UNSET => 0x00 | POINT_TO_POINT_SHORT => 0x01
  | DEVICE_MANAGEMENT_REPLY => 0x02 | POINT_TO_POINT_TO_MULTIPOINT => 0x03
  | RESERVED_4 => 0x04 | POINT_TO_MULTIPOINT => 0x05
  | POINT_TO_POINT => 0x06 | POINT_TO_POINT_EXTENDED => 0x07
  end.

#[global] Instance t_eq_dec : EqDecision t.
Proof. solve_decision. Defined.

#[global] Program Instance enum : IntEnum t := {|
  value := val;
  members :=
     [UNSET; POINT_TO_POINT_SHORT; DEVICE_MANAGEMENT_REPLY;
      POINT_TO_POINT_TO_MULTIPOINT; RESERVED_4; POINT_TO_MULTIPOINT;
      POINT_TO_POINT; POINT_TO_POINT_EXTENDED]
|}.
Next Obligation. by intros []; apply list_elem_of_In; simpl; tauto. Qed.
Next Obligation. by intros [] []. Qed.

End DestinationAddressType.

(** Priority class, the top two bits of the flags byte. *)
Module PriorityClass.

Inductive t :=
| CLASS_4 | CLASS_3 | CLASS_2 | CLASS_1.

Definition val (x : t) : Z :=
  match x with
  | CLASS_4 => 0x00 | CLASS_3 => 0x01 | CLASS_2 => 0x02 | CLASS_1 => 0x03
  end.

#[global] Instance t_eq_dec : EqDecision t.
Proof. solve_decision. Defined.

#[global] Program Instance enum : IntEnum t := {|
  value := val;
  members :=
     [CLASS_4; CLASS_3; CLASS_2; CLASS_1]
|}.
Next Obligation. by intros []; apply list_elem_of_In; simpl; tauto. Qed.
Next Obligation. by intros [] []. Qed.

End PriorityClass.

(** Applications. [TRIGGER] repeats the value of [HVAC]: an alias, as python makes it. *)
Module Application.

Inductive t :=
| TEMPERATURE | LIGHTING_30 | LIGHTING_31 | LIGHTING_32 | LIGHTING_33
| LIGHTING_34 | LIGHTING_35 | LIGHTING_36 | LIGHTING_37 | LIGHTING_38
| LIGHTING_39 | LIGHTING_3a | LIGHTING_3b | LIGHTING_3c | LIGHTING_3d
| LIGHTING_3e | LIGHTING_3f | LIGHTING_40 | LIGHTING_41 | LIGHTING_42
| LIGHTING_43 | LIGHTING_44 | LIGHTING_45 | LIGHTING_46 | LIGHTING_47
| LIGHTING_48 | LIGHTING_49 | LIGHTING_4a | LIGHTING_4b | LIGHTING_4c
| LIGHTING_4d | LIGHTING_4e | LIGHTING_4f | LIGHTING_50 | LIGHTING_51
| LIGHTING_52 | LIGHTING_53 | LIGHTING_54 | LIGHTING_55 | LIGHTING_56
| LIGHTING_57 | LIGHTING_58 | LIGHTING_59 | LIGHTING_5a | LIGHTING_5b
| LIGHTING_5c | LIGHTING_5d | LIGHTING_5e | LIGHTING_5f | HVACACTUATOR_73
| HVACACTUATOR_74 | HVAC | CLOCK | ENABLE | MASTER_APPLICATION.

Definition val (x : t) : Z :=
  match x with
  | TEMPERATURE => 0x19 | LIGHTING_30 => 0x30 | LIGHTING_31 => 0x31
  | LIGHTING_32 => 0x32 | LIGHTING_33 => 0x33 | LIGHTING_34 => 0x34
  | LIGHTING_35 => 0x35 | LIGHTING_36 => 0x36 | LIGHTING_37 => 0x37
  | LIGHTING_38 => 0x38 | LIGHTING_39 => 0x39 | LIGHTING_3a => 0x3a
  | LIGHTING_3b => 0x3b | LIGHTING_3c => 0x3c | LIGHTING_3d => 0x3d
  | LIGHTING_3e => 0x3e | LIGHTING_3f => 0x3f | LIGHTING_40 => 0x40
  | LIGHTING_41 => 0x41 | LIGHTING_42 => 0x42 | LIGHTING_43 => 0x43
  | LIGHTING_44 => 0x44 | LIGHTING_45 => 0x45 | LIGHTING_46 => 0x46
  | LIGHTING_47 => 0x47 | LIGHTING_48 => 0x48 | LIGHTING_49 => 0x49
  | LIGHTING_4a => 0x4a | LIGHTING_4b => 0x4b | LIGHTING_4c => 0x4c
  | LIGHTING_4d => 0x4d | LIGHTING_4e => 0x4e | LIGHTING_4f => 0x4f
  | LIGHTING_50 => 0x50 | LIGHTING_51 => 0x51 | LIGHTING_52 => 0x52
  | LIGHTING_53 => 0x53 | LIGHTING_54 => 0x54 | LIGHTING_55 => 0x55
  | LIGHTING_56 => 0x56 | LIGHTING_57 => 0x57 | LIGHTING_58 => 0x58
  | LIGHTING_59 => 0x59 | LIGHTING_5a => 0x5a | LIGHTING_5b => 0x5b
  | LIGHTING_5c => 0x5c | LIGHTING_5d => 0x5d | LIGHTING_5e => 0x5e
  | LIGHTING_5f => 0x5f | HVACACTUATOR_73 => 0x73 | HVACACTUATOR_74 => 0x74
  | HVAC => 0xca | CLOCK => 0xdf | ENABLE => 0xcb
  | MASTER_APPLICATION => 0xff
  end.

#[global] Instance t_eq_dec : EqDecision t.
Proof. solve_decision. Defined.

#[global] Program Instance enum : IntEnum t := {|
  value := val;
  members :=
     [TEMPERATURE; LIGHTING_30; LIGHTING_31; LIGHTING_32; LIGHTING_33;
      LIGHTING_34; LIGHTING_35; LIGHTING_36; LIGHTING_37; LIGHTING_38;
      LIGHTING_39; LIGHTING_3a; LIGHTING_3b; LIGHTING_3c; LIGHTING_3d;
      LIGHTING_3e; LIGHTING_3f; LIGHTING_40; LIGHTING_41; LIGHTING_42;
      LIGHTING_43; LIGHTING_44; LIGHTING_45; LIGHTING_46; LIGHTING_47;
      LIGHTING_48; LIGHTING_49; LIGHTING_4a; LIGHTING_4b; LIGHTING_4c;
      LIGHTING_4d; LIGHTING_4e; LIGHTING_4f; LIGHTING_50; LIGHTING_51;
      LIGHTING_52; LIGHTING_53; LIGHTING_54; LIGHTING_55; LIGHTING_56;
      LIGHTING_57; LIGHTING_58; LIGHTING_59; LIGHTING_5a; LIGHTING_5b;
      LIGHTING_5c; LIGHTING_5d; LIGHTING_5e; LIGHTING_5f; HVACACTUATOR_73;
      HVACACTUATOR_74; HVAC; CLOCK; ENABLE; MASTER_APPLICATION]
|}.
Next Obligation. by intros []; apply list_elem_of_In; simpl; tauto. Qed.
Next Obligation. by intros [] []. Qed.

Definition LIGHTING_FIRST : t := LIGHTING_30.

Definition LIGHTING : t := LIGHTING_38.

Definition LIGHTING_LAST : t := LIGHTING_5f.

Definition TRIGGER : t := HVAC.

Definition STATUS_REQUEST : t := MASTER_APPLICATION.

End Application.

(** Device management commands; the last three are bit masks. *)
Module CAL.

Inductive t :=
| RESET | RECALL | IDENTIFY | GET_STATUS | ACKNOWLEDGE | REPLY
| STANDARD_STATUS | EXTENDED_STATUS.

Definition val (x : t) : Z :=
  match x with
  | RESET => 0x08 | RECALL => 0x1a | IDENTIFY => 0x21 | GET_STATUS => 0x2a
  | ACKNOWLEDGE => 0x32 | REPLY => 0x80 | STANDARD_STATUS => 0xc0
  | EXTENDED_STATUS => 0xe0
  end.

#[global] Instance t_eq_dec : EqDecision t.
Proof. solve_decision. Defined.

#[global] Program Instance enum : IntEnum t := {|
  value := val;
  members :=
     [RESET; RECALL; IDENTIFY; GET_STATUS; ACKNOWLEDGE; REPLY;
      STANDARD_STATUS; EXTENDED_STATUS]
|}.
Next Obligation. by intros []; apply list_elem_of_In; simpl; tauto. Qed.
Next Obligation. by intros [] []. Qed.

End CAL.

(** Block types of an extended status. *)
Module ExtendedCALType.

Inductive t :=
| BINARY | LEVEL.

Definition val (x : t) : Z :=
  match x with
  | BINARY => 0x00 | LEVEL => 0x07
  end.

#[global] Instance t_eq_dec : EqDecision t.
Proof. solve_decision. Defined.

#[global] Program Instance enum : IntEnum t := {|
  value := val;
  members :=
     [BINARY; LEVEL]
|}.
Next Obligation. by intros []; apply list_elem_of_In; simpl; tauto. Qed.
Next Obligation. by intros [] []. Qed.

End ExtendedCALType.

(** Two-bit state of a group in a binary status report. *)
Module GroupState.

Inductive t :=
| MISSING | ON | OFF | ERROR.

Definition val (x : t) : Z :=
  match x with
  | MISSING => 0x00 | ON => 0x01 | OFF => 0x02 | ERROR => 0x03
  end.

#[global] Instance t_eq_dec : EqDecision t.
Proof. solve_decision. Defined.

#[global] Program Instance enum : IntEnum t := {|
  value := val;
  members :=
     [MISSING; ON; OFF; ERROR]
|}.
Next Obligation. by intros []; apply list_elem_of_In; simpl; tauto. Qed.
Next Obligation. by intros [] []. Qed.

End GroupState.

(** Attributes of the IDENTIFY command. *)
Module IdentifyAttribute.

Inductive t :=
| MANUFACTURER | TYPE | FIRMWARE_VER | SUMMARY | EXTENDED | NET_TERM_LVL
| TERM_LVL | NET_VOLTAGE | GAV_CURRENT | GAV_STORED | GAV_PHY_ADDR
| LOGIC_ASSIGN | DELAYS | MIN_LVL | MAX_LVL | CUR_LVL | OUT_SUMMARY
| DSI_STATUS.

Definition val (x : t) : Z :=
  match x with
  | MANUFACTURER => 0x00 | TYPE => 0x01 | FIRMWARE_VER => 0x02
  | SUMMARY => 0x03 | EXTENDED => 0x04 | NET_TERM_LVL => 0x05
  | TERM_LVL => 0x06 | NET_VOLTAGE => 0x07 | GAV_CURRENT => 0x08
  | GAV_STORED => 0x09 | GAV_PHY_ADDR => 0x0a | LOGIC_ASSIGN => 0x0b
  | DELAYS => 0x0c | MIN_LVL => 0x0d | MAX_LVL => 0x0e | CUR_LVL => 0x0f
  | OUT_SUMMARY => 0x10 | DSI_STATUS => 0x11
  end.

#[global] Instance t_eq_dec : EqDecision t.
Proof. solve_decision. Defined.

#[global] Program Instance enum : IntEnum t := {|
  value := val;
  members :=
     [MANUFACTURER; TYPE; FIRMWARE_VER; SUMMARY; EXTENDED; NET_TERM_LVL;
      TERM_LVL; NET_VOLTAGE; GAV_CURRENT; GAV_STORED; GAV_PHY_ADDR;
      LOGIC_ASSIGN; DELAYS; MIN_LVL; MAX_LVL; CUR_LVL; OUT_SUMMARY;
      DSI_STATUS]
|}.
Next Obligation. by intros []; apply list_elem_of_In; simpl; tauto. Qed.
Next Obligation. by intros [] []. Qed.

End IdentifyAttribute.

(** Device management attributes read during unit interrogation. *)
Module DeviceAttribute.

Inductive t :=
| TYPE_NAME | FIRMWARE_VERSION | SERIAL_NUMBER | DSI_STATUS
| NETWORK_TERMINAL_LEVELS | TERMINAL_LEVELS | GAV_ZONE_DATA
| IDENTIFY_BLOCK | OUTPUT_SUMMARY | GAV_STORE | GROUP_ADDRESS_TABLE
| PARAMETER_AREA | INSTALLED_APPS_SHORT | TYPE_IDENTIFICATION
| INSTALLED_APPS | FIRMWARE_EXTENDED.

Definition val (x : t) : Z :=
  match x with
  | TYPE_NAME => 0x01 | FIRMWARE_VERSION => 0x02 | SERIAL_NUMBER => 0x04
  | DSI_STATUS => 0x0b | NETWORK_TERMINAL_LEVELS => 0x0d
  | TERMINAL_LEVELS => 0x10 | GAV_ZONE_DATA => 0x20 | IDENTIFY_BLOCK => 0x21
  | OUTPUT_SUMMARY => 0x23 | GAV_STORE => 0x2a | GROUP_ADDRESS_TABLE => 0x2c
  | PARAMETER_AREA => 0x3e | INSTALLED_APPS_SHORT => 0xf2
  | TYPE_IDENTIFICATION => 0xf3 | INSTALLED_APPS => 0xfa
  | FIRMWARE_EXTENDED => 0xfb
  end.

#[global] Instance t_eq_dec : EqDecision t.
Proof. solve_decision. Defined.

#[global] Program Instance enum : IntEnum t := {|
  value := val;
  members :=
     [TYPE_NAME; FIRMWARE_VERSION; SERIAL_NUMBER; DSI_STATUS;
      NETWORK_TERMINAL_LEVELS; TERMINAL_LEVELS; GAV_ZONE_DATA;
      IDENTIFY_BLOCK; OUTPUT_SUMMARY; GAV_STORE; GROUP_ADDRESS_TABLE;
      PARAMETER_AREA; INSTALLED_APPS_SHORT; TYPE_IDENTIFICATION;
      INSTALLED_APPS; FIRMWARE_EXTENDED]
|}.
Next Obligation. by intros []; apply list_elem_of_In; simpl; tauto. Qed.
Next Obligation. by intros [] []. Qed.

End DeviceAttribute.

(** Enable control application commands. *)
Module EnableCommand.

Inductive t :=
| SET_NETWORK_VARIABLE.

Definition val (x : t) : Z :=
  match x with
  | SET_NETWORK_VARIABLE => 0x02
  end.

#[global] Instance t_eq_dec : EqDecision t.
Proof. solve_decision. Defined.

#[global] Program Instance enum : IntEnum t := {|
  value := val;
  members :=
     [SET_NETWORK_VARIABLE]
|}.
Next Obligation. by intros []; apply list_elem_of_In; simpl; tauto. Qed.
Next Obligation. by intros [] []. Qed.

End EnableCommand.

(** Lighting application commands. *)
Module LightCommand.

Inductive t :=
| ON | OFF | RAMP_INSTANT | RAMP_00_04 | RAMP_00_08 | RAMP_00_12
| RAMP_00_20 | RAMP_00_30 | RAMP_00_40 | RAMP_01_00 | RAMP_01_30
| RAMP_02_00 | RAMP_03_00 | RAMP_05_00 | RAMP_07_00 | RAMP_10_00
| RAMP_15_00 | RAMP_17_00 | TERMINATE_RAMP | LIGHT_LABEL.

Definition val (x : t) : Z :=
  match x with
  | ON => 0x79 | OFF => 0x01 | RAMP_INSTANT => 0x02 | RAMP_00_04 => 0x0a
  | RAMP_00_08 => 0x12 | RAMP_00_12 => 0x1a | RAMP_00_20 => 0x22
  | RAMP_00_30 => 0x2a | RAMP_00_40 => 0x32 | RAMP_01_00 => 0x3a
  | RAMP_01_30 => 0x42 | RAMP_02_00 => 0x4a | RAMP_03_00 => 0x52
  | RAMP_05_00 => 0x5a | RAMP_07_00 => 0x62 | RAMP_10_00 => 0x6a
  | RAMP_15_00 => 0x72 | RAMP_17_00 => 0x7a | TERMINATE_RAMP => 0x09
  | LIGHT_LABEL => 0xa0
  end.

#[global] Instance t_eq_dec : EqDecision t.
Proof. solve_decision. Defined.

#[global] Program Instance enum : IntEnum t := {|
  value := val;
  members :=
     [ON; OFF; RAMP_INSTANT; RAMP_00_04; RAMP_00_08; RAMP_00_12;
      RAMP_00_20; RAMP_00_30; RAMP_00_40; RAMP_01_00; RAMP_01_30;
      RAMP_02_00; RAMP_03_00; RAMP_05_00; RAMP_07_00; RAMP_10_00;
      RAMP_15_00; RAMP_17_00; TERMINATE_RAMP; LIGHT_LABEL]
|}.
Next Obligation. by intros []; apply list_elem_of_In; simpl; tauto. Qed.
Next Obligation. by intros [] []. Qed.

Definition RAMP_FASTEST : t := RAMP_INSTANT.

Definition RAMP_SLOWEST : t := RAMP_17_00.

End LightCommand.

(** Variables of the clock application. *)
Module ClockAttribute.

Inductive t :=
| TIME | DATE.

Definition val (x : t) : Z :=
  match x with
  | TIME => 0x01 | DATE => 0x02
  end.

#[global] Instance t_eq_dec : EqDecision t.
Proof. solve_decision. Defined.

#[global] Program Instance enum : IntEnum t := {|
  value := val;
  members :=
     [TIME; DATE]
|}.
Next Obligation. by intros []; apply list_elem_of_In; simpl; tauto. Qed.
Next Obligation. by intros [] []. Qed.

End ClockAttribute.

(** Commands of the clock application. *)
Module ClockCommand.

Inductive t :=
| UPDATE_NETWORK_VARIABLE | REQUEST_REFRESH.

Definition val (x : t) : Z :=
  match x with
  | UPDATE_NETWORK_VARIABLE => 0x08 | REQUEST_REFRESH => 0x11
  end.

#[global] Instance t_eq_dec : EqDecision t.
Proof. solve_decision. Defined.

#[global] Program Instance enum : IntEnum t := {|
  value := val;
  members :=
     [UPDATE_NETWORK_VARIABLE; REQUEST_REFRESH]
|}.
Next Obligation. by intros []; apply list_elem_of_In; simpl; tauto. Qed.
Next Obligation. by intros [] []. Qed.

End ClockCommand.

(** ** Ramp rates *)

Definition _LIGHT_RAMP_RATES : list (LightCommand.t * Z) :=
  [(LightCommand.RAMP_INSTANT, 0);
   (LightCommand.RAMP_00_04, 4);
   (LightCommand.RAMP_00_08, 8);
   (LightCommand.RAMP_00_12, 12);
   (LightCommand.RAMP_00_20, 20);
   (LightCommand.RAMP_00_30, 30);
   (LightCommand.RAMP_00_40, 40);
   (LightCommand.RAMP_01_00, 60);
   (LightCommand.RAMP_01_30, 90);
   (LightCommand.RAMP_02_00, 120);
   (LightCommand.RAMP_03_00, 180);
   (LightCommand.RAMP_05_00, 300);
   (LightCommand.RAMP_07_00, 420);
   (LightCommand.RAMP_10_00, 600);
   (LightCommand.RAMP_15_00, 900);
   (LightCommand.RAMP_17_00, 1020)].

(** [[(d, c) for c, d in sorted(_LIGHT_RAMP_RATES.items(), key=lambda x: x[1])]] *)
Definition _LIGHT_RAMP_DURATION_TO_RATE : list (Z * LightCommand.t) :=
  map (fun '(c, d) => (d, c)) (py_sorted snd _LIGHT_RAMP_RATES).

Definition LIGHT_RAMP_COMMANDS : list Z :=
  map (fun '(c, _) => value c) _LIGHT_RAMP_RATES.

(** The loop of [duration_to_ramp_rate]: the first entry not below [seconds]. *)
Fixpoint first_rate (seconds : Z) (l : list (Z * LightCommand.t))
    : option LightCommand.t :=
  match l with
  | [] => None
  | (d, cmd) :: l => if seconds <=? d then Some cmd else first_rate seconds l
  end.

Definition duration_to_ramp_rate (seconds : Z) : LightCommand.t :=
  match first_rate seconds _LIGHT_RAMP_DURATION_TO_RATE with
  | Some cmd => cmd
  | None => LightCommand.RAMP_SLOWEST
  end.

Definition ramp_rate_to_duration (rate : Z) : result Z :=
  or_raise KeyError
    (dict_get (map (fun '(c, d) => (value c, d)) _LIGHT_RAMP_RATES) rate).

(** ** Checksums *)

Definition cbus_checksum (i : bytes) : Z :=
  Z.land (Z.land (Z.lnot (sumZ i)) 0xff + 1) 0xff.

Definition add_cbus_checksum (i : bytes) : bytes := i ++ [cbus_checksum i].

(** [i[-1]] raises [IndexError] on an empty message. *)
Definition validate_cbus_checksum (i : bytes) : result bool :=
  c ← last_item i; Ok (c =? cbus_checksum (but_last i)).

Definition get_real_cbus_checksum (i : bytes) : Z := cbus_checksum (but_last i).

(** ** Group addresses *)

Definition validate_ga (group_addr : Z) : bool :=
  (MIN_GROUP_ADDR <=? group_addr) && (group_addr <=? MAX_GROUP_ADDR).

Definition check_ga (group_addr : Z) : result unit :=
  require (validate_ga group_addr) ValueError.

(** ** Checksum lemmas *)

Lemma cbus_checksum_mod i : cbus_checksum i = (- sumZ i) mod 256.
Proof.
  unfold cbus_checksum. change 255 with (Z.ones 8).
  rewrite !Z.land_ones by lia. unfold Z.lnot.
  change (2 ^ 8) with 256. Z.div_mod_to_equations. lia.
Qed.

Lemma cbus_checksum_byte i : byte_ok (cbus_checksum i).
Proof. rewrite cbus_checksum_mod. apply Z.mod_pos_bound. lia. Qed.

Lemma validate_snoc i c :
  validate_cbus_checksum (i ++ [c]) = Ok (c =? cbus_checksum i).
Proof.
  unfold validate_cbus_checksum. rewrite last_item_snoc. simpl.
  by rewrite but_last_snoc.
Qed.

Lemma add_cbus_checksum_bytes i : bytes_ok i -> bytes_ok (add_cbus_checksum i).
Proof.
  intros H. apply Forall_app. split; [done|].
  repeat constructor; apply cbus_checksum_byte.
Qed.

Lemma validate_add i : validate_cbus_checksum (add_cbus_checksum i) = Ok true.
Proof. unfold add_cbus_checksum. by rewrite validate_snoc, Z.eqb_refl. Qed.

(** A message of bytes is valid exactly when its bytes sum to 0 modulo 256. *)
Lemma validate_sum i :
  bytes_ok i -> i <> [] ->
  validate_cbus_checksum i = Ok (sumZ i mod 256 =? 0).
Proof.
  intros Hb Hne. destruct (exists_last Hne) as (l & c & ->).
  rewrite validate_snoc, cbus_checksum_mod, sumZ_app. simpl.
  apply Forall_app in Hb as [_ Hc]. inversion Hc as [|? ? Hc' _]; subst.
  unfold byte_ok in Hc'. f_equal.
  apply eq_true_iff_eq. rewrite !Z.eqb_eq.
  Z.div_mod_to_equations. lia.
Qed.

Lemma validate_ga_spec g : validate_ga g = true <-> byte_ok g.
Proof. unfold validate_ga, MIN_GROUP_ADDR, MAX_GROUP_ADDR, byte_ok. lia. Qed.

Lemma check_ga_ok g : byte_ok g -> check_ga g = Ok tt.
Proof. intros H%validate_ga_spec. unfold check_ga, require. by rewrite H. Qed.

Lemma check_ga_inv g u : check_ga g = Ok u -> byte_ok g.
Proof.
  unfold check_ga, require. destruct (validate_ga g) eqn:E; [|done].
  intros _. by apply validate_ga_spec.
Qed.

(** ** Ramp rate lemmas *)

Lemma dict_get_elem {V} (d : list (Z * V)) k v :
  dict_get d k = Some v -> (k, v) ∈ d.
Proof.
  induction d as [|[k' v'] d IH]; simpl; [done|].
  destruct (Z.eqb_spec k' k) as [<-|].
  - intros [= ->]. constructor.
  - intros ?. constructor. by apply IH.
Qed.

Lemma ramp_rate_inv c d :
  ramp_rate_to_duration c = Ok d ->
  exists cmd, (cmd, d) ∈ _LIGHT_RAMP_RATES /\ value cmd = c.
Proof.
  unfold ramp_rate_to_duration.
  destruct (dict_get _ c) as [d'|] eqn:E; [|done]. intros [= ->].
  apply dict_get_elem, list_elem_of_fmap in E as ([cmd d'] & E & ?).
  injection E as -> ->. by exists cmd.
Qed.

Lemma ramp_rate_is_command c :
  is_Ok (ramp_rate_to_duration c) = byte_in c LIGHT_RAMP_COMMANDS.
Proof.
  unfold ramp_rate_to_duration, LIGHT_RAMP_COMMANDS, byte_in.
  induction _LIGHT_RAMP_RATES as [|[cmd d] l IH]; simpl; [done|].
  rewrite (Z.eqb_sym c). by destruct (value cmd =? c).
Qed.

Lemma duration_to_rate_sorted :
  StronglySorted (fun a b => a.1 <= b.1) _LIGHT_RAMP_DURATION_TO_RATE.
Proof.
  unfold _LIGHT_RAMP_DURATION_TO_RATE.
  pose proof (py_sorted_sorted snd _LIGHT_RAMP_RATES) as Hs.
  induction Hs as [|[c d] l Hl IH Hall]; simpl; constructor; [done|].
  apply Forall_map. eapply Forall_impl; [done|]. by intros [??].
Qed.

Lemma duration_to_rate_elem d cmd :
  (d, cmd) ∈ _LIGHT_RAMP_DURATION_TO_RATE <-> (cmd, d) ∈ _LIGHT_RAMP_RATES.
Proof.
  unfold _LIGHT_RAMP_DURATION_TO_RATE. rewrite list_elem_of_fmap.
  rewrite <- (py_sorted_perm snd _LIGHT_RAMP_RATES). split.
  - by intros ([c d'] & [= -> ->] & ?).
  - intros ?. by exists (cmd, d).
Qed.

(** The loop returns the smallest listed duration that is not below the one
    asked for. *)
Lemma first_rate_spec seconds l cmd :
  StronglySorted (fun a b => a.1 <= b.1) l ->
  first_rate seconds l = Some cmd ->
  exists d, (d, cmd) ∈ l /\ seconds <= d /\
    forall d' cmd', (d', cmd') ∈ l -> seconds <= d' -> d <= d'.
Proof.
  induction 1 as [|[d c] l Hl IH Hall]; simpl; [done|].
  destruct (Z.leb_spec seconds d).
  - intros [= ->]. exists d. split; [constructor|]. split; [done|].
    intros d' cmd' [[= -> ->]|Hin]%elem_of_cons _; [lia|].
    rewrite Forall_forall in Hall. by apply (Hall _ Hin).
  - intros (d' & Hin & ? & Hmin)%IH. exists d'.
    split; [by constructor|]. split; [done|].
    intros d'' c'' [[= -> ->]|?]%elem_of_cons ?; [lia|]. by eapply Hmin.
Qed.

Lemma first_rate_None seconds l :
  first_rate seconds l = None <-> Forall (fun e => e.1 < seconds) l.
Proof.
  induction l as [|[d c] l IH]; simpl; [by split|].
  rewrite Forall_cons. simpl. destruct (Z.leb_spec seconds d).
  - split; [done|]. lia.
  - rewrite IH. tauto.
Qed.

Lemma rate_durations cmd d :
  (cmd, d) ∈ _LIGHT_RAMP_RATES -> ramp_rate_to_duration (value cmd) = Ok d.
Proof.
  intros H. unfold _LIGHT_RAMP_RATES in H.
  repeat (apply elem_of_cons in H as [[= -> ->]|H]; [reflexivity|]).
  by apply not_elem_of_nil in H.
Qed.

(** The rate picked is always a listed ramp rate. *)
Lemma duration_to_ramp_rate_elem seconds :
  exists d, (duration_to_ramp_rate seconds, d) ∈ _LIGHT_RAMP_RATES.
Proof.
  unfold duration_to_ramp_rate. destruct (first_rate _ _) as [cmd|] eqn:E.
  - apply first_rate_spec in E as (d & Hin & _); [|apply duration_to_rate_sorted].
    exists d. by apply duration_to_rate_elem.
  - exists 1020. by apply (bool_decide_unpack _).
Qed.

Lemma ramp_rate_fixed cmd d :
  (cmd, d) ∈ _LIGHT_RAMP_RATES -> duration_to_ramp_rate d = cmd.
Proof.
  intros H. unfold _LIGHT_RAMP_RATES in H.
  repeat (apply elem_of_cons in H as [[= -> ->]|H]; [reflexivity|]).
  by apply not_elem_of_nil in H.
Qed.

(** ** Properties *)

(** C40. The checksum protects a message: appending it makes the message valid,
    validation is exactly "the bytes sum to 0 modulo 256", and no change of a
    single byte of a valid message goes unnoticed. *)
Theorem checksum_protects l1 x y l2 :
  bytes_ok (l1 ++ x :: l2) -> byte_ok y -> x <> y ->
  validate_cbus_checksum (add_cbus_checksum l1) = Ok true /\
  validate_cbus_checksum (l1 ++ x :: l2) =
    Ok (sumZ (l1 ++ x :: l2) mod 256 =? 0) /\
  (validate_cbus_checksum (l1 ++ x :: l2) = Ok true ->
   validate_cbus_checksum (l1 ++ y :: l2) = Ok false).
Proof.
  intros Hb Hy Hne. split; [apply validate_add|].
  assert (bytes_ok (l1 ++ y :: l2)) as Hb'.
  { apply Forall_app in Hb as [? [? ?]%Forall_cons].
    apply Forall_app. split; [done|by constructor]. }
  rewrite !validate_sum by (try done; by destruct l1). split; [done|].
  apply Forall_app in Hb as [_ [Hx _]%Forall_cons].
  rewrite !sumZ_app. simpl. unfold byte_ok in *. intros [= H%Z.eqb_eq].
  f_equal. apply Z.eqb_neq. Z.div_mod_to_equations. lia.
Qed.

Example checksum_protects_witness :
  validate_cbus_checksum [5; 56; 0; 121; 1; 73] = Ok true /\
  validate_cbus_checksum [5; 56; 0; 1; 1; 73] = Ok false.
Proof.
  split; [reflexivity|].
  apply (checksum_protects [5; 56; 0] 121 1 [1; 73]);
    [|unfold byte_ok; lia|lia|reflexivity].
  apply forallb_byte_ok. reflexivity.
Defined.

(** A duration is rounded up to the nearest supported ramp: the rate picked
    has a duration of at least [seconds] and no rate does so with less; beyond
    the slowest ramp the slowest rate is used. *)
Theorem duration_to_ramp_rate_rounds_up seconds :
  exists d, ramp_rate_to_duration (value (duration_to_ramp_rate seconds)) = Ok d /\
    if seconds <=? 1020 then
      seconds <= d /\
      forall c d', ramp_rate_to_duration c = Ok d' -> seconds <= d' -> d <= d'
    else duration_to_ramp_rate seconds = LightCommand.RAMP_SLOWEST.
Proof.
  unfold duration_to_ramp_rate.
  destruct (first_rate seconds _) as [cmd|] eqn:E.
  - apply first_rate_spec in E as (d & Hin & Hle & Hmin);
      [|apply duration_to_rate_sorted].
    apply duration_to_rate_elem in Hin.
    exists d. split; [by apply rate_durations|].
    destruct (Z.leb_spec seconds 1020).
    + split; [done|]. intros c d' (cmd' & Hc & _)%ramp_rate_inv.
      by eapply Hmin, duration_to_rate_elem.
    + exfalso. apply rate_durations, ramp_rate_inv in Hin as (c & Hc & _).
      assert (Forall (fun e => e.2 <= 1020) _LIGHT_RAMP_RATES) as Hall.
      { repeat constructor; simpl; lia. }
      rewrite Forall_forall in Hall. apply Hall in Hc. simpl in Hc. lia.
  - apply first_rate_None in E.
    exists 1020. split; [reflexivity|].
    destruct (Z.leb_spec seconds 1020); [|done].
    rewrite Forall_forall in E.
    assert (1020 < seconds); [|lia].
    apply (E (1020, LightCommand.RAMP_17_00)).
    by apply duration_to_rate_elem, (bool_decide_unpack _).
Qed.

(** Every ramp rate survives the trip to a duration and back, the ramp rates
    are exactly the codes with a duration, and slower durations never get a
    faster rate. *)
Theorem ramp_rate_roundtrip :
  (forall c d, ramp_rate_to_duration c = Ok d ->
     value (duration_to_ramp_rate d) = c) /\
  (forall c, byte_in c LIGHT_RAMP_COMMANDS = false ->
     ramp_rate_to_duration c = Raise KeyError) /\
  (forall c, byte_in c LIGHT_RAMP_COMMANDS = true ->
     exists d, ramp_rate_to_duration c = Ok d /\ 0 <= d <= 1020) /\
  (forall s s', s <= s' ->
     value (duration_to_ramp_rate s) <= value (duration_to_ramp_rate s')).
Proof.
  split; [|split; [|split]].
  - intros c d (cmd & Hin & <-)%ramp_rate_inv. by rewrite (ramp_rate_fixed cmd).
  - intros c. rewrite <- ramp_rate_is_command.
    unfold ramp_rate_to_duration. by destruct (dict_get _ c).
  - intros c. rewrite <- ramp_rate_is_command.
    destruct (ramp_rate_to_duration c) as [d|] eqn:E; [|done].
    intros _. exists d. split; [done|].
    apply ramp_rate_inv in E as (cmd & Hin & _).
    assert (Forall (fun e => 0 <= e.2 <= 1020) _LIGHT_RAMP_RATES) as Hall
      by (repeat constructor; simpl; lia).
    rewrite Forall_forall in Hall. by apply Hall in Hin.
  - intros s s' Hle. unfold duration_to_ramp_rate.
    change _LIGHT_RAMP_DURATION_TO_RATE with
      (ltac:(let v := eval vm_compute in _LIGHT_RAMP_DURATION_TO_RATE in exact v)).
    simpl. repeat case_match; simplify_eq; unfold value; simpl; lia.
Qed.
