(* ===== verification/Hex.v ===== *)
(** * Base16 and big-endian fields, as the python standard library defines them

    [base64.b16encode] and [b16decode] (upper case only: [b16decode] is called
    without [casefold]), [bytes.fromhex(...)] and [.hex().upper()], and the
    [struct] fields the clock application packs. *)

From S2P Require Import Prelude Common.
From stdpp Require Import options.

Local Open Scope Z_scope.

(** ** Base16 *)

(** The digit of a nibble, ['0'..'9'] or ['A'..'F']. *)
Definition hex_digit (n : Z) : Z := if n <? 10 then 48 + n else 55 + n.

(** The value of an upper-case digit. *)
Definition hex_value (c : Z) : option Z :=
  if (48 <=? c) && (c <=? 57) then Some (c - 48)
  else if (65 <=? c) && (c <=? 70) then Some (c - 55)
  else None.

Definition b16encode (s : bytes) : bytes :=
  flat_map (fun b => [hex_digit (Z.shiftr b 4); hex_digit (Z.land b 0xf)]) s.

(** A hexadecimal digit, of either case. *)
Definition xdigit_value (c : Z) : option Z :=
  if (97 <=? c) && (c <=? 102) then Some (c - 87) else hex_value c.

(** [binascii.Error] on a character that is not a digit, or on odd length. *)
Fixpoint b16decode (s : bytes) : result bytes :=
  match s with
  | [] => Ok []
  | [_] => Raise BinasciiError
  | h :: l :: s =>
      match hex_value h, hex_value l with
      | Some h, Some l => r ← b16decode s; Ok (Z.lor (Z.shiftl h 4) l :: r)
      | _, _ => Raise BinasciiError
      end
  end.

(** ** Hexadecimal text: [bytes.hex()] and [bytes.fromhex] *)

Definition hex_digit_lower (n : Z) : Z := if n <? 10 then 48 + n else 87 + n.

Definition hex_lower (b : bytes) : bytes :=
  flat_map (fun b => [hex_digit_lower (Z.shiftr b 4); hex_digit_lower (Z.land b 0xf)]) b.

(** What [bytes.fromhex] skips before a pair of digits. *)
Definition is_blank (c : Z) : bool := ((9 <=? c) && (c <=? 13)) || (c =? 32).

Fixpoint fromhex (s : list Z) : result bytes :=
  match s with
  | [] => Ok []
  | h :: s =>
      if is_blank h then fromhex s
      else
        match s with
        | [] => Raise ValueError
        | l :: s =>
            match xdigit_value h, xdigit_value l with
            | Some h, Some l => r ← fromhex s; Ok (Z.lor (Z.shiftl h 4) l :: r)
            | _, _ => Raise ValueError
            end
        end
  end.

(** ** [struct.pack('>H', v)] and [unpack] *)

Definition pack_H (v : Z) : bytes := [Z.land (Z.shiftr v 8) 0xff; Z.land v 0xff].
Definition unpack_H (hi lo : Z) : Z := Z.lor (Z.shiftl hi 8) lo.

(** ** Lemmas *)

Lemma b16encode_cons b s :
  b16encode (b :: s) =
    hex_digit (Z.shiftr b 4) :: hex_digit (Z.land b 0xf) :: b16encode s.
Proof. done. Qed.

Lemma b16encode_app s t : b16encode (s ++ t) = b16encode s ++ b16encode t.
Proof. unfold b16encode. apply flat_map_app. Qed.

Lemma length_b16encode s : length (b16encode s) = (2 * length s)%nat.
Proof. induction s; simpl; [done|]. unfold b16encode in *. lia. Qed.

Lemma hex_byte b : byte_ok b ->
  match hex_value (hex_digit (Z.shiftr b 4)),
        hex_value (hex_digit (Z.land b 0xf)) with
  | Some h, Some l => Z.lor (Z.shiftl h 4) l = b
  | _, _ => False
  end.
Proof.
  intros Hb.
  assert (match hex_value (hex_digit (Z.shiftr b 4)),
        hex_value (hex_digit (Z.land b 0xf)) with
  | Some h, Some l => Z.lor (Z.shiftl h 4) l =? b
  | _, _ => false end = true) as H.
  { revert b Hb. apply byte_forall. vm_compute. reflexivity. }
  repeat case_match; try done. by apply Z.eqb_eq.
Qed.

Lemma b16decode_encode s : bytes_ok s -> b16decode (b16encode s) = Ok s.
Proof.
  induction 1 as [|b s Hb Hs IH]; [done|].
  rewrite b16encode_cons. simpl. pose proof (hex_byte b Hb) as H.
  repeat case_match; try done. rewrite IH. simpl. by f_equal/=; f_equal.
Qed.

Lemma b16encode_hex_chars s :
  bytes_ok s -> forallb (fun c => byte_in c HEX_CHARS) (b16encode s) = true.
Proof.
  induction 1 as [|b s Hb Hs IH]; [done|].
  rewrite b16encode_cons. cbn [forallb]. rewrite IH, andb_true_r.
  revert b Hb. apply byte_forall. vm_compute. reflexivity.
Qed.

Lemma hex_chars_elem c : byte_in c HEX_CHARS = true ->
  48 <= c <= 57 \/ 65 <= c <= 70.
Proof. unfold byte_in. simpl. lia. Qed.

Lemma b16encode_elem s c :
  bytes_ok s -> c ∈ b16encode s -> 48 <= c <= 57 \/ 65 <= c <= 70.
Proof.
  intros Hs Hc. apply hex_chars_elem.
  pose proof (b16encode_hex_chars s Hs) as H. rewrite forallb_forall in H.
  by apply H, list_elem_of_In.
Qed.

Lemma hex_value_range c v : hex_value c = Some v -> 0 <= v < 16.
Proof. unfold hex_value. repeat case_match; intros; simplify_eq; lia. Qed.


(** A decoded string is made of bytes. *)
Lemma b16decode_bytes s r : b16decode s = Ok r -> bytes_ok r.
Proof.
  revert r. induction s as [s IH] using (induction_ltof1 _ length).
  intros r. destruct s as [|h [|l s]]; simpl; [by intros [= <-]|done|].
  destruct (hex_value h) as [h'|] eqn:Eh; [|done].
  destruct (hex_value l) as [l'|] eqn:El; [|done].
  intros (r' & Hr' & [= <-])%result_bind_Ok. constructor.
  - apply hex_value_range in Eh, El. unfold byte_ok. split.
    + apply Z.lor_nonneg. rewrite Z.shiftl_nonneg. lia.
    + destruct (Z.eq_dec (Z.lor (Z.shiftl h' 4) l') 0) as [->|]; [lia|].
      change 256 with (2 ^ 8). apply Z.log2_lt_pow2.
      { assert (0 <= Z.lor (Z.shiftl h' 4) l'); [|lia].
        apply Z.lor_nonneg. rewrite Z.shiftl_nonneg. lia. }
      rewrite Z.log2_lor by (rewrite ?Z.shiftl_nonneg; lia).
      apply Z.max_lub_lt.
      * destruct (Z.eq_dec h' 0) as [->|]; [done|].
        rewrite Z.log2_shiftl by lia. pose proof (Z.log2_lt_pow2 h' 4).
        change (2 ^ 4) with 16 in *. lia.
      * destruct (Z.eq_dec l' 0) as [->|]; [done|].
        pose proof (Z.log2_lt_pow2 l' 4). change (2 ^ 4) with 16 in *. lia.
  - eapply IH; [|done]. unfold ltof. simpl. lia.
Qed.

Lemma unpack_pack_H v : 0 <= v < 65536 ->
  byte_ok (Z.land (Z.shiftr v 8) 0xff) /\ byte_ok (Z.land v 0xff) /\
  unpack_H (Z.land (Z.shiftr v 8) 0xff) (Z.land v 0xff) = v.
Proof.
  intros Hv. change 0xff with (Z.ones 8). rewrite !Z.land_ones by lia.
  rewrite Z.shiftr_div_pow2 by lia. change (2 ^ 8) with 256.
  unfold byte_ok, unpack_H. split; [apply Z.mod_pos_bound; lia|].
  split; [apply Z.mod_pos_bound; lia|].
  apply Z.bits_inj'. intros i Hi. rewrite Z.lor_spec.
  rewrite Z.shiftl_spec by lia.
  change 256 with (2 ^ 8). rewrite (Z.mod_small (v / 2 ^ 8)); last first.
  { change (2 ^ 8) with 256. split; [apply Z.div_pos; lia|].
    apply Z.div_lt_upper_bound; lia. }
  destruct (Z.lt_ge_cases i 8).
  - rewrite (Z.testbit_neg_r _ (i - 8)) by lia.
    rewrite Z.mod_pow2_bits_low by lia. done.
  - rewrite Z.mod_pow2_bits_high by lia. rewrite orb_false_r.
    rewrite Z.div_pow2_bits by lia. f_equal. lia.
Qed.

(** *** Hexadecimal text *)

Lemma hex_lower_byte b : byte_ok b ->
  byte_ok (hex_digit_lower (Z.shiftr b 4)) /\ byte_ok (hex_digit_lower (Z.land b 0xf)) /\
  is_blank (hex_digit_lower (Z.shiftr b 4)) = false /\
  exists h l, xdigit_value (hex_digit_lower (Z.shiftr b 4)) = Some h /\
    xdigit_value (hex_digit_lower (Z.land b 0xf)) = Some l /\ Z.lor (Z.shiftl h 4) l = b.
Proof.
  intros Hb. rewrite <- !byte_okb_spec.
  assert (forallb (fun b => byte_okb (hex_digit_lower (Z.shiftr b 4)) &&
    byte_okb (hex_digit_lower (Z.land b 0xf)) &&
    negb (is_blank (hex_digit_lower (Z.shiftr b 4))) &&
    match xdigit_value (hex_digit_lower (Z.shiftr b 4)),
          xdigit_value (hex_digit_lower (Z.land b 0xf)) with
    | Some h, Some l => Z.lor (Z.shiftl h 4) l =? b
    | _, _ => false
    end) (seqZ 0 256) = true) as H by by vm_compute.
  pose proof (byte_forall _ H b Hb) as Hc. clear H. cbv beta in Hc.
  destruct (xdigit_value (hex_digit_lower (Z.shiftr b 4))),
    (xdigit_value (hex_digit_lower (Z.land b 0xf))); bool_hyps; try done.
  rewrite Z.eqb_eq in *. repeat (split; [done|]). eauto.
Qed.

Lemma hex_lower_fromhex b : bytes_ok b -> bytes_ok (hex_lower b) /\ fromhex (hex_lower b) = Ok b.
Proof.
  unfold hex_lower. induction 1 as [|x b Hx _ [IHb IH]]; [done|].
  destruct (hex_lower_byte x Hx) as (? & ? & Hs & h & l & Hh & Hl & Hv).
  cbn [flat_map app fromhex]. split; [by apply Forall_cons; split; [|apply Forall_cons]|].
  by rewrite Hs, Hh, Hl, IH, bind_Ok, Hv.
Qed.

(** Upper-case text is hexadecimal text as well. *)
Lemma fromhex_b16encode b : bytes_ok b -> fromhex (b16encode b) = Ok b.
Proof.
  induction 1 as [|x b Hx _ IH]; [done|]. rewrite b16encode_cons. cbn [fromhex].
  assert (forallb (fun b => negb (is_blank (hex_digit (Z.shiftr b 4))) &&
    match xdigit_value (hex_digit (Z.shiftr b 4)), xdigit_value (hex_digit (Z.land b 0xf)) with
    | Some h, Some l => Z.lor (Z.shiftl h 4) l =? b
    | _, _ => false
    end) (seqZ 0 256) = true) as H by by vm_compute.
  pose proof (byte_forall _ H x Hx) as Hc. clear H. cbv beta in Hc.
  destruct (xdigit_value (hex_digit (Z.shiftr x 4))),
    (xdigit_value (hex_digit (Z.land x 0xf))); bool_hyps; try done.
  rewrite Z.eqb_eq in *. match goal with H : is_blank _ = _ |- _ => rewrite H end.
  rewrite IH, bind_Ok. by f_equal; f_equal.
Qed.
