(* ===== verification/Report.v ===== *)
(** * Status reports: [cbus/protocol/cal/report.py]

    The Manchester-style coding of dimmer levels and the two kinds of status
    report. [manchester_encode] writes into the caller's buffer at an offset,
    and so does its model; [level_encode_spec] shows that the loop of
    [LevelStatusReport.encode] computes the plain concatenation of codes. *)

From S2P Require Import Prelude Common.
From stdpp Require Import options.

Local Open Scope Z_scope.

(** ** Level coding *)

Definition _MANCHESTER_NIBBLES : list Z := [0xa; 0x9; 0x6; 0x5].

(** [_MANCHESTER_NIBBLES.index(x)]; [None] is the [ValueError] the caller
    catches. *)
Fixpoint index_of (x : Z) (l : list Z) : option Z :=
  match l with
  | [] => None
  | y :: l => if y =? x then Some 0 else (fun n => n + 1) <$> index_of x l
  end.

Definition manchester_nibble (n : Z) : option Z := index_of n _MANCHESTER_NIBBLES.

(** Reading [b[0]] or [b[1]] past the end is an [IndexError], which is not
    caught; a nibble that is no code makes the whole value [None]. *)
Definition manchester_decode (b : bytes) : result (option Z) :=
  b0 ← item b 0;
  match manchester_nibble (Z.land b0 0xf), manchester_nibble (Z.shiftr b0 4) with
  | Some n0, Some n1 =>
      b1 ← item b 1;
      match manchester_nibble (Z.land b1 0xf),
            manchester_nibble (Z.shiftr b1 4) with
      | Some n2, Some n3 =>
          Ok (Some (Z.lor n0 (Z.lor (Z.shiftl n1 2)
                     (Z.lor (Z.shiftl n2 4) (Z.shiftl n3 6)))))
      | _, _ => Ok None
      end
  | _, _ => Ok None
  end.

(** [_MANCHESTER_NIBBLES[v]] for a two-bit [v]. *)
Definition nibble_code (v : Z) : Z := nth (Z.to_nat v) _MANCHESTER_NIBBLES 0.

Definition manchester_encode (value : option Z) (buf : bytes) (off : nat)
    : result bytes :=
  if (length buf <? off + 2)%nat then Raise IndexError
  else match value with
  | None => Ok buf
  | Some value =>
      let value := Z.land value 0xff in
      Ok (<[(off + 1)%nat :=
             Z.lor (nibble_code (Z.land (Z.shiftr value 4) 0x3))
                   (Z.shiftl (nibble_code (Z.land (Z.shiftr value 6) 0x3)) 4)]>
          (<[off :=
             Z.lor (nibble_code (Z.land value 0x3))
                   (Z.shiftl (nibble_code (Z.land (Z.shiftr value 2) 0x3)) 4)]>
           buf))
  end.

(** [manchester_encode(value)] with the default buffer and offset. *)
Definition manchester_encode_new (value : option Z) : result bytes :=
  manchester_encode value [0; 0] 0.

(** ** Reports *)

Inductive StatusReport :=
| BinaryStatusReport (_group_states : list GroupState.t)
| LevelStatusReport (_group_states : list (option Z)).

#[export] Instance StatusReport_eq_dec : EqDecision StatusReport.
Proof. solve_decision. Defined.

Definition block_type (r : StatusReport) : ExtendedCALType.t :=
  match r with
  | BinaryStatusReport _ => ExtendedCALType.BINARY
  | LevelStatusReport _ => ExtendedCALType.LEVEL
  end.

(** One byte of [BinaryStatusReport.decode]. *)
Definition binary_states (c : Z) : result (list GroupState.t) :=
  s0 ← enum_call (Z.land c 0x3);
  s1 ← enum_call (Z.land (Z.shiftr c 2) 0x03);
  s2 ← enum_call (Z.land (Z.shiftr c 4) 0x03);
  s3 ← enum_call (Z.land (Z.shiftr c 6) 0x03);
  Ok [s0; s1; s2; s3].

Definition binary_decode (data : bytes) : result (list GroupState.t) :=
  foldr app [] <$> mapM_result binary_states data.

(** Pad with [MISSING] to a multiple of four. *)
Definition binary_pad (states : list GroupState.t) : list GroupState.t :=
  let r := (length states mod 4)%nat in
  if (r =? 0)%nat then states else states ++ replicate (4 - r) GroupState.MISSING.

(** [for p in range(0, len(group_states), 4)] *)
Fixpoint binary_pack (states : list GroupState.t) : bytes :=
  match states with
  | s0 :: s1 :: s2 :: s3 :: states =>
      Z.lor (value s0) (Z.lor (Z.shiftl (value s1) 2)
        (Z.lor (Z.shiftl (value s2) 4) (Z.shiftl (value s3) 6)))
      :: binary_pack states
  | _ => []
  end.

Definition binary_encode (states : list GroupState.t) : result bytes :=
  mk_bytes (binary_pack (binary_pad states)).

(** [for o in range(0, len(data), 2)] *)
Fixpoint level_pairs (data : bytes) : result (list (option Z)) :=
  match data with
  | b0 :: b1 :: data =>
      v ← manchester_decode [b0; b1]; vs ← level_pairs data; Ok (v :: vs)
  | [b0] => v ← manchester_decode [b0]; Ok [v]
  | [] => Ok []
  end.

Definition level_decode (data : bytes) : result (list (option Z)) :=
  if Nat.even (length data) then level_pairs data else Raise ValueError.

(** [for i, state in enumerate(group_states): manchester_encode(state, o, i * 2)] *)
Fixpoint level_fill (i : nat) (states : list (option Z)) (o : bytes) : result bytes :=
  match states with
  | [] => Ok o
  | s :: states => o ← manchester_encode s o (i * 2); level_fill (S i) states o
  end.

Definition level_encode (states : list (option Z)) : result bytes :=
  level_fill 0 states (replicate (length states * 2) 0).

Definition report_encode (r : StatusReport) : result bytes :=
  match r with
  | BinaryStatusReport s => binary_encode s
  | LevelStatusReport s => level_encode s
  end.

(** What the wire can carry: whole bytes of states, levels that are bytes. *)
Definition report_ok (r : StatusReport) : Prop :=
  match r with
  | BinaryStatusReport s => (length s mod 4 = 0)%nat
  | LevelStatusReport s => Forall (fun v => from_option byte_ok True v) s
  end.

(** Reference encoding of one level. *)
Definition level_code (v : option Z) : bytes :=
  match manchester_encode_new v with Ok b => b | Raise _ => [] end.

(** ** Lemmas *)

Lemma index_of_Some x l n :
  index_of x l = Some n -> 0 <= n /\ nth (Z.to_nat n) l 0 = x.
Proof.
  revert n. induction l as [|y l IH]; simpl; [done|]. intros n.
  destruct (Z.eqb_spec y x) as [->|]; [by intros [= <-]|].
  destruct (index_of x l) as [m|]; [|done]. intros [= <-].
  destruct (IH m eq_refl) as [? <-]. split; [lia|].
  by replace (Z.to_nat (m + 1)) with (S (Z.to_nat m)) by lia.
Qed.

Lemma enum_two_bits c : exists s : GroupState.t,
  enum_call (Z.land c 0x3) = Ok s /\ value s = Z.land c 3.
Proof.
  assert (Z.land c 3 = 0 \/ Z.land c 3 = 1 \/ Z.land c 3 = 2 \/ Z.land c 3 = 3)
    as [->|[->|[->| ->]]].
  { change 3 with (Z.ones 2) at 1 2 3 4. rewrite !Z.land_ones by lia.
    pose proof (Z.mod_pos_bound c (2 ^ 2)). lia. }
  - by exists GroupState.MISSING.
  - by exists GroupState.ON.
  - by exists GroupState.OFF.
  - by exists GroupState.ERROR.
Qed.

(** Two-bit fields come apart again. *)
Lemma pack_unpack_states s0 s1 s2 s3 :
  binary_states
    (Z.lor (value s0) (Z.lor (Z.shiftl (value s1) 2)
      (Z.lor (Z.shiftl (value s2) 4) (Z.shiftl (value s3) 6)))) =
  Ok [s0; s1; s2; s3].
Proof. by destruct s0, s1, s2, s3. Qed.

Lemma pack_states_byte (s0 s1 s2 s3 : GroupState.t) :
  byte_ok (Z.lor (value s0) (Z.lor (Z.shiftl (value s1) 2)
      (Z.lor (Z.shiftl (value s2) 4) (Z.shiftl (value s3) 6)))).
Proof. apply (proj1 (byte_okb_spec _)). by destruct s0, s1, s2, s3. Qed.

Lemma binary_pad_length s : (length (binary_pad s) mod 4 = 0)%nat.
Proof.
  unfold binary_pad. destruct (Nat.eqb_spec (length s mod 4) 0); [done|].
  rewrite length_app, length_replicate.
  pose proof (Nat.mod_upper_bound (length s) 4).
  rewrite (Nat.div_mod_eq (length s) 4) at 1.
  replace (4 * (length s / 4) + length s mod 4 + (4 - length s mod 4))%nat
    with ((length s / 4 + 1) * 4)%nat by lia.
  by rewrite Nat.Div0.mod_mul.
Qed.

Lemma binary_pad_id s : (length s mod 4 = 0)%nat -> binary_pad s = s.
Proof. intros H. unfold binary_pad. by rewrite H. Qed.

(** Induction over a list four items at a time. *)
Lemma list_ind4 {A} (P : list A -> Prop) :
  P [] ->
  (forall a b c d l, P l -> P (a :: b :: c :: d :: l)) ->
  forall l, (length l mod 4 = 0)%nat -> P l.
Proof.
  intros H0 H4 l. induction l as [l IH] using (induction_ltof1 _ length).
  destruct l as [|a [|b [|c [|d l]]]]; try done. intros Hl.
  apply H4, IH; [unfold ltof; simpl; lia|].
  simpl length in Hl. replace (S (S (S (S (length l))))) with (length l + 1 * 4)%nat
    in Hl by lia. by rewrite Nat.Div0.mod_add in Hl.
Qed.

Lemma binary_pack_spec s :
  (length s mod 4 = 0)%nat ->
  bytes_ok (binary_pack s) /\ binary_decode (binary_pack s) = Ok s /\
  (4 * length (binary_pack s) = length s)%nat.
Proof.
  revert s. apply list_ind4; [by repeat constructor|].
  intros a b c d l (Hok & Hdec & Hlen). split; [|split].
  - constructor; [apply pack_states_byte|done].
  - unfold binary_decode in *. cbn [binary_pack mapM_result].
    rewrite pack_unpack_states. apply result_fmap_Ok in Hdec as (x & Hx & <-).
    simpl. by rewrite Hx.
  - simpl in *. lia.
Qed.

Lemma binary_encode_ok s :
  exists b, binary_encode s = Ok b /\ bytes_ok b /\
    binary_decode b = Ok (binary_pad s) /\
    (4 * length b = length (binary_pad s))%nat.
Proof.
  destruct (binary_pack_spec (binary_pad s) (binary_pad_length s))
    as (Hok & Hdec & Hlen).
  exists (binary_pack (binary_pad s)). unfold binary_encode.
  by rewrite mk_bytes_ok.
Qed.

Lemma binary_decode_ok data : exists s, binary_decode data = Ok s /\
  length s = (4 * length data)%nat.
Proof.
  unfold binary_decode. induction data as [|c data (s & Hs & Hl)]; [by exists []|].
  apply result_fmap_Ok in Hs as (ss & Hss & <-).
  destruct (enum_two_bits c) as (s0 & E0 & _).
  destruct (enum_two_bits (Z.shiftr c 2)) as (s1 & E1 & _).
  destruct (enum_two_bits (Z.shiftr c 4)) as (s2 & E2 & _).
  destruct (enum_two_bits (Z.shiftr c 6)) as (s3 & E3 & _).
  exists ([s0; s1; s2; s3] ++ foldr app [] ss). split.
  - assert (binary_states c = Ok [s0; s1; s2; s3]) as Hc.
    { unfold binary_states. by rewrite E0, E1, E2, E3. }
    cbn [mapM_result]. by rewrite Hc, Hss.
  - rewrite length_app, Hl. simpl. lia.
Qed.

Lemma manchester_new_spec v :
  byte_ok v ->
  exists b0 b1, manchester_encode_new (Some v) = Ok [b0; b1] /\
    byte_ok b0 /\ byte_ok b1 /\ manchester_decode [b0; b1] = Ok (Some v).
Proof.
  intros Hv.
  assert (match manchester_encode_new (Some v) with
    | Ok [b0; b1] => byte_okb b0 && byte_okb b1 &&
        bool_decide (manchester_decode [b0; b1] = Ok (Some v))
    | _ => false end = true) as H.
  { revert v Hv. apply byte_forall. vm_compute. reflexivity. }
  destruct (manchester_encode_new (Some v)) as [[|b0 [|b1 [|]]]|]; try done.
  apply andb_true_iff in H as [[? ?]%andb_true_iff ?%bool_decide_eq_true].
  exists b0, b1. by rewrite <- !byte_okb_spec.
Qed.

Lemma manchester_new_mask v :
  manchester_encode_new (Some v) = manchester_encode_new (Some (Z.land v 0xff)).
Proof.
  unfold manchester_encode_new, manchester_encode. simpl length.
  rewrite <- (Z.land_assoc v 255 255), Z.land_diag. done.
Qed.

Lemma level_code_spec v :
  exists b0 b1, level_code v = [b0; b1] /\ byte_ok b0 /\ byte_ok b1 /\
    manchester_decode [b0; b1] = Ok ((fun v => Z.land v 0xff) <$> v).
Proof.
  destruct v as [v|].
  - destruct (manchester_new_spec _ (land_ff_byte v)) as (b0 & b1 & E & ? & ? & ?).
    exists b0, b1. unfold level_code. by rewrite manchester_new_mask, E.
  - exists 0, 0. unfold byte_ok. split; [done|]. split; [lia|]. split; [lia|done].
Qed.

(** Writing one level at an even offset of a zeroed tail. *)
Lemma manchester_encode_at v pre post :
  manchester_encode v (pre ++ 0 :: 0 :: post) (length pre) =
    Ok (pre ++ level_code v ++ post).
Proof.
  unfold manchester_encode, level_code, manchester_encode_new, manchester_encode.
  rewrite !length_app. simpl length.
  rewrite (proj2 (Nat.ltb_ge _ _)) by lia. destruct v as [v|]; [|done].
  simpl. f_equal. rewrite insert_app_r_alt by lia.
  rewrite Nat.sub_diag. simpl. rewrite insert_app_r_alt by lia.
  by replace (length pre + 1 - length pre)%nat with 1%nat by lia.
Qed.

Lemma level_fill_spec states pre k :
  length pre = (k * 2)%nat ->
  level_fill k states (pre ++ replicate (length states * 2) 0) =
    Ok (pre ++ flat_map level_code states).
Proof.
  revert pre k. induction states as [|v states IH]; intros pre k Hpre; [done|].
  cbn [level_fill length]. rewrite <- Hpre.
  replace (S (length states) * 2)%nat with (S (S (length states * 2))) by lia.
  simpl replicate. rewrite manchester_encode_at. cbn [flat_map mbind result_bind].
  destruct (level_code_spec v) as (b0 & b1 & -> & _).
  rewrite !(assoc_L (++)). apply IH. rewrite length_app. simpl. lia.
Qed.

Lemma level_encode_flat states : level_encode states = Ok (flat_map level_code states).
Proof. by apply (level_fill_spec states []). Qed.

Lemma level_pairs_flat states :
  level_pairs (flat_map level_code states) =
    Ok (map (fmap (fun v => Z.land v 0xff)) states).
Proof.
  induction states as [|v states IH]; [done|]. simpl.
  destruct (level_code_spec v) as (b0 & b1 & -> & _ & _ & Hd).
  cbn [level_pairs app]. rewrite Hd. simpl. by rewrite IH.
Qed.

Lemma length_flat_level states :
  length (flat_map level_code states) = (2 * length states)%nat.
Proof.
  induction states as [|v states IH]; [done|]. simpl.
  destruct (level_code_spec v) as (b0 & b1 & -> & _). simpl. lia.
Qed.

Lemma flat_level_bytes states : bytes_ok (flat_map level_code states).
Proof.
  induction states as [|v states IH]; simpl; [constructor|].
  destruct (level_code_spec v) as (b0 & b1 & -> & ? & ? & _).
  by apply Forall_cons; split; [|apply Forall_cons; split].
Qed.

Lemma level_decode_flat states :
  level_decode (flat_map level_code states) =
    Ok (map (fmap (fun v => Z.land v 0xff)) states).
Proof.
  unfold level_decode. rewrite length_flat_level, Nat.even_mul.
  apply level_pairs_flat.
Qed.

Lemma map_mask_id states :
  Forall (fun v => from_option byte_ok True v) states ->
  map (fmap (fun v => Z.land v 0xff)) states = states.
Proof.
  induction 1 as [|[v|] l Hv Hl IH]; simpl; [done| |]; rewrite IH; [|done].
  by rewrite land_ff_id.
Qed.

(** ** Properties *)

(** Level coding: every byte has a two-byte code and decodes back from it; a
    missing group travels as two zero bytes; a pair of bytes is never read as
    a level it is not the code of; and if any single bit of a code is flipped
    in transit, the decoder reports the level as unknown instead of a wrong
    level. *)
Theorem manchester_coding v :
  byte_ok v ->
  exists b0 b1,
    manchester_encode_new (Some v) = Ok [b0; b1] /\
    manchester_encode_new None = Ok [0; 0] /\
    manchester_decode [0; 0] = Ok None /\
    manchester_decode [b0; b1] = Ok (Some v) /\
    (forall i, 0 <= i < 8 ->
       manchester_decode [Z.lxor b0 (Z.shiftl 1 i); b1] = Ok None /\
       manchester_decode [b0; Z.lxor b1 (Z.shiftl 1 i)] = Ok None).
Proof.
  intros Hv. destruct (manchester_new_spec v Hv) as (b0 & b1 & E & H0 & H1 & D).
  exists b0, b1. repeat (split; [done|]).
  assert (match manchester_encode_new (Some v) with
    | Ok [b0; b1] => forallb (fun i =>
        bool_decide (manchester_decode [Z.lxor b0 (Z.shiftl 1 i); b1] = Ok None) &&
        bool_decide (manchester_decode [b0; Z.lxor b1 (Z.shiftl 1 i)] = Ok None))
        (seqZ 0 8)
    | _ => false end = true) as Hflip.
  { clear E D. revert v Hv. apply byte_forall. vm_compute. reflexivity. }
  rewrite E in Hflip. rewrite forallb_forall in Hflip. intros i Hi.
  specialize (Hflip i). rewrite <- list_elem_of_In, elem_of_seqZ in Hflip.
  specialize (Hflip ltac:(lia)).
  by apply andb_true_iff in Hflip as [?%bool_decide_eq_true ?%bool_decide_eq_true].
Qed.

Example manchester_coding_witness :
  manchester_encode_new (Some 0x57) = Ok [0x95; 0x99] /\
  exists b0 b1, manchester_encode_new (Some 0x57) = Ok [b0; b1] /\
    manchester_decode [b0; b1] = Ok (Some 0x57).
Proof.
  split; [reflexivity|].
  destruct (manchester_coding 0x57) as (b0 & b1 & E & _ & _ & D & _).
  - unfold byte_ok. lia.
  - exists b0, b1. exact (conj E D).
Defined.

(** No pair of bytes is misread: when the decoder reports a level, the pair
    is exactly the code of that level. *)
Theorem manchester_decode_sound b0 b1 v :
  byte_ok b0 -> byte_ok b1 ->
  manchester_decode [b0; b1] = Ok (Some v) ->
  byte_ok v /\ manchester_encode_new (Some v) = Ok [b0; b1].
Proof.
  intros H0 H1 D.
  assert (forallb (fun b1 => match manchester_decode [b0; b1] with
    | Ok (Some v) => byte_okb v &&
        bool_decide (manchester_encode_new (Some v) = Ok [b0; b1])
    | _ => true end) (seqZ 0 256) = true) as H.
  { clear D. revert b0 H0. apply byte_forall. vm_compute. reflexivity. }
  pose proof (byte_forall _ H b1 H1) as Hb. cbv beta in Hb. rewrite D in Hb.
  by apply andb_true_iff in Hb as [?%byte_okb_spec ?%bool_decide_eq_true].
Qed.

Example manchester_decode_sound_witness :
  byte_ok 0xff /\ manchester_encode_new (Some 0xff) = Ok [0x55; 0x55].
Proof.
  apply (manchester_decode_sound 0x55 0x55);
    [unfold byte_ok; lia|unfold byte_ok; lia|reflexivity].
Defined.

(** Status reports survive the wire: a binary report comes back padded with
    [MISSING] to whole bytes, a level report with its levels reduced to bytes,
    and the buffer-filling loop of the level encoder writes exactly the codes
    of the levels one after the other. *)
Theorem report_roundtrip :
  (forall s, exists b, binary_encode s = Ok b /\ bytes_ok b /\
     binary_decode b = Ok (binary_pad s)) /\
  (forall s, exists b, level_encode s = Ok b /\ bytes_ok b /\
     b = flat_map level_code s /\
     level_decode b = Ok (map (fmap (fun v => Z.land v 0xff)) s)) /\
  (forall data, Nat.even (length data) = false ->
     level_decode data = Raise ValueError).
Proof.
  split; [|split].
  - intros s. destruct (binary_encode_ok s) as (b & ? & ? & ? & _). by exists b.
  - intros s. exists (flat_map level_code s). rewrite level_encode_flat.
    split; [done|]. split; [apply flat_level_bytes|].
    split; [done|apply level_decode_flat].
  - intros data H. unfold level_decode. by rewrite H.
Qed.
