(* ===== verification/Cal.v ===== *)
(** * Device management messages (CALs): [cbus/protocol/cal/*.py]

    Identify and recall requests, replies, extended and standard status
    reports, and the decoder [PointToPointPacket.decode_cal] that tells them
    apart. The sequence of CALs of a packet is an instance of [WireCodec]. *)

From S2P Require Import Prelude Common Report.
From stdpp Require Import options.

Local Open Scope Z_scope.

(** ** Data *)

(** [Union[ExtendedCAL, IdentifyCAL, ReplyCAL, RecallCAL]]. An attribute that
    [IdentifyAttribute] names is an [IntEnum] member, equal to its int. *)
Inductive AnyCAL :=
| IdentifyCAL (attribute : Z)
| RecallCAL (param count : Z)
| ReplyCAL (parameter : Z) (data : bytes)
| ExtendedCAL (externally_initated : bool) (child_application block_start : Z)
    (report : StatusReport).

#[export] Instance AnyCAL_eq_dec : EqDecision AnyCAL.
Proof. solve_decision. Defined.

(** A standard status CAL; [checksum] is only used when it is sent as a packet. *)
Record StandardCAL := {
  std_child_application : Z;
  std_block_start : Z;
  std_report : list GroupState.t;
  std_checksum : bool
}.

(** ** Encoders *)

Definition identify_encode (attribute : Z) : result bytes :=
  mk_bytes [value CAL.IDENTIFY; Z.land attribute 0xff].

Definition recall_encode (param count : Z) : result bytes :=
  mk_bytes [value CAL.RECALL; Z.land param 0xff; Z.land count 0xff].

(** The data is cut to the 30 bytes a reply can hold. *)
Definition reply_encode (parameter : Z) (data : bytes) : result bytes :=
  let parameter := Z.land parameter 0xff in
  let data := take 0x1e data in
  h ← mk_bytes [Z.lor (value CAL.REPLY) (len data + 1); parameter];
  Ok (h ++ data).

Definition coding_byte (externally_initated : bool) (report : StatusReport) : Z :=
  Z.lor (if externally_initated then 0x40 else 0)
        (Z.land (value (block_type report)) 0x7).

Definition extended_encode (externally_initated : bool)
    (child_application block_start : Z) (r : StatusReport) : result bytes :=
  report ← report_encode r;
  h ← mk_bytes [Z.lor (value CAL.EXTENDED_STATUS) (len report + 3);
                coding_byte externally_initated r;
                Z.land child_application 0xff;
                Z.land block_start 0xff];
  Ok (h ++ report).

Definition cal_encode (c : AnyCAL) : result bytes :=
  match c with
  | IdentifyCAL attribute => identify_encode attribute
  | RecallCAL param count => recall_encode param count
  | ReplyCAL parameter data => reply_encode parameter data
  | ExtendedCAL ext child start report => extended_encode ext child start report
  end.

Definition standard_encode (c : StandardCAL) : result bytes :=
  report ← binary_encode (std_report c);
  h ← mk_bytes [Z.lor (value CAL.STANDARD_STATUS) (len report + 3);
                Z.land (std_child_application c) 0xff;
                Z.land (std_block_start c) 0xff];
  Ok (h ++ report).

(** ** Decoders *)

(** [IdentifyCAL.decode_cal] and [RecallCAL.decode_cal]: the CAL and how many
    bytes of [data] it took. *)
Definition identify_decode (data : bytes) : result (AnyCAL * nat) :=
  attr_val ← item data 1; Ok (IdentifyCAL attr_val, 2%nat).

Definition recall_decode (data : bytes) : result (AnyCAL * nat) :=
  p ← item data 1; c ← item data 2; Ok (RecallCAL p c, 3%nat).

Definition reply_decode (data : bytes) : result AnyCAL :=
  p ← item data 0; Ok (ReplyCAL p (drop 1 data)).

Definition extended_decode (data : bytes) : result AnyCAL :=
  d0 ← item data 0;
  let externally_initiated := 0 <? Z.land d0 0x40 in
  let block_type := Z.land d0 0x7 in
  child_application ← item data 1;
  block_start ← item data 2;
  let payload := drop 3 data in
  report ←
    (if block_type =? value ExtendedCALType.BINARY
     then BinaryStatusReport <$> binary_decode payload
     else if block_type =? value ExtendedCALType.LEVEL
     then LevelStatusReport <$> level_decode payload
     else Raise NotImplementedError);
  Ok (ExtendedCAL externally_initiated child_application block_start report).

Definition standard_decode (data : bytes) : result StandardCAL :=
  child_application ← item data 0;
  block_start ← item data 1;
  report ← binary_decode (drop 2 data);
  Ok {| std_child_application := child_application;
        std_block_start := block_start;
        std_report := report; std_checksum := true |}.

(** [REQUESTS[cmd].decode_cal(data)] *)
Definition request_decode (cmd : Z) (data : bytes) : result (AnyCAL * nat) :=
  if cmd =? value CAL.IDENTIFY then identify_decode data
  else if cmd =? value CAL.RECALL then recall_decode data
  else Raise KeyError.

(** [PointToPointPacket.decode_cal] *)
Definition decode_cal (data : bytes) : result (AnyCAL * nat) :=
  cmd ← item data 0;
  if Z.land cmd 0xE0 =? value CAL.REPLY then
    let cal_end := (Z.to_nat (Z.land cmd 0x1F) + 1)%nat in
    if (length data <? cal_end)%nat then Raise ValueError
    else c ← reply_decode (slice 1 cal_end data); Ok (c, cal_end)
  else if Z.land cmd 0xE0 =? value CAL.STANDARD_STATUS then
    Raise NotImplementedError
  else if Z.land cmd 0xE0 =? value CAL.EXTENDED_STATUS then
    let cal_end := (Z.to_nat (Z.land cmd 0x1F) + 1)%nat in
    if (length data <? cal_end)%nat then Raise ValueError
    else c ← extended_decode (slice 1 cal_end data); Ok (c, cal_end)
  else request_decode cmd data.

(** One turn of [while data: cal, cal_len = decode_cal(data); ...]. *)
Definition cal_step (data : bytes) : result (loop_step AnyCAL) :=
  '(cal, cal_len) ← decode_cal data; Ok (Next (Some cal) (drop cal_len data)).

Definition decode_cals (data : bytes) : result (list AnyCAL) :=
  while_data cal_step data.

(** What a CAL must be for the wire to carry it unchanged. *)
Definition cal_ok (c : AnyCAL) : Prop :=
  match c with
  | IdentifyCAL a => byte_ok a
  | RecallCAL p n => byte_ok p /\ byte_ok n
  | ReplyCAL p d => byte_ok p /\ bytes_ok d /\ (length d <= 30)%nat
  | ExtendedCAL _ child start r =>
      byte_ok child /\ byte_ok start /\ report_ok r /\
      match r with
      | BinaryStatusReport s => (length s <= 112)%nat
      | LevelStatusReport s => (length s <= 14)%nat
      end
  end.

(** ** Lemmas *)

(** The header byte of a CAL with a length in its low five bits. *)
Lemma cal_header mask n :
  mask = 0x80 \/ mask = 0xe0 -> 0 <= n < 32 ->
  byte_ok (Z.lor mask n) /\ Z.land (Z.lor mask n) 0xE0 = mask /\
  Z.land (Z.lor mask n) 0x1F = n.
Proof.
  intros Hm Hn.
  assert (forallb (fun n => byte_okb (Z.lor mask n) &&
    (Z.land (Z.lor mask n) 0xE0 =? mask) && (Z.land (Z.lor mask n) 0x1F =? n))
    (seqZ 0 32) = true) as H by by destruct Hm as [-> | ->].
  rewrite forallb_forall in H. specialize (H n).
  rewrite <- list_elem_of_In, elem_of_seqZ in H. specialize (H ltac:(lia)).
  bool_hyps. by rewrite <- byte_okb_spec, <- !Z.eqb_eq.
Qed.

Lemma slice_mid {A} (h : A) (l r : list A) :
  slice 1 (length l + 1) (h :: l ++ r) = l.
Proof.
  unfold slice. simpl. replace (length l + 1 - 1)%nat with (length l) by lia.
  apply take_app_length.
Qed.

Lemma drop_after {A} (h : A) (l r : list A) :
  drop (length l + 1) (h :: l ++ r) = r.
Proof.
  replace (length l + 1)%nat with (S (length l)) by lia. simpl.
  apply drop_app_length.
Qed.

(** What a decoded header byte with a length in it leads to. *)
Lemma decode_cal_reply l r :
  (length l < 32)%nat ->
  decode_cal (Z.lor 0x80 (len l) :: l ++ r) =
    (c ← reply_decode l; Ok (c, (length l + 1)%nat)).
Proof.
  intros Hl. destruct (cal_header 0x80 (len l)) as (_ & H1 & H2);
    [by left|unfold len; lia|].
  unfold decode_cal. run_reads.
  rewrite H1, H2. change (0x80 =? value CAL.REPLY) with true. cbn iota zeta.
  unfold len. rewrite Nat2Z.id.
  rewrite (proj2 (Nat.ltb_ge _ _)) by (simpl; rewrite length_app; lia).
  by rewrite slice_mid.
Qed.

Lemma decode_cal_extended l r :
  (length l < 32)%nat ->
  decode_cal (Z.lor 0xe0 (len l) :: l ++ r) =
    (c ← extended_decode l; Ok (c, (length l + 1)%nat)).
Proof.
  intros Hl. destruct (cal_header 0xe0 (len l)) as (_ & H1 & H2);
    [by right|unfold len; lia|].
  unfold decode_cal. run_reads.
  rewrite H1, H2. change (0xe0 =? value CAL.REPLY) with false.
  change (0xe0 =? value CAL.STANDARD_STATUS) with false.
  change (0xe0 =? value CAL.EXTENDED_STATUS) with true. cbn iota zeta.
  unfold len. rewrite Nat2Z.id.
  rewrite (proj2 (Nat.ltb_ge _ _)) by (simpl; rewrite length_app; lia).
  by rewrite slice_mid.
Qed.

Lemma report_encode_ok r :
  report_ok r -> exists b, report_encode r = Ok b /\ bytes_ok b /\
    match r with
    | BinaryStatusReport s =>
        binary_decode b = Ok s /\ (4 * length b = length s)%nat
    | LevelStatusReport s =>
        level_decode b = Ok s /\ (length b = 2 * length s)%nat
    end.
Proof.
  destruct r as [s|s]; simpl; intros Hok.
  - destruct (binary_encode_ok s) as (b & E & Hb & D & L).
    rewrite binary_pad_id in D, L by done. by exists b.
  - exists (flat_map level_code s). rewrite level_encode_flat.
    split; [done|]. split; [apply flat_level_bytes|].
    rewrite level_decode_flat, map_mask_id by done.
    by rewrite length_flat_level.
Qed.

Lemma extended_payload ext child start r b :
  match r with
  | BinaryStatusReport s => binary_decode b = Ok s
  | LevelStatusReport s => level_decode b = Ok s
  end ->
  extended_decode (coding_byte ext r :: child :: start :: b) =
    Ok (ExtendedCAL ext child start r).
Proof.
  intros D. unfold extended_decode. run_reads. cbv zeta.
  change (drop 3 _) with b.
  assert ((0 <? Z.land (coding_byte ext r) 0x40) = ext) as -> by by destruct ext, r.
  assert (Z.land (coding_byte ext r) 0x7 = value (block_type r)) as ->
    by by destruct ext, r.
  destruct r as [s|s]; unfold block_type.
  - by rewrite Z.eqb_refl, D.
  - change (value ExtendedCALType.LEVEL =? value ExtendedCALType.BINARY) with false.
    by rewrite Z.eqb_refl, D.
Qed.

Lemma cal_roundtrip c :
  cal_ok c -> exists b, cal_encode c = Ok b /\ b <> [] /\ bytes_ok b /\
    forall rest, decode_cal (b ++ rest) = Ok (c, length b).
Proof.
  destruct c as [a|p n|p d|ext child start r]; simpl.
  - intros Ha. exists [0x21; a]. unfold identify_encode.
    rewrite land_ff_id, mk_bytes_ok by solve_bytes.
    split; [done|]. split; [done|]. split; [|done].
    solve_bytes.
  - intros [Hp Hn]. exists [0x1a; p; n]. unfold recall_encode.
    rewrite !land_ff_id, mk_bytes_ok by solve_bytes.
    split; [done|]. split; [done|]. split; [|done].
    solve_bytes.
  - intros (Hp & Hd & Hl). unfold reply_encode.
    rewrite take_ge, land_ff_id by done.
    destruct (cal_header 0x80 (len (p :: d))) as (Hh & _);
      [by left|unfold len; simpl; lia|].
    replace (len d + 1) with (len (p :: d)) by (unfold len; simpl; lia).
    change (value CAL.REPLY) with 0x80. rewrite mk_bytes_ok by solve_bytes.
    exists (Z.lor 0x80 (len (p :: d)) :: (p :: d)).
    split; [done|]. split; [done|]. split; [solve_bytes|].
    intros rest. change (?h :: ?l) with (h :: l) at 1.
    rewrite <- app_comm_cons, decode_cal_reply by (simpl; lia).
    unfold reply_decode. simpl. repeat f_equal. lia.
  - intros (Hc & Hs & Hr & Hl). unfold extended_encode.
    destruct (report_encode_ok r Hr) as (b & E & Hb & D).
    rewrite E. cbn [mbind result_bind]. rewrite !land_ff_id by done.
    assert (length b <= 28)%nat as Hlb by (destruct r; lia).
    set (body := coding_byte ext r :: child :: start :: b).
    replace (len b + 3) with (len body) by (unfold body, len; simpl; lia).
    destruct (cal_header 0xe0 (len body)) as (Hh & _);
      [by right|unfold len; simpl; lia|].
    assert (byte_ok (coding_byte ext r)) as Hcb.
    { apply (proj1 (byte_okb_spec _)). by destruct ext, r. }
    change (value CAL.EXTENDED_STATUS) with 0xe0.
    rewrite mk_bytes_ok by solve_bytes.
    exists (Z.lor 0xe0 (len body) :: body).
    split; [done|]. split; [done|]. split; [subst body; solve_bytes|].
    intros rest. rewrite <- app_comm_cons, decode_cal_extended by (simpl; lia).
    assert (extended_decode body = Ok (ExtendedCAL ext child start r)) as ->.
    { apply extended_payload. destruct r; tauto. }
    rewrite bind_Ok. repeat f_equal. simpl. lia.
Qed.

Lemma decode_cal_length data c n :
  decode_cal data = Ok (c, n) -> (1 <= n <= length data)%nat \/ (data <> [] /\ (1 <= n)%nat).
Proof.
  unfold decode_cal, request_decode, identify_decode, recall_decode.
  destruct data as [|cmd data]; [done|]. intros H. right. split; [done|].
  rewrite item_0, bind_Ok in H.
  repeat case_match; simplify_eq; try done;
    repeat match goal with
    | H : (_ ≫= _) = Ok _ |- _ => apply result_bind_Ok in H as (? & ? & ?)
    end; simplify_eq; lia.
Qed.

Lemma cal_step_consuming : consuming cal_step.
Proof.
  intros data o rest ([c n] & H & [= <- <-])%result_bind_Ok.
  apply decode_cal_length in H. rewrite length_drop.
  destruct data; simpl in *; [|lia]. destruct H as [?|[? ?]]; [lia|done].
Qed.

#[export] Program Instance cal_codec : WireCodec AnyCAL := {|
  wire_ok := cal_ok;
  wire_image := id;
  wire_encode := cal_encode;
  wire_step := cal_step
|}.
Next Obligation. exact cal_step_consuming. Qed.
Next Obligation.
  intros c Hc. destruct (cal_roundtrip c Hc) as (b & ? & ? & ? & Hdec).
  exists b. repeat (split; [done|]). intros rest. unfold cal_step.
  rewrite Hdec. cbn [mbind result_bind]. by rewrite drop_app_length.
Qed.
Next Obligation. done. Qed.

(** The python exceptions the CAL decoders raise. *)
Definition cal_exn (e : exn) : Prop :=
  e = IndexError \/ e = KeyError \/ e = ValueError \/ e = NotImplementedError.

Lemma enum_call_raise `{IntEnum A} z e :
  @enum_call A _ z = Raise e -> e = ValueError.
Proof. unfold enum_call, or_raise. case_match; congruence. Qed.

Lemma manchester_decode_raise b e : manchester_decode b = Raise e -> e = IndexError.
Proof. unfold manchester_decode. intros H. follow_result; by eapply item_raise. Qed.

Lemma level_pairs_raise data e : level_pairs data = Raise e -> e = IndexError.
Proof.
  induction data as [data IH] using (induction_ltof1 _ length).
  destruct data as [|b0 [|b1 data]]; cbn [level_pairs]; intros H; follow_result;
    try by eapply manchester_decode_raise.
  eapply IH; [|done]. unfold ltof. simpl. lia.
Qed.

Lemma extended_decode_raise data e : extended_decode data = Raise e -> cal_exn e.
Proof.
  unfold extended_decode, level_decode, cal_exn. cbv zeta. intros H. follow_result;
    repeat match goal with
    | H : item _ _ = Raise _ |- _ => apply item_raise in H
    | H : level_pairs _ = Raise _ |- _ => apply level_pairs_raise in H
    end; try (subst; tauto).
  destruct (binary_decode_ok (drop 3 data)) as (? & ? & _). congruence.
Qed.

Lemma decode_cal_raise data e : decode_cal data = Raise e -> cal_exn e.
Proof.
  unfold decode_cal, request_decode, reply_decode, identify_decode, recall_decode.
  cbv zeta. intros H. follow_result;
    repeat match goal with
    | H : item _ _ = Raise _ |- _ => apply item_raise in H
    | H : extended_decode _ = Raise _ |- _ => apply extended_decode_raise in H
    end; unfold cal_exn in *; subst; tauto.
Qed.

(** ** Properties *)

(** Every sequence of well-formed CALs survives the wire: it encodes to
    bytes, and the decoding loop of a packet reads exactly that sequence. *)
Theorem cals_roundtrip (cals : list AnyCAL) :
  Forall cal_ok cals ->
  exists b, encode_items cal_encode cals = Ok b /\ bytes_ok b /\
    decode_cals b = Ok cals.
Proof.
  intros H. destruct (@wire_items_roundtrip _ cal_codec cals H) as (b & ? & ? & Hd).
  unfold wire_image in Hd. simpl in Hd. rewrite map_id in Hd. by exists b.
Qed.

Definition cals_sample : list AnyCAL :=
  [IdentifyCAL 1; RecallCAL 0x10 4; ReplyCAL 1 [75; 69; 89];
   ExtendedCAL true 0x38 0 (LevelStatusReport [Some 255; None; Some 0x57])].

Example cals_roundtrip_witness :
  Forall cal_ok cals_sample /\
  exists b, encode_items cal_encode cals_sample = Ok b /\ bytes_ok b /\
    decode_cals b = Ok cals_sample.
Proof.
  assert (Forall cal_ok cals_sample) as H.
  { unfold cals_sample. repeat constructor; simpl; try lia; unfold byte_ok; lia. }
  split; [exact H|]. apply (cals_roundtrip cals_sample). exact H.
Defined.

(** Decoding the CALs of any bytes at all stops by itself: either with CALs,
    or with one of the four exceptions the decoders raise, never because the
    model ran out of steps. *)
Theorem decode_cals_total data :
  (exists cals, decode_cals data = Ok cals) \/
  (exists e, decode_cals data = Raise e /\ cal_exn e).
Proof.
  apply (while_data_outcome cal_step cal_exn); [exact cal_step_consuming|].
  intros d e [H|([? ?] & _ & H)]%result_bind_Raise; [|done].
  by eapply decode_cal_raise.
Qed.

(** The length field of a status message. In an extended status CAL it is
    the number of bytes that follow; a standard status CAL announces one byte
    more than it carries. *)
Theorem status_length_fields :
  (forall ext child start r b, cal_ok (ExtendedCAL ext child start r) ->
     cal_encode (ExtendedCAL ext child start r) = Ok b ->
     exists h body, b = h :: body /\ Z.land h 0x1F = len body) /\
  (forall c b, (length (binary_pad (std_report c)) <= 112)%nat ->
     standard_encode c = Ok b ->
     exists h body, b = h :: body /\ Z.land h 0x1F = len body + 1).
Proof.
  split.
  - intros ext child start r b (_ & _ & Hr & Hl) H. simpl in H.
    unfold extended_encode in H.
    destruct (report_encode_ok r Hr) as (rb & E & Hb & D). rewrite E in H.
    rewrite bind_Ok in H. apply result_bind_Ok in H as (h & Hh & [= <-]).
    apply mk_bytes_inv in Hh as [-> _].
    eexists _, _. split; [done|].
    assert (length rb <= 28)%nat by (destruct r; lia).
    destruct (cal_header 0xe0 (len rb + 3)) as (_ & _ & Hf);
      [by right|unfold len; lia|].
    change (value CAL.EXTENDED_STATUS) with 0xe0. rewrite Hf.
    unfold len. simpl. lia.
  - intros c b Hl H. unfold standard_encode in H.
    destruct (binary_encode_ok (std_report c)) as (rb & E & Hb & _ & L).
    rewrite E, bind_Ok in H. apply result_bind_Ok in H as (h & Hh & [= <-]).
    apply mk_bytes_inv in Hh as [-> _].
    eexists _, _. split; [done|].
    assert (forallb (fun n => Z.land (Z.lor 0xc0 n) 0x1F =? n) (seqZ 0 32) = true)
      as Hf by done.
    rewrite forallb_forall in Hf. specialize (Hf (len rb + 3)).
    rewrite <- list_elem_of_In, elem_of_seqZ in Hf.
    specialize (Hf ltac:(unfold len; lia)). apply Z.eqb_eq in Hf.
    change (value CAL.STANDARD_STATUS) with 0xc0. rewrite Hf.
    unfold len. simpl. lia.
Qed.
