(* ===== verification/Lighting.v ===== *)
(** * The lighting application: [cbus/protocol/application/lighting.py]

    The four lighting messages, their constructors' checks, the encoder and the
    decoding loop. [lighting_codec] is the application's promise to the packet
    that embeds its messages. *)

From S2P Require Import Prelude Common.
From stdpp Require Import options.

Local Open Scope Z_scope.

(** ** Data *)

(** The subclasses of [LightingSAL], with the fields their constructors set. *)
Inductive LightingSAL :=
| LightingRampSAL (group_address application_address duration level : Z)
| LightingOnSAL (group_address application_address : Z)
| LightingOffSAL (group_address application_address : Z)
| LightingTerminateRampSAL (group_address application_address : Z).

#[export] Instance LightingSAL_eq_dec : EqDecision LightingSAL.
Proof. solve_decision. Defined.

Definition lighting_group (s : LightingSAL) : Z :=
  match s with
  | LightingRampSAL g _ _ _ | LightingOnSAL g _ | LightingOffSAL g _
  | LightingTerminateRampSAL g _ => g
  end.

(** [LightingSAL.application] *)
Definition lighting_application (s : LightingSAL) : Z :=
  match s with
  | LightingRampSAL _ a _ _ | LightingOnSAL _ a | LightingOffSAL _ a
  | LightingTerminateRampSAL _ a => a
  end.

(** [range(Application.LIGHTING_FIRST, Application.LIGHTING_LAST + 1)] *)
Definition lighting_applications : list Z :=
  seqZ (value Application.LIGHTING_FIRST)
       (value Application.LIGHTING_LAST + 1 - value Application.LIGHTING_FIRST).

(** ** Constructors *)

(** [LightingSAL.__init__]: its checks, then the object. *)
Definition lighting_init (s : LightingSAL) : result LightingSAL :=
  _ ← require (byte_in (lighting_application s) lighting_applications) ValueError;
  _ ← check_ga (lighting_group s);
  Ok s.

(** ** Encoder *)

(** [encode] of each subclass; [super().encode()] re-checks the address. *)
Definition lighting_encode (s : LightingSAL) : result bytes :=
  match s with
  | LightingRampSAL g _ duration level =>
      if (level <? 0) || (255 <? level) then Raise ValueError
      else _ ← check_ga g;
           mk_bytes [value (duration_to_ramp_rate duration); g; level]
  | LightingOnSAL g _ => _ ← check_ga g; mk_bytes [value LightCommand.ON; g]
  | LightingOffSAL g _ => _ ← check_ga g; mk_bytes [value LightCommand.OFF; g]
  | LightingTerminateRampSAL g _ =>
      _ ← check_ga g; mk_bytes [value LightCommand.TERMINATE_RAMP; g]
  end.

(** ** Decoder *)

(** The classes that [_SAL_HANDLERS] maps command codes to. *)
Inductive lighting_handler := HOn | HOff | HTerminateRamp | HRamp.

Definition _SAL_HANDLERS : list (Z * lighting_handler) :=
  [(value LightCommand.ON, HOn); (value LightCommand.OFF, HOff);
   (value LightCommand.TERMINATE_RAMP, HTerminateRamp)] ++
  map (fun x => (x, HRamp)) LIGHT_RAMP_COMMANDS.

(** [LightingRampSAL.decode] *)
Definition ramp_decode (data : bytes) (command_code group_address application : Z)
    : result (option LightingSAL * bytes) :=
  duration ← ramp_rate_to_duration command_code;
  match data with
  | [] => Ok (None, data)
  | level :: data =>
      sal ← lighting_init (LightingRampSAL group_address application duration level);
      Ok (Some sal, data)
  end.

(** [_SAL_HANDLERS[command_code].decode(...)] *)
Definition lighting_decode (h : lighting_handler) (data : bytes)
    (command_code group_address application : Z)
    : result (option LightingSAL * bytes) :=
  match h with
  | HOn =>
      sal ← lighting_init (LightingOnSAL group_address application);
      Ok (Some sal, data)
  | HOff =>
      sal ← lighting_init (LightingOffSAL group_address application);
      Ok (Some sal, data)
  | HTerminateRamp =>
      sal ← lighting_init (LightingTerminateRampSAL group_address application);
      Ok (Some sal, data)
  | HRamp => ramp_decode data command_code group_address application
  end.

(** One turn of the loop of [LightingSAL.decode_sals]. *)
Definition lighting_step (application : Z) (data : bytes)
    : result (loop_step LightingSAL) :=
  match data with
  | command_code :: group_address :: data =>
      match dict_get _SAL_HANDLERS command_code with
      | None => Ok Break
      | Some h =>
          '(sal, data) ← lighting_decode h data command_code group_address application;
          Ok (Next sal data)
      end
  | _ => Ok Break
  end.

Definition lighting_decode_sals (data : bytes) (application : Z)
    : result (list LightingSAL) := while_data (lighting_step application) data.

(** ** Well-formed messages *)

(** What the constructor and the encoder both accept. *)
Definition lighting_valid (application : Z) (s : LightingSAL) : Prop :=
  lighting_application s = application /\
  byte_in application lighting_applications = true /\
  byte_ok (lighting_group s) /\
  match s with LightingRampSAL _ _ _ level => byte_ok level | _ => True end.

(** The message the receiver sees: the ramp duration is the one of the rate
    that was sent. *)
Definition on_wire (s : LightingSAL) : LightingSAL :=
  match s with
  | LightingRampSAL g a duration level =>
      match ramp_rate_to_duration (value (duration_to_ramp_rate duration)) with
      | Ok d => LightingRampSAL g a d level
      | Raise _ => s
      end
  | _ => s
  end.

(** A message the wire carries unchanged. *)
Definition lighting_ok (application : Z) (s : LightingSAL) : Prop :=
  lighting_valid application s /\ on_wire s = s.

(** ** Lemmas *)

Lemma lighting_init_ok app s :
  lighting_application s = app -> byte_in app lighting_applications = true ->
  byte_ok (lighting_group s) -> lighting_init s = Ok s.
Proof.
  intros <- Ha Hg. unfold lighting_init, require. rewrite Ha. simpl.
  by rewrite check_ga_ok.
Qed.

(** Every rate the encoder picks is a registered ramp command. *)
Lemma ramp_command_handler d :
  let c := value (duration_to_ramp_rate d) in
  byte_ok c /\ dict_get _SAL_HANDLERS c = Some HRamp /\
  exists d', ramp_rate_to_duration c = Ok d'.
Proof.
  cbv zeta. destruct (duration_to_ramp_rate_elem d) as [d' Hd].
  revert Hd. generalize (duration_to_ramp_rate d). intros cmd Hd.
  split; [|split; [|exists d'; by apply rate_durations]];
    revert Hd; unfold _LIGHT_RAMP_RATES; intros Hd;
    repeat (apply elem_of_cons in Hd as [[= -> ->]|Hd];
            [try apply byte_okb_spec; reflexivity|]);
    by apply not_elem_of_nil in Hd.
Qed.

(** One message: encoded, then read back by one turn of the loop. *)
Lemma lighting_wire app s :
  lighting_valid app s ->
  exists b, lighting_encode s = Ok b /\ b <> [] /\ bytes_ok b /\
    forall rest, lighting_step app (b ++ rest) = Ok (Next (Some (on_wire s)) rest).
Proof.
  intros (Happ & Hr & Hg & Hl).
  destruct s as [g a d l|g a|g a|g a]; unfold lighting_encode, on_wire;
    cbn [lighting_application lighting_group] in Happ, Hg; subst app.
  2-4: rewrite check_ga_ok, bind_Ok, mk_bytes_ok by solve_bytes;
    eexists; (split; [done|split; [done|split; [solve_bytes|]]]);
    intros rest; simpl; by rewrite (lighting_init_ok a).
  - destruct (ramp_command_handler d) as (Hc & Hh & d' & Hd').
    rewrite (proj2 (Z.ltb_ge l 0)), (proj2 (Z.ltb_ge 255 l)) by solve_byte.
    cbn [orb]. rewrite check_ga_ok, bind_Ok, mk_bytes_ok by solve_bytes.
    eexists. split; [done|]. split; [done|]. split; [solve_bytes|].
    intros rest. unfold lighting_step. cbn [Datatypes.app]. rewrite Hh.
    cbn [lighting_decode]. unfold ramp_decode. rewrite Hd', bind_Ok.
    by rewrite (lighting_init_ok a).
Qed.

Lemma on_wire_fixed app s :
  lighting_valid app s ->
  lighting_valid app (on_wire s) /\ on_wire (on_wire s) = on_wire s.
Proof.
  destruct s as [g a d l|g a|g a|g a]; try done. unfold on_wire.
  destruct (duration_to_ramp_rate_elem d) as [d' Hd].
  rewrite (rate_durations _ d' Hd). split; [done|].
  by rewrite (ramp_rate_fixed _ d' Hd), (rate_durations _ d' Hd).
Qed.

Lemma lighting_step_length app data o rest :
  lighting_step app data = Ok (Next o rest) -> (length rest + 2 <= length data)%nat.
Proof.
  destruct data as [|c [|g data]]; unfold lighting_step; try done.
  destruct (dict_get _SAL_HANDLERS c) as [h|]; [|done].
  intros ([s r] & H & [= <- <-])%result_bind_Ok.
  assert (length r <= length data)%nat; [|simpl; lia].
  destruct h; cbn [lighting_decode] in H;
    [apply result_bind_Ok in H as (? & _ & [= <- <-]); done..|].
  unfold ramp_decode in H. apply result_bind_Ok in H as (? & _ & H).
  destruct data as [|l data]; [by injection H as <- <-|].
  apply result_bind_Ok in H as (? & _ & [= <- <-]). simpl. lia.
Qed.

Lemma lighting_step_consuming app : consuming (lighting_step app).
Proof. intros data o rest H%lighting_step_length. lia. Qed.

(** What a lighting address promises to the packets that carry its messages. *)
#[export] Program Instance lighting_codec (app : Z) : WireCodec LightingSAL := {|
  wire_ok := lighting_valid app;
  wire_image := on_wire;
  wire_encode := lighting_encode;
  wire_step := lighting_step app
|}.
Next Obligation. exact lighting_step_consuming. Qed.
Next Obligation. exact lighting_wire. Qed.
Next Obligation. exact on_wire_fixed. Qed.

(** The registered handlers, read back. *)
Lemma handler_ramp c :
  dict_get _SAL_HANDLERS c = Some HRamp -> exists d, ramp_rate_to_duration c = Ok d.
Proof.
  intros H. apply dict_get_elem in H. unfold _SAL_HANDLERS in H.
  apply elem_of_app in H as [H|H].
  - repeat (apply elem_of_cons in H as [[=]|H]). by apply not_elem_of_nil in H.
  - apply list_elem_of_fmap in H as (x & [= <-] & Hx).
    assert (is_Ok (ramp_rate_to_duration c) = true) as Hok.
    { rewrite ramp_rate_is_command. by apply byte_in_spec. }
    destruct (ramp_rate_to_duration c) as [d|]; [by exists d|done].
Qed.

(** On bytes, at a lighting address, no message makes the decoder raise. *)
Lemma lighting_step_ok app data :
  byte_in app lighting_applications = true -> bytes_ok data ->
  exists r, lighting_step app data = Ok r /\
    match r with
    | Break => True
    | Next o rest => bytes_ok rest /\
        match o with Some s => lighting_ok app s | None => True end
    end.
Proof.
  intros Ha Hb. destruct data as [|c [|g data]]; [by eexists..|].
  apply Forall_cons in Hb as [Hc [Hg Hb]%Forall_cons]. unfold lighting_step.
  destruct (dict_get _SAL_HANDLERS c) as [h|] eqn:Eh; [|by eexists].
  destruct h; cbn [lighting_decode];
    [rewrite (lighting_init_ok app) by done; eexists; split; [done|];
     split; [done|]; done..|].
  destruct (handler_ramp c Eh) as [d Hd]. unfold ramp_decode. rewrite Hd, bind_Ok.
  destruct data as [|l data]; [by eexists|].
  apply Forall_cons in Hb as [Hl Hb].
  rewrite (lighting_init_ok app) by done. eexists. split; [done|].
  split; [done|]. split; [done|]. simpl.
  apply ramp_rate_inv in Hd as (cmd & Hcmd & <-).
  rewrite (ramp_rate_fixed cmd) by done. by rewrite (rate_durations cmd d).
Qed.

(** ** Properties *)

(** A lighting message with any ramp duration arrives as the same message
    with the duration of the rate that was sent, at least the one asked for up
    to the slowest rate, and every sequence of messages is read back in order. *)
Theorem lighting_roundtrip app (sals : list LightingSAL) :
  Forall (lighting_valid app) sals ->
  exists b, encode_items lighting_encode sals = Ok b /\ bytes_ok b /\
    lighting_decode_sals b app = Ok (map on_wire sals).
Proof.
  exact (@wire_items_roundtrip _ (lighting_codec app) sals).
Qed.

Definition lighting_sample : list LightingSAL :=
  [LightingOnSAL 1 0x38; LightingRampSAL 2 0x38 5 128; LightingOffSAL 255 0x38;
   LightingTerminateRampSAL 0 0x38].

Example lighting_roundtrip_witness :
  Forall (lighting_valid 0x38) lighting_sample /\
  exists b, encode_items lighting_encode lighting_sample = Ok b /\ bytes_ok b /\
    lighting_decode_sals b 0x38 = Ok (map on_wire lighting_sample).
Proof.
  assert (Forall (lighting_valid 0x38) lighting_sample) as H.
  { unfold lighting_sample. repeat constructor; simpl; lia. }
  split; [exact H|]. apply (lighting_roundtrip 0x38 lighting_sample). exact H.
Defined.

(** Decoding a lighting packet never raises, whatever its bytes: it stops at
    the first command it does not know, and what it returned until then are
    valid messages for the packet's application, which would be sent as the
    same messages again. *)
Theorem lighting_decode_safe app data :
  byte_in app lighting_applications = true -> bytes_ok data ->
  exists sals, lighting_decode_sals data app = Ok sals /\
    Forall (lighting_ok app) sals /\ (2 * length sals <= length data)%nat.
Proof.
  intros Ha. unfold lighting_decode_sals.
  induction data as [data IH] using (induction_ltof1 _ length). intros Hb.
  destruct data as [|x data]; [by exists []|].
  rewrite while_data_cons by (done || apply lighting_step_consuming).
  destruct (lighting_step_ok app (x :: data) Ha Hb) as (r & Hr & Hok).
  rewrite Hr, bind_Ok. destruct r as [|o rest]; [exists []; simpl; auto with lia|].
  pose proof (lighting_step_length _ _ _ _ Hr) as Hlen. destruct Hok as [Hrest Ho].
  destruct (IH rest) as (sals & -> & Hs & Hn); [unfold ltof; lia|done|].
  rewrite bind_Ok. eexists. split; [done|]. rewrite length_app.
  destruct o as [s|]; (split; [try constructor; done|simpl in Hlen |- *; lia]).
Qed.

Example lighting_decode_safe_witness :
  exists sals, lighting_decode_sals [0x79; 1; 0x02; 5; 0x80; 0x44; 9] 0x38 = Ok sals /\
    Forall (lighting_ok 0x38) sals /\ (2 * length sals <= 7)%nat.
Proof.
  apply (lighting_decode_safe 0x38 [0x79; 1; 0x02; 5; 0x80; 0x44; 9]);
    [reflexivity|]. apply forallb_byte_ok. reflexivity.
Defined.
