(* ===== verification/Enable.v ===== *)
(** * The enable control application: [cbus/protocol/application/enable.py] *)

From S2P Require Import Prelude Common.
From stdpp Require Import options.

Local Open Scope Z_scope.

(** ** Data and operations *)

(** The constructor stores its arguments unchecked. *)
Inductive EnableSAL :=
| EnableSetNetworkVariableSAL (variable value : Z).

#[export] Instance EnableSAL_eq_dec : EqDecision EnableSAL.
Proof. solve_decision. Defined.

Definition enable_encode (s : EnableSAL) : result bytes :=
  let '(EnableSetNetworkVariableSAL variable v) := s in
  let variable := Z.land variable 0xff in
  let v := Z.land v 0xff in
  mk_bytes [value EnableCommand.SET_NETWORK_VARIABLE; variable; v].

(** [EnableSetNetworkVariableSAL.decode] *)
Definition enable_decode (data : bytes) : result (EnableSAL * bytes) :=
  variable ← item data 0;
  v ← item data 1;
  Ok (EnableSetNetworkVariableSAL variable v, drop 2 data).

(** One turn of the loop of [EnableSAL.decode_sals]. *)
Definition enable_step (data : bytes) : result (loop_step EnableSAL) :=
  if (length data <? 3)%nat then Ok Break
  else
    command_code ← item data 0;
    let data := drop 1 data in
    if Z.land command_code 0x80 =? 0x80 then Ok Break
    else if negb (Z.land command_code 0x07 =? 2) then Ok Break
    else '(sal, data) ← enable_decode data; Ok (Next (Some sal) data).

Definition enable_decode_sals (data : bytes) : result (list EnableSAL) :=
  while_data enable_step data.

(** ** Lemmas *)

(** What the receiver of the message sees. *)
Definition enable_on_wire (s : EnableSAL) : EnableSAL :=
  let '(EnableSetNetworkVariableSAL variable v) := s in
  EnableSetNetworkVariableSAL (Z.land variable 0xff) (Z.land v 0xff).

Definition enable_ok (s : EnableSAL) : Prop :=
  let '(EnableSetNetworkVariableSAL variable v) := s in
  byte_ok variable /\ byte_ok v.

Lemma enable_on_wire_id s : enable_ok s -> enable_on_wire s = s.
Proof. destruct s as [variable v]. intros [? ?]. simpl. by rewrite !land_ff_id. Qed.

Lemma enable_wire s :
  exists b, enable_encode s = Ok b /\ b <> [] /\ bytes_ok b /\
    forall rest, enable_step (b ++ rest) = Ok (Next (Some (enable_on_wire s)) rest).
Proof.
  destruct s as [variable v]. unfold enable_encode.
  rewrite mk_bytes_ok by solve_bytes.
  eexists. split; [done|]. split; [done|]. split; [solve_bytes|]. done.
Qed.

(** A turn of the loop never raises, and reads messages of byte values. *)
Lemma enable_step_ok data :
  bytes_ok data ->
  exists r, enable_step data = Ok r /\
    match r with
    | Break => True
    | Next o rest => bytes_ok rest /\ (length rest + 3 <= length data)%nat /\
        exists s, o = Some s /\ enable_ok s
    end.
Proof.
  intros Hb. unfold enable_step, enable_decode.
  destruct data as [|c [|x [|y data]]]; try (by eexists).
  apply Forall_cons in Hb as [Hc [Hx [Hy Hb]%Forall_cons]%Forall_cons].
  rewrite item_0, bind_Ok. cbn [length Nat.ltb Nat.leb drop].
  destruct (Z.land c 0x80 =? 0x80); [by eexists|].
  destruct (Z.land c 0x07 =? 2); [|by eexists].
  eexists. split; [done|]. split; [done|]. split; [simpl; rewrite drop_0; lia|by eexists].
Qed.

Lemma enable_step_consuming : consuming enable_step.
Proof.
  intros data o rest. unfold enable_step, enable_decode.
  destruct data as [|c [|x [|y data]]]; try done. simpl.
  destruct (_ =? _); [done|]. destruct (_ =? _); [|done].
  intros [= _ <-]. rewrite drop_0. lia.
Qed.

#[export] Program Instance enable_codec : WireCodec EnableSAL := {|
  wire_ok := fun _ => True;
  wire_image := enable_on_wire;
  wire_encode := enable_encode;
  wire_step := enable_step
|}.
Next Obligation. exact enable_step_consuming. Qed.
Next Obligation. intros s _. apply enable_wire. Qed.
Next Obligation.
  intros [variable v] _. split; [done|]. apply enable_on_wire_id. split; apply land_ff_byte.
Qed.
