(* ===== verification/StatusRequest.v ===== *)
(** * The status request application:
      [cbus/protocol/application/status_request.py] *)

From S2P Require Import Prelude Common.
From stdpp Require Import options.

Local Open Scope Z_scope.

(** ** Data and operations *)

Record StatusRequestSAL := {
  sr_level_request : bool;
  sr_group_address : Z;
  sr_child_application : Z
}.

#[export] Instance StatusRequestSAL_eq_dec : EqDecision StatusRequestSAL.
Proof. solve_decision. Defined.

Definition _LEVEL_REQUEST : bytes := [0x73; 0x07].

Definition status_encode (s : StatusRequestSAL) : result bytes :=
  let child_application := Z.land (sr_child_application s) 0xff in
  let group_address := Z.land (sr_group_address s) 0xe0 in
  if sr_level_request s
  then b ← mk_bytes [child_application; group_address]; Ok (_LEVEL_REQUEST ++ b)
  else mk_bytes [0x7a; child_application; group_address].

(** One turn of the loop of [StatusRequestSAL.decode_sals]. A message that is
    too short only causes a warning, and then an [IndexError]. *)
Definition status_step (data : bytes) : result (loop_step StatusRequestSAL) :=
  d0 ← item data 0;
  '(data, level_request) ←
    (if (d0 =? 0x7a) || (d0 =? 0xfa) then Ok (drop 1 data, false)
     else if startswith _LEVEL_REQUEST data then Ok (drop 2 data, true)
     else Raise NotImplementedError);
  child_application ← item data 0;
  group_address ← item data 1;
  let data := drop 2 data in
  if negb (Z.land group_address 0x1f =? 0) then Raise ValueError
  else Ok (Next (Some {| sr_level_request := level_request;
                         sr_group_address := group_address;
                         sr_child_application := child_application |}) data).

Definition status_decode_sals (data : bytes) : result (list StatusRequestSAL) :=
  while_data status_step data.

(** ** Lemmas *)

(** The receiver sees the block of 32 groups that holds the address. *)
Definition status_on_wire (s : StatusRequestSAL) : StatusRequestSAL :=
  {| sr_level_request := sr_level_request s;
     sr_group_address := Z.land (sr_group_address s) 0xe0;
     sr_child_application := Z.land (sr_child_application s) 0xff |}.

Definition status_ok (s : StatusRequestSAL) : Prop :=
  byte_ok (sr_child_application s) /\ byte_ok (sr_group_address s) /\
  Z.land (sr_group_address s) 0x1f = 0.

Lemma land_e0 g : byte_ok (Z.land g 0xe0) /\ Z.land (Z.land g 0xe0) 0x1f = 0.
Proof.
  split.
  - replace (Z.land g 0xe0) with (Z.land (Z.land g 0xff) 0xe0)
      by by rewrite <- Z.land_assoc.
    apply byte_okb_spec.
    by_bytes (Z.land g 0xff) (land_ff_byte g) (fun b => byte_okb (Z.land b 0xe0)).
  - by rewrite <- Z.land_assoc, Z.land_0_r.
Qed.

Lemma block_aligned g : byte_ok g -> Z.land g 0x1f = 0 -> Z.land g 0xe0 = g.
Proof.
  intros Hg H.
  assert (negb (Z.land g 0x1f =? 0) || (Z.land g 0xe0 =? g) = true) as E.
  { by_bytes g Hg (fun b => negb (Z.land b 0x1f =? 0) || (Z.land b 0xe0 =? b)). }
  rewrite H in E. by apply Z.eqb_eq in E.
Qed.

Lemma status_on_wire_id s : status_ok s -> status_on_wire s = s.
Proof.
  destruct s as [l g c]. intros (Hc & Hg & H). unfold status_on_wire. simpl in *.
  by rewrite block_aligned, land_ff_id.
Qed.

Lemma status_wire s :
  exists b, status_encode s = Ok b /\ b <> [] /\ bytes_ok b /\
    forall rest, status_step (b ++ rest) = Ok (Next (Some (status_on_wire s)) rest).
Proof.
  destruct (land_e0 (sr_group_address s)) as [Hb He].
  unfold status_encode, status_on_wire, _LEVEL_REQUEST.
  destruct (sr_level_request s); rewrite mk_bytes_ok by solve_bytes;
    (eexists; split; [done|]; split; [done|]; split; [solve_bytes|]);
    intros rest; unfold status_step; simpl; run_reads; by rewrite He.
Qed.

(** The exceptions of the decoder. *)
Definition status_exn (e : exn) : Prop :=
  e = IndexError \/ e = NotImplementedError \/ e = ValueError.

Lemma status_step_raise data e : status_step data = Raise e -> status_exn e.
Proof.
  unfold status_step, status_exn. cbv zeta. intros H. follow_result;
    repeat match goal with
    | H : item _ _ = Raise _ |- _ => apply item_raise in H
    end; subst; tauto.
Qed.

(** What the last two reads of the body leave. *)
Lemma status_read l c g b :
  item l 0 = Ok c -> item l 1 = Ok g -> Z.land g 0x1f = 0 ->
  (length (drop 2 l) + 2 <= length l)%nat /\
  (bytes_ok l -> bytes_ok (drop 2 l) /\
     status_ok {| sr_level_request := b; sr_group_address := g;
                  sr_child_application := c |}).
Proof.
  intros Hc Hg He. destruct l as [|c' [|g' l]]; [discriminate Hc|discriminate Hg|].
  injection Hc as ->. injection Hg as ->. simpl. rewrite drop_0.
  split; [lia|]. by intros [? [? ?]%Forall_cons]%Forall_cons.
Qed.

Lemma status_step_inv data o rest :
  status_step data = Ok (Next o rest) ->
  (length rest + 3 <= length data)%nat /\
  (bytes_ok data -> bytes_ok rest /\ exists s, o = Some s /\ status_ok s).
Proof.
  intros H. unfold status_step in H. cbv zeta in H.
  destruct data as [|d0 data]; [done|].
  follow_result; injection H as <- <-;
    match goal with E : Ok _ = Ok (?l, ?b) |- _ => injection E as <- <- end;
    bool_hyps;
    (edestruct status_read as [Hlen Hbytes]; [eassumption|eassumption|by apply Z.eqb_eq|]).
  all: split; [rewrite !length_drop in *; simpl in *; lia|]; intros Hb;
    first [destruct (Hbytes (Forall_drop _ 1 _ Hb)) as [? ?]
          |destruct (Hbytes (Forall_drop _ 2 _ Hb)) as [? ?]];
    split; [done|by eexists].
Qed.

Lemma status_step_consuming : consuming status_step.
Proof. intros data o rest [H _]%status_step_inv. lia. Qed.

#[export] Program Instance status_codec : WireCodec StatusRequestSAL := {|
  wire_ok := fun _ => True;
  wire_image := status_on_wire;
  wire_encode := status_encode;
  wire_step := status_step
|}.
Next Obligation. exact status_step_consuming. Qed.
Next Obligation. intros s _. apply status_wire. Qed.
Next Obligation.
  intros s _. split; [done|]. apply status_on_wire_id.
  destruct (land_e0 (sr_group_address s)). split; [apply land_ff_byte|done].
Qed.
