(* ===== verification/Temperature.v ===== *)
(** * The temperature broadcast application:
      [cbus/protocol/application/temperature.py]

    A temperature is a python float. The code compares it with constants,
    multiplies it by 4 and divides a byte by 4.0: all exact on binary floats, so
    a finite float is modelled by the rational it stands for, up to [==]. *)

From S2P Require Import Prelude Common.
From Stdlib Require Import QArith Qround Lqa.
From stdpp Require Import options.

Local Open Scope Z_scope.
#[local] Obligation Tactic := idtac.

(** ** Data and operations *)

(** The constructor stores its arguments unchecked. *)
Inductive TemperatureSAL :=
| TemperatureBroadcastSAL (group_address : Z) (temperature : Q).

(** [int(q)] of a float that is not negative. *)
Definition py_int (q : Q) : Z := Qfloor q.

Definition temperature_encode (s : TemperatureSAL) : result bytes :=
  let '(TemperatureBroadcastSAL group_address temperature) := s in
  if negb (Qle_bool 0 temperature && Qle_bool temperature (6375 # 100))
  then Raise ValueError
  else
    _ ← check_ga group_address;
    mk_bytes [TEMPERATURE_BROADCAST; group_address; py_int (temperature * 4)].

(** [TemperatureBroadcastSAL.decode] *)
Definition temperature_decode (data : bytes) (group_address : Z)
    : result (TemperatureSAL * bytes) :=
  d0 ← item data 0;
  Ok (TemperatureBroadcastSAL group_address (d0 # 4), drop 1 data).

(** One turn of the loop of [TemperatureSAL.decode_sals]. *)
Definition temperature_step (data : bytes) : result (loop_step TemperatureSAL) :=
  if (length data <? 3)%nat then Ok Break
  else
    command_code ← item data 0;
    group_address ← item data 1;
    let data := drop 2 data in
    if Z.land command_code 0x80 =? 0x80 then Ok Break
    else if negb (Z.land command_code 0x07 =? 2) then Ok Break
    else
      '(sal, data) ← temperature_decode data group_address;
      Ok (Next (Some sal) data).

Definition temperature_decode_sals (data : bytes) : result (list TemperatureSAL) :=
  while_data temperature_step data.

(** ** Equality of messages *)

(** Two messages are the same when their floats are. *)
Definition temperature_eq (s1 s2 : TemperatureSAL) : Prop :=
  match s1, s2 with
  | TemperatureBroadcastSAL g1 t1, TemperatureBroadcastSAL g2 t2 =>
      g1 = g2 /\ (t1 == t2)%Q
  end.

#[export] Instance temperature_eq_equiv : Equivalence temperature_eq.
Proof.
  split.
  - intros [g t]. by split.
  - intros [g1 t1] [g2 t2] [-> H]. split; [done|by symmetry].
  - intros [g1 t1] [g2 t2] [g3 t3] [-> H1] [-> H2].
    split; [done|by transitivity t2].
Qed.

(** The encoder does not see how a float is written. *)
#[export] Instance temperature_encode_proper :
  Proper (temperature_eq ==> eq) temperature_encode.
Proof.
  intros [g1 t1] [g2 t2] [-> H]. unfold temperature_encode, py_int.
  assert (Qfloor (t1 * 4) = Qfloor (t2 * 4)) as -> by by rewrite H.
  by rewrite H.
Qed.

(** ** Lemmas *)

(** A temperature the wire carries unchanged: a number of quarter degrees. *)
Definition temperature_ok (s : TemperatureSAL) : Prop :=
  let '(TemperatureBroadcastSAL g t) := s in
  byte_ok g /\ exists n, byte_ok n /\ t = (n # 4)%Q.

(** A temperature the encoder accepts. *)
Definition temperature_valid (s : TemperatureSAL) : Prop :=
  let '(TemperatureBroadcastSAL g t) := s in
  byte_ok g /\ (0 <= t)%Q /\ (t <= 6375 # 100)%Q.

(** The receiver sees the temperature rounded down to a quarter degree. *)
Definition temperature_on_wire (s : TemperatureSAL) : TemperatureSAL :=
  let '(TemperatureBroadcastSAL g t) := s in
  TemperatureBroadcastSAL g (py_int (t * 4) # 4).

Lemma quarter_bounds t :
  (0 <= t)%Q -> (t <= 6375 # 100)%Q ->
  byte_ok (py_int (t * 4)) /\
  (py_int (t * 4) # 4 <= t)%Q /\ (t < (py_int (t * 4) # 4) + (1 # 4))%Q.
Proof.
  intros H0 H1. unfold py_int.
  pose proof (Qfloor_le (t * 4)) as Hl. pose proof (Qlt_floor (t * 4)) as Hu.
  set (n := Qfloor (t * 4)) in *.
  assert (n # 4 == inject_Z n * (1 # 4))%Q as Hn.
  { unfold Qeq. simpl. lia. }
  assert (inject_Z (n + 1) == inject_Z n + 1)%Q as Hn1.
  { by rewrite inject_Z_plus. }
  rewrite Hn. rewrite Hn1 in Hu. split; [|split; lra].
  split.
  - assert (inject_Z (-1) < inject_Z n)%Q as H by (change (inject_Z (-1)) with (-1 # 1)%Q; lra).
    rewrite <- Zlt_Qlt in H. lia.
  - assert (inject_Z n < inject_Z 256)%Q as H by (change (inject_Z 256) with (256 # 1)%Q; lra).
    by rewrite <- Zlt_Qlt in H.
Qed.

Lemma py_int_quarter n : py_int ((n # 4) * 4) = n.
Proof.
  unfold py_int. assert ((n # 4) * 4 == inject_Z n)%Q as ->.
  { unfold Qeq. simpl. lia. }
  apply Qfloor_Z.
Qed.

Lemma temperature_wire g t :
  byte_ok g -> (0 <= t)%Q -> (t <= 6375 # 100)%Q ->
  exists b, temperature_encode (TemperatureBroadcastSAL g t) = Ok b /\ b <> [] /\
    bytes_ok b /\
    forall rest, temperature_step (b ++ rest) =
      Ok (Next (Some (temperature_on_wire (TemperatureBroadcastSAL g t))) rest).
Proof.
  intros Hg H0 H1. destruct (quarter_bounds t H0 H1) as [Hn _].
  unfold temperature_encode.
  rewrite (proj2 (Qle_bool_iff 0 t) H0), (proj2 (Qle_bool_iff _ _) H1).
  cbn [negb andb]. unfold TEMPERATURE_BROADCAST.
  rewrite check_ga_ok, bind_Ok, mk_bytes_ok by solve_bytes.
  eexists. split; [done|]. split; [done|]. split; [solve_bytes|]. done.
Qed.

Lemma temperature_step_ok data :
  bytes_ok data ->
  exists r, temperature_step data = Ok r /\
    match r with
    | Break => True
    | Next o rest => bytes_ok rest /\ (length rest + 3 <= length data)%nat /\
        exists s, o = Some s /\ temperature_ok s
    end.
Proof.
  intros Hb. unfold temperature_step, temperature_decode.
  destruct data as [|c [|x [|y data]]]; try (by eexists).
  apply Forall_cons in Hb as [Hc [Hx [Hy Hb]%Forall_cons]%Forall_cons].
  simpl.
  destruct (Z.land c 0x80 =? 0x80); [by eexists|].
  destruct (Z.land c 0x07 =? 2); [|by eexists].
  eexists. split; [done|]. rewrite drop_0. split; [done|].
  split; [simpl; lia|]. eexists. split; [done|]. split; [done|]. by exists y.
Qed.

Lemma temperature_step_consuming : consuming temperature_step.
Proof.
  intros data o rest. unfold temperature_step, temperature_decode.
  destruct data as [|c [|x [|y data]]]; try done. simpl.
  destruct (_ =? _); [done|]. destruct (_ =? _); [|done].
  intros [= _ <-]. rewrite drop_0. lia.
Qed.

#[export] Program Instance temperature_codec : WireCodec TemperatureSAL := {|
  wire_ok := temperature_valid;
  wire_image := temperature_on_wire;
  wire_encode := temperature_encode;
  wire_step := temperature_step
|}.
Next Obligation. exact temperature_step_consuming. Qed.
Next Obligation. intros [g t] (Hg & H0 & H1). by apply temperature_wire. Qed.
Next Obligation.
  intros [g t] (Hg & H0 & H1). destruct (quarter_bounds t H0 H1) as (Hn & Hl & _).
  unfold temperature_valid, temperature_on_wire. rewrite py_int_quarter.
  split; [|done]. split; [done|].
  unfold byte_ok in Hn. unfold Qle. cbn [Qnum Qden]. lia.
Qed.

(** ** Properties *)

(** A broadcast temperature from 0 to 63.75 degrees arrives rounded down to
    the quarter of a degree, for the same group, whatever follows it on the
    wire; any other temperature is refused before its address is looked at. *)
Theorem temperature_resolution g t :
  byte_ok g ->
  if Qle_bool 0 t && Qle_bool t (6375 # 100) then
    exists b q, temperature_encode (TemperatureBroadcastSAL g t) = Ok b /\
      (forall rest, temperature_step (b ++ rest) =
         Ok (Next (Some (TemperatureBroadcastSAL g q)) rest)) /\
      (q <= t)%Q /\ (t < q + (1 # 4))%Q
  else temperature_encode (TemperatureBroadcastSAL g t) = Raise ValueError.
Proof.
  intros Hg. destruct (Qle_bool 0 t && Qle_bool t (6375 # 100)) eqn:E.
  - apply andb_true_iff in E as [H0%Qle_bool_iff H1%Qle_bool_iff].
    destruct (temperature_wire g t) as (b & Hb & _ & _ & Hs); [done..|].
    exists b, (py_int (t * 4) # 4)%Q. split; [done|]. split; [done|].
    by apply quarter_bounds.
  - unfold temperature_encode. by rewrite E.
Qed.

Example temperature_resolution_witness :
  exists b q, temperature_encode (TemperatureBroadcastSAL 3 (221 # 10)) = Ok b /\
    (forall rest, temperature_step (b ++ rest) =
       Ok (Next (Some (TemperatureBroadcastSAL 3 q)) rest)) /\
    (q <= 221 # 10)%Q /\ (221 # 10 < q + (1 # 4))%Q.
Proof.
  apply (temperature_resolution 3 (221 # 10)). unfold byte_ok. lia.
Defined.
