(* ===== verification/Clock.v ===== *)
(** * The clock application: [cbus/protocol/application/clock.py]

    Dates, times and refresh requests. [datetime.date] and [datetime.time] are
    modelled with the checks of their constructors and [date.weekday]. *)

From S2P Require Import Prelude Common Hex.
From stdpp Require Import options.

Local Open Scope Z_scope.

(** ** [datetime.date] and [datetime.time] *)

Record date := { year : Z; month : Z; day : Z }.
Record time := { hour : Z; minute : Z; second : Z; microsecond : Z }.

#[export] Instance date_eq_dec : EqDecision date.
Proof. solve_decision. Defined.
#[export] Instance time_eq_dec : EqDecision time.
Proof. solve_decision. Defined.

Definition is_leap (y : Z) : bool :=
  (y mod 4 =? 0) && (negb (y mod 100 =? 0) || (y mod 400 =? 0)).

Definition days_in_month (y m : Z) : Z :=
  if m =? 2 then (if is_leap y then 29 else 28)
  else if (m =? 4) || (m =? 6) || (m =? 9) || (m =? 11) then 30 else 31.

Definition days_before_month (y m : Z) : Z :=
  sumZ (map (days_in_month y) (seqZ 1 (m - 1))).

Definition days_before_year (y : Z) : Z :=
  let y := y - 1 in y * 365 + y / 4 - y / 100 + y / 400.

Definition toordinal (d : date) : Z :=
  days_before_year (year d) + days_before_month (year d) (month d) + day d.

(** Monday is 0. *)
Definition weekday (d : date) : Z := (toordinal d + 6) mod 7.

Definition date_valid (d : date) : bool :=
  (1 <=? year d) && (year d <=? 9999) && (1 <=? month d) && (month d <=? 12) &&
  (1 <=? day d) && (day d <=? days_in_month (year d) (month d)).

Definition time_valid (t : time) : bool :=
  (0 <=? hour t) && (hour t <? 24) && (0 <=? minute t) && (minute t <? 60) &&
  (0 <=? second t) && (second t <? 60) &&
  (0 <=? microsecond t) && (microsecond t <? 1000000).

(** [date(year, month, day)] and [time(hour, minute, second)] *)
Definition date_call (y m d : Z) : result date :=
  let v := {| year := y; month := m; day := d |} in
  if date_valid v then Ok v else Raise ValueError.

Definition time_call (h m s : Z) : result time :=
  let v := {| hour := h; minute := m; second := s; microsecond := 0 |} in
  if time_valid v then Ok v else Raise ValueError.

(** ** Data *)

(** The [val] of a [ClockUpdateSAL]: [is_time] or [is_date]. *)
Inductive clock_val :=
| VDate (d : date)
| VTime (t : time).

Inductive ClockSAL :=
| ClockUpdateSAL (val : clock_val)
| ClockRequestSAL.

#[export] Instance clock_val_eq_dec : EqDecision clock_val.
Proof. solve_decision. Defined.
#[export] Instance ClockSAL_eq_dec : EqDecision ClockSAL.
Proof. solve_decision. Defined.

(** The argument of [clock_update_sal]. *)
Inductive clock_arg :=
| ADate (d : date)
| ATime (t : time)
| ADatetime (d : date) (t : time)
| AOther.

Definition clock_update_sal (val : clock_arg) : result (list ClockSAL) :=
  match val with
  | ADatetime d t => Ok [ClockUpdateSAL (VDate d); ClockUpdateSAL (VTime t)]
  | ADate d => Ok [ClockUpdateSAL (VDate d)]
  | ATime t => Ok [ClockUpdateSAL (VTime t)]
  | AOther => Raise TypeError
  end.

(** ** Encoder *)

(** [struct.pack] of the fields after the first: each a [B]. *)
Definition pack_B (l : list Z) : result bytes :=
  if forallb byte_okb l then Ok l else Raise StructError.

Definition pack_HB (h : Z) (l : list Z) : result bytes :=
  if (0 <=? h) && (h <? 65536) then b ← pack_B l; Ok (pack_H h ++ b)
  else Raise StructError.

Definition clock_update_encode (val : clock_val) : result bytes :=
  '(val, attr) ←
    match val with
    | VTime t => v ← pack_B [hour t; minute t; second t; 255];
                 Ok (v, value ClockAttribute.TIME)
    | VDate d => v ← pack_HB (year d) [month d; day d; weekday d];
                 Ok (v, value ClockAttribute.DATE)
    end;
  h ← mk_bytes [Z.lor 0x08 (len val + 1); attr];
  Ok (h ++ val).

Definition clock_encode (s : ClockSAL) : result bytes :=
  match s with
  | ClockUpdateSAL val => clock_update_encode val
  | ClockRequestSAL => mk_bytes [value ClockCommand.REQUEST_REFRESH; 0x03]
  end.

(** ** Decoder *)

(** [ClockUpdateSAL.decode] *)
Definition clock_update_decode (data : bytes) (command_code : Z)
    : result (option ClockSAL * bytes) :=
  variable ← item data 0;
  let data_length := Z.to_nat (Z.land command_code 0x07) in
  let val := slice 1 data_length data in
  let data := drop data_length data in
  if variable =? value ClockAttribute.DATE then
    if negb (data_length =? 6)%nat then Ok (None, data)
    else
      match val with
      | [y1; y0; month; day; dow] =>
          d ← date_call (unpack_H y1 y0) month day;
          Ok (Some (ClockUpdateSAL (VDate d)), data)
      | _ => Raise StructError
      end
  else if variable =? value ClockAttribute.TIME then
    if negb (data_length =? 5)%nat then Ok (None, data)
    else
      match val with
      | [hour; minute; second; dst] =>
          t ← time_call hour minute second;
          Ok (Some (ClockUpdateSAL (VTime t)), data)
      | _ => Raise StructError
      end
  else Ok (None, drop data_length data).

(** [ClockRequestSAL.decode] *)
Definition clock_request_decode (data : bytes) : result (option ClockSAL * bytes) :=
  argument ← item data 0;
  let data := drop 1 data in
  if negb (argument =? 0x03) then Ok (None, data)
  else Ok (Some ClockRequestSAL, data).

(** One turn of the loop of [ClockSAL.decode_sals]. *)
Definition clock_step (data : bytes) : result (loop_step ClockSAL) :=
  command_code ← item data 0;
  let data := drop 1 data in
  if Z.land command_code 0x80 =? 0x80 then Ok Break
  else if negb (Z.land command_code 0xE0 =? 0) then Ok Break
  else if Z.land command_code 0xf8 =? value ClockCommand.UPDATE_NETWORK_VARIABLE then
    '(sal, data) ← clock_update_decode data command_code; Ok (Next sal data)
  else if command_code =? value ClockCommand.REQUEST_REFRESH then
    '(sal, data) ← clock_request_decode data; Ok (Next sal data)
  else Ok Break.

Definition clock_decode_sals (data : bytes) : result (list ClockSAL) :=
  while_data clock_step data.

(** ** Well-formed messages *)

Definition clock_valid (s : ClockSAL) : Prop :=
  match s with
  | ClockUpdateSAL (VDate d) => date_valid d = true
  | ClockUpdateSAL (VTime t) => time_valid t = true
  | ClockRequestSAL => True
  end.

(** The receiver does not see fractions of a second. *)
Definition clock_on_wire (s : ClockSAL) : ClockSAL :=
  match s with
  | ClockUpdateSAL (VTime t) =>
      ClockUpdateSAL (VTime {| hour := hour t; minute := minute t;
                               second := second t; microsecond := 0 |})
  | _ => s
  end.

Definition clock_ok (s : ClockSAL) : Prop := clock_valid s /\ clock_on_wire s = s.

Example weekday_2024_02_29 :
  weekday {| year := 2024; month := 2; day := 29 |} = 3.
Proof. reflexivity. Qed.

(** ** Lemmas *)

Lemma days_in_month_bound y m : 28 <= days_in_month y m <= 31.
Proof. unfold days_in_month. repeat case_match; lia. Qed.

Lemma weekday_bound d : 0 <= weekday d < 7.
Proof. apply Z.mod_pos_bound. lia. Qed.

Lemma date_valid_bounds d :
  date_valid d = true ->
  1 <= year d <= 9999 /\ 1 <= month d <= 12 /\ 1 <= day d <= 31.
Proof.
  unfold date_valid. intros H. bool_hyps.
  pose proof (days_in_month_bound (year d) (month d)). lia.
Qed.

Lemma time_valid_bounds t :
  time_valid t = true -> 0 <= hour t < 24 /\ 0 <= minute t < 60 /\ 0 <= second t < 60.
Proof. unfold time_valid. intros H. bool_hyps. lia. Qed.

Lemma date_call_valid d :
  date_valid d = true -> date_call (year d) (month d) (day d) = Ok d.
Proof. intros H. unfold date_call. destruct d; simpl in *. by rewrite H. Qed.

Lemma time_call_valid t :
  time_valid t = true ->
  time_call (hour t) (minute t) (second t) =
    Ok {| hour := hour t; minute := minute t; second := second t; microsecond := 0 |}.
Proof.
  intros H. unfold time_call. cbv zeta. destruct (time_valid {| hour := _ |}) eqn:E; [done|].
  unfold time_valid in *. simpl in E. bool_hyps. lia.
Qed.

Lemma pack_B_ok l : bytes_ok l -> pack_B l = Ok l.
Proof. intros H%forallb_byte_ok. unfold pack_B. by rewrite H. Qed.

Lemma clock_wire s :
  clock_valid s ->
  exists b, clock_encode s = Ok b /\ b <> [] /\ bytes_ok b /\
    forall rest, clock_step (b ++ rest) = Ok (Next (Some (clock_on_wire s)) rest).
Proof.
  destruct s as [[d|t]|]; intros H; unfold clock_encode, clock_update_encode.
  - pose proof (date_valid_bounds d H) as (Hy & Hm & Hd).
    pose proof (weekday_bound d) as Hw.
    assert (unpack_H (Z.land (Z.shiftr (year d) 8) 0xff) (Z.land (year d) 0xff) = year d)
      as Hu by (apply unpack_pack_H; lia).
    unfold pack_HB. rewrite (proj2 (andb_true_iff _ _)) by lia.
    rewrite pack_B_ok by solve_bytes.
    eexists. split; [reflexivity|]. split; [done|].
    split; [simpl; solve_bytes; apply byte_okb_spec; reflexivity|].
    intros rest. unfold clock_step, pack_H. simpl. unfold clock_update_decode. simpl.
    change (Z.to_nat (Z.land 14 7)) with 6%nat. simpl.
    by rewrite Hu, date_call_valid.
  - pose proof (time_valid_bounds t H) as (Hh & Hm & Hs).
    rewrite pack_B_ok by solve_bytes.
    eexists. split; [reflexivity|]. split; [done|].
    split; [simpl; solve_bytes; apply byte_okb_spec; reflexivity|].
    intros rest. unfold clock_step. simpl. unfold clock_update_decode. simpl.
    change (Z.to_nat (Z.land 13 7)) with 5%nat. simpl.
    by rewrite time_call_valid.
  - eexists. split; [reflexivity|]. split; [done|].
    split; [solve_bytes|]. done.
Qed.

Lemma clock_on_wire_fixed s :
  clock_valid s ->
  clock_valid (clock_on_wire s) /\ clock_on_wire (clock_on_wire s) = clock_on_wire s.
Proof.
  destruct s as [[d|t]|]; try done. simpl. intros H. split; [|done].
  unfold time_valid in *. simpl. bool_hyps. lia.
Qed.

Lemma clock_update_decode_length data c o rest :
  clock_update_decode data c = Ok (o, rest) -> (length rest <= length data)%nat.
Proof.
  unfold clock_update_decode. cbv zeta. intros H. follow_result;
    repeat (case_match; try done); follow_result; injection H as _ <-;
    rewrite ?length_drop; lia.
Qed.

Lemma clock_step_consuming : consuming clock_step.
Proof.
  intros [|c data] o rest H; [done|]. unfold clock_step in H. simpl in H.
  rewrite drop_0 in H. follow_result; try done; simpl.
  - injection H as <- <-. subst.
    match goal with H : clock_update_decode _ _ = _ |- _ =>
      apply clock_update_decode_length in H end. lia.
  - injection H as <- <-. subst. unfold clock_request_decode in *. cbv zeta in *.
    follow_result; simplify_eq; rewrite length_drop; lia.
Qed.

#[export] Program Instance clock_codec : WireCodec ClockSAL := {|
  wire_ok := clock_valid;
  wire_image := clock_on_wire;
  wire_encode := clock_encode;
  wire_step := clock_step
|}.
Next Obligation. exact clock_step_consuming. Qed.
Next Obligation. exact clock_wire. Qed.
Next Obligation. exact clock_on_wire_fixed. Qed.

(** The exceptions of the decoder. *)
Definition clock_exn (e : exn) : Prop :=
  e = IndexError \/ e = StructError \/ e = ValueError.

Lemma date_call_inv y m d r : date_call y m d = Ok r -> date_valid r = true.
Proof. unfold date_call. cbv zeta. case_match; [|done]. by intros [= <-]. Qed.

Lemma time_call_inv h m s r :
  time_call h m s = Ok r -> time_valid r = true /\ microsecond r = 0.
Proof. unfold time_call. cbv zeta. case_match; [|done]. by intros [= <-]. Qed.

Lemma date_call_raise y m d e : date_call y m d = Raise e -> e = ValueError.
Proof. unfold date_call. cbv zeta. case_match; congruence. Qed.

Lemma time_call_raise h m s e : time_call h m s = Raise e -> e = ValueError.
Proof. unfold time_call. cbv zeta. case_match; congruence. Qed.

Lemma clock_update_decode_outcome data c :
  match clock_update_decode data c with
  | Ok (Some s, _) => clock_ok s
  | Ok (None, _) => True
  | Raise e => clock_exn e
  end.
Proof.
  destruct (clock_update_decode data c) as [[o rest]|e] eqn:H;
    unfold clock_update_decode, clock_exn in *; cbv zeta in H.
  - follow_result; repeat (case_match; try done); follow_result; simplify_eq;
      try done; split; try done; simpl.
    + by eapply date_call_inv.
    + by eapply time_call_inv.
    + match goal with H : time_call _ _ _ = Ok ?t |- _ =>
        apply time_call_inv in H as [_ <-]; by destruct t end.
  - follow_result; repeat (case_match; try done); follow_result;
      repeat match goal with
      | H : item _ _ = Raise _ |- _ => apply item_raise in H
      | H : date_call _ _ _ = Raise _ |- _ => apply date_call_raise in H
      | H : time_call _ _ _ = Raise _ |- _ => apply time_call_raise in H
      end; simplify_eq; tauto.
Qed.

Lemma clock_step_outcome data :
  match clock_step data with
  | Ok (Next (Some s) _) => clock_ok s
  | Ok _ => True
  | Raise e => clock_exn e
  end.
Proof.
  unfold clock_step, clock_request_decode. cbv zeta.
  destruct (item data 0) as [c|e] eqn:E; simpl; [|left; by eapply item_raise].
  repeat (case_match; try done); simpl in *; simplify_eq; try done;
    follow_result; simplify_eq; try done.
  - match goal with H : clock_update_decode ?l ?c = _ |- _ =>
      pose proof (clock_update_decode_outcome l c) as Ho; by rewrite H in Ho end.
  - match goal with H : clock_update_decode ?l ?c = _ |- _ =>
      pose proof (clock_update_decode_outcome l c) as Ho; by rewrite H in Ho end.
  - left. by eapply item_raise.
Qed.

(** ** Properties *)

(** Dates and times survive the wire, fractions of a second excepted: a
    sequence of valid clock messages encodes, and decodes to the same dates,
    the same times to the second and the same requests, in the same order. *)
Theorem clock_roundtrip (sals : list ClockSAL) :
  Forall clock_valid sals ->
  exists b, encode_items clock_encode sals = Ok b /\ bytes_ok b /\
    clock_decode_sals b = Ok (map clock_on_wire sals).
Proof.
  exact (@wire_items_roundtrip _ clock_codec sals).
Qed.

Definition clock_sample : list ClockSAL :=
  [ClockRequestSAL;
   ClockUpdateSAL (VDate {| year := 2024; month := 2; day := 29 |});
   ClockUpdateSAL (VTime {| hour := 23; minute := 59; second := 58;
                            microsecond := 999999 |})].

Example clock_roundtrip_witness :
  Forall clock_valid clock_sample /\
  exists b, encode_items clock_encode clock_sample = Ok b /\ bytes_ok b /\
    clock_decode_sals b = Ok (map clock_on_wire clock_sample).
Proof.
  assert (Forall clock_valid clock_sample) as H by by repeat constructor.
  split; [exact H|]. apply (clock_roundtrip clock_sample). exact H.
Defined.

(** Decoding any clock packet ends: with valid dates, times and requests, or
    with an [IndexError], a [struct.error] or the [ValueError] of an impossible
    date or time; an impossible date or time is never returned. *)
Theorem clock_decode_outcome data :
  match clock_decode_sals data with
  | Ok sals => Forall clock_ok sals
  | Raise e => clock_exn e
  end.
Proof.
  unfold clock_decode_sals.
  induction data as [data IH] using (induction_ltof1 _ length).
  destruct data as [|x data]; [constructor|].
  rewrite while_data_cons by (done || apply clock_step_consuming).
  pose proof (clock_step_outcome (x :: data)) as Ho.
  destruct (clock_step (x :: data)) as [[|o rest]|e] eqn:E; [constructor| |done].
  rewrite bind_Ok. apply clock_step_consuming in E.
  specialize (IH rest E). destruct (while_data clock_step rest); [|done].
  rewrite bind_Ok. destruct o; [by constructor|done].
Qed.

(** An update of a variable that is neither the date nor the time, of
    length [n], makes the decoder drop [n] bytes of its own and then [n] bytes
    of whatever follows, so that messages after it are lost. *)
Theorem clock_unknown_variable_skips_twice n variable val rest :
  0 < n < 8 -> variable <> 1 -> variable <> 2 -> len val = n - 1 ->
  clock_step (Z.lor 0x08 n :: variable :: val ++ rest) =
    Ok (Next None (drop (Z.to_nat n) rest)).
Proof.
  intros Hn H1 H2 Hl.
  assert (forallb (fun n => (Z.land (Z.lor 8 n) 0x80 =? 0) &&
    (Z.land (Z.lor 8 n) 0xE0 =? 0) && (Z.land (Z.lor 8 n) 0xf8 =? 8) &&
    (Z.land (Z.lor 8 n) 7 =? n)) (seqZ 0 8) = true) as Hbits by reflexivity.
  rewrite forallb_forall in Hbits. specialize (Hbits n).
  rewrite <- list_elem_of_In, elem_of_seqZ in Hbits. specialize (Hbits ltac:(lia)).
  apply andb_true_iff in Hbits as [[[E1 E2]%andb_true_iff E3]%andb_true_iff E4].
  apply Z.eqb_eq in E1, E2, E3, E4.
  unfold clock_step. rewrite item_0, bind_Ok. cbv zeta. rewrite E1, E2, E3.
  change (0 =? 0x80) with false.
  change (8 =? value ClockCommand.UPDATE_NETWORK_VARIABLE) with true.
  cbn [negb Z.eqb drop]. unfold clock_update_decode. rewrite item_0, bind_Ok, E4.
  cbv zeta. change (value ClockAttribute.DATE) with 2. change (value ClockAttribute.TIME) with 1.
  rewrite (proj2 (Z.eqb_neq _ _) H2), (proj2 (Z.eqb_neq _ _) H1), bind_Ok.
  repeat f_equal.
  rewrite (app_comm_cons val rest variable), drop_app_length'; [done|].
  unfold len in Hl. simpl. lia.
Qed.

(** An unknown variable of length 2 followed by a refresh request: the request
    is swallowed. *)
Example clock_unknown_variable_skips_twice_witness :
  clock_step [0x0a; 0x07; 0x55; 0x11; 0x03] = Ok (Next None []).
Proof.
  apply (clock_unknown_variable_skips_twice 2 7 [0x55] [0x11; 0x03]);
    [lia|lia|lia|reflexivity].
Defined.
