(* ===== verification/Application.v ===== *)
(** * The application registry: [cbus/protocol/application/__init__.py]

    Which decoder serves an application address, and the messages of every
    application as one type. *)

From S2P Require Import Prelude Common Lighting Clock Enable StatusRequest Temperature.
From stdpp Require Import options.

Local Open Scope Z_scope.

(** ** Registry *)

(** The subclasses of [BaseApplication] in [_APPLICATIONS]. *)
Inductive BaseApplication :=
| StatusRequestApplication
| ClockApplication
| EnableApplication
| LightingApplication
| TemperatureApplication.

#[export] Instance BaseApplication_eq_dec : EqDecision BaseApplication.
Proof. solve_decision. Defined.

Definition _APPLICATIONS : list BaseApplication :=
  [StatusRequestApplication; ClockApplication; EnableApplication;
   LightingApplication; TemperatureApplication].

Definition supported_applications (a : BaseApplication) : list Z :=
  match a with
  | StatusRequestApplication => [value Application.STATUS_REQUEST]
  | ClockApplication => [value Application.CLOCK]
  | EnableApplication => [value Application.ENABLE]
  | LightingApplication => lighting_applications
  | TemperatureApplication => [value Application.TEMPERATURE]
  end.

(** The loop of [_register_application] over the addresses of one class. *)
Fixpoint register_ids (app : BaseApplication) (ids : list Z)
    (d : gmap Z BaseApplication) : result (gmap Z BaseApplication) :=
  match ids with
  | [] => Ok d
  | i :: ids =>
      match d !! i with
      | Some existing_app =>
          if bool_decide (existing_app = app)
          then register_ids app ids (<[i := app]> d)
          else Raise ValueError
      | None => register_ids app ids (<[i := app]> d)
      end
  end.

Definition _register_application (app : BaseApplication)
    (d : gmap Z BaseApplication) : result (gmap Z BaseApplication) :=
  let app_ids := supported_applications app in
  if negb (forallb (fun i => (0 <=? i) && (i <=? 0xff)) app_ids)
  then Raise ValueError
  else register_ids app app_ids d.

(** [for app in _APPLICATIONS: _register_application(app)]; a [frozenset] is
    iterated in an order of its own. *)
Fixpoint register_all (apps : list BaseApplication)
    (d : gmap Z BaseApplication) : result (gmap Z BaseApplication) :=
  match apps with
  | [] => Ok d
  | app :: apps => d ← _register_application app d; register_all apps d
  end.

Definition _APPLICATIONS_DICT : gmap Z BaseApplication :=
  match register_all _APPLICATIONS ∅ with Ok d => d | Raise _ => ∅ end.

Definition get_application (app_id : Z) : result BaseApplication :=
  or_raise KeyError (_APPLICATIONS_DICT !! app_id).

(** ** Messages *)

Inductive SAL :=
| SLighting (s : LightingSAL)
| SClock (s : ClockSAL)
| SEnable (s : EnableSAL)
| SStatusRequest (s : StatusRequestSAL)
| STemperature (s : TemperatureSAL).

(** The [application] property of each class. *)
Definition sal_application (s : SAL) : Z :=
  match s with
  | SLighting s => lighting_application s
  | SClock _ => value Application.CLOCK
  | SEnable _ => value Application.ENABLE
  | SStatusRequest _ => value Application.STATUS_REQUEST
  | STemperature _ => value Application.TEMPERATURE
  end.

Definition sal_encode (s : SAL) : result bytes :=
  match s with
  | SLighting s => lighting_encode s
  | SClock s => clock_encode s
  | SEnable s => enable_encode s
  | SStatusRequest s => status_encode s
  | STemperature s => temperature_encode s
  end.

(** [app.decode_sals(data, application)] *)
Definition app_decode_sals (a : BaseApplication) (data : bytes) (application : Z)
    : result (list SAL) :=
  match a with
  | StatusRequestApplication => map SStatusRequest <$> status_decode_sals data
  | ClockApplication => map SClock <$> clock_decode_sals data
  | EnableApplication => map SEnable <$> enable_decode_sals data
  | LightingApplication => map SLighting <$> lighting_decode_sals data application
  | TemperatureApplication => map STemperature <$> temperature_decode_sals data
  end.

(** ** Well-formed messages for an application *)

Definition sal_valid (app : Z) (s : SAL) : Prop :=
  sal_application s = app /\
  match s with
  | SLighting s => lighting_valid app s
  | SClock s => clock_valid s
  | STemperature s => temperature_valid s
  | SEnable _ | SStatusRequest _ => True
  end.

(** What the receiver of a message sees. *)
Definition sal_on_wire (s : SAL) : SAL :=
  match s with
  | SLighting s => SLighting (on_wire s)
  | SClock s => SClock (clock_on_wire s)
  | SEnable s => SEnable (enable_on_wire s)
  | SStatusRequest s => SStatusRequest (status_on_wire s)
  | STemperature s => STemperature (temperature_on_wire s)
  end.

(** ** Lemmas *)

(** The registry serves exactly the addresses the applications ask for. *)
Lemma get_application_spec i a :
  get_application i = Ok a <-> byte_in i (supported_applications a) = true.
Proof.
  unfold get_application. split.
  - destruct (_APPLICATIONS_DICT !! i) as [a'|] eqn:E; [|done]. intros [= ->].
    apply elem_of_map_to_list in E.
    assert (forallb (fun '(i, a) => byte_in i (supported_applications a))
      (map_to_list _APPLICATIONS_DICT) = true) as H by by vm_compute.
    rewrite forallb_forall in H. by apply (H (i, a)), list_elem_of_In.
  - assert (forallb (fun i => bool_decide (_APPLICATIONS_DICT !! i = Some a))
      (supported_applications a) = true) as H by by destruct a; vm_compute.
    rewrite forallb_forall in H.
    intros Hi%byte_in_spec%list_elem_of_In%H%bool_decide_eq_true. by rewrite Hi.
Qed.

Lemma get_application_raise i e : get_application i = Raise e -> e = KeyError.
Proof. unfold get_application, or_raise. case_match; congruence. Qed.

(** The application that serves a valid message. *)
Definition sal_class (s : SAL) : BaseApplication :=
  match s with
  | SLighting _ => LightingApplication
  | SClock _ => ClockApplication
  | SEnable _ => EnableApplication
  | SStatusRequest _ => StatusRequestApplication
  | STemperature _ => TemperatureApplication
  end.

Lemma sal_valid_class app s :
  sal_valid app s -> get_application app = Ok (sal_class s).
Proof.
  intros [<- H]. apply get_application_spec.
  destruct s; try reflexivity. simpl in *. unfold lighting_valid in H. tauto.
Qed.

(** Messages of one application, as messages of the sum type. *)
Lemma family_roundtrip {A} (C : WireCodec A) (inj : A -> SAL) (ok : SAL -> Prop)
    (sals : list SAL) :
  (forall s, ok s -> exists a, s = inj a /\ wire_ok a) ->
  (forall a, sal_encode (inj a) = wire_encode a) ->
  (forall a, sal_on_wire (inj a) = inj (wire_image a)) ->
  Forall ok sals ->
  exists b, encode_items sal_encode sals = Ok b /\ bytes_ok b /\
    (map inj <$> while_data wire_step b) = Ok (map sal_on_wire sals).
Proof.
  intros Hok Henc Himg Hs.
  assert (exists l, sals = map inj l /\ Forall wire_ok l) as (l & -> & Hl).
  { clear -Hok Hs. induction Hs as [|s sals H _ (l & -> & Hl)]; [by exists []|].
    apply Hok in H as (a & -> & Ha). exists (a :: l). by split; [|constructor]. }
  destruct (wire_items_roundtrip l Hl) as (b & Hb & Hbok & Hdec).
  exists b. rewrite Hdec. split; [|split; [done|]].
  - rewrite <- Hb. unfold encode_items. f_equal. clear -Henc.
    induction l as [|a l IH]; simpl; [done|]. by rewrite Henc, IH.
  - cbn. f_equal. rewrite !map_map. apply map_ext. done.
Qed.

Lemma sal_on_wire_fixed app s :
  sal_valid app s ->
  sal_valid app (sal_on_wire s) /\ sal_on_wire (sal_on_wire s) = sal_on_wire s.
Proof.
  intros [<- H]. destruct s as [s|s|s|s|s]; simpl in H |- *.
  - destruct (wire_image_fixed (WireCodec := lighting_codec _) s H) as [Hv Hf].
    simpl in Hv, Hf. rewrite Hf. split; [|done]. split; [|done]. apply Hv.
  - destruct (clock_on_wire_fixed s H) as [Hv ->]. done.
  - destruct (wire_image_fixed (WireCodec := enable_codec) s H) as [_ Hf].
    simpl in Hf. by rewrite Hf.
  - destruct (wire_image_fixed (WireCodec := status_codec) s H) as [_ Hf].
    simpl in Hf. by rewrite Hf.
  - destruct (wire_image_fixed (WireCodec := temperature_codec) s H) as [Hv Hf].
    simpl in Hv, Hf. by rewrite Hf.
Qed.

(** The messages of a packet, for whichever application it is addressed to. *)
Lemma sals_wire app sals :
  Forall (sal_valid app) sals ->
  forall a, get_application app = Ok a ->
  exists b, encode_items sal_encode sals = Ok b /\ bytes_ok b /\
    app_decode_sals a b app = Ok (map sal_on_wire sals).
Proof.
  intros Hs a Ha.
  assert (Forall (fun s => sal_valid app s /\ sal_class s = a) sals) as Hc.
  { eapply Forall_impl; [exact Hs|]. intros s H. split; [done|].
    apply sal_valid_class in H. congruence. }
  clear Hs Ha. destruct a; unfold app_decode_sals.
  - eapply (family_roundtrip status_codec SStatusRequest); [|done..|exact Hc].
    intros [] [[_ H] ?]; try done. by eexists.
  - eapply (family_roundtrip clock_codec SClock); [|done..|exact Hc].
    intros [] [[_ H] ?]; try done. by eexists.
  - eapply (family_roundtrip enable_codec SEnable); [|done..|exact Hc].
    intros [] [[_ H] ?]; try done. by eexists.
  - eapply (family_roundtrip (lighting_codec app) SLighting); [|done..|exact Hc].
    intros [] [[_ H] ?]; try done. by eexists.
  - eapply (family_roundtrip temperature_codec STemperature); [|done..|exact Hc].
    intros [] [[_ H] ?]; try done. by eexists.
Qed.

(** ** Properties *)

(** Registration never fails and does not depend on the order in which the
    set of applications is iterated; the registry then serves exactly the
    addresses that some application supports, each by that application. *)
Theorem registry_order_independent order :
  order ≡ₚ _APPLICATIONS ->
  register_all order ∅ = Ok _APPLICATIONS_DICT /\
  forall i a, _APPLICATIONS_DICT !! i = Some a <->
    i ∈ supported_applications a.
Proof.
  intros Ho. split.
  - symmetry in Ho. apply permutations_Permutation in Ho.
    assert (forallb (fun order => bool_decide
      (register_all order ∅ = Ok _APPLICATIONS_DICT)) (permutations _APPLICATIONS)
      = true) as H by by vm_compute.
    rewrite forallb_forall in H.
    by apply list_elem_of_In, H, bool_decide_eq_true in Ho.
  - intros i a. rewrite <- byte_in_spec, <- get_application_spec.
    unfold get_application. destruct (_APPLICATIONS_DICT !! i); naive_solver.
Qed.

Example registry_order_independent_witness :
  register_all [TemperatureApplication; LightingApplication; EnableApplication;
                ClockApplication; StatusRequestApplication] ∅ = Ok _APPLICATIONS_DICT /\
  forall i a, _APPLICATIONS_DICT !! i = Some a <-> i ∈ supported_applications a.
Proof.
  apply (registry_order_independent
    [TemperatureApplication; LightingApplication; EnableApplication;
     ClockApplication; StatusRequestApplication]).
  apply (bool_decide_unpack _). vm_compute. exact I.
Defined.

(** For every application, a sequence of valid messages encodes, and the
    application the registry finds for the address decodes the bytes to the
    same messages, up to what the wire cannot carry; sending what was received
    is received unchanged. *)
Theorem sals_roundtrip app sals :
  Forall (sal_valid app) sals -> sals <> [] ->
  exists a b, get_application app = Ok a /\
    encode_items sal_encode sals = Ok b /\ bytes_ok b /\
    app_decode_sals a b app = Ok (map sal_on_wire sals) /\
    Forall (fun s => sal_valid app s /\ sal_on_wire s = s) (map sal_on_wire sals).
Proof.
  intros Hs Hne. destruct sals as [|s sals]; [done|].
  pose proof (sal_valid_class app s (Forall_inv Hs)) as Ha.
  destruct (sals_wire app _ Hs _ Ha) as (b & Hb & Hok & Hd).
  exists (sal_class s), b. repeat (split; [done|]).
  apply Forall_map. eapply Forall_impl; [exact Hs|]. apply sal_on_wire_fixed.
Qed.

Definition sal_sample : list SAL :=
  [SEnable (EnableSetNetworkVariableSAL 0x37 0x183);
   SEnable (EnableSetNetworkVariableSAL 1 2)].

Example sals_roundtrip_witness :
  exists a b, get_application 0xcb = Ok a /\
    encode_items sal_encode sal_sample = Ok b /\ bytes_ok b /\
    app_decode_sals a b 0xcb = Ok (map sal_on_wire sal_sample) /\
    Forall (fun s => sal_valid 0xcb s /\ sal_on_wire s = s) (map sal_on_wire sal_sample).
Proof.
  apply (sals_roundtrip 0xcb sal_sample); [|discriminate].
  unfold sal_sample. repeat constructor.
Defined.
