(* ===== verification/Packet.v ===== *)
(** * Packets: [cbus/protocol/*_packet.py]

    The header every packet shares, the special packets, and the three packet
    types with a header: point to multipoint (SALs of one application), point to
    point (CALs for one unit) and device management (a parameter of the
    interface); their constructors, encoders and payload decoders. *)

From S2P Require Import Prelude Common Hex Report Cal Application.
From stdpp Require Import options.

Local Open Scope Z_scope.

(** ** Data *)

(** The attributes [BasePacket.__init__] sets. [confirmation] holds a [bytes]
    object of one byte, or [None]. *)
Record header := {
  checksum : bool;
  destination_address_type : DestinationAddressType.t;
  rc : Z;
  dp : bool;
  priority_class : PriorityClass.t;
  confirmation : option bytes;
  source_address : option Z
}.

#[export] Instance header_eq_dec : EqDecision header.
Proof. solve_decision. Defined.

(** The packet classes, with the attributes of each. *)
Inductive packet :=
| PowerOnPacket
| PCIErrorPacket
| ResetPacket
| SmartConnectShortcutPacket
| ConfirmationPacket (code : bytes) (success : bool)
| InvalidPacket (payload : bytes) (exception : option exn)
| PointToMultipointPacket (h : header) (application : option Z) (sals : list SAL)
| PointToPointPacket (h : header) (hops : list Z) (pm_bridged : bool)
    (unit_address : Z) (cals : list AnyCAL)
| DeviceManagementPacket (h : header) (parameter value : Z).

(** ** The shared header *)

(** [BasePacket.__init__] *)
Definition base_header (checksum : bool) (dat : DestinationAddressType.t)
    (rc : Z) (dp : bool) (priority_class : PriorityClass.t) : header :=
  {| checksum := checksum; destination_address_type := dat; rc := rc; dp := dp;
     priority_class := priority_class; confirmation := None;
     source_address := None |}.

Definition flags (h : header) : Z :=
  Z.lor (Z.lor (Z.lor (Z.land (value (destination_address_type h)) 0x07)
                      (Z.shiftl (Z.land (rc h) 0x02) 3))
               (if dp h then 0x20 else 0))
        (Z.shiftl (Z.land (value (priority_class h)) 0x03) 6).

(** [BasePacket.encode] *)
Definition base_encode (h : header) : result bytes :=
  match source_address h with
  | None => mk_bytes [flags h]
  | Some source_address => mk_bytes [flags h; Z.land source_address 0xff]
  end.

(** Assignments to the attributes of a packet. *)
Definition set_routing (confirmation : option bytes) (source : option Z) (h : header)
    : header :=
  {| checksum := checksum h; destination_address_type := destination_address_type h;
     rc := rc h; dp := dp h; priority_class := priority_class h;
     confirmation := confirmation; source_address := source |}.

Definition map_header (f : header -> header) (p : packet) : packet :=
  match p with
  | PointToMultipointPacket h a s => PointToMultipointPacket (f h) a s
  | PointToPointPacket h hops b u c => PointToPointPacket (f h) hops b u c
  | DeviceManagementPacket h p v => DeviceManagementPacket (f h) p v
  | _ => p
  end.

(** ** Point to multipoint *)

(** [PointToMultipointPacket.append_sal]: the application and the SALs after. *)
Definition append_sal (application : option Z) (sals : list SAL) (sal : SAL)
    : result (option Z * list SAL) :=
  let sal_application := sal_application sal in
  match application with
  | None => Ok (Some sal_application, sals ++ [sal])
  | Some a =>
      if negb (a =? sal_application) then Raise ValueError
      else Ok (application, sals ++ [sal])
  end.

Fixpoint append_sals (application : option Z) (sals new : list SAL)
    : result (option Z * list SAL) :=
  match new with
  | [] => Ok (application, sals)
  | sal :: new =>
      '(application, sals) ← append_sal application sals sal;
      append_sals application sals new
  end.

(** [PointToMultipointPacket.__init__] *)
Definition pm_new (checksum : bool) (priority_class : PriorityClass.t)
    (application : option Z) (sals : list SAL) : result packet :=
  let h := base_header checksum DestinationAddressType.POINT_TO_MULTIPOINT 0 false
             priority_class in
  '(application, sals) ← append_sals application [] sals;
  Ok (PointToMultipointPacket h application sals).

(** [clear_sal] *)
Definition clear_sal (p : packet) : packet :=
  match p with
  | PointToMultipointPacket h _ _ => PointToMultipointPacket h None []
  | _ => p
  end.

(** [PointToMultipointPacket.decode_packet] *)
Definition pm_decode (data : bytes) (checksum : bool) (prio : PriorityClass.t)
    : result packet :=
  d0 ← item data 0;
  application ← @enum_call Application.t _ d0;
  d1 ← item data 1;
  if negb (d1 =? 0x00) then Raise ValueError
  else
    handler ← get_application (value application);
    sals ← app_decode_sals handler (drop 2 data) (value application);
    pm_new checksum prio (Some (value application)) sals.

(** [PointToMultipointPacket.encode] *)
Definition pm_encode (h : header) (application : option Z) (sals : list SAL)
    : result bytes :=
  match application with
  | None => Raise ValueError
  | Some a =>
      if (a <? 0) || (0xff <? a) then Raise ValueError
      else
        o ← encode_items sal_encode sals;
        b ← base_encode h;
        let p := b ++ [a; 0] ++ o in
        Ok (if checksum h then add_cbus_checksum p else p)
  end.

(** ** Point to point *)

(** [PointToPointPacket.__init__]; the bridge address is only checked. *)
Definition pp_new (checksum : bool) (priority_class : PriorityClass.t)
    (unit_address bridge_address : Z) (hops : option (list Z))
    (cals : list AnyCAL) : result packet :=
  let h := base_header checksum DestinationAddressType.POINT_TO_POINT 0 false
             priority_class in
  match hops with
  | None =>
      if negb (bridge_address =? 0) then Raise ValueError
      else Ok (PointToPointPacket h [] false unit_address cals)
  | Some hops =>
      if bridge_address <=? 0 then Raise ValueError
      else Ok (PointToPointPacket h hops true unit_address cals)
  end.

(** [for x in range(bridge_length): hops.append(data[0]); data = data[1:]] *)
Fixpoint take_hops (n : nat) (data : bytes) : result (list Z * bytes) :=
  match n with
  | O => Ok ([], data)
  | S n => d ← item data 0; '(hops, data) ← take_hops n (drop 1 data);
           Ok (d :: hops, data)
  end.

(** [PointToPointPacket.decode_packet] *)
Definition pp_decode (data : bytes) (checksum : bool) (prio : PriorityClass.t)
    : result packet :=
  d1 ← item data 1;
  d0 ← item data 0;
  '(unit_address, bridge_address, hops, data) ←
    (if d1 =? 0x00 then Ok (d0, 0, None, drop 2 data)
     else
       bridge_length ← or_raise KeyError (dict_get BRIDGE_LENGTHS d1);
       '(hops, data) ← take_hops bridge_length (drop 2 data);
       unit_address ← item data 0;
       Ok (unit_address, d0, Some hops, drop 1 data));
  cals ← decode_cals data;
  pp_new checksum prio unit_address bridge_address hops cals.

(** [PointToPointPacket.encode] *)
Definition pp_encode (h : header) (pm_bridged : bool) (unit_address : Z)
    (cals : list AnyCAL) : result bytes :=
  if pm_bridged then Raise NotImplementedError
  else
    o ← mk_bytes [unit_address; 0];
    c ← encode_items cal_encode cals;
    b ← base_encode h;
    let p := b ++ o ++ c in
    Ok (if checksum h then add_cbus_checksum p else p).

(** ** Device management *)

(** [DeviceManagementPacket.__init__] *)
Definition dm_new (checksum : bool) (priority_class : PriorityClass.t)
    (parameter v : Z) : packet :=
  DeviceManagementPacket
    (base_header checksum DestinationAddressType.POINT_TO_POINT_TO_MULTIPOINT 0 true
       priority_class) parameter v.

(** [DeviceManagementPacket.decode_packet] *)
Definition dm_decode (data : bytes) (checksum : bool) (prio : PriorityClass.t)
    : result packet :=
  parameter ← item data 0;
  d1 ← item data 1;
  if negb (d1 =? 0) then Raise ValueError
  else
    v ← item data 2;
    if negb (length data =? 3)%nat then Raise ValueError
    else Ok (dm_new checksum prio parameter v).

(** [DeviceManagementPacket.encode] *)
Definition dm_encode (h : header) (parameter v : Z) : result bytes :=
  let parameter := Z.land parameter 0xff in
  let v := Z.land v 0xff in
  b ← base_encode h;
  o ← mk_bytes [parameter; 0; v];
  let p := b ++ o in
  Ok (if checksum h then add_cbus_checksum p else p).

(** ** Special packets *)

(** [ConfirmationPacket.__init__]: [code[:1] in CONFIRMATION_CODES] is a
    substring test, which an empty code passes. *)
Definition confirmation_new (code : bytes) (success : bool) : result packet :=
  let code := take 1 code in
  match find_sub code CONFIRMATION_CODES with
  | None => Raise ValueError
  | Some _ => Ok (ConfirmationPacket code success)
  end.

(** [encode] of every packet. *)
Definition packet_encode (p : packet) : result bytes :=
  match p with
  | PowerOnPacket => Ok [43; 43]
  | PCIErrorPacket => Ok [33]
  | ResetPacket => Ok [126]
  | SmartConnectShortcutPacket => Ok [124]
  | ConfirmationPacket code success => Ok (code ++ [if success then 46 else 35])
  | InvalidPacket payload _ => Ok payload
  | PointToMultipointPacket h a s => pm_encode h a s
  | PointToPointPacket h _ bridged u c => pp_encode h bridged u c
  | DeviceManagementPacket h p v => dm_encode h p v
  end.

(** [isinstance(p, _SpecialPacket)] *)
Definition is_special (p : packet) : bool :=
  match p with
  | PointToMultipointPacket _ _ _ | PointToPointPacket _ _ _ _ _
  | DeviceManagementPacket _ _ _ => false
  | _ => true
  end.

(** [BasePacket.encode_packet], and [_SpecialPacket]'s override. *)
Definition encode_packet (p : packet) : result bytes :=
  b ← packet_encode p; Ok (if is_special p then b else b16encode b).

(** [StandardCAL.encode_packet] *)
Definition standard_encode_packet (c : StandardCAL) : result bytes :=
  p ← standard_encode c;
  Ok (b16encode (if std_checksum c then add_cbus_checksum p else p)).

(** ** Well-formed packets *)

(** A packet that its own decoder can be handed: built by its constructor, with
    messages its application accepts. *)
Definition packet_valid (p : packet) : Prop :=
  match p with
  | PointToMultipointPacket h (Some a) sals =>
      destination_address_type h = DestinationAddressType.POINT_TO_MULTIPOINT /\
      rc h = 0 /\ dp h = false /\
      is_Ok (get_application a) = true /\ Forall (sal_valid a) sals
  | PointToPointPacket h hops bridged unit_address cals =>
      destination_address_type h = DestinationAddressType.POINT_TO_POINT /\
      rc h = 0 /\ dp h = false /\
      hops = [] /\ bridged = false /\ byte_ok unit_address /\ Forall cal_ok cals
  | DeviceManagementPacket h parameter v =>
      destination_address_type h =
        DestinationAddressType.POINT_TO_POINT_TO_MULTIPOINT /\
      rc h = 0 /\ dp h = true
  | _ => False
  end.

Definition packet_header (p : packet) : option header :=
  match p with
  | PointToMultipointPacket h _ _ | PointToPointPacket h _ _ _ _
  | DeviceManagementPacket h _ _ => Some h
  | _ => None
  end.

(** What the receiver sees of the payload. *)
Definition packet_image (p : packet) : packet :=
  match p with
  | PointToMultipointPacket h a sals =>
      PointToMultipointPacket h a (map sal_on_wire sals)
  | DeviceManagementPacket h parameter v =>
      DeviceManagementPacket h (Z.land parameter 0xff) (Z.land v 0xff)
  | _ => p
  end.

(** The decoder of the payload of a valid packet. *)
Definition payload_decode (p : packet) : bytes -> bool -> PriorityClass.t -> result packet :=
  match p with
  | PointToMultipointPacket _ _ _ => pm_decode
  | PointToPointPacket _ _ _ _ _ => pp_decode
  | _ => dm_decode
  end.

Definition header_bytes (h : header) : bytes :=
  flags h :: match source_address h with
             | None => []
             | Some s => [Z.land s 0xff]
             end.

Definition finish (h : header) (p : bytes) : bytes :=
  if checksum h then add_cbus_checksum p else p.

(** ** Lemmas *)

Lemma flags_bits h :
  rc h = 0 ->
  byte_ok (flags h) /\
  Z.land (flags h) 0x07 = value (destination_address_type h) /\
  (Z.land (flags h) 0x20 =? 0x20) = dp h /\
  Z.land (Z.shiftr (flags h) 6) 0x03 = value (priority_class h).
Proof.
  intros Hrc. destruct h as [cs dat r d prio cf src]. simpl in Hrc. subst r.
  unfold flags. simpl. destruct dat, d, prio; vm_compute; intuition congruence.
Qed.

Lemma base_encode_ok h :
  rc h = 0 -> base_encode h = Ok (header_bytes h) /\ bytes_ok (header_bytes h).
Proof.
  intros Hrc. destruct (flags_bits h Hrc) as [Hf _].
  unfold base_encode, header_bytes.
  destruct (source_address h); rewrite mk_bytes_ok by solve_bytes;
    (split; [done|solve_bytes]).
Qed.

Lemma append_sals_ok a sals new :
  Forall (fun s => sal_application s = a) new ->
  append_sals (Some a) sals new = Ok (Some a, sals ++ new).
Proof.
  intros H. revert sals. induction H as [|s new Hs H IH]; intros sals; simpl.
  - by rewrite app_nil_r.
  - rewrite Hs, Z.eqb_refl. simpl. rewrite IH. by rewrite <- app_assoc.
Qed.

(** Every registered address is a member of [Application]. *)
Lemma application_member i a :
  get_application i = Ok a ->
  exists m, @enum_call Application.t _ i = Ok m /\ value m = i.
Proof.
  intros H%get_application_spec.
  assert (forallb (fun i => is_Ok (@enum_call Application.t _ i))
    (supported_applications a) = true) as Hm by by destruct a; vm_compute.
  rewrite forallb_forall in Hm. apply byte_in_spec, list_elem_of_In, Hm in H.
  destruct (enum_call i) as [m|] eqn:E; [|done].
  exists m. split; [done|]. by apply enum_call_inv.
Qed.

Lemma application_byte i a : get_application i = Ok a -> byte_ok i.
Proof.
  intros H%get_application_spec.
  assert (forallb byte_okb (supported_applications a) = true) as Hm
    by by destruct a; vm_compute.
  rewrite forallb_forall in Hm. apply byte_in_spec, list_elem_of_In, Hm in H.
  by apply byte_okb_spec.
Qed.

Lemma encode_cals_wire cals :
  Forall cal_ok cals ->
  exists b, encode_items cal_encode cals = Ok b /\ bytes_ok b /\
    decode_cals b = Ok cals.
Proof.
  intros H. destruct (@wire_items_roundtrip _ cal_codec cals H) as (b & ? & ? & Hd).
  simpl in Hd. rewrite map_id in Hd. by exists b.
Qed.

(** What a valid packet puts after its header is what its decoder reads. *)
Lemma packet_wire p h :
  packet_valid p -> packet_header p = Some h ->
  exists body, bytes_ok body /\
    packet_encode p = Ok (finish h (header_bytes h ++ body)) /\
    forall cs, payload_decode p body cs (priority_class h) =
      Ok (map_header (fun _ => base_header cs (destination_address_type h) 0 (dp h)
                                 (priority_class h)) (packet_image p)).
Proof.
  destruct p as [| | | | | |h' [a|] sals|h' hops br u cals|h' p v]; try done;
    unfold packet_valid; intros Hv [= <-].
  - destruct Hv as (Hdat & Hrc & Hdp & Ha & Hs).
    destruct (get_application a) as [cls|] eqn:Eg; [|done].
    destruct (base_encode_ok h' Hrc) as [Hb _].
    destruct (sals_wire a sals Hs cls Eg) as (o & Ho & Hob & Hd).
    pose proof (application_byte a cls Eg) as Hbyte.
    exists ([a; 0] ++ o). split; [simpl; solve_bytes|]. split.
    + unfold packet_encode, pm_encode.
      rewrite (proj2 (Z.ltb_ge a 0)), (proj2 (Z.ltb_ge 0xff a)) by solve_byte.
      cbn [orb]. by rewrite Ho, bind_Ok, Hb, bind_Ok.
    + intros cs. unfold payload_decode, pm_decode. simpl.
      destruct (application_member a cls Eg) as (m & Em & Hm).
      rewrite Em, bind_Ok. simpl. rewrite Hm, Eg, bind_Ok, drop_0, Hd, bind_Ok.
      unfold pm_new. rewrite append_sals_ok; [by rewrite bind_Ok, Hdat, Hdp|].
      apply Forall_map. eapply Forall_impl; [exact Hs|].
      intros s Hsv. apply sal_on_wire_fixed in Hsv as [[Hsa _] _]. done.
  - destruct Hv as (Hdat & Hrc & Hdp & -> & -> & Hu & Hc).
    destruct (base_encode_ok h' Hrc) as [Hb _].
    destruct (encode_cals_wire cals Hc) as (o & Ho & Hob & Hd).
    exists ([u; 0] ++ o). split; [simpl; solve_bytes|]. split.
    + unfold packet_encode, pp_encode. rewrite mk_bytes_ok by solve_bytes.
      by rewrite bind_Ok, Ho, bind_Ok, Hb, bind_Ok.
    + intros cs. unfold payload_decode, pp_decode. simpl. rewrite drop_0, Hd.
      by rewrite bind_Ok, Hdat, Hdp.
  - destruct Hv as (Hdat & Hrc & Hdp).
    destruct (base_encode_ok h' Hrc) as [Hb _].
    exists [Z.land p 0xff; 0; Z.land v 0xff].
    split; [solve_bytes|]. split.
    + unfold packet_encode, dm_encode. rewrite Hb, bind_Ok, mk_bytes_ok by solve_bytes.
      done.
    + intros cs. unfold payload_decode. rewrite Hdat, Hdp. done.
Qed.
