(* ===== verification/Carried.v ===== *)
(** * What the wire carries of a message

    A reference for the round trips of [Decode] and [Gateway] that does not look at
    the tables of the code: which numbers of a message the bytes of a packet can hold,
    and what becomes of the others. A ramp takes one of sixteen times, a temperature is
    a number of quarter degrees, a time of day has no fractions, a status request names
    a block of thirty-two groups, and the rest are bytes. *)

From S2P Require Import Prelude Common Lighting Enable StatusRequest Temperature Clock Application Packet.
From Stdlib Require Import QArith.
From stdpp Require Import options.

Local Open Scope Z_scope.

(** ** The reference *)

(** The times that a ramp can take, in seconds. *)
Definition ramp_times : list Z :=
  [0; 4; 8; 12; 20; 30; 40; 60; 90; 120; 180; 300; 420; 600; 900; 1020].

(** The next of them, or the longest. *)
Definition ramp_read (d d' : Z) : Prop :=
  d' ∈ ramp_times /\ (d <= d' \/ d' = 1020) /\ forall x, x ∈ ramp_times -> d <= x -> d' <= x.

Inductive sal_carried : SAL -> SAL -> Prop :=
| CarriedRamp g a d d' l : ramp_read d d' ->
    sal_carried (SLighting (LightingRampSAL g a d l)) (SLighting (LightingRampSAL g a d' l))
| CarriedOn g a : sal_carried (SLighting (LightingOnSAL g a)) (SLighting (LightingOnSAL g a))
| CarriedOff g a : sal_carried (SLighting (LightingOffSAL g a)) (SLighting (LightingOffSAL g a))
| CarriedTerminate g a :
    sal_carried (SLighting (LightingTerminateRampSAL g a)) (SLighting (LightingTerminateRampSAL g a))
| CarriedDate d : sal_carried (SClock (ClockUpdateSAL (VDate d))) (SClock (ClockUpdateSAL (VDate d)))
| CarriedTime h m s u :
    sal_carried
      (SClock (ClockUpdateSAL (VTime {| hour := h; minute := m; second := s; microsecond := u |})))
      (SClock (ClockUpdateSAL (VTime {| hour := h; minute := m; second := s; microsecond := 0 |})))
| CarriedClockRequest : sal_carried (SClock ClockRequestSAL) (SClock ClockRequestSAL)
| CarriedVariable x v :
    sal_carried (SEnable (EnableSetNetworkVariableSAL x v))
      (SEnable (EnableSetNetworkVariableSAL (x mod 256) (v mod 256)))
| CarriedStatus b g c :
    sal_carried
      (SStatusRequest {| sr_level_request := b; sr_group_address := g; sr_child_application := c |})
      (SStatusRequest {| sr_level_request := b; sr_group_address := g mod 256 - g mod 32;
                         sr_child_application := c mod 256 |})
| CarriedTemperature g t n : (n # 4 <= t)%Q -> (t < (n # 4) + (1 # 4))%Q ->
    sal_carried (STemperature (TemperatureBroadcastSAL g t))
      (STemperature (TemperatureBroadcastSAL g (n # 4))).

(** A message whose numbers the wire holds. *)
Definition sal_exact (s : SAL) : Prop :=
  match s with
  | SLighting (LightingRampSAL _ _ d _) => d ∈ ramp_times
  | SLighting _ | SClock (ClockUpdateSAL (VDate _)) | SClock ClockRequestSAL => True
  | SClock (ClockUpdateSAL (VTime t)) => microsecond t = 0
  | SEnable (EnableSetNetworkVariableSAL x v) => byte_ok x /\ byte_ok v
  | SStatusRequest s =>
      byte_ok (sr_group_address s) /\ sr_group_address s mod 32 = 0 /\
      byte_ok (sr_child_application s)
  | STemperature (TemperatureBroadcastSAL _ t) => exists n, t = (n # 4)%Q
  end.

(** The header as it is read: the source of a packet of the interface, or the
    confirmation code of a command. *)
Definition header_carried (conf : option bytes) (h : header) : header :=
  {| checksum := checksum h; destination_address_type := destination_address_type h;
     rc := 0; dp := dp h; priority_class := priority_class h;
     confirmation := match source_address h with Some _ => None | None => conf end;
     source_address :=
       match source_address h with
       | Some s => if s mod 256 =? 0 then None else Some (s mod 256)
       | None => None
       end |}.

Inductive packet_carried (conf : option bytes) : packet -> packet -> Prop :=
| CarriedPM h a sals sals' : Forall2 sal_carried sals sals' ->
    packet_carried conf (PointToMultipointPacket h a sals)
      (PointToMultipointPacket (header_carried conf h) a sals')
| CarriedPP h hops bridged unit_address cals :
    packet_carried conf (PointToPointPacket h hops bridged unit_address cals)
      (PointToPointPacket (header_carried conf h) hops bridged unit_address cals)
| CarriedDM h parameter v :
    packet_carried conf (DeviceManagementPacket h parameter v)
      (DeviceManagementPacket (header_carried conf h) (parameter mod 256) (v mod 256)).

(** A packet that the wire holds as it is. *)
Definition header_exact (conf : option bytes) (h : header) : Prop :=
  match source_address h with
  | Some s => 0 < s <= 255 /\ confirmation h = None
  | None => confirmation h = conf
  end.

Definition packet_exact (conf : option bytes) (p : packet) : Prop :=
  match p with
  | PointToMultipointPacket h _ sals => header_exact conf h /\ Forall sal_exact sals
  | PointToPointPacket h _ _ _ _ => header_exact conf h
  | DeviceManagementPacket h parameter v => header_exact conf h /\ byte_ok parameter /\ byte_ok v
  | _ => False
  end.

(** ** Exact messages are carried unchanged *)

Lemma ramp_read_exact d d' : ramp_read d d' -> d ∈ ramp_times -> d' = d.
Proof.
  intros (Hin & [Hle|E] & Hmin) Hd; pose proof (Hmin d Hd ltac:(lia)); [lia|].
  assert (Forall (fun x => x <= 1020) ramp_times) as Hall by (repeat constructor; lia).
  rewrite Forall_forall in Hall. specialize (Hall d Hd). lia.
Qed.

Lemma byte_mod x : byte_ok x -> x mod 256 = x.
Proof. unfold byte_ok. intros H. apply Z.mod_small. lia. Qed.

Lemma sal_carried_exact s s' : sal_carried s s' -> sal_exact s -> s' = s.
Proof.
  destruct 1 as [g a d d' l Hr| | | | |h m sec u| |x v|b g c|g t n Hl Hu]; cbn [sal_exact];
    intros He; try done.
  - by rewrite (ramp_read_exact d d').
  - cbn in He. by subst u.
  - destruct He. by rewrite !byte_mod.
  - destruct He as (Hg & H0 & Hc). cbn in *. by rewrite !byte_mod, H0, Z.sub_0_r.
  - destruct He as [k ->]. assert (n = k) as ->; [|done].
    unfold Qle, Qlt, Qplus in *. cbn in *. lia.
Qed.

Lemma header_carried_exact conf h : rc h = 0 -> header_exact conf h -> header_carried conf h = h.
Proof.
  destruct h as [cs dat r d prio cf [s|]]; unfold header_exact, header_carried; cbn; intros ->;
    [|by intros ->].
  intros [Hs ->]. rewrite Z.mod_small by lia. by rewrite (proj2 (Z.eqb_neq s 0)) by lia.
Qed.

Lemma packet_carried_exact conf p q :
  packet_valid p -> packet_carried conf p q -> packet_exact conf p -> q = p.
Proof.
  intros Hv Hc. destruct Hc as [h a sals sals' Hs|h hops br u cals|h x v]; cbn [packet_exact].
  - intros [Hh He]. rewrite header_carried_exact; [|destruct a; [apply Hv|done]|done]. f_equal.
    clear Hv. induction Hs as [|s s' sals sals' Hs _ IH]; [done|].
    apply Forall_cons in He as [He1 He]. by rewrite (sal_carried_exact s s'), IH.
  - intros Hh. by rewrite header_carried_exact; [|apply Hv|].
  - intros (Hh & Hx & Hw). rewrite header_carried_exact by (apply Hv || done). by rewrite !byte_mod.
Qed.

(** ** What the code makes of a message is carried *)

Lemma on_wire_ramp d :
  exists d', ramp_rate_to_duration (value (duration_to_ramp_rate d)) = Ok d' /\ ramp_read d d'.
Proof.
  destruct (duration_to_ramp_rate_elem d) as [d' Hd]. exists d'.
  split; [by apply rate_durations|].
  assert (ramp_times = map snd _LIGHT_RAMP_RATES) as Et by done. split.
  { rewrite Et. apply list_elem_of_fmap. by exists (duration_to_ramp_rate d, d'). }
  assert (forall x, x ∈ ramp_times -> exists c, (x, c) ∈ _LIGHT_RAMP_DURATION_TO_RATE) as Hx.
  { intros x. rewrite Et. intros ([c y] & -> & Hin)%list_elem_of_fmap. exists c.
    by apply duration_to_rate_elem. }
  revert Hd. unfold duration_to_ramp_rate.
  destruct (first_rate d _LIGHT_RAMP_DURATION_TO_RATE) as [cmd|] eqn:E; intros Hd.
  - apply first_rate_spec in E as (k & Hin & Hle & Hmin); [|apply duration_to_rate_sorted].
    apply duration_to_rate_elem in Hin. apply rate_durations in Hin, Hd.
    assert (k = d') as -> by congruence. split; [by left|].
    intros x (c & Hc)%Hx Hdx. by eapply Hmin.
  - apply rate_durations in Hd. injection Hd as <-. split; [by right|].
    apply first_rate_None in E. rewrite Forall_forall in E.
    intros x (c & Hc)%Hx Hdx. specialize (E _ Hc). cbn in E. lia.
Qed.

Lemma land_ff_mod x : Z.land x 0xff = x mod 256.
Proof. change 0xff with (Z.ones 8). by rewrite Z.land_ones by lia. Qed.

Lemma block_mod g : Z.land g 0xe0 = g mod 256 - g mod 32.
Proof.
  assert (Z.land g 0xe0 = Z.land (g mod 256) 0xe0) as -> by
    (rewrite <- land_ff_mod, <- Z.land_assoc; done).
  assert (g mod 32 = (g mod 256) mod 32) as ->.
  { rewrite <- Znumtheory.Zmod_div_mod; [done|lia|lia|]. by exists 8. }
  assert (byte_ok (g mod 256)) as Hb by (pose proof (Z.mod_pos_bound g 256); unfold byte_ok; lia).
  apply Z.eqb_eq. by_bytes (g mod 256) Hb (fun b => Z.land b 0xe0 =? b - b mod 32).
Qed.

Lemma sal_on_wire_carried app s : sal_valid app s -> sal_carried s (sal_on_wire s).
Proof.
  intros [_ Hv]. destruct s as [s|s|s|s|s]; cbn [sal_on_wire].
  - destruct s as [g a d l| | |]; try constructor. cbn [on_wire].
    destruct (on_wire_ramp d) as (d' & -> & Hr). by constructor.
  - destruct s as [[d|[h m sec u]]|]; constructor.
  - destruct s as [x v]. cbn [enable_on_wire]. rewrite !land_ff_mod. constructor.
  - destruct s as [b g c]. unfold status_on_wire. cbn. rewrite land_ff_mod, block_mod. constructor.
  - destruct s as [g t]. destruct Hv as (_ & H0 & H1).
    destruct (quarter_bounds t H0 H1) as (_ & Hl & Hu). by constructor.
Qed.

Lemma packet_image_carried conf p :
  packet_valid p -> packet_carried conf p (map_header (header_carried conf) (packet_image p)).
Proof.
  destruct p as [| | | | | |h [a|] sals|h hops br u cals|h x v]; try done; intros Hv.
  - apply CarriedPM. destruct Hv as (_ & _ & _ & _ & Hs). clear h.
    induction Hs as [|s sals Hs _ IH]; constructor; [by eapply sal_on_wire_carried|done].
  - apply CarriedPP.
  - cbn [packet_image map_header]. rewrite !land_ff_mod. apply CarriedDM.
Qed.
