(* ===== verification/Decode.v ===== *)
(** * The packet decoder: [decode_packet] of [cbus/protocol/packet.py]

    From a buffer of raw bytes to a packet and the number of bytes it took, in
    the direction from the interface ([from_pci]) and to it. *)

From S2P Require Import Prelude Common Hex Report Cal Lighting Application Packet Carried.
From stdpp Require Import options.

Local Open Scope Z_scope.

(** ** Definitions *)

(** [Union[BasePacket, AnyCAL]] *)
Inductive decoded :=
| DPacket (p : packet)
| DCal (c : AnyCAL).

(** A run of the function: [None] is "no packet". *)
Abbreviation decode_result := (result (option decoded * nat)).

(** [p, consumed] when [r] is [Ok], and the handler
    [except Exception as e: p = InvalidPacket(payload=data, exception=e)]. *)
Definition attempt {A} (data : bytes) (consumed : nat) (r : result A)
    (k : A -> option decoded * nat) : option decoded * nat :=
  match r with
  | Ok a => k a
  | Raise e => (Some (DPacket (InvalidPacket data (Some e))), consumed)
  end.

(** [address_type not in (...) and not dp]: the packet is a bare CAL. *)
Definition direct_cal (address_type : DestinationAddressType.t) (dp : bool) : bool :=
  match address_type with
  | DestinationAddressType.POINT_TO_POINT_TO_MULTIPOINT
  | DestinationAddressType.POINT_TO_MULTIPOINT
  | DestinationAddressType.POINT_TO_POINT => false
  | _ => negb dp
  end.

(** The branches of the [try] block that build a packet with a header. *)
Definition decode_by_type (address_type : DestinationAddressType.t) (data : bytes)
    (checksum : bool) (priority_class : PriorityClass.t) : result packet :=
  match address_type with
  | DestinationAddressType.POINT_TO_POINT => pp_decode data checksum priority_class
  | DestinationAddressType.POINT_TO_MULTIPOINT => pm_decode data checksum priority_class
  | _ => Raise NotImplementedError
  end.

(** What is assigned to the packet at the end of the [try] block. *)
Definition route (from_pci : bool) (confirmation : option bytes)
    (source_addr : option Z) (p : packet) : packet :=
  if negb from_pci then map_header (set_routing confirmation None) p
  else
    match source_addr with
    | Some s => if s =? 0 then p else map_header (set_routing None (Some s)) p
    | None => p
    end.

(** The [try] block: [flags] is the first byte of [data]. *)
Definition decode_flags (flags : Z) (data : bytes) (checksum from_pci dm_cal : bool)
    (confirmation : option bytes) (consumed : nat) : option decoded * nat :=
  attempt data consumed (@enum_call DestinationAddressType.t _ (Z.land flags 0x07))
    (fun address_type =>
  let dp := Z.land flags 0x20 =? 0x20 in
  attempt data consumed (@enum_call PriorityClass.t _ (Z.land (Z.shiftr flags 6) 0x03))
    (fun priority_class =>
  if from_pci && direct_cal address_type dp then
    attempt data consumed
      (cals ← decode_cals data; pp_new checksum priority_class 0 0 None cals)
      (fun p => (Some (DPacket (map_header (set_routing None None) p)), consumed))
  else
    let data := drop 1 data in
    attempt data consumed
      (if from_pci then s ← item data 0; Ok (Some s) else Ok None)
      (fun source_addr =>
    let data := if from_pci then drop 1 data else data in
    if negb dp && dm_cal then
      attempt data consumed (decode_cal data)
        (fun '(cal, cal_len) => (Some (DCal cal), (consumed + cal_len)%nat))
    else
      attempt data consumed
        (if dp then dm_decode data checksum priority_class
         else decode_by_type address_type data checksum priority_class)
        (fun p => (Some (DPacket (route from_pci confirmation source_addr p)),
                   consumed))))).

(** From the base16 text of the message on. *)
Definition decode_text (data : bytes) (checksum strict from_pci dm_cal : bool)
    (confirmation : option bytes) (consumed : nat) : decode_result :=
  if negb (forallb (fun c => byte_in c HEX_CHARS) data)
  then Ok (Some (DPacket (InvalidPacket data (Some ValueError))), consumed)
  else
    data ← b16decode data;
    valid ← (if checksum then validate_cbus_checksum data else Ok true);
    if negb valid && strict
    then Ok (Some (DPacket (InvalidPacket data (Some ValueError))), consumed)
    else
      let data := if checksum then but_last data else data in
      flags ← item data 0;
      Ok (decode_flags flags data checksum from_pci dm_cal confirmation consumed).

(** The mode prefix and the confirmation byte of a command to the interface. *)
Definition decode_command (data : bytes) (checksum strict : bool) (consumed : nat)
    : decode_result :=
  let '(data, checksum, dm_cal) :=
    if startswith [64] data then (drop 1 data, false, true)
    else if startswith [92] data then (drop 1 data, checksum, false)
    else (data, checksum, true) in
  c ← last_item data;
  if byte_in c HEX_CHARS
  then decode_text data checksum strict false dm_cal None consumed
  else if negb (byte_in c CONFIRMATION_CODES) && strict
  then Ok (Some (DPacket (InvalidPacket data (Some ValueError))), consumed)
  else decode_text (but_last data) checksum strict false dm_cal (Some [c]) consumed.

(** From the search for the terminator on. *)
Definition decode_line (data terminator : bytes) (checksum strict from_pci : bool)
    : decode_result :=
  match find_sub terminator data with
  | None => Ok (None, 0%nat)
  | Some e =>
      let data := take e data in
      let consumed := (e + length terminator)%nat in
      match data with
      | [] => Ok (None, consumed)
      | _ :: _ =>
          if from_pci then decode_text data checksum strict true false None consumed
          else decode_command data checksum strict consumed
      end
  end.

(** The special messages of the interface, and the rest. *)
Definition decode_from_pci (data : bytes) (checksum strict : bool) : decode_result :=
  if startswith [43] data then Ok (Some (DPacket PowerOnPacket), 1%nat)
  else if startswith [33] data then Ok (Some (DPacket PCIErrorPacket), 1%nat)
  else if len data <? MIN_MESSAGE_SIZE then Ok (None, 0%nat)
  else
    d0 ← item data 0;
    if byte_in d0 CONFIRMATION_CODES then
      d1 ← item data 1;
      p ← confirmation_new (take 1 data) (d1 =? 0x2e);
      Ok (Some (DPacket p), 2%nat)
    else decode_line data END_RESPONSE checksum strict true.

(** [-1 < qp < nlp] *)
Definition cancel_position (data : bytes) : option nat :=
  match find_sub [63] data, find_sub END_COMMAND data with
  | Some qp, Some nlp => if (qp <? nlp)%nat then Some qp else None
  | _, _ => None
  end.

Definition SMART_CONNECT : bytes := [124].

(** [b'null'] *)
Definition NULL_TEXT : bytes := [110; 117; 108; 108].

Definition decode_to_pci (data : bytes) (checksum strict : bool) : decode_result :=
  if startswith [126] data then Ok (Some (DPacket ResetPacket), 1%nat)
  else if startswith NULL_TEXT data then Ok (None, 4%nat)
  else if startswith (SMART_CONNECT ++ END_COMMAND) data
       || startswith (SMART_CONNECT ++ SMART_CONNECT ++ END_COMMAND) data then
    match find_sub END_COMMAND data with
    | Some n => Ok (Some (DPacket SmartConnectShortcutPacket), (n + 1)%nat)
    | None => Ok (Some (DPacket SmartConnectShortcutPacket), 0%nat)
    end
  else
    match cancel_position data with
    | Some qp => Ok (None, (qp + 1)%nat)
    | None => decode_line data END_COMMAND checksum strict false
    end.

Definition decode_packet (data : bytes) (checksum strict from_pci : bool)
    : decode_result :=
  match data with
  | [] => Ok (None, 0%nat)
  | _ :: _ =>
      if from_pci then decode_from_pci data checksum strict
      else decode_to_pci data checksum strict
  end.

(** ** Lemmas: from the base16 text on *)

(** The header the receiver of a packet builds. *)
Definition received_header (conf : option bytes) (h : header) : header :=
  {| checksum := checksum h; destination_address_type := destination_address_type h;
     rc := 0; dp := dp h; priority_class := priority_class h;
     confirmation := match source_address h with Some _ => None | None => conf end;
     source_address :=
       match source_address h with
       | Some s => if Z.land s 0xff =? 0 then None else Some (Z.land s 0xff)
       | None => None
       end |}.

Definition received (conf : option bytes) (p : packet) : packet :=
  map_header (received_header conf) (packet_image p).

(** A packet that the interface sends carries a source address. *)
Definition from_interface (h : header) : bool :=
  match source_address h with Some _ => true | None => false end.

Lemma finish_validate h p :
  (if checksum h then validate_cbus_checksum (finish h p) else Ok true) = Ok true /\
  (if checksum h then but_last (finish h p) else finish h p) = p.
Proof.
  unfold finish. destruct (checksum h); [|done].
  unfold add_cbus_checksum. rewrite but_last_snoc. split; [apply validate_add|done].
Qed.

Lemma finish_bytes h p : bytes_ok p -> bytes_ok (finish h p).
Proof.
  unfold finish. destruct (checksum h); [|done]. apply add_cbus_checksum_bytes.
Qed.

(** The types of the packets with a header are decoded by their own decoder. *)
Lemma valid_decoder p h :
  packet_valid p -> packet_header p = Some h ->
  direct_cal (destination_address_type h) (dp h) = false /\ rc h = 0 /\
  forall data cs prio,
    (if dp h then dm_decode data cs prio
     else decode_by_type (destination_address_type h) data cs prio) =
    payload_decode p data cs prio.
Proof.
  destruct p as [| | | | | |h' [a|] sals|h' hops br u cals|h' p v]; try done;
    unfold packet_valid; intros Hv [= <-];
    destruct Hv as (Hdat & Hrc & Hdp & _) || destruct Hv as (Hdat & Hrc & Hdp);
    rewrite Hdat, Hdp; done.
Qed.

Lemma decode_flags_packet p h body conf dm_cal consumed :
  packet_valid p -> packet_header p = Some h ->
  dm_cal = false \/ dp h = true ->
  (forall cs, payload_decode p body cs (priority_class h) =
      Ok (map_header (fun _ => base_header cs (destination_address_type h) 0 (dp h)
                                 (priority_class h)) (packet_image p))) ->
  decode_flags (flags h) (header_bytes h ++ body) (checksum h) (from_interface h)
    dm_cal conf consumed = (Some (DPacket (received conf p)), consumed).
Proof.
  intros Hv Hh Hdm Hd. destruct (valid_decoder p h Hv Hh) as (Hdir & Hrc & Hdec).
  destruct (flags_bits h Hrc) as (_ & E1 & E2 & E3).
  unfold decode_flags. rewrite E1, E2, E3, !enum_call_value. cbn [attempt].
  rewrite Hdir, andb_false_r.
  assert (negb (dp h) && dm_cal = false) as Hn by (destruct Hdm as [-> | ->];
    [apply andb_false_r|done]).
  unfold from_interface, header_bytes, received.
  assert (forall f g : header -> header, map_header f (map_header g (packet_image p)) =
    map_header (fun h => f (g h)) (packet_image p)) as Hmm by by destruct p.
  assert (forall f g : header -> header, f h = g h ->
    map_header f (packet_image p) = map_header g (packet_image p)) as Hext.
  { intros f g E. destruct p; try done; injection Hh as ->; simpl; by rewrite E. }
  destruct (source_address h) as [src|] eqn:Es; cbn [app drop attempt].
  - rewrite item_0, bind_Ok. cbn [attempt drop]. rewrite Hn, Hdec, Hd.
    cbn [attempt]. repeat f_equal. unfold route. cbn [negb].
    destruct (Z.land src 0xff =? 0) eqn:Ez; rewrite ?Hmm; apply Hext;
      unfold received_header; by rewrite Es, Ez.
  - rewrite drop_0, Hn, Hdec, Hd. cbn [attempt]. repeat f_equal. unfold route. cbn [negb].
    rewrite Hmm. apply Hext. unfold received_header. by rewrite Es.
Qed.

Lemma decode_text_packet p h b conf strict dm_cal consumed :
  packet_valid p -> packet_header p = Some h -> packet_encode p = Ok b ->
  dm_cal = false \/ dp h = true ->
  bytes_ok b /\ b <> [] /\
  decode_text (b16encode b) (checksum h) strict (from_interface h) dm_cal conf consumed =
    Ok (Some (DPacket (received conf p)), consumed).
Proof.
  intros Hv Hh He Hdm. destruct (packet_wire p h Hv Hh) as (body & Hb & Ee & Hd).
  assert (b = finish h (header_bytes h ++ body)) as -> by congruence.
  destruct (valid_decoder p h Hv Hh) as (_ & Hrc & _).
  destruct (base_encode_ok h Hrc) as [_ Hhb].
  assert (bytes_ok (finish h (header_bytes h ++ body))) as Hf.
  { apply finish_bytes. by apply Forall_app. }
  split; [done|]. split.
  { unfold finish, header_bytes. destruct (checksum h); done. }
  unfold decode_text. rewrite b16encode_hex_chars by done. cbn [negb].
  rewrite b16decode_encode, bind_Ok by done.
  destruct (finish_validate h (header_bytes h ++ body)) as [E1 E2].
  cbv beta zeta. rewrite E1, bind_Ok, E2. cbn [negb andb].
  assert (item (header_bytes h ++ body) 0 = Ok (flags h)) as -> by done.
  rewrite bind_Ok.
  by rewrite (decode_flags_packet p).
Qed.

(** ** Lemmas: lines and terminators *)

(** The text of a packet: base16 characters, never empty. *)
Lemma text_shape b :
  bytes_ok b -> b <> [] ->
  exists c d l, b16encode b = c :: d :: l /\
    (48 <= c <= 57 \/ 65 <= c <= 70) /\
    forall x, x ∈ b16encode b -> 48 <= x <= 57 \/ 65 <= x <= 70.
Proof.
  intros Hb Hne. destruct b as [|x b]; [done|].
  pose proof (fun y => b16encode_elem (x :: b) y Hb) as Hc.
  rewrite b16encode_cons in Hc |- *. eexists _, _, _. split; [done|].
  split; [|done]. apply Hc. constructor.
Qed.

Lemma find_sub_after c l r n :
  c ∉ l -> find_sub [c] (l ++ r) = Some n -> (length l <= n)%nat.
Proof.
  intros Hc Hn. apply find_sub_Some in Hn as [Hs _].
  destruct (Nat.lt_ge_cases n (length l)) as [Hlt|]; [|done]. exfalso. apply Hc.
  apply startswith_split in Hs. rewrite drop_app_le in Hs by lia.
  destruct (drop n l) as [|y l'] eqn:E.
  - apply (f_equal length) in E. rewrite length_drop in E. simpl in E. lia.
  - simpl in Hs. injection Hs as ->. rewrite <- (take_drop n l), E.
    apply elem_of_app. right. constructor.
Qed.

(** A line from the interface that is the text of some bytes. *)
Lemma decode_packet_from_pci b rest cs strict :
  bytes_ok b -> b <> [] ->
  decode_packet (b16encode b ++ END_RESPONSE ++ rest) cs strict true =
    decode_text (b16encode b) cs strict true false None
      (length (b16encode b) + 2).
Proof.
  intros Hb Hne. destruct (text_shape b Hb Hne) as (c & d & l & E & Hc & Hall).
  unfold decode_packet, decode_from_pci.
  assert (find_sub END_RESPONSE (b16encode b ++ END_RESPONSE ++ rest) =
    Some (length (b16encode b))) as Hf.
  { apply find_sub_end2. intros H%Hall. lia. }
  assert (take (length (b16encode b)) (b16encode b ++ END_RESPONSE ++ rest) =
    b16encode b) as Ht by apply take_app_length.
  unfold decode_line. rewrite Hf, Ht. rewrite E.
  assert (byte_in c CONFIRMATION_CODES = false) as Hcc.
  { destruct Hc; unfold byte_in; simpl; lia. }
  cbn [Datatypes.app startswith andb]. rewrite item_0, bind_Ok, Hcc, !andb_true_r.
  rewrite (proj2 (Z.eqb_neq 43 c)), (proj2 (Z.eqb_neq 33 c)) by lia.
  rewrite (proj2 (Z.ltb_ge _ _)); [done|].
  unfold len, MIN_MESSAGE_SIZE. simpl. lia.
Qed.

(** The command without its terminator. *)
Lemma decode_command_text b pre conf cs strict dm_cal consumed :
  bytes_ok b -> b <> [] ->
  (pre = [92] /\ dm_cal = false) \/ (pre = [] /\ dm_cal = true) ->
  match conf with Some c => byte_in c CONFIRMATION_CODES = true | None => True end ->
  decode_command (pre ++ b16encode b ++ option_list conf) cs strict consumed =
    decode_text (b16encode b) cs strict false dm_cal ((fun c => [c]) <$> conf) consumed.
Proof.
  intros Hb Hne Hpre Hconf.
  destruct (text_shape b Hb Hne) as (c & d & l & E & Hc & Hall).
  unfold decode_command.
  assert ((if startswith [64] (pre ++ b16encode b ++ option_list conf)
           then (drop 1 (pre ++ b16encode b ++ option_list conf), false, true)
           else if startswith [92] (pre ++ b16encode b ++ option_list conf)
           then (drop 1 (pre ++ b16encode b ++ option_list conf), cs, false)
           else (pre ++ b16encode b ++ option_list conf, cs, true)) =
          (b16encode b ++ option_list conf, cs, dm_cal)) as ->.
  { destruct Hpre as [[-> ->]|[-> ->]]; [by rewrite E|].
    rewrite E. cbn [Datatypes.app startswith andb]. rewrite !andb_true_r.
    by rewrite (proj2 (Z.eqb_neq 64 c)), (proj2 (Z.eqb_neq 92 c)) by lia. }
  destruct conf as [k|].
  - change (option_list (Some k)) with [k]. rewrite last_item_snoc, bind_Ok, but_last_snoc, Hconf.
    assert (byte_in k HEX_CHARS = false) as ->; [|done].
    apply byte_in_false. intros Hk%byte_in_spec%hex_chars_elem.
    unfold byte_in in Hconf. simpl in Hconf. lia.
  - change (option_list None) with (@nil Z). rewrite app_nil_r.
    destruct (last_item (b16encode b)) as [k|e] eqn:El;
      [|apply last_item_raise in El as [El _]; by rewrite E in El].
    rewrite bind_Ok. pose proof (b16encode_hex_chars b Hb) as Hx.
    rewrite forallb_forall in Hx. rewrite Hx; [done|].
    rewrite (last_item_split _ _ El). apply in_or_app. right. by left.
Qed.

(** A command to the interface: a mode prefix, text, and maybe a code. *)
Lemma decode_packet_to_pci b pre conf rest cs strict dm_cal :
  bytes_ok b -> b <> [] ->
  (pre = [92] /\ dm_cal = false) \/ (pre = [] /\ dm_cal = true) ->
  match conf with Some c => byte_in c CONFIRMATION_CODES = true | None => True end ->
  decode_packet (pre ++ b16encode b ++ option_list conf ++ END_COMMAND ++ rest)
    cs strict false =
    decode_text (b16encode b) cs strict false dm_cal ((fun c => [c]) <$> conf)
      (length (pre ++ b16encode b ++ option_list conf) + 1).
Proof.
  intros Hb Hne Hpre Hconf.
  destruct (text_shape b Hb Hne) as (c & d & l & E & Hc & Hall).
  set (line := pre ++ b16encode b ++ option_list conf).
  assert (forall x, x ∈ CONFIRMATION_CODES -> 103 <= x <= 122) as Hcodes.
  { intros x Hx. apply byte_in_spec in Hx. unfold byte_in in Hx. simpl in Hx. lia. }
  assert (forall x, x ∈ line -> x <> 13 /\ x <> 63) as Hline.
  { intros x. unfold line. rewrite !elem_of_app. intros [Hx|[Hx|Hx]].
    - destruct Hpre as [[-> _]|[-> _]]; [|by apply not_elem_of_nil in Hx].
      apply list_elem_of_singleton in Hx as ->. lia.
    - apply Hall in Hx. lia.
    - destruct conf as [k|]; simpl in Hx; [|by apply not_elem_of_nil in Hx].
      apply list_elem_of_singleton in Hx as ->. apply byte_in_spec, Hcodes in Hconf. lia. }
  assert (pre ++ b16encode b ++ option_list conf ++ END_COMMAND ++ rest =
    line ++ END_COMMAND ++ rest) as ->.
  { unfold line. by rewrite <- !app_assoc. }
  assert (find_sub END_COMMAND (line ++ END_COMMAND ++ rest) = Some (length line)) as Hf.
  { apply find_sub_end1. intros H%Hline. lia. }
  assert (cancel_position (line ++ END_COMMAND ++ rest) = None) as Hcp.
  { unfold cancel_position. rewrite Hf.
    destruct (find_sub [63] _) as [q|] eqn:Eq; [|done].
    apply find_sub_after in Eq; [|intros H%Hline; lia].
    by rewrite (proj2 (Nat.ltb_ge _ _)). }
  assert (exists y l', line = y :: l' /\ (y = 92 \/ 48 <= y <= 57 \/ 65 <= y <= 70))
    as (y & l' & El & Hy).
  { unfold line. destruct Hpre as [[-> _]|[-> _]]; simpl.
    - eexists _, _. split; [done|]. by left.
    - rewrite E. eexists _, _. split; [done|]. by right. }
  assert (forall z p, z <> y -> startswith (z :: p) (line ++ END_COMMAND ++ rest) = false)
    as Hsw.
  { intros z p Hz. rewrite El. simpl. by rewrite (proj2 (Z.eqb_neq z y)). }
  unfold decode_packet, decode_to_pci, NULL_TEXT, SMART_CONNECT.
  cbn [Datatypes.app]. rewrite !Hsw by lia. cbn [orb]. rewrite Hcp.
  assert (forall A (x k : A) (s : bytes), s <> [] ->
    match s with [] => x | _ :: _ => k end = k) as Hm by by intros ? ? ? [].
  unfold decode_line. rewrite Hf, take_app_length, !Hm by by rewrite El.
  by apply decode_command_text.
Qed.

(** ** Lemmas: lines with defects *)









(** ** Lemmas: stability *)

(** The decoder needs more bytes. *)
Definition waiting (r : decode_result) : bool :=
  match r with Ok (None, O) => true | _ => false end.

Lemma decode_line_app data term more cs strict from_pci :
  term <> [] ->
  waiting (decode_line data term cs strict from_pci) = false ->
  decode_line (data ++ more) term cs strict from_pci =
    decode_line data term cs strict from_pci.
Proof.
  intros Ht. unfold decode_line. destruct (find_sub term data) as [e|] eqn:E; [|done].
  intros _. rewrite (find_sub_app term data more e) by done.
  apply find_sub_Some in E as [_ Hl]. by rewrite take_app_le by lia.
Qed.

Lemma startswith_short p data more :
  startswith p data = false -> startswith p (data ++ more) = true ->
  exists q, p = data ++ q /\ q <> [].
Proof.
  revert data. induction p as [|x p IH]; intros [|y data]; simpl; try done.
  - intros _ _. by eexists.
  - destruct (x =? y) eqn:E; simpl; [|done]. apply Z.eqb_eq in E as ->.
    intros Hf Hs. destruct (IH data Hf Hs) as (q & -> & Hq). by exists q.
Qed.

(** A prefix that only shows once more bytes arrive is found in a buffer that
    had no terminator. *)
Lemma startswith_stable p c data more :
  c ∉ but_last p -> find_sub [c] data <> None ->
  startswith p (data ++ more) = startswith p data.
Proof.
  intros Hc Hf. destruct (startswith p data) eqn:E; [by apply startswith_app|].
  destruct (startswith p (data ++ more)) eqn:E'; [|done]. exfalso.
  destruct (startswith_short p data more E E') as (q & -> & Hq).
  apply Hf, find_sub_absent. intros Hin. apply Hc.
  destruct (exists_last Hq) as (q' & x & ->). rewrite app_assoc, but_last_snoc.
  apply elem_of_app. by left.
Qed.

Lemma decode_from_pci_app data more cs strict :
  data <> [] ->
  waiting (decode_from_pci data cs strict) = false ->
  decode_from_pci (data ++ more) cs strict = decode_from_pci data cs strict.
Proof.
  destruct data as [|x [|y data]]; [done| |]; intros _ Hw;
    unfold decode_from_pci in *.
  - cbn [Datatypes.app startswith] in *. rewrite !andb_true_r in *.
    destruct (43 =? x); [done|]. destruct (33 =? x); [done|].
    change (len [x] <? MIN_MESSAGE_SIZE) with true in Hw. done.
  - cbn [Datatypes.app startswith] in *. rewrite !andb_true_r in *.
    destruct (43 =? x); [done|]. destruct (33 =? x); [done|].
    assert (forall l : bytes, (len (x :: y :: l) <? MIN_MESSAGE_SIZE) = false) as Hlen.
    { intros l. apply Z.ltb_ge. unfold len, MIN_MESSAGE_SIZE. simpl. lia. }
    rewrite !Hlen in *. rewrite !item_0, !bind_Ok in *.
    destruct (byte_in x CONFIRMATION_CODES); [done|].
    apply (decode_line_app (x :: y :: data) END_RESPONSE more); done.
Qed.

Lemma cancel_position_app data more :
  find_sub END_COMMAND data <> None ->
  cancel_position (data ++ more) = cancel_position data.
Proof.
  intros Hne. unfold cancel_position.
  destruct (find_sub END_COMMAND data) as [n|] eqn:En; [|done].
  rewrite (find_sub_app END_COMMAND data more n) by done.
  destruct (find_sub [63] data) as [q|] eqn:Eq.
  - by rewrite (find_sub_app [63] data more q).
  - destruct (find_sub [63] (data ++ more)) as [q|] eqn:Eq'; [|done].
    apply find_sub_after in Eq'.
    + apply find_sub_Some in En as [_ Hn]. simpl in Hn.
      by rewrite (proj2 (Nat.ltb_ge _ _)) by lia.
    + by apply find_sub_None.
Qed.

Lemma decode_to_pci_app data more cs strict :
  data <> [] ->
  waiting (decode_to_pci data cs strict) = false ->
  decode_to_pci (data ++ more) cs strict = decode_to_pci data cs strict.
Proof.
  intros Hne Hw. unfold decode_to_pci in *.
  assert (startswith [126] (data ++ more) = startswith [126] data) as ->.
  { destruct data; [done|]. simpl. by rewrite !andb_true_r. }
  destruct (startswith [126] data); [done|].
  destruct (startswith NULL_TEXT data) eqn:En.
  { by rewrite (startswith_app _ _ more En). }
  destruct (find_sub END_COMMAND data) as [n|] eqn:Ef.
  - assert (forall p, 13 ∉ but_last p ->
      startswith p (data ++ more) = startswith p data) as Hst.
    { intros p Hp. apply (startswith_stable p 13); [done|].
      change [13] with END_COMMAND. by rewrite Ef. }
    rewrite !Hst by (apply byte_in_false; reflexivity).
    rewrite En, (find_sub_app END_COMMAND data more n), cancel_position_app
      by (done || by rewrite Ef).
    destruct (_ || _); [done|].
    destruct (cancel_position data); [done|]. by apply decode_line_app.
  - exfalso. destruct (_ || _) eqn:Es.
    + apply orb_true_iff in Es as [Es|Es]; apply startswith_split in Es;
        rewrite Es in Ef; discriminate Ef.
    + unfold cancel_position in Hw. rewrite Ef in Hw.
      unfold decode_line in Hw. rewrite Ef in Hw. by destruct (find_sub [63] data).
Qed.

(** ** Lemmas: bytes consumed and exceptions *)

(** What a decoded line reports as consumed, given where the line ends. *)
Definition consumed_ok (from_pci : bool) (line_end : nat) (r : option decoded) (n : nat)
    : Prop :=
  match r with
  | Some (DCal _) => from_pci = false /\ (line_end < n)%nat
  | _ => n = line_end
  end.

Lemma attempt_consumed {A} data consumed (r : result A) k from_pci :
  (forall a, r = Ok a -> consumed_ok from_pci consumed (k a).1 (k a).2) ->
  consumed_ok from_pci consumed (attempt data consumed r k).1 (attempt data consumed r k).2.
Proof. destruct r; simpl; [by auto|done]. Qed.

Lemma decode_cal_positive data c n : decode_cal data = Ok (c, n) -> (1 <= n)%nat.
Proof. intros [?|[_ ?]]%decode_cal_length; lia. Qed.

Lemma decode_flags_consumed fl data cs from_pci dm_cal conf consumed :
  (from_pci = true -> dm_cal = false) ->
  let r := decode_flags fl data cs from_pci dm_cal conf consumed in
  consumed_ok from_pci consumed r.1 r.2.
Proof.
  intros Hdm. cbv zeta. unfold decode_flags.
  apply attempt_consumed; intros dat _. apply attempt_consumed; intros prio _.
  destruct (from_pci && direct_cal _ _); [by apply attempt_consumed|].
  apply attempt_consumed; intros src _.
  destruct (negb _ && dm_cal) eqn:E; [|by apply attempt_consumed].
  apply attempt_consumed; intros [c n] Hc%decode_cal_positive. simpl.
  apply andb_true_iff in E as [_ ->]. split; [|lia].
  destruct from_pci; [by specialize (Hdm eq_refl)|done].
Qed.

Lemma decode_text_consumed data cs strict from_pci dm_cal conf consumed r n :
  (from_pci = true -> dm_cal = false) ->
  decode_text data cs strict from_pci dm_cal conf consumed = Ok (r, n) ->
  consumed_ok from_pci consumed r n.
Proof.
  intros Hdm. unfold decode_text. destruct (negb _); [by intros [= <- <-]|].
  intros (d & _ & H)%result_bind_Ok. apply result_bind_Ok in H as (v & _ & H).
  destruct (negb v && strict); [by injection H as <- <-|].
  apply result_bind_Ok in H as (fl & _ & H). injection H as H.
  pose proof (decode_flags_consumed fl (if cs then but_last d else d) cs from_pci
    dm_cal conf consumed Hdm) as Hc. cbv zeta in Hc. by rewrite H in Hc.
Qed.

Lemma decode_command_consumed data cs strict consumed r n :
  decode_command data cs strict consumed = Ok (r, n) ->
  consumed_ok false consumed r n.
Proof.
  unfold decode_command. destruct (if startswith [64] data then _ else _) as [[d c] dm].
  intros (x & _ & H)%result_bind_Ok. destruct (byte_in x HEX_CHARS).
  - by apply decode_text_consumed in H.
  - destruct (negb _ && strict); [by injection H as <- <-|].
    by apply decode_text_consumed in H.
Qed.

Lemma decode_line_consumed data term cs strict from_pci r n :
  decode_line data term cs strict from_pci = Ok (r, n) ->
  match find_sub term data with
  | Some e => consumed_ok from_pci (e + length term) r n
  | None => r = None /\ n = 0%nat
  end.
Proof.
  unfold decode_line. destruct (find_sub term data) as [e|]; [|by intros [= <- <-]].
  destruct (take e data); [by intros [= <- <-]|].
  destruct from_pci; [by apply decode_text_consumed|by apply decode_command_consumed].
Qed.

(** The exceptions that escape from the decoder. *)
Definition escape_exn (e : exn) : Prop := e = IndexError \/ e = BinasciiError.

Lemma b16decode_raise s e : b16decode s = Raise e -> e = BinasciiError.
Proof.
  induction s as [s IH] using (induction_ltof1 _ length).
  destruct s as [|h [|l s]]; simpl; [done|by intros [= <-]|].
  destruct (hex_value h); [|by intros [= <-]].
  destruct (hex_value l); [|by intros [= <-]].
  intros [H|(? & _ & H)]%result_bind_Raise; [|done].
  apply IH in H; [done|]. unfold ltof. simpl. lia.
Qed.

Lemma decode_text_raise data cs strict from_pci dm_cal conf consumed e :
  decode_text data cs strict from_pci dm_cal conf consumed = Raise e -> escape_exn e.
Proof.
  unfold decode_text, escape_exn, validate_cbus_checksum. intros H. follow_result;
    repeat match goal with
    | H : b16decode _ = Raise _ |- _ => apply b16decode_raise in H
    | H : last_item _ = Raise _ |- _ => apply last_item_raise in H as [_ H]
    | H : item _ _ = Raise _ |- _ => apply item_raise in H
    end; subst; tauto.
Qed.

Lemma decode_line_raise data term cs strict from_pci e :
  decode_line data term cs strict from_pci = Raise e -> escape_exn e.
Proof.
  unfold decode_line. destruct (find_sub term data) as [k|]; [|done].
  destruct (take k data); [done|]. destruct from_pci; [by apply decode_text_raise|].
  unfold decode_command. destruct (if startswith [64] _ then _ else _) as [[d c] dm].
  intros [H|(x & _ & H)]%result_bind_Raise.
  - apply last_item_raise in H as [_ ->]. by left.
  - destruct (byte_in x HEX_CHARS); [by apply decode_text_raise in H|].
    destruct (negb _ && strict); [done|]. by apply decode_text_raise in H.
Qed.

Lemma confirmation_new_byte c l s :
  byte_in c CONFIRMATION_CODES = true ->
  confirmation_new (take 1 (c :: l)) s = Ok (ConfirmationPacket [c] s).
Proof.
  intros H. unfold confirmation_new. cbv zeta. change (take 1 (take 1 (c :: l))) with [c].
  destruct (find_sub [c] CONFIRMATION_CODES) eqn:E; [done|].
  apply find_sub_None in E. by apply byte_in_spec in H.
Qed.

Lemma decode_packet_stable data more cs strict from_pci :
  waiting (decode_packet data cs strict from_pci) = false ->
  decode_packet (data ++ more) cs strict from_pci =
    decode_packet data cs strict from_pci.
Proof.
  destruct data as [|x data]; [done|].
  change (decode_packet ((x :: data) ++ more) cs strict from_pci) with
    (if from_pci then decode_from_pci ((x :: data) ++ more) cs strict
     else decode_to_pci ((x :: data) ++ more) cs strict).
  unfold decode_packet. destruct from_pci; intros Hw.
  - by apply decode_from_pci_app.
  - by apply decode_to_pci_app.
Qed.

Lemma decode_packet_bound data cs strict from_pci r n :
  decode_packet data cs strict from_pci = Ok (r, n) ->
  match r with
  | Some (DPacket _) => (1 <= n <= length data)%nat
  | None => (n <= length data)%nat
  | Some (DCal _) => from_pci = false /\
      exists e, find_sub END_COMMAND data = Some e /\ (e + 1 < n)%nat
  end.
Proof.
  unfold decode_packet. destruct data as [|x data]; [intros [= <- <-]; simpl; lia|].
  destruct from_pci.
  - unfold decode_from_pci. destruct (startswith [43] _); [intros [= <- <-]; simpl; lia|].
    destruct (startswith [33] _); [intros [= <- <-]; simpl; lia|].
    destruct (len _ <? _) eqn:El; [intros [= <- <-]; lia|].
    rewrite item_0, bind_Ok. destruct (byte_in x CONFIRMATION_CODES) eqn:Ec.
    + intros (d1 & _ & H)%result_bind_Ok. rewrite confirmation_new_byte in H by done.
      injection H as <- <-. apply Z.ltb_ge in El. unfold len, MIN_MESSAGE_SIZE in El. lia.
    + intros H%decode_line_consumed. destruct (find_sub END_RESPONSE _) as [e|] eqn:E.
      * apply find_sub_Some in E as [_ He]. change (length END_RESPONSE) with 2%nat in *.
        destruct r as [[p|c]|]; simpl in H; [lia|by destruct H|lia].
      * destruct H as [-> ->]. lia.
  - unfold decode_to_pci. destruct (startswith [126] _); [intros [= <- <-]; simpl; lia|].
    destruct (startswith NULL_TEXT _) eqn:En.
    { intros [= <- <-]. apply startswith_split, (f_equal length) in En.
      rewrite length_app in En. simpl in *. lia. }
    destruct (startswith _ _ || _) eqn:Es.
    { destruct (find_sub END_COMMAND _) as [e|] eqn:E; intros [= <- <-].
      - apply find_sub_Some in E as [_ He]. change (length END_COMMAND) with 1%nat in He. lia.
      - apply orb_true_iff in Es as [Es|Es]; apply startswith_split in Es;
          rewrite Es in E; discriminate E. }
    destruct (cancel_position _) as [q|] eqn:Eq.
    { intros [= <- <-]. unfold cancel_position in Eq.
      destruct (find_sub [63] _) as [q'|] eqn:E; [|done]. apply find_sub_Some in E as [_ He].
      destruct (find_sub END_COMMAND _); [|done]. destruct (_ <? _)%nat; [|done].
      injection Eq as ->. simpl in *. lia. }
    intros H%decode_line_consumed. destruct (find_sub END_COMMAND _) as [e|] eqn:E.
    + pose proof E as E'. apply find_sub_Some in E as [_ He].
      change (length END_COMMAND) with 1%nat in *.
      destruct r as [[p|c]|]; simpl in H; [lia|split; [done|]; exists e; tauto|lia].
    + destruct H as [-> ->]. lia.
Qed.

Lemma from_pci_wire p h rest strict :
  packet_valid p -> packet_header p = Some h -> from_interface h = true ->
  exists t, encode_packet p = Ok t /\
    decode_packet (t ++ END_RESPONSE ++ rest) (checksum h) strict true =
      Ok (Some (DPacket (received None p)), (length t + 2)%nat).
Proof.
  intros Hv Hh Hsrc. destruct (packet_wire p h Hv Hh) as (body & Hb & Ee & _).
  destruct (decode_text_packet p h _ None strict false
    (length (b16encode (finish h (header_bytes h ++ body))) + 2) Hv Hh Ee) as
    (Hbok & Hne & Hd); [by left|].
  exists (b16encode (finish h (header_bytes h ++ body))). split.
  - unfold encode_packet. rewrite Ee, bind_Ok. by destruct p.
  - rewrite decode_packet_from_pci by done. by rewrite Hsrc in Hd.
Qed.

Lemma to_pci_wire p h pre conf rest strict :
  packet_valid p -> packet_header p = Some h -> from_interface h = false ->
  pre = [92] \/ (pre = [] /\ dp h = true) ->
  match conf with Some c => byte_in c CONFIRMATION_CODES = true | None => True end ->
  exists t, encode_packet p = Ok t /\
    decode_packet (pre ++ t ++ option_list conf ++ END_COMMAND ++ rest)
      (checksum h) strict false =
      Ok (Some (DPacket (received ((fun c => [c]) <$> conf) p)),
          (length (pre ++ t ++ option_list conf) + 1)%nat).
Proof.
  intros Hv Hh Hsrc Hpre Hconf. destruct (packet_wire p h Hv Hh) as (body & Hb & Ee & _).
  set (t := b16encode (finish h (header_bytes h ++ body))).
  set (dm_cal := match pre with [] => true | _ => false end).
  assert (dm_cal = false \/ dp h = true) as Hdm.
  { destruct Hpre as [->|[-> ?]]; [by left|by right]. }
  destruct (decode_text_packet p h _ ((fun c => [c]) <$> conf) strict dm_cal
    (length (pre ++ t ++ option_list conf) + 1) Hv Hh Ee Hdm) as (Hbok & Hne & Hd).
  exists t. split.
  - unfold encode_packet. rewrite Ee, bind_Ok. by destruct p.
  - unfold t. rewrite (decode_packet_to_pci _ _ _ _ _ _ dm_cal); try done.
    + by rewrite Hsrc in Hd.
    + destruct Hpre as [->|[-> _]]; [by left|by right].
Qed.

Lemma received_carried conf p : packet_valid p -> packet_carried conf p (received conf p).
Proof.
  intros Hv. assert (received conf p = map_header (header_carried conf) (packet_image p)) as ->;
    [|by apply packet_image_carried].
  assert (forall h, received_header conf h = header_carried conf h) as Hh.
  { intros [cs dat r d prio cf [x|]]; [|done]. unfold received_header, header_carried. cbn.
    by rewrite land_ff_mod. }
  unfold received. destruct p; try done; cbn [packet_image map_header]; by rewrite Hh.
Qed.

(** ** Properties *)

(** C17. A packet that the interface sends (it carries a source address, with or
    without a checksum) is decoded, whatever follows it in the buffer, and exactly its
    line is consumed. What is decoded is the packet itself when the wire holds all its
    numbers ([packet_exact]), and otherwise differs from it only in what the wire rounds
    ([packet_carried]): a ramp takes the next of the sixteen times, a temperature is
    rounded down to a quarter degree, fractions of a second and what exceeds a byte are
    lost, and a source of 0 is read as none. *)
Theorem packet_from_pci_roundtrip p h rest strict :
  packet_valid p -> packet_header p = Some h -> from_interface h = true ->
  exists t q, encode_packet p = Ok t /\
    decode_packet (t ++ END_RESPONSE ++ rest) (checksum h) strict true =
      Ok (Some (DPacket q), (length t + 2)%nat) /\
    packet_carried None p q /\ (packet_exact None p -> q = p).
Proof.
  intros Hv Hh Hs. destruct (from_pci_wire p h rest strict Hv Hh Hs) as (t & Et & Ed).
  exists t, (received None p). split; [done|]. split; [done|].
  pose proof (received_carried None p Hv) as Hc. split; [done|]. by apply packet_carried_exact.
Qed.

Definition pm_sample : packet :=
  PointToMultipointPacket
    {| checksum := true;
       destination_address_type := DestinationAddressType.POINT_TO_MULTIPOINT;
       rc := 0; dp := false; priority_class := PriorityClass.CLASS_4;
       confirmation := None; source_address := Some 5 |}
    (Some 0x38) (map SLighting lighting_sample).

(** The ramp of five seconds in it is read as one of eight; its end, as it is. *)
Example packet_from_pci_roundtrip_witness :
  exists t q, encode_packet pm_sample = Ok t /\
    decode_packet (t ++ END_RESPONSE ++ [43]) true true true =
      Ok (Some (DPacket q), (length t + 2)%nat) /\
    packet_carried None pm_sample q /\ (packet_exact None pm_sample -> q = pm_sample).
Proof.
  refine (packet_from_pci_roundtrip pm_sample _ [43] true _ eq_refl eq_refl).
  unfold pm_sample, packet_valid, lighting_sample.
  repeat split; repeat constructor; simpl; lia.
Defined.

(** C18. A command that the client sends to the interface (no source address) is
    decoded by the interface's side, with the confirmation code that followed it, if
    any, to the packet itself when the wire holds all its numbers, and otherwise to one
    that differs only in what the wire rounds; a device management command may also be
    sent without the escape character. *)
Theorem packet_to_pci_roundtrip p h pre conf rest strict :
  packet_valid p -> packet_header p = Some h -> from_interface h = false ->
  pre = [92] \/ (pre = [] /\ dp h = true) ->
  match conf with Some c => byte_in c CONFIRMATION_CODES = true | None => True end ->
  let code := (fun c => [c]) <$> conf in
  exists t q, encode_packet p = Ok t /\
    decode_packet (pre ++ t ++ option_list conf ++ END_COMMAND ++ rest)
      (checksum h) strict false =
      Ok (Some (DPacket q), (length (pre ++ t ++ option_list conf) + 1)%nat) /\
    packet_carried code p q /\ (packet_exact code p -> q = p).
Proof.
  intros Hv Hh Hs Hpre Hconf code.
  destruct (to_pci_wire p h pre conf rest strict Hv Hh Hs Hpre Hconf) as (t & Et & Ed).
  exists t, (received code p). split; [done|]. split; [done|].
  pose proof (received_carried code p Hv) as Hc. split; [done|]. by apply packet_carried_exact.
Qed.

Example packet_to_pci_roundtrip_witness :
  let p := map_header (set_routing (Some [103]) None) (dm_new false PriorityClass.CLASS_2 0x21 0xff) in
  exists t, encode_packet p = Ok t /\
    decode_packet ([] ++ t ++ option_list (Some 103) ++ END_COMMAND ++ [126])
      false true false =
      Ok (Some (DPacket p), (length ([] ++ t ++ option_list (Some 103%Z)) + 1)%nat).
Proof.
  intros p. destruct (packet_to_pci_roundtrip p
    (set_routing (Some [103]) None (base_header false DestinationAddressType.POINT_TO_POINT_TO_MULTIPOINT
       0 true PriorityClass.CLASS_2)) [] (Some 103) [126] true) as (t & q & Et & Ed & _ & Hq).
  - repeat split.
  - reflexivity.
  - reflexivity.
  - right. split; reflexivity.
  - reflexivity.
  - exists t. split; [exact Et|]. rewrite <- Hq at 1; [exact Ed|].
    split; [reflexivity|]. split; unfold byte_ok; lia.
Defined.

(** C20. The decoder is incremental: once it has reported anything for a buffer
    (a packet, discarded bytes or an exception), bytes that arrive later do not
    change that report. *)
Theorem decode_packet_incremental data more cs strict from_pci :
  waiting (decode_packet data cs strict from_pci) = false ->
  decode_packet (data ++ more) cs strict from_pci =
    decode_packet data cs strict from_pci.
Proof. apply decode_packet_stable. Qed.

Example decode_packet_incremental_witness :
  decode_packet ([103; 46] ++ [13; 10]) true true true =
    decode_packet [103; 46] true true true.
Proof. apply (decode_packet_incremental [103; 46] [13; 10]). reflexivity. Defined.

(** How much the decoder consumes. A packet always consumes something and
    never more than the buffer holds, and so do discarded bytes; but a bare CAL
    sent to the interface reports its own length on top of its whole line, so
    that bytes of the next command are dropped with it. *)
Theorem decode_packet_consumed data cs strict from_pci r n :
  decode_packet data cs strict from_pci = Ok (r, n) ->
  match r with
  | Some (DPacket _) => (1 <= n <= length data)%nat
  | None => (n <= length data)%nat
  | Some (DCal _) => from_pci = false /\
      exists e, find_sub END_COMMAND data = Some e /\ (e + 1 < n)%nat
  end.
Proof. apply decode_packet_bound. Qed.

(** A reset command after a bare CAL: its bytes count as consumed. *)
Example decode_packet_consumed_witness :
  decode_packet [48; 48; 50; 49; 48; 49; 13; 126] false true false =
    Ok (Some (DCal (IdentifyCAL 1)), 9%nat) /\
  false = false /\ exists e, find_sub END_COMMAND
    [48; 48; 50; 49; 48; 49; 13; 126] = Some e /\ (e + 1 < 9)%nat.
Proof.
  split; [reflexivity|].
  apply (decode_packet_consumed [48; 48; 50; 49; 48; 49; 13; 126] false true false
    (Some (DCal (IdentifyCAL 1))) 9).
  reflexivity.
Defined.

(** The only exceptions that leave the decoder, on any bytes in either direction. *)
Theorem decode_packet_escapes data cs strict from_pci e :
  decode_packet data cs strict from_pci = Raise e -> e = IndexError \/ e = BinasciiError.
Proof.
  unfold decode_packet. destruct data as [|x data]; [done|]. destruct from_pci.
  - unfold decode_from_pci. repeat (destruct (startswith _ _); [done|]).
    destruct (len _ <? _); [done|]. rewrite item_0, bind_Ok.
    destruct (byte_in x CONFIRMATION_CODES) eqn:Ec.
    + intros [H%item_raise|(d1 & _ & H)]%result_bind_Raise; [by left|].
      by rewrite confirmation_new_byte in H.
    + intros H. by apply decode_line_raise in H.
  - unfold decode_to_pci. repeat (destruct (startswith _ _); [done|]).
    destruct (_ || _); [by destruct (find_sub _ _)|].
    destruct (cancel_position _); [done|]. intros H. by apply decode_line_raise in H.
Qed.



(** A line of three digits. *)
Example decode_packet_escapes_witness :
  decode_packet [48; 53; 51; 13; 10] true true true = Raise BinasciiError /\
  (BinasciiError = IndexError \/ BinasciiError = BinasciiError).
Proof.
  split; [reflexivity|].
  apply (decode_packet_escapes [48; 53; 51; 13; 10] true true true). reflexivity.
Defined.
