(* ===== verification/Buffered.v ===== *)
(** * Buffered protocols: [cbus/protocol/buffered_protocol.py] and
      [cbus/protocol/cbus_protocol.py]

    How received chunks become calls of [handle_data], and how [CBusProtocol]
    turns those into decoded packets for its handler. The handler is a
    parameter: [Pci] and [PciServer] supply theirs. *)

From S2P Require Import Prelude Common Hex Lighting Application Packet Decode.
From stdpp Require Import options.

Local Open Scope Z_scope.

(** ** BufferedProtocol *)

Section buffered.

(** The state of the subclass, and its [handle_data], which may change that
    state before it returns or raises. *)
Context {S : Type} (handle_data : S -> bytes -> S * result Z).

Record buffered := {
  _buf : bytes;
  _size_limit : Z;
  _closed : bool;
  inner : S
}.

Definition buffered_init (size_limit : Z) (s : S) : buffered :=
  {| _buf := []; _size_limit := size_limit; _closed := false; inner := s |}.

(** The loop of [_process_buffer]: the buffer, the state, and how it ended. *)
Fixpoint process_fuel (fuel : nat) (buf : bytes) (s : S) : bytes * S * result unit :=
  match buf with
  | [] => ([], s, Ok tt)
  | _ :: _ =>
      match fuel with
      | O => (buf, s, Raise OutOfFuel)
      | Datatypes.S fuel =>
          match handle_data s buf with
          | (s, Raise e) => (buf, s, Raise e)
          | (s, Ok r) =>
              if r <? 0 then ([], s, if r =? -1 then Ok tt else Raise ValueError)
              else if 0 <? r then process_fuel fuel (drop (Z.to_nat r) buf) s
              else (buf, s, Ok tt)
          end
      end
  end.

(** Every turn that goes on drops a byte: one unit of fuel per byte. *)
Definition _process_buffer (buf : bytes) (s : S) : bytes * S * result unit :=
  process_fuel (length buf) buf s.

Definition clear_buf (p : buffered) : buffered :=
  {| _buf := []; _size_limit := _size_limit p; _closed := _closed p; inner := inner p |}.

(** Every exception is caught: the buffer is dropped. *)
Definition data_received (p : buffered) (data : bytes) : buffered :=
  if _closed p then p
  else if _size_limit p <? len data then clear_buf p
  else if _size_limit p <? len (_buf p) + len data then clear_buf p
  else
    let '(buf, s, r) := _process_buffer (_buf p ++ data) (inner p) in
    {| _buf := match r with Ok _ => buf | Raise _ => [] end;
       _size_limit := _size_limit p; _closed := _closed p; inner := s |}.

Definition close (p : buffered) : buffered :=
  if _closed p then p
  else {| _buf := []; _size_limit := _size_limit p; _closed := true; inner := inner p |}.

Definition connection_lost (p : buffered) : buffered := close p.

(** What a connection can see: chunks, and its end. *)
Inductive buffered_event :=
| DataReceived (data : bytes)
| ConnectionLost.

Definition buffered_step (p : buffered) (e : buffered_event) : buffered :=
  match e with
  | DataReceived data => data_received p data
  | ConnectionLost => connection_lost p
  end.

(** *** Termination *)

Lemma drop_shorter {A} (r : Z) (buf : list A) :
  0 < r -> buf <> [] -> (length (drop (Z.to_nat r) buf) < length buf)%nat.
Proof.
  intros Hr Hne. rewrite length_drop. destruct buf; [done|]. simpl. lia.
Qed.

Lemma process_fuel_enough n m buf s :
  (length buf <= n)%nat -> (length buf <= m)%nat ->
  process_fuel n buf s = process_fuel m buf s.
Proof.
  revert m buf s. induction n as [|n IH]; intros [|m] [|x buf] s Hn Hm;
    cbn [process_fuel] in *; try done; try (simpl in *; lia).
  destruct (handle_data s (x :: buf)) as [s' [r|e]]; [|done].
  destruct (r <? 0); [done|]. destruct (Z.ltb_spec 0 r) as [Hr|]; [|done].
  pose proof (drop_shorter r (x :: buf) Hr ltac:(done)). simpl in *.
  apply IH; lia.
Qed.

(** One turn of the loop. *)
Lemma process_step buf s :
  buf <> [] ->
  _process_buffer buf s =
    match handle_data s buf with
    | (s, Raise e) => (buf, s, Raise e)
    | (s, Ok r) =>
        if r <? 0 then ([], s, if r =? -1 then Ok tt else Raise ValueError)
        else if 0 <? r then _process_buffer (drop (Z.to_nat r) buf) s
        else (buf, s, Ok tt)
    end.
Proof.
  intros Hne. unfold _process_buffer at 1. destruct buf as [|x buf]; [done|].
  cbn [length process_fuel].
  destruct (handle_data s (x :: buf)) as [s' [r|e]]; [|done].
  destruct (r <? 0); [done|]. destruct (Z.ltb_spec 0 r) as [Hr|]; [|done].
  pose proof (drop_shorter r (x :: buf) Hr ltac:(done)). simpl in *.
  apply process_fuel_enough; lia.
Qed.

Lemma process_nil s : _process_buffer [] s = ([], s, Ok tt).
Proof. done. Qed.

(** Induction on the bytes that are left. *)
Lemma process_ind (P : bytes -> S -> Prop) :
  (forall s, P [] s) ->
  (forall buf s, buf <> [] ->
     (forall s' r, handle_data s buf = (s', Ok r) -> 0 < r ->
        P (drop (Z.to_nat r) buf) s') -> P buf s) ->
  forall buf s, P buf s.
Proof.
  intros Hnil Hstep buf. induction buf as [buf IH] using (induction_ltof1 _ length).
  intros s. destruct buf as [|x buf]; [apply Hnil|].
  apply Hstep; [done|]. intros s' r _ Hr. apply IH. by apply drop_shorter.
Qed.

Lemma process_length buf s :
  (length (_process_buffer buf s).1.1 <= length buf)%nat.
Proof.
  induction buf, s as [s|buf s Hne IH] using process_ind; [simpl; lia|].
  rewrite process_step by done.
  destruct (handle_data s buf) as [s' [r|e]]; [|done].
  destruct (r <? 0); [simpl; lia|]. destruct (Z.ltb_spec 0 r) as [Hr|]; [|done].
  etrans; [by apply IH|]. by apply Nat.lt_le_incl, drop_shorter.
Qed.

(** *** Handlers that do not look past the message they report *)

Class Incremental := {
  inc_wait : forall s buf s', handle_data s buf = (s', Ok 0) -> s' = s;
  inc_stable : forall s buf more, (handle_data s buf).2 <> Ok 0 ->
    handle_data s (buf ++ more) = handle_data s buf;
  inc_bound : forall s buf s' r, handle_data s buf = (s', Ok r) ->
    0 <= r <= len buf
}.

(** Bytes that arrive later may as well have been there from the start. *)
Lemma process_app `{Incremental} buf more s :
  match _process_buffer buf s with
  | (rest, s', Ok _) => _process_buffer (buf ++ more) s = _process_buffer (rest ++ more) s'
  | (_, s', Raise e) => exists rest,
      _process_buffer (buf ++ more) s = (rest, s', Raise e)
  end.
Proof.
  induction buf, s as [s|buf s Hne IH] using process_ind; [done|].
  rewrite process_step by done.
  destruct (handle_data s buf) as [s' [r|e]] eqn:E.
  - pose proof (inc_bound _ _ _ _ E) as Hr. rewrite (proj2 (Z.ltb_ge r 0)) by lia.
    destruct (Z.ltb_spec 0 r) as [Hpos|].
    + specialize (IH s' r eq_refl Hpos).
      assert (_process_buffer (buf ++ more) s =
        _process_buffer (drop (Z.to_nat r) buf ++ more) s') as ->; [|exact IH].
      rewrite process_step by by destruct buf.
      rewrite inc_stable by (rewrite E; simpl; intros [=]; lia). rewrite E.
      rewrite (proj2 (Z.ltb_ge r 0)), (proj2 (Z.ltb_lt 0 r)) by lia.
      rewrite drop_app_le; [done|]. unfold len in Hr. lia.
    + assert (r = 0) as -> by lia. by apply inc_wait in E as ->.
  - rewrite process_step by by destruct buf.
    rewrite inc_stable by by rewrite E. rewrite E. by eexists.
Qed.

(** Received whole or in two chunks. *)
Lemma data_received_app `{Incremental} p a b :
  _closed p = false ->
  len (_buf p) + len a + len b <= _size_limit p ->
  (_process_buffer (_buf p ++ a ++ b) (inner p)).2 = Ok tt ->
  data_received (data_received p a) b = data_received p (a ++ b) /\
  _closed (data_received p a) = false /\
  _size_limit (data_received p a) = _size_limit p /\
  len (_buf (data_received p a)) + len b <= _size_limit p /\
  (_process_buffer (_buf (data_received p a) ++ b) (inner (data_received p a))).2 = Ok tt.
Proof.
  intros Hc Hl Hok. pose proof (process_app (_buf p ++ a) b (inner p)) as Happ.
  pose proof (process_length (_buf p ++ a) (inner p)) as Hlen.
  rewrite <- app_assoc in Happ. rewrite length_app in Hlen.
  unfold len in *.
  assert (data_received p (a ++ b) =
    let '(buf, s, r) := _process_buffer (_buf p ++ a ++ b) (inner p) in
    {| _buf := match r with Ok _ => buf | Raise _ => [] end;
       _size_limit := _size_limit p; _closed := _closed p; inner := s |}) as ->.
  { unfold data_received, len. rewrite Hc, length_app.
    by rewrite !(proj2 (Z.ltb_ge _ _)) by lia. }
  assert (data_received p a =
    let '(buf, s, r) := _process_buffer (_buf p ++ a) (inner p) in
    {| _buf := match r with Ok _ => buf | Raise _ => [] end;
       _size_limit := _size_limit p; _closed := _closed p; inner := s |}) as ->.
  { unfold data_received, len. rewrite Hc. by rewrite !(proj2 (Z.ltb_ge _ _)) by lia. }
  destruct (_process_buffer (_buf p ++ a) (inner p)) as [[rest s'] [u|e]]; simpl in Hlen.
  - rewrite Happ in Hok |- *. unfold data_received, len. simpl. rewrite Hc.
    rewrite !(proj2 (Z.ltb_ge _ _)) by lia.
    destruct (_process_buffer (rest ++ b) s') as [[rest' s''] r].
    repeat split; try done; lia.
  - destruct Happ as [rest' Happ]. by rewrite Happ in Hok.
Qed.

(** A chunk that is taken whole: it fits, and nothing raises. *)
Definition accepts (p : buffered) (data : bytes) : Prop :=
  _closed p = false /\ len (_buf p) + len data <= _size_limit p /\
  (_process_buffer (_buf p ++ data) (inner p)).2 = Ok tt.

Fixpoint accepts_all (p : buffered) (chunks : list bytes) : Prop :=
  match chunks with
  | [] => True
  | c :: chunks => accepts p c /\ accepts_all (data_received p c) chunks
  end.

(** What waits has been looked at. *)
Definition settled (p : buffered) : Prop :=
  _process_buffer (_buf p) (inner p) = (_buf p, inner p, Ok tt).

Lemma accepted `{Incremental} p data :
  accepts p data ->
  let q := data_received p data in
  _process_buffer (_buf p ++ data) (inner p) = (_buf q, inner q, Ok tt) /\
  settled q /\ _closed q = _closed p /\ _size_limit q = _size_limit p.
Proof.
  intros (Hc & Hl & Hok). unfold data_received, settled.
  pose proof (process_app (_buf p ++ data) [] (inner p)) as Happ. rewrite app_nil_r in Happ.
  rewrite Hc, !(proj2 (Z.ltb_ge _ _)) by (unfold len in *; lia).
  destruct (_process_buffer (_buf p ++ data) (inner p)) as [[rest s'] r] eqn:E.
  cbn in Hok. subst r. cbn [_buf inner _closed _size_limit]. rewrite app_nil_r in Happ.
  split; [done|]. by rewrite <- Happ.
Qed.

(** However accepted bytes were cut, the state is the one their whole leaves. *)
Lemma received_all `{Incremental} p chunks :
  settled p -> accepts_all p chunks ->
  let q := foldl data_received p chunks in
  _process_buffer (_buf p ++ concat chunks) (inner p) = (_buf q, inner q, Ok tt) /\
  _closed q = _closed p /\ _size_limit q = _size_limit p.
Proof.
  revert p. induction chunks as [|c chunks IH]; intros p Hs; cbn [accepts_all foldl concat].
  - intros _. by rewrite app_nil_r.
  - intros [Ha Hr]. destruct (accepted p c Ha) as (Hp & Hq & Hc & Hl).
    destruct (IH _ Hq Hr) as (Hall & Hc' & Hl').
    split; [|split; congruence]. rewrite <- Hall, app_assoc.
    pose proof (process_app (_buf p ++ c) (concat chunks) (inner p)) as Happ.
    by rewrite Hp in Happ.
Qed.

Lemma received_same `{Incremental} p chunks1 chunks2 :
  settled p -> accepts_all p chunks1 -> accepts_all p chunks2 ->
  concat chunks1 = concat chunks2 ->
  foldl data_received p chunks1 = foldl data_received p chunks2.
Proof.
  intros Hs H1 H2 E. destruct (received_all p chunks1 Hs H1) as (Hp1 & Hc1 & Hl1).
  destruct (received_all p chunks2 Hs H2) as (Hp2 & Hc2 & Hl2). rewrite E, Hp2 in Hp1.
  destruct (foldl data_received p chunks1), (foldl data_received p chunks2). cbn in *.
  injection Hp1 as -> ->. congruence.
Qed.

(** A relation that every packet keeps is kept by every chunk. *)
Lemma process_keeps (R : relation S) `{!PreOrder R} buf s :
  (forall s buf, R s (handle_data s buf).1) -> R s (_process_buffer buf s).1.2.
Proof.
  intros HR. unfold _process_buffer. generalize (length buf) as fuel.
  intros fuel. revert buf s. induction fuel as [|fuel IH]; intros [|b buf] s; cbn [process_fuel]; try done.
  pose proof (HR s (b :: buf)) as H. destruct (handle_data s (b :: buf)) as [s' [r|e]]; [|done].
  destruct (r <? 0); [done|]. destruct (0 <? r); [|done]. by etrans.
Qed.

Lemma received_keeps (R : relation S) `{!PreOrder R} p data :
  (forall s buf, R s (handle_data s buf).1) -> R (inner p) (inner (data_received p data)).
Proof.
  intros HR. unfold data_received. destruct (_closed p); [done|].
  destruct (_size_limit p <? len data); [done|]. destruct (_size_limit p <? _); [done|].
  pose proof (process_keeps R (_buf p ++ data) (inner p) HR) as H.
  by destruct (_process_buffer (_buf p ++ data) (inner p)) as [[rest s'] r].
Qed.

End buffered.

Arguments buffered_init {S} size_limit s.

(** ** CBusProtocol *)

Section cbus.

(** The state of the subclass, with what [CBusProtocol] reads of it, its
    packet handler, and its [echo]. *)
Context {S : Type} (emulate_pci : bool) (checksum_of : S -> bool).
Context (handle_cbus_packet : S -> decoded -> S * result unit).
Context (echo : S -> bytes -> S).

(** [CBusProtocol.handle_data]: decoding is strict. *)
Definition handle_data (s : S) (buf : bytes) : S * result Z :=
  match decode_packet buf (checksum_of s) true (negb emulate_pci) with
  | Raise e => (s, Raise e)
  | Ok (p, remainder) =>
      let s := if emulate_pci && (0 <? remainder)%nat
               then echo s (take remainder buf) else s in
      match p with
      | Some p =>
          match handle_cbus_packet s p with
          | (s, Ok _) => (s, Ok (Z.of_nat remainder))
          | (s, Raise e) => (s, Raise e)
          end
      | None => (s, Ok (Z.of_nat remainder))
      end
  end.

Definition cbus_init (s : S) : buffered := buffered_init MAX_BUFFER_SIZE s.

Definition cbus_received (p : buffered) (data : bytes) : buffered :=
  data_received handle_data p data.

End cbus.

(** *** The side that talks to an interface is incremental *)

Section cbus_client.
Context {S : Type} (checksum_of : S -> bool).
Context (handle_cbus_packet : S -> decoded -> S * result unit).
Context (echo : S -> bytes -> S).

(** The decoder's report decides what [handle_data] does. *)
Lemma handle_data_waiting s buf :
  waiting (decode_packet buf (checksum_of s) true true) = true ->
  handle_data false checksum_of handle_cbus_packet echo s buf = (s, Ok 0).
Proof.
  unfold handle_data. cbn [negb].
  destruct (decode_packet buf _ true true) as [[[p|] [|n]]|e]; done.
Qed.

#[export] Instance cbus_client_incremental :
  Incremental (handle_data false checksum_of handle_cbus_packet echo).
Proof.
  split.
  - intros s buf s' H. unfold handle_data in H. cbn [negb andb] in H.
    destruct (decode_packet buf (checksum_of s) true true) as [[[p|] n]|e] eqn:E; [| |done].
    + pose proof (decode_packet_bound _ _ _ _ _ _ E) as Hn.
      destruct (handle_cbus_packet s p) as [s'' [u|e]]; [|done].
      injection H as _ H. destruct p; [lia|]. destruct Hn as [? _]. done.
    + by injection H.
  - intros s buf more Hne.
    destruct (waiting (decode_packet buf (checksum_of s) true true)) eqn:Ew.
    + by rewrite handle_data_waiting in Hne.
    + unfold handle_data. cbn [negb andb].
      by rewrite decode_packet_stable.
  - intros s buf s' r H. unfold handle_data in H. cbn [negb andb] in H.
    destruct (decode_packet buf (checksum_of s) true true) as [[[p|] n]|e] eqn:E; [| |done];
      pose proof (decode_packet_bound _ _ _ _ _ _ E) as Hn; simpl in Hn; unfold len.
    + destruct (handle_cbus_packet s p) as [s'' [u|e]]; [|done].
      injection H as _ <-. destruct p; simpl in Hn; [lia|]. by destruct Hn as [? _].
    + injection H as _ <-. lia.
Qed.
End cbus_client.

(** A packet the interface may send: valid, addressed and checksummed. *)
Definition interface_packet (p : packet) : Prop :=
  packet_valid p /\ exists h, packet_header p = Some h /\
    from_interface h = true /\ checksum h = true.

Lemma deliver_all {S} (handle : S -> decoded -> S * result unit)
    (echo : S -> bytes -> S) (ps : list packet) (s : S) :
  Forall interface_packet ps ->
  (forall s p, p ∈ ps -> (handle s (DPacket (received None p))).2 = Ok tt) ->
  exists ts, mapM_result encode_packet ps = Ok ts /\
    _process_buffer (handle_data false (fun _ => true) handle echo)
      (concat (map (fun t => t ++ END_RESPONSE) ts)) s =
      ([], foldl (fun s p => (handle s (DPacket (received None p))).1) s ps, Ok tt).
Proof.
  intros Hps Hh. revert s Hh. induction Hps as [|p ps Hp Hps IH]; intros s Hh.
  - by exists [].
  - destruct Hp as (Hv & h & Hhd & Hsrc & Hcs).
    destruct (IH (handle s (DPacket (received None p))).1
      (fun s q Hq => Hh s q (list_elem_of_further _ _ _ Hq))) as (ts & Hts & Hrun).
    destruct (from_pci_wire p h (concat (map (fun t => t ++ END_RESPONSE) ts)) true
      Hv Hhd Hsrc) as (t & Ht & Hd).
    exists (t :: ts). simpl. rewrite Ht, bind_Ok, Hts, bind_Ok. split; [done|].
    rewrite Hcs in Hd. rewrite <- app_assoc.
    assert (length t + 2 = length (t ++ END_RESPONSE))%nat as El by (by rewrite length_app).
    rewrite process_step; last first.
    { intros H. apply (f_equal length) in H. rewrite length_app in H. simpl in H. lia. }
    unfold handle_data at 1. cbn [negb andb]. rewrite Hd.
    specialize (Hh s p ltac:(constructor)).
    destruct (handle s (DPacket (received None p))) as [s' r]. simpl in Hh. subst r.
    rewrite (proj2 (Z.ltb_ge _ 0)), (proj2 (Z.ltb_lt 0 _)) by lia.
    rewrite Nat2Z.id, El, app_assoc, drop_app_length. exact Hrun.
Qed.

(** ** Properties *)

(** What holds of a protocol in every state it can reach: the buffer never
    exceeds the limit and is empty once the connection is closed. *)
Definition buffered_inv {S} (p : @buffered S) : Prop :=
  len (_buf p) <= _size_limit p /\ (_closed p = true -> _buf p = []).

Lemma buffered_step_inv {S} (h : S -> bytes -> S * result Z) p e :
  0 <= _size_limit p -> buffered_inv p ->
  buffered_inv (buffered_step h p e) /\
  _size_limit (buffered_step h p e) = _size_limit p /\
  (_closed p = true -> buffered_step h p e = p).
Proof.
  intros H0 Hp. pose proof Hp as [Hl Hc].
  assert (forall c (s : S), buffered_inv {| _buf := []; _size_limit := _size_limit p;
    _closed := c; inner := s |}) as Hempty by (intros; by split).
  destruct e as [data|]; simpl.
  - unfold data_received. destruct (_closed p) eqn:Ec; [done|].
    destruct (_size_limit p <? len data); [split; [apply Hempty|done]|].
    destruct (Z.ltb_spec (_size_limit p) (len (_buf p) + len data));
      [split; [apply Hempty|done]|].
    pose proof (process_length h (_buf p ++ data) (inner p)) as Hn.
    destruct (_process_buffer h _ _) as [[buf s] r]. rewrite length_app in Hn.
    split; [|done]. split; [|simpl; congruence]. unfold len in *. simpl in *.
    destruct r; simpl; lia.
  - unfold connection_lost, close. destruct (_closed p) eqn:Ec; [done|].
    split; [apply Hempty|done].
Qed.

(** Memory is bounded: whatever chunks arrive and whatever the handler does,
    the buffer of a protocol never exceeds its limit (256 bytes for C-Bus), and
    after the connection is lost it stays empty and nothing more is handled. *)
Theorem buffer_bounded {S} (h : S -> bytes -> S * result Z) s events :
  let p := foldl (buffered_step h) (cbus_init s) events in
  len (_buf p) <= 256 /\ (_closed p = true -> _buf p = []) /\
  forall more, foldl (buffered_step h) (connection_lost p) more = connection_lost p.
Proof.
  assert (forall p, buffered_inv p -> _size_limit p = 256 ->
    let q := foldl (buffered_step h) p events in
    buffered_inv q /\ _size_limit q = 256) as Hinv.
  { induction events as [|e events IH]; intros p Hp Hs; [done|]. simpl.
    destruct (buffered_step_inv h p e) as (Hi & Hl & _); [lia|done|].
    apply IH; [done|]. by rewrite Hl. }
  destruct (Hinv (cbus_init s)) as [[Hl Hc] Hs]; [done|done|]. cbv zeta.
  rewrite Hs in Hl. split; [done|]. split; [done|].
  set (p := foldl _ _ _) in *. intros more.
  assert (_closed (connection_lost p) = true) as Hcl.
  { unfold connection_lost, close. by destruct (_closed p) eqn:?. }
  revert Hcl. generalize (connection_lost p). intros q Hq.
  induction more as [|e more IH]; [done|]. simpl.
  assert (buffered_step h q e = q) as ->; [|done].
  destruct e; simpl; unfold data_received, connection_lost, close; by rewrite Hq.
Qed.

(** C26. Processing a buffer always ends: the bound of the model is never what
    stops it, for any handler that does not report it itself. *)
Theorem process_terminates {S} (h : S -> bytes -> S * result Z) buf s :
  (forall s buf, (h s buf).2 <> Raise OutOfFuel) ->
  (_process_buffer h buf s).2 <> Raise OutOfFuel /\
  forall fuel, (length buf <= fuel)%nat ->
    process_fuel h fuel buf s = _process_buffer h buf s.
Proof.
  intros Hh. split; [|intros fuel Hf; by apply process_fuel_enough].
  induction buf, s as [s|buf s Hne IH] using (process_ind h); [done|].
  rewrite process_step by done. specialize (Hh s buf).
  destruct (h s buf) as [s' [r|e]] eqn:E.
  - destruct (r <? 0); [by destruct (r =? -1)|].
    destruct (Z.ltb_spec 0 r); [by apply (IH s' r)|done].
  - simpl in Hh |- *. congruence.
Qed.

Example process_terminates_witness :
  (_process_buffer (fun (s : nat) (b : bytes) => (S s, Ok 2)) [1; 2; 3] O).2
    <> Raise OutOfFuel /\
  forall fuel, (3 <= fuel)%nat ->
    process_fuel (fun (s : nat) (b : bytes) => (S s, Ok 2)) fuel [1; 2; 3] O =
      _process_buffer (fun (s : nat) (b : bytes) => (S s, Ok 2)) [1; 2; 3] O.
Proof.
  apply (process_terminates (fun (s : nat) (b : bytes) => (S s, Ok 2)) [1; 2; 3] O).
  intros s b. discriminate.
Defined.

(** C23. For a client of an interface, how the transport cuts bytes into chunks does
    not matter under two conditions: all the chunks together, with what is waiting,
    fit the buffer, and no message in them makes the handler raise. Then the chunks
    leave the same state, the same calls made and the same bytes waiting as their
    concatenation in one piece. Beyond the buffer the cut does matter
    ([chunk_over_limit]). *)
Theorem chunking_invariant {S} (checksum_of : S -> bool)
    (handle : S -> decoded -> S * result unit) (echo : S -> bytes -> S)
    (p : buffered) (first : bytes) (chunks : list bytes) :
  let recv := cbus_received false checksum_of handle echo in
  _closed p = false ->
  len (_buf p) + len (first ++ concat chunks) <= _size_limit p ->
  (_process_buffer (handle_data false checksum_of handle echo)
     (_buf p ++ first ++ concat chunks) (inner p)).2 = Ok tt ->
  foldl recv p (first :: chunks) = recv p (first ++ concat chunks).
Proof.
  cbv zeta. revert p first. induction chunks as [|c chunks IH]; intros p first Hc Hl Hok.
  - simpl. by rewrite app_nil_r.
  - simpl in Hl, Hok |- *.
    assert (len (_buf p) + len first + len (c ++ concat chunks) <= _size_limit p) as Hl'.
    { unfold len in *. rewrite length_app in Hl. lia. }
    destruct (data_received_app (handle_data false checksum_of handle echo) p first
      (c ++ concat chunks) Hc Hl' Hok) as (Heq & Hc' & Hs' & Hb' & Hok').
    unfold cbus_received in IH |- *. rewrite <- Heq.
    etrans; [|apply IH]; [done|done| |done]. by rewrite Hs'.
Qed.

(** A client that records what it is handed. *)
Definition log_handler (s : list decoded) (d : decoded) : list decoded * result unit :=
  (s ++ [d], Ok tt).

Example chunking_invariant_witness :
  foldl (cbus_received false (fun _ => true) log_handler (fun s _ => s))
    (cbus_init []) [[103]; [46; 43; 48]; [53; 13]; [10; 33]] =
  cbus_received false (fun _ => true) log_handler (fun s _ => s)
    (cbus_init []) ([103] ++ concat [[46; 43; 48]; [53; 13]; [10; 33]]).
Proof.
  apply (chunking_invariant (fun _ => true) log_handler (fun s _ => s) (cbus_init [])
    [103] [[46; 43; 48]; [53; 13]; [10; 33]]);
    [reflexivity|vm_compute; discriminate|vm_compute; reflexivity].
Defined.

(** A chunk over the limit is dropped whole, though the same bytes in two chunks are all
    handled: 130 confirmations that arrive together are lost. *)
Example chunk_over_limit :
  let recv := cbus_received false (fun _ => true) log_handler (fun s _ => s) in
  let chunk := concat (repeat [103; 46] 65) in
  inner (recv (cbus_init []) (chunk ++ chunk)) = [] /\
  length (inner (foldl recv (cbus_init []) [chunk; chunk])) = 130%nat.
Proof. vm_compute. done. Qed.

(** Packets are delivered in order: when the interface sends any number of
    packets, each on its line, the client hands its handler exactly those
    packets, one by one, in the order sent, and nothing is left in the buffer. *)
Theorem packets_delivered {S} (handle : S -> decoded -> S * result unit)
    (echo : S -> bytes -> S) (ps : list packet) (s : S) :
  Forall interface_packet ps ->
  (forall s p, p ∈ ps -> (handle s (DPacket (received None p))).2 = Ok tt) ->
  exists ts, mapM_result encode_packet ps = Ok ts /\
    _process_buffer (handle_data false (fun _ => true) handle echo)
      (concat (map (fun t => t ++ END_RESPONSE) ts)) s =
      ([], foldl (fun s p => (handle s (DPacket (received None p))).1) s ps, Ok tt).
Proof. apply deliver_all. Qed.

Example packets_delivered_witness :
  exists ts, mapM_result encode_packet [pm_sample; pm_sample] = Ok ts /\
    _process_buffer (handle_data false (fun _ => true) log_handler (fun s _ => s))
      (concat (map (fun t => t ++ END_RESPONSE) ts)) [] =
      ([], foldl (fun s p => (log_handler s (DPacket (received None p))).1) []
             [pm_sample; pm_sample], Ok tt).
Proof.
  assert (interface_packet pm_sample) as Hp.
  { split.
    - unfold pm_sample, packet_valid, lighting_sample.
      repeat split; repeat constructor; simpl; lia.
    - eexists. repeat split. }
  apply (packets_delivered log_handler (fun s _ => s) [pm_sample; pm_sample] []).
  - exact (Forall_cons_2 _ _ _ Hp (Forall_cons_2 _ _ _ Hp (Forall_nil_2 _))).
  - intros s p _. reflexivity.
Defined.
