(* ===== verification/PyDict.v ===== *)
(** * Python dictionaries keyed by integers

    A [dict] remembers the order of insertion, and the code iterates, sorts and
    takes minima over [items()] in that order; so a dict is the list of its
    items, with distinct keys. [dict_get] is in [Common]. *)

From S2P Require Import Prelude Common.
From stdpp Require Import options.

Local Open Scope Z_scope.

Section dict.
Context {V : Type}.
Implicit Types d : list (Z * V).

Definition keys d : list Z := map fst d.

(** [k in d] *)
Definition dict_mem d (k : Z) : bool := existsb (fun '(k', _) => k' =? k) d.

(** [d[k] = v]: in place, or at the end. *)
Fixpoint dict_set d (k : Z) (v : V) : list (Z * V) :=
  match d with
  | [] => [(k, v)]
  | (k', v') :: d => if k' =? k then (k, v) :: d else (k', v') :: dict_set d k v
  end.

(** [d.pop(k, None)], and [del d[k]] of a key that is there. *)
Definition dict_pop d (k : Z) : list (Z * V) :=
  List.filter (fun '(k', _) => negb (k' =? k)) d.

(** The item with the least key function; the first one on a tie. *)
Fixpoint min_item (key : V -> Z) (best : Z * V) d : Z * V :=
  match d with
  | [] => best
  | x :: d => min_item key (if key x.2 <? key best.2 then x else best) d
  end.

(** ** Lemmas *)

Lemma keys_app d1 d2 : keys (d1 ++ d2) = keys d1 ++ keys d2.
Proof. apply map_app. Qed.

Lemma dict_mem_spec d k : dict_mem d k = true <-> k ∈ keys d.
Proof.
  unfold dict_mem, keys. rewrite existsb_exists, list_elem_of_fmap. split.
  - intros ([k' v] & Hin & ->%Z.eqb_eq). exists (k, v).
    split; [done|by apply list_elem_of_In].
  - intros ([k' v] & -> & Hin). exists (k', v). rewrite Z.eqb_refl.
    split; [by apply list_elem_of_In|done].
Qed.

Lemma dict_mem_false d k : dict_mem d k = false <-> k ∉ keys d.
Proof. rewrite <- dict_mem_spec. destruct (dict_mem d k); naive_solver. Qed.

Lemma dict_get_mem d k : is_Some (dict_get d k) <-> k ∈ keys d.
Proof.
  unfold keys. induction d as [|[k' v] d IH]; simpl.
  - split; [by intros []|by intros ?%not_elem_of_nil].
  - rewrite elem_of_cons. destruct (Z.eqb_spec k' k) as [->|].
    + split; [by left|by eexists].
    + rewrite IH. naive_solver.
Qed.

Lemma dict_get_None d k : dict_get d k = None <-> k ∉ keys d.
Proof. rewrite <- dict_get_mem, <- eq_None_not_Some. done. Qed.

Lemma dict_get_in d k v : NoDup (keys d) -> (k, v) ∈ d -> dict_get d k = Some v.
Proof.
  unfold keys. induction d as [|[k' v'] d IH]; simpl; [by intros _ ?%not_elem_of_nil|].
  intros [Hni Hnd]%NoDup_cons [[= -> ->]|Hin]%elem_of_cons; [by rewrite Z.eqb_refl|].
  destruct (Z.eqb_spec k' k) as [->|]; [|by apply IH].
  exfalso. apply Hni, list_elem_of_fmap. by exists (k, v).
Qed.

Lemma keys_set d k v :
  keys (dict_set d k v) = if dict_mem d k then keys d else keys d ++ [k].
Proof.
  unfold dict_mem, keys. induction d as [|[k' v'] d IH]; simpl; [done|].
  destruct (Z.eqb_spec k' k) as [->|]; [done|]. simpl. rewrite IH.
  by destruct (existsb _ d).
Qed.

Lemma elem_of_keys_set d k v x :
  x ∈ keys (dict_set d k v) <-> x = k \/ x ∈ keys d.
Proof.
  rewrite keys_set. destruct (dict_mem d k) eqn:E.
  - apply dict_mem_spec in E. naive_solver.
  - rewrite elem_of_app, list_elem_of_singleton. tauto.
Qed.

Lemma NoDup_keys_set d k v : NoDup (keys d) -> NoDup (keys (dict_set d k v)).
Proof.
  intros H. rewrite keys_set. destruct (dict_mem d k) eqn:E; [done|].
  apply dict_mem_false in E. apply NoDup_app. split; [done|].
  split; [|apply NoDup_singleton]. intros x Hx ->%list_elem_of_singleton. done.
Qed.

Lemma dict_get_set d k v x :
  dict_get (dict_set d k v) x = if k =? x then Some v else dict_get d x.
Proof.
  induction d as [|[k' v'] d IH]; simpl; [done|].
  destruct (Z.eqb_spec k' k) as [->|Hne]; simpl.
  - by destruct (k =? x).
  - rewrite IH. destruct (Z.eqb_spec k' x) as [->|]; [|done].
    by rewrite (proj2 (Z.eqb_neq k x)).
Qed.

Lemma elem_of_dict_pop d k x : x ∈ dict_pop d k <-> x ∈ d /\ x.1 <> k.
Proof.
  unfold dict_pop. rewrite !list_elem_of_In, filter_In. destruct x as [k' v]. simpl.
  by rewrite negb_true_iff, Z.eqb_neq.
Qed.

Lemma elem_of_keys_pop d k x : x ∈ keys (dict_pop d k) <-> x ∈ keys d /\ x <> k.
Proof.
  unfold keys. rewrite !list_elem_of_fmap. setoid_rewrite elem_of_dict_pop. naive_solver.
Qed.

Lemma NoDup_keys_pop d k : NoDup (keys d) -> NoDup (keys (dict_pop d k)).
Proof.
  unfold keys, dict_pop. induction d as [|[k' v] d IH]; simpl; [done|].
  intros [Hni Hnd]%NoDup_cons. destruct (negb (k' =? k)); [|by apply IH].
  simpl. constructor; [|by apply IH]. intros Hin. apply Hni.
  apply (elem_of_keys_pop d k k') in Hin as [? _]. done.
Qed.

Lemma dict_get_pop d k x :
  dict_get (dict_pop d k) x = if k =? x then None else dict_get d x.
Proof.
  unfold dict_pop. induction d as [|[k' v] d IH]; simpl; [by destruct (k =? x)|].
  destruct (Z.eqb_spec k' k) as [->|Hne]; simpl; rewrite IH.
  - by destruct (k =? x).
  - destruct (Z.eqb_spec k' x) as [->|]; [|done]. by rewrite (proj2 (Z.eqb_neq k x)).
Qed.

Lemma length_dict_pop d k : (length (dict_pop d k) <= length d)%nat.
Proof.
  unfold dict_pop. induction d as [|[k' v] d IH]; simpl; [lia|].
  destruct (negb _); simpl; lia.
Qed.

Lemma length_dict_pop_in d k :
  NoDup (keys d) -> k ∈ keys d -> S (length (dict_pop d k)) = length d.
Proof.
  unfold keys, dict_pop. induction d as [|[k' v] d IH]; simpl;
    [by intros _ ?%not_elem_of_nil|].
  intros [Hni Hnd]%NoDup_cons [->|Hin]%elem_of_cons.
  - rewrite Z.eqb_refl. simpl. f_equal. rewrite forallb_filter_id; [done|].
    apply forallb_forall. intros [k'' v''] Hin%list_elem_of_In.
    apply negb_true_iff, Z.eqb_neq. intros ->. apply Hni, list_elem_of_fmap.
    by exists (k', v'').
  - destruct (Z.eqb_spec k' k) as [->|]; [done|]. simpl. f_equal. by apply IH.
Qed.

(** Popping several keys. *)
Definition dict_pops d (ks : list Z) : list (Z * V) := foldl dict_pop d ks.

Lemma elem_of_dict_pops d ks x : x ∈ dict_pops d ks <-> x ∈ d /\ x.1 ∉ ks.
Proof.
  unfold dict_pops. revert d. induction ks as [|k ks IH]; intros d; simpl.
  - split; [|tauto]. intros ?. split; [done|apply not_elem_of_nil].
  - rewrite IH, elem_of_dict_pop, not_elem_of_cons. tauto.
Qed.

Lemma elem_of_keys_pops d ks x : x ∈ keys (dict_pops d ks) <-> x ∈ keys d /\ x ∉ ks.
Proof.
  unfold keys. rewrite !list_elem_of_fmap. setoid_rewrite elem_of_dict_pops. naive_solver.
Qed.

Lemma dict_get_pops_other d ks k : k ∉ ks -> dict_get (dict_pops d ks) k = dict_get d k.
Proof.
  unfold dict_pops. revert d. induction ks as [|k' ks IH]; intros d Hk; [done|].
  apply not_elem_of_cons in Hk as [Hne Hk]. simpl. rewrite IH, dict_get_pop by done.
  by rewrite (proj2 (Z.eqb_neq k' k)).
Qed.

Lemma NoDup_keys_pops d ks : NoDup (keys d) -> NoDup (keys (dict_pops d ks)).
Proof.
  unfold dict_pops. revert d. induction ks as [|k ks IH]; intros d H; [done|].
  by apply IH, NoDup_keys_pop.
Qed.

Lemma length_dict_pops d ks :
  NoDup (keys d) -> NoDup ks -> (forall k, k ∈ ks -> k ∈ keys d) ->
  (length (dict_pops d ks) + length ks = length d)%nat.
Proof.
  unfold dict_pops. revert d. induction ks as [|k ks IH]; intros d Hd Hks Hin; simpl; [lia|].
  apply NoDup_cons in Hks as [Hni Hks].
  rewrite Nat.add_succ_r, IH; [|by apply NoDup_keys_pop|done|].
  - apply length_dict_pop_in; [done|]. apply Hin. constructor.
  - intros x Hx. apply elem_of_keys_pop. split; [apply Hin; by constructor|].
    intros ->. done.
Qed.

Lemma min_item_spec (key : V -> Z) best d :
  (min_item key best d = best \/ min_item key best d ∈ d) /\
  key (min_item key best d).2 <= key best.2 /\
  Forall (fun x => key (min_item key best d).2 <= key x.2) d.
Proof.
  revert best. induction d as [|x d IH]; intros best; simpl; [by repeat split; [left| |]|].
  destruct (Z.ltb_spec (key x.2) (key best.2)).
  - destruct (IH x) as ([->|Hin] & Hle & Hall).
    + split; [right; constructor|]. split; [lia|]. by constructor.
    + split; [right; by constructor|]. split; [lia|]. by constructor.
  - destruct (IH best) as ([->|Hin] & Hle & Hall).
    + split; [by left|]. split; [done|]. constructor; [lia|done].
    + split; [right; by constructor|]. split; [done|]. constructor; [lia|done].
Qed.

End dict.
