(* ===== verification/Confirm.v ===== *)
(** * Confirmation codes: the bookkeeping of [PCIProtocol]
      ([cbus/protocol/pciprotocol.py])

    Which of the twenty confirmation codes are in use, which packets wait for
    theirs, and how codes are allocated, released, timed out and reclaimed. Each
    function below is a run of the code without a suspension point: the locked
    blocks never await inside. Times are microseconds. *)

From S2P Require Import Prelude Common PyDict.
From stdpp Require Import options.

Local Open Scope Z_scope.

(** ** Constants *)

Definition CONFIRMATION_TIMEOUT : Z := 30000000.
Definition MAX_PACKET_RETRIES : Z := 3.
Definition PACKET_RETRY_INTERVAL : Z := 1000000.

(** [len(CONFIRMATION_CODES)], and [int(20 * 0.9)] *)
Definition code_count : nat := length CONFIRMATION_CODES.
Definition cleanup_threshold : nat := 18.

(** [max(1, int(n * 0.25))] *)
Definition release_count (n : nat) : nat := Nat.max 1 (n / 4).

(** ** State *)

(** [(packet_data, attempts, last_attempt_time)] *)
Record pending_entry := {
  packet_data : bytes;
  attempts : Z;
  last_attempt_time : Z
}.

Record confirmations := {
  _next_confirmation_index : nat;
  _confirmation_codes_in_use : list (Z * Z);
  _pending_confirmations : list (Z * pending_entry)
}.

(** The state [_cleanup_state] leaves, which is the initial one. *)
Definition no_confirmations : confirmations :=
  {| _next_confirmation_index := 0; _confirmation_codes_in_use := [];
     _pending_confirmations := [] |}.

Definition set_pending (st : confirmations) (p : list (Z * pending_entry)) : confirmations :=
  {| _next_confirmation_index := _next_confirmation_index st;
     _confirmation_codes_in_use := _confirmation_codes_in_use st;
     _pending_confirmations := p |}.

(** [del codes_in_use[code]; pending.pop(code, None)] *)
Definition drop_code (st : confirmations) (code : Z) : confirmations :=
  {| _next_confirmation_index := _next_confirmation_index st;
     _confirmation_codes_in_use := dict_pop (_confirmation_codes_in_use st) code;
     _pending_confirmations := dict_pop (_pending_confirmations st) code |}.

Definition drop_codes (st : confirmations) (codes : list Z) : confirmations :=
  foldl drop_code st codes.

(** ** Operations *)

Definition _remove_from_pending_confirmations (code : Z) (st : confirmations)
    : confirmations := set_pending st (dict_pop (_pending_confirmations st) code).

Definition _release_confirmation_code (code : Z) (st : confirmations) : confirmations :=
  if dict_mem (_confirmation_codes_in_use st) code then drop_code st code else st.

Definition timed_out_codes (current_time : Z) (st : confirmations) : list Z :=
  keys (List.filter (fun '(_, timestamp) => CONFIRMATION_TIMEOUT <? current_time - timestamp)
          (_confirmation_codes_in_use st)).

(** [codes_by_age[:release_count]] *)
Definition codes_to_force_release (st : confirmations) : list Z :=
  let codes_by_age := py_sorted snd (_confirmation_codes_in_use st) in
  keys (take (release_count (length codes_by_age)) codes_by_age).

Definition _check_and_release_timed_out_codes (current_time : Z) (st : confirmations)
    : confirmations :=
  let st := drop_codes st (timed_out_codes current_time st) in
  if (cleanup_threshold <? length (_confirmation_codes_in_use st))%nat
  then drop_codes st (codes_to_force_release st)
  else st.

(** The search for a free code: [for _ in range(len(CONFIRMATION_CODES))]. The
    index moves on also when nothing is found. *)
Fixpoint find_code (n : nat) (exclude : option Z) (now : Z) (st : confirmations)
    : confirmations * option Z :=
  match n with
  | O => (st, None)
  | S n =>
      let code := nth (_next_confirmation_index st) CONFIRMATION_CODES 0 in
      let index := ((_next_confirmation_index st + 1) mod code_count)%nat in
      if negb (dict_mem (_confirmation_codes_in_use st) code) &&
         negb (bool_decide (exclude = Some code))
      then ({| _next_confirmation_index := index;
               _confirmation_codes_in_use :=
                 dict_set (_confirmation_codes_in_use st) code now;
               _pending_confirmations := _pending_confirmations st |}, Some code)
      else find_code n exclude now
             {| _next_confirmation_index := index;
                _confirmation_codes_in_use := _confirmation_codes_in_use st;
                _pending_confirmations := _pending_confirmations st |}
  end.

(** [self._confirmation_codes_in_use[code] = now] *)
Definition use_code (st : confirmations) (code now : Z) : confirmations :=
  {| _next_confirmation_index := _next_confirmation_index st;
     _confirmation_codes_in_use := dict_set (_confirmation_codes_in_use st) code now;
     _pending_confirmations := _pending_confirmations st |}.

(** The second half of [_get_confirmation_code]: every code was in use. *)
Definition reuse_oldest (now : Z) (st : confirmations) : confirmations * Z :=
  match _confirmation_codes_in_use st with
  | first :: rest =>
      let oldest_code := (min_item id first rest).1 in
      let st := drop_code st oldest_code in
      match find_code code_count (Some oldest_code) now st with
      | (st, Some code) => (st, code)
      | (st, None) => (use_code st oldest_code now, oldest_code)
      end
  | [] =>
      let code := nth 0 CONFIRMATION_CODES 0 in (use_code st code now, code)
  end.

(** [_get_confirmation_code]; the clock is read for the check, and again for
    the code that is handed out. *)
Definition _get_confirmation_code (current_time now : Z) (st : confirmations)
    : confirmations * Z :=
  let st := _check_and_release_timed_out_codes current_time st in
  match find_code code_count None now st with
  | (st, Some code) => (st, code)
  | (st, None) => reuse_oldest now st
  end.

(** ** Invariant *)

(** What holds of the bookkeeping at every suspension point. *)
Definition confirmations_inv (st : confirmations) : Prop :=
  (_next_confirmation_index st < code_count)%nat /\
  NoDup (keys (_confirmation_codes_in_use st)) /\
  NoDup (keys (_pending_confirmations st)) /\
  (forall c, c ∈ keys (_confirmation_codes_in_use st) -> c ∈ CONFIRMATION_CODES) /\
  (forall c, c ∈ keys (_pending_confirmations st) -> c ∈ CONFIRMATION_CODES).

(** ** Lemmas *)

Lemma no_confirmations_inv : confirmations_inv no_confirmations.
Proof.
  split; [unfold code_count; simpl; lia|].
  repeat split; try apply NoDup_nil_2; intros c []%not_elem_of_nil.
Qed.

Lemma drop_code_inv st c : confirmations_inv st -> confirmations_inv (drop_code st c).
Proof.
  intros (Hi & Hu & Hp & Hcu & Hcp). split; [done|].
  split; [by apply NoDup_keys_pop|]. split; [by apply NoDup_keys_pop|].
  split; intros c' [? _]%elem_of_keys_pop; auto.
Qed.

Lemma drop_codes_inv st cs : confirmations_inv st -> confirmations_inv (drop_codes st cs).
Proof.
  unfold drop_codes. revert st. induction cs as [|c cs IH]; intros st H; [done|].
  by apply IH, drop_code_inv.
Qed.

(** Dropping codes drops the same items from both dictionaries. *)
Lemma drop_codes_spec st cs :
  _confirmation_codes_in_use (drop_codes st cs) =
    dict_pops (_confirmation_codes_in_use st) cs /\
  _pending_confirmations (drop_codes st cs) = dict_pops (_pending_confirmations st) cs /\
  _next_confirmation_index (drop_codes st cs) = _next_confirmation_index st.
Proof.
  unfold drop_codes, dict_pops. revert st. induction cs as [|c cs IH]; intros st; [done|].
  simpl. by destruct (IH (drop_code st c)) as (-> & -> & ->).
Qed.

Lemma remove_pending_inv c st :
  confirmations_inv st -> confirmations_inv (_remove_from_pending_confirmations c st).
Proof.
  intros (Hi & Hu & Hp & Hcu & Hcp). repeat split; try done.
  - by apply NoDup_keys_pop.
  - intros c' [? _]%elem_of_keys_pop. auto.
Qed.

Lemma release_inv c st :
  confirmations_inv st -> confirmations_inv (_release_confirmation_code c st).
Proof.
  intros H. unfold _release_confirmation_code.
  case_match; [by apply drop_code_inv|done].
Qed.

Lemma check_inv t st :
  confirmations_inv st -> confirmations_inv (_check_and_release_timed_out_codes t st).
Proof.
  intros H. unfold _check_and_release_timed_out_codes. cbv zeta.
  case_match; by repeat apply drop_codes_inv.
Qed.

Lemma set_pending_inv c e st :
  confirmations_inv st -> c ∈ CONFIRMATION_CODES ->
  confirmations_inv (set_pending st (dict_set (_pending_confirmations st) c e)).
Proof.
  intros (Hi & Hu & Hp & Hcu & Hcp) Hc. repeat split; try done.
  - by apply NoDup_keys_set.
  - intros c' [->|?]%elem_of_keys_set; auto.
Qed.

Lemma use_code_inv st c t :
  confirmations_inv st -> c ∈ CONFIRMATION_CODES -> confirmations_inv (use_code st c t).
Proof.
  intros (Hi & Hu & Hp & Hcu & Hcp) Hc. repeat split; try done.
  - by apply NoDup_keys_set.
  - intros c' [->|?]%elem_of_keys_set; auto.
Qed.

Lemma nth_code i : (i < code_count)%nat -> nth i CONFIRMATION_CODES 0 ∈ CONFIRMATION_CODES.
Proof. intros Hi. apply list_elem_of_In, nth_In. exact Hi. Qed.

Lemma next_index i : ((i + 1) mod code_count < code_count)%nat.
Proof. apply Nat.mod_upper_bound. done. Qed.

(** *** The search for a code *)

Lemma find_code_spec n ex now st :
  confirmations_inv st ->
  let '(st', o) := find_code n ex now st in
  confirmations_inv st' /\
  _pending_confirmations st' = _pending_confirmations st /\
  match o with
  | Some c => c ∈ CONFIRMATION_CODES /\ c ∉ keys (_confirmation_codes_in_use st) /\
      ex <> Some c /\
      _confirmation_codes_in_use st' = dict_set (_confirmation_codes_in_use st) c now
  | None => _confirmation_codes_in_use st' = _confirmation_codes_in_use st /\
      forall j, (j < n)%nat ->
        let c := nth ((_next_confirmation_index st + j) mod code_count)
                     CONFIRMATION_CODES 0 in
        c ∈ keys (_confirmation_codes_in_use st) \/ ex = Some c
  end.
Proof.
  revert st. induction n as [|n IH]; intros st Hst; cbn [find_code].
  { repeat split; try apply Hst. intros j Hj. lia. }
  pose proof Hst as (Hi & Hu & Hp & Hcu & Hcp).
  set (code := nth (_next_confirmation_index st) CONFIRMATION_CODES 0).
  assert (code ∈ CONFIRMATION_CODES) as Hcode by by apply nth_code.
  destruct (negb _ && negb _) eqn:E.
  - apply andb_true_iff in E as [E1%negb_true_iff E2%negb_true_iff].
    apply dict_mem_false in E1. apply bool_decide_eq_false in E2.
    split; [|done]. split; [apply next_index|].
    split; [by apply NoDup_keys_set|]. split; [done|]. split; [|done].
    intros c [->|?]%elem_of_keys_set; auto.
  - match goal with |- context [find_code n ex now ?s] => set (st1 := s) end.
    assert (confirmations_inv st1) as H1.
    { split; [apply next_index|]. by repeat split. }
    specialize (IH st1 H1). destruct (find_code n ex now st1) as [st' [c|]]; [exact IH|].
    destruct IH as (Hinv & Hpend & Huse & Hall). repeat (split; [done|]).
    intros [|j] Hj; cbv zeta.
    + rewrite Nat.add_0_r, Nat.mod_small by done. fold code.
      apply andb_false_iff in E as [E%negb_false_iff|E%negb_false_iff].
      * left. by apply dict_mem_spec.
      * right. by apply bool_decide_eq_true in E.
    + specialize (Hall j ltac:(lia)). cbv zeta in Hall.
      change (_next_confirmation_index st1) with
        ((_next_confirmation_index st + 1) mod code_count)%nat in Hall.
      change (_confirmation_codes_in_use st1) with (_confirmation_codes_in_use st) in Hall.
      rewrite Nat.Div0.add_mod_idemp_l in Hall.
      replace (_next_confirmation_index st + S j)%nat with
        (_next_confirmation_index st + 1 + j)%nat by lia. exact Hall.
Qed.

(** If the whole round finds nothing, every code is in use or excluded. *)
Lemma rotation_covers i k :
  (i < code_count)%nat -> (k < code_count)%nat ->
  exists j, (j < code_count)%nat /\ ((i + j) mod code_count = k)%nat.
Proof.
  intros Hi Hk. destruct (Nat.le_gt_cases i k).
  - exists (k - i)%nat. split; [lia|].
    replace (i + (k - i))%nat with k by lia. by apply Nat.mod_small.
  - exists (k + code_count - i)%nat. split; [lia|].
    replace (i + (k + code_count - i))%nat with (k + 1 * code_count)%nat by lia.
    rewrite Nat.Div0.mod_add. by apply Nat.mod_small.
Qed.

Lemma codes_NoDup : NoDup CONFIRMATION_CODES.
Proof. apply (bool_decide_unpack _). by vm_compute. Qed.

Lemma code_index c : c ∈ CONFIRMATION_CODES ->
  exists k, (k < code_count)%nat /\ nth k CONFIRMATION_CODES 0 = c.
Proof.
  intros H%list_elem_of_In. apply (In_nth _ _ 0) in H as (k & Hk & <-). by exists k.
Qed.

Lemma in_use_length st :
  confirmations_inv st -> (length (_confirmation_codes_in_use st) <= code_count)%nat.
Proof.
  intros (_ & Hu & _ & Hc & _).
  rewrite <- (length_map fst (_confirmation_codes_in_use st)).
  change (map fst _) with (keys (_confirmation_codes_in_use st)).
  apply NoDup_incl_length; [by apply NoDup_ListNoDup|].
  intros c Hin. apply list_elem_of_In. apply Hc. by apply list_elem_of_In.
Qed.

Lemma find_code_found now st :
  confirmations_inv st ->
  (length (_confirmation_codes_in_use st) < code_count)%nat ->
  exists st' c, find_code code_count None now st = (st', Some c).
Proof.
  intros Hst Hlen. pose proof (find_code_spec code_count None now st Hst) as H.
  destruct (find_code code_count None now st) as [st' [c|]]; [by exists st', c|].
  exfalso. destruct H as (_ & _ & _ & Hall).
  assert (forall c, c ∈ CONFIRMATION_CODES ->
    c ∈ keys (_confirmation_codes_in_use st)) as Hsub.
  { intros c Hc. destruct (code_index c Hc) as (k & Hk & <-).
    destruct Hst as (Hi & _). destruct (rotation_covers _ k Hi Hk) as (j & Hj & <-).
    by destruct (Hall j Hj). }
  assert (code_count <= length (_confirmation_codes_in_use st))%nat; [|lia].
  rewrite <- (length_map fst (_confirmation_codes_in_use st)).
  apply NoDup_incl_length; [apply NoDup_ListNoDup, codes_NoDup|].
  intros c Hc. apply list_elem_of_In, Hsub. by apply list_elem_of_In.
Qed.

(** *** Releasing codes *)

Lemma sorted_take_drop {A} (R : A -> A -> Prop) k l :
  StronglySorted R l -> forall a b, a ∈ take k l -> b ∈ drop k l -> R a b.
Proof.
  intros Hs. revert k. induction Hs as [|x l Hl IH Hx]; intros [|k] a b; simpl;
    try by intros ?%not_elem_of_nil.
  intros [->|Ha]%elem_of_cons Hb; [|by eapply IH].
  rewrite Forall_forall in Hx. apply Hx. exact (drop_elem k l b Hb).
Qed.

(** What is left of the codes in use, and why the others went. *)
Lemma force_release_spec st :
  confirmations_inv st ->
  let st' := drop_codes st (codes_to_force_release st) in
  (length (_confirmation_codes_in_use st') =
     length (_confirmation_codes_in_use st) -
     Nat.min (release_count (length (_confirmation_codes_in_use st)))
             (length (_confirmation_codes_in_use st)))%nat /\
  forall c t c' t', (c, t) ∈ _confirmation_codes_in_use st ->
    c ∉ keys (_confirmation_codes_in_use st') ->
    (c', t') ∈ _confirmation_codes_in_use st' -> t <= t'.
Proof.
  intros Hst. cbv zeta. destruct (drop_codes_spec st (codes_to_force_release st)) as (-> & _ & _).
  unfold codes_to_force_release. set (d := _confirmation_codes_in_use st).
  pose proof (py_sorted_perm snd d) as Hperm. pose proof (py_sorted_sorted snd d) as Hsort.
  set (k := release_count _). set (srt := py_sorted snd d) in *.
  assert (k = release_count (length d)) as Hk.
  { unfold k. f_equal. by apply Permutation_length. }
  destruct Hst as (_ & Hnd & _). fold d in Hnd.
  assert (NoDup (keys srt)) as Hnds.
  { assert (keys srt ≡ₚ keys d) as ->; [by apply Permutation_map|done]. }
  assert (keys srt = keys (take k srt) ++ keys (drop k srt)) as Hsplit.
  { by rewrite <- keys_app, take_drop. }
  rewrite Hsplit in Hnds. apply NoDup_app in Hnds as (Hndt & Hdisj & _).
  split.
  - assert (length (keys (take k srt)) = Nat.min k (length d)) as Hlt.
    { unfold keys. by rewrite length_map, length_take, (Permutation_length Hperm). }
    rewrite <- Hk, <- Hlt.
    assert (forall c, c ∈ keys (take k srt) -> c ∈ keys d) as Hsub.
    { intros c. unfold keys. rewrite !list_elem_of_fmap.
      intros (x & -> & Hx%take_elem). exists x. split; [done|by rewrite <- Hperm]. }
    pose proof (length_dict_pops d (keys (take k srt)) Hnd Hndt Hsub). lia.
  - intros c t c' t' Hin Hout Hin'. apply elem_of_dict_pops in Hin' as [Hin' Hne'].
    rewrite elem_of_keys_pops in Hout.
    assert (c ∈ keys (take k srt)) as Hc.
    { destruct (decide (c ∈ keys (take k srt))); [done|]. exfalso. apply Hout.
      split; [|done]. apply list_elem_of_fmap. by exists (c, t). }
    apply list_elem_of_fmap in Hc as ([c0 t0] & Hc0 & Hc). simpl in Hc0. subst c0.
    assert (t0 = t) as ->.
    { assert ((c, t0) ∈ d) as Hin0.
      { rewrite <- Hperm. by eapply take_elem. }
      apply (dict_get_in d c) in Hin, Hin0; try done. congruence. }
    apply (sorted_take_drop _ k srt Hsort (c, t) (c', t')); [done|].
    assert ((c', t') ∈ srt) as Hs by by rewrite Hperm.
    rewrite <- (take_drop k srt) in Hs. apply elem_of_app in Hs as [Hs|Hs]; [|done].
    exfalso. apply Hne'. apply list_elem_of_fmap. by exists (c', t').
Qed.

Lemma timed_out_spec t st c :
  confirmations_inv st ->
  c ∈ timed_out_codes t st <->
  exists ts, (c, ts) ∈ _confirmation_codes_in_use st /\ CONFIRMATION_TIMEOUT < t - ts.
Proof.
  intros _. unfold timed_out_codes, keys. rewrite list_elem_of_fmap. split.
  - intros ([c' ts] & -> & H). apply list_elem_of_In, filter_In in H as [H Ht].
    exists ts. split; [by apply list_elem_of_In|]. by apply Z.ltb_lt.
  - intros (ts & H & Ht). exists (c, ts). split; [done|].
    apply list_elem_of_In, filter_In. split; [by apply list_elem_of_In|]. by apply Z.ltb_lt.
Qed.

(** After a check at most eighteen codes are in use. *)
Lemma check_length t st :
  confirmations_inv st ->
  (length (_confirmation_codes_in_use (_check_and_release_timed_out_codes t st))
     <= cleanup_threshold)%nat.
Proof.
  intros Hst. unfold _check_and_release_timed_out_codes. cbv zeta.
  set (st1 := drop_codes st (timed_out_codes t st)).
  assert (confirmations_inv st1) as H1 by by apply drop_codes_inv.
  destruct (Nat.ltb_spec cleanup_threshold (length (_confirmation_codes_in_use st1))); [|done].
  destruct (force_release_spec st1 H1) as [-> _].
  pose proof (in_use_length st1 H1) as Hl. unfold code_count in Hl. simpl in Hl.
  unfold cleanup_threshold, release_count in *.
  assert (4 <= length (_confirmation_codes_in_use st1) / 4)%nat; [|lia].
  apply Nat.div_le_lower_bound; lia.
Qed.

(** The codes in use after a check are those that were neither timed out nor
    reclaimed; the packets still pending are those of the codes not dropped. *)
Lemma check_spec t st :
  confirmations_inv st ->
  let st' := _check_and_release_timed_out_codes t st in
  exists dropped,
    _confirmation_codes_in_use st' = dict_pops (_confirmation_codes_in_use st) dropped /\
    _pending_confirmations st' = dict_pops (_pending_confirmations st) dropped /\
    (forall c ts, (c, ts) ∈ _confirmation_codes_in_use st ->
       CONFIRMATION_TIMEOUT < t - ts -> c ∈ dropped) /\
    (forall c, c ∈ dropped -> exists ts, (c, ts) ∈ _confirmation_codes_in_use st /\
       (CONFIRMATION_TIMEOUT < t - ts \/
        forall c' ts', (c', ts') ∈ _confirmation_codes_in_use st' -> ts <= ts')).
Proof.
  intros Hst. cbv zeta. unfold _check_and_release_timed_out_codes. cbv zeta.
  set (out := timed_out_codes t st). set (st1 := drop_codes st out).
  assert (confirmations_inv st1) as H1 by by apply drop_codes_inv.
  destruct (drop_codes_spec st out) as (E1 & E2 & _). fold st1 in E1, E2.
  assert (forall c ts, (c, ts) ∈ _confirmation_codes_in_use st ->
       CONFIRMATION_TIMEOUT < t - ts -> c ∈ out) as Hto.
  { intros c ts Hin Ht. apply timed_out_spec; [done|]. by exists ts. }
  assert (forall c, c ∈ out -> exists ts, (c, ts) ∈ _confirmation_codes_in_use st /\
    CONFIRMATION_TIMEOUT < t - ts) as Hout.
  { intros c Hc. by apply timed_out_spec in Hc. }
  destruct (_ <? _)%nat.
  - destruct (drop_codes_spec st1 (codes_to_force_release st1)) as (F1 & F2 & _).
    destruct (force_release_spec st1 H1) as [_ Hold].
    exists (out ++ codes_to_force_release st1). split; [|split; [|split]].
    + rewrite F1, E1. unfold dict_pops. by rewrite foldl_app.
    + rewrite F2, E2. unfold dict_pops. by rewrite foldl_app.
    + intros c ts Hin Ht. apply elem_of_app. left. by eapply Hto.
    + intros c [Hc|Hc]%elem_of_app.
      { destruct (Hout c Hc) as (ts & Hin & Ht). exists ts. split; [done|by left]. }
      pose proof Hc as Hc'. unfold codes_to_force_release, keys in Hc'.
      apply list_elem_of_fmap in Hc' as ([c0 ts] & -> & Hin%take_elem). simpl in Hc.
      rewrite py_sorted_perm in Hin. exists ts. split.
      * rewrite E1 in Hin. by apply elem_of_dict_pops in Hin as [? _].
      * right. intros c' ts' Hin'. apply (Hold c0 ts c' ts'); [done| |done].
        rewrite F1, elem_of_keys_pops. tauto.
  - exists out. repeat (split; [done|]). intros c Hc.
    destruct (Hout c Hc) as (ts & Hin & Ht). exists ts. split; [done|by left].
Qed.

(** Allocation is the check followed by a successful search. *)
Lemma get_code_spec t now st :
  confirmations_inv st ->
  let st1 := _check_and_release_timed_out_codes t st in
  let '(st', c) := _get_confirmation_code t now st in
  confirmations_inv st' /\ c ∈ CONFIRMATION_CODES /\
  c ∉ keys (_confirmation_codes_in_use st1) /\
  _confirmation_codes_in_use st' = dict_set (_confirmation_codes_in_use st1) c now /\
  _pending_confirmations st' = _pending_confirmations st1.
Proof.
  intros Hst. unfold _get_confirmation_code. cbv zeta.
  pose proof (check_inv t st Hst) as H1. pose proof (check_length t st Hst) as Hl.
  set (st1 := _check_and_release_timed_out_codes t st) in *.
  destruct (find_code_found now st1 H1) as (st' & c & E).
  { unfold cleanup_threshold, code_count in *. simpl. lia. }
  pose proof (find_code_spec code_count None now st1 H1) as Hf. rewrite E in Hf |- *.
  tauto.
Qed.

(** *** What a check reclaims, exactly *)

Lemma NoDup_of_keys {V} (d : list (Z * V)) : NoDup (keys d) -> NoDup d.
Proof. apply NoDup_fmap_1. Qed.

(** The codes that are not timed out. *)
Definition live_codes (t : Z) (st : confirmations) : list (Z * Z) :=
  List.filter (fun '(_, ts) => t - ts <=? CONFIRMATION_TIMEOUT) (_confirmation_codes_in_use st).

Lemma live_perm t st :
  confirmations_inv st ->
  live_codes t st ≡ₚ dict_pops (_confirmation_codes_in_use st) (timed_out_codes t st).
Proof.
  intros Hst. pose proof Hst as (_ & Hnd & _). apply NoDup_Permutation.
  - apply NoDup_ListNoDup, List.NoDup_filter. by apply NoDup_ListNoDup, NoDup_of_keys.
  - by apply NoDup_of_keys, NoDup_keys_pops.
  - intros [c ts]. rewrite elem_of_dict_pops. unfold live_codes.
    rewrite list_elem_of_In, filter_In, <- list_elem_of_In, Z.leb_le. cbn [fst].
    rewrite timed_out_spec by done. split; intros [Hin H]; (split; [done|]).
    + intros (ts' & Hin' & Ht). apply (dict_get_in _ c) in Hin, Hin'; try done.
      assert (ts' = ts) as -> by congruence. lia.
    + apply Z.nlt_ge. intros Ht. apply H. by exists ts.
Qed.

Lemma force_release_perm st :
  confirmations_inv st ->
  exists released,
    _confirmation_codes_in_use st ≡ₚ
      released ++ _confirmation_codes_in_use (drop_codes st (codes_to_force_release st)) /\
    length released = Nat.min (release_count (length (_confirmation_codes_in_use st)))
                        (length (_confirmation_codes_in_use st)) /\
    forall c ts c' ts', (c, ts) ∈ released ->
      (c', ts') ∈ _confirmation_codes_in_use (drop_codes st (codes_to_force_release st)) -> ts <= ts'.
Proof.
  intros (_ & Hnd & _). destruct (drop_codes_spec st (codes_to_force_release st)) as (-> & _ & _).
  unfold codes_to_force_release. set (d := _confirmation_codes_in_use st) in *.
  pose proof (py_sorted_perm snd d) as Hperm. pose proof (py_sorted_sorted snd d) as Hsort.
  set (srt := py_sorted snd d) in *. rewrite (Permutation_length Hperm).
  set (k := release_count (length d)).
  assert (NoDup (keys srt)) as Hnds.
  { assert (keys srt ≡ₚ keys d) as ->; [by apply Permutation_map|done]. }
  assert (dict_pops d (keys (take k srt)) ≡ₚ drop k srt) as Hrest.
  { rewrite <- (take_drop k srt), keys_app in Hnds. apply NoDup_app in Hnds as (_ & Hdis & Hndd).
    apply NoDup_Permutation; [by apply NoDup_of_keys, NoDup_keys_pops|by apply NoDup_of_keys|].
    intros x. rewrite elem_of_dict_pops, <- Hperm. rewrite <- (take_drop k srt) at 1.
    rewrite elem_of_app. split.
    - intros [[Hx|Hx] Hn]; [|done]. exfalso. apply Hn. apply list_elem_of_fmap. by exists x.
    - intros Hx. split; [by right|]. intros Hk. apply (Hdis _ Hk). apply list_elem_of_fmap. by exists x. }
  exists (take k srt). split; [|split].
  - by rewrite Hrest, take_drop.
  - by rewrite length_take, (Permutation_length Hperm).
  - intros c ts c' ts' Hin. rewrite Hrest. by apply (sorted_take_drop _ k srt Hsort (c, ts) (c', ts')).
Qed.

Lemma dict_get_pops {V} (d : list (Z * V)) ks c :
  dict_get (dict_pops d ks) c = if bool_decide (c ∈ ks) then None else dict_get d c.
Proof.
  case_bool_decide as Hc; [|by apply dict_get_pops_other].
  destruct (dict_get (dict_pops d ks) c) as [v|] eqn:E; [|done].
  by apply dict_get_elem, elem_of_dict_pops in E as [_ E].
Qed.

(** The pending packets of the codes dropped, and no others, are given up. *)
Lemma drop_codes_pending st cs c :
  (forall c, c ∈ cs -> c ∈ keys (_confirmation_codes_in_use st)) ->
  dict_get (_pending_confirmations (drop_codes st cs)) c =
    if bool_decide (c ∈ keys (_confirmation_codes_in_use st) /\
                    c ∉ keys (_confirmation_codes_in_use (drop_codes st cs)))
    then None else dict_get (_pending_confirmations st) c.
Proof.
  intros Hsub. destruct (drop_codes_spec st cs) as (-> & -> & _). rewrite dict_get_pops.
  assert (c ∈ cs <-> c ∈ keys (_confirmation_codes_in_use st) /\
    c ∉ keys (dict_pops (_confirmation_codes_in_use st) cs)) as H.
  { rewrite elem_of_keys_pops. destruct (decide (c ∈ cs)); naive_solver. }
  do 2 case_bool_decide; tauto.
Qed.

(** Every packet that waits holds its code. *)
Definition pending_in_use (st : confirmations) : Prop :=
  forall c, c ∈ keys (_pending_confirmations st) ->
    c ∈ keys (_confirmation_codes_in_use st).

(** ** Properties *)

(** C2. A confirmation code is handed out exclusively. In every reachable state
    of the bookkeeping, asking for a code gives one of the twenty codes that is
    free at that moment, records it with the current time, leaves the codes and
    packets that survived the check as they were, and the pool never fills up:
    the fallback that recycles a code in use is never needed. *)
Theorem code_allocation_exclusive t now st :
  confirmations_inv st ->
  let st1 := _check_and_release_timed_out_codes t st in
  let '(st', c) := _get_confirmation_code t now st in
  confirmations_inv st' /\ c ∈ CONFIRMATION_CODES /\
  c ∉ keys (_confirmation_codes_in_use st1) /\
  (length (_confirmation_codes_in_use st') <= 19)%nat /\
  (forall c', dict_get (_confirmation_codes_in_use st') c' =
     if c =? c' then Some now else dict_get (_confirmation_codes_in_use st1) c') /\
  _pending_confirmations st' = _pending_confirmations st1 /\
  (pending_in_use st -> pending_in_use st' /\ c ∉ keys (_pending_confirmations st')).
Proof.
  intros Hst. pose proof (get_code_spec t now st Hst) as H. cbv zeta in H |- *.
  pose proof (check_length t st Hst) as Hl.
  destruct (check_spec t st Hst) as (dropped & Eu & Ep & _).
  destruct (_get_confirmation_code t now st) as [st' c].
  destruct H as (Hinv & Hc & Hfree & Eu' & Ep').
  assert (pending_in_use st -> pending_in_use (_check_and_release_timed_out_codes t st))
    as Hpi.
  { intros Hp c'. rewrite Eu, Ep, !elem_of_keys_pops. intros [? ?]. split; auto. }
  set (st1 := _check_and_release_timed_out_codes t st) in *.
  repeat (split; [done|]). split; [|split; [|split; [done|]]].
  - rewrite <- (length_map fst (_confirmation_codes_in_use st')).
    change (map fst _) with (keys (_confirmation_codes_in_use st')).
    rewrite Eu', keys_set, (proj2 (dict_mem_false _ _) Hfree), length_app.
    unfold keys. rewrite length_map. unfold cleanup_threshold in Hl. simpl. lia.
  - intros c'. by rewrite Eu', dict_get_set.
  - intros Hp%Hpi. rewrite Ep'. split.
    + intros c'. rewrite Ep', Eu', elem_of_keys_set. intros ?%Hp. by right.
    + intros Hc'%Hp. done.
Qed.

(** Nineteen codes in use: the four oldest are reclaimed, and the next free code
    is handed out. *)
Definition busy_confirmations : confirmations :=
  {| _next_confirmation_index := 19;
     _confirmation_codes_in_use :=
       map (fun c => (c, 1000 - c)) (take 19 CONFIRMATION_CODES);
     _pending_confirmations := [] |}.

Lemma busy_inv : confirmations_inv busy_confirmations.
Proof.
  split; [unfold code_count; simpl; lia|].
  split; [apply (bool_decide_unpack _); by vm_compute|].
  split; [apply NoDup_nil_2|]. split; [|by intros c ?%not_elem_of_nil].
  intros c Hc. apply (take_elem 19). exact Hc.
Qed.

Example code_allocation_exclusive_witness :
  confirmations_inv busy_confirmations /\
  let st1 := _check_and_release_timed_out_codes 2000 busy_confirmations in
  let '(st', c) := _get_confirmation_code 2000 2001 busy_confirmations in
  confirmations_inv st' /\ c ∈ CONFIRMATION_CODES /\
  c ∉ keys (_confirmation_codes_in_use st1) /\
  (length (_confirmation_codes_in_use st') <= 19)%nat /\
  (forall c', dict_get (_confirmation_codes_in_use st') c' =
     if c =? c' then Some 2001 else dict_get (_confirmation_codes_in_use st1) c') /\
  _pending_confirmations st' = _pending_confirmations st1 /\
  (pending_in_use busy_confirmations ->
     pending_in_use st' /\ c ∉ keys (_pending_confirmations st')).
Proof.
  split; [exact busy_inv|].
  apply (code_allocation_exclusive 2000 2001 busy_confirmations). exact busy_inv.
Defined.

(** C3. The check reclaims exactly the right codes. Of the codes in use it drops every
    one that is older than the timeout; when eighteen or fewer are left it drops no
    other, and when more are left it drops a quarter of them, none of them younger than
    any that stays, so that at most eighteen stay in use. The packets waiting for the
    codes it drops are given up, and no other packet. *)
Theorem check_reclaims_oldest t st :
  confirmations_inv st ->
  let st' := _check_and_release_timed_out_codes t st in
  let live := live_codes t st in
  (exists released,
    live ≡ₚ released ++ _confirmation_codes_in_use st' /\
    length released = (if (length live <=? 18)%nat then 0%nat else (length live / 4)%nat) /\
    forall c ts c' ts', (c, ts) ∈ released -> (c', ts') ∈ _confirmation_codes_in_use st' -> ts <= ts') /\
  (length (_confirmation_codes_in_use st') <= 18)%nat /\
  forall c, dict_get (_pending_confirmations st') c =
    if bool_decide (c ∈ keys (_confirmation_codes_in_use st) /\
                    c ∉ keys (_confirmation_codes_in_use st'))
    then None else dict_get (_pending_confirmations st) c.
Proof.
  intros Hst st' live. pose proof (check_length t st Hst) as Hlen. fold st' in Hlen.
  pose proof (live_perm t st Hst) as Hlive. fold live in Hlive.
  set (out := timed_out_codes t st) in *. set (st1 := drop_codes st out).
  assert (_confirmation_codes_in_use st1 = dict_pops (_confirmation_codes_in_use st) out) as E1
    by apply drop_codes_spec.
  assert (confirmations_inv st1) as H1 by by apply drop_codes_inv.
  assert (forall c, c ∈ out -> c ∈ keys (_confirmation_codes_in_use st)) as Hout.
  { intros c (ts & Hin & _)%timed_out_spec; [|done]. apply list_elem_of_fmap. by exists (c, ts). }
  rewrite <- E1 in Hlive. assert (st' = if (cleanup_threshold <? length live)%nat
    then drop_codes st1 (codes_to_force_release st1) else st1) as E.
  { by rewrite (Permutation_length Hlive). }
  assert (forall c, c ∈ codes_to_force_release st1 -> c ∈ keys (_confirmation_codes_in_use st1)) as Hforce.
  { intros c ((c', ts) & -> & Hin%take_elem)%list_elem_of_fmap. rewrite py_sorted_perm in Hin.
    apply list_elem_of_fmap. by exists (c', ts). }
  unfold cleanup_threshold in *. split; [|split; [done|]].
  - destruct (Nat.leb_spec (length live) 18) as [Hl|Hl].
    + rewrite (proj2 (Nat.ltb_ge _ _) Hl) in E. exists []. rewrite E. split; [done|]. split; [done|].
      by intros c ts c' ts' ?%not_elem_of_nil.
    + rewrite (proj2 (Nat.ltb_lt _ _) Hl) in E. rewrite E.
      destruct (force_release_perm st1 H1) as (released & Hp & Hr & Ho). exists released.
      split; [by rewrite Hlive|]. split; [|done].
      rewrite Hr, <- (Permutation_length Hlive). unfold release_count.
      assert (1 <= length live / 4)%nat by (apply Nat.div_le_lower_bound; lia).
      assert (length live / 4 <= length live)%nat by (apply Nat.Div0.div_le_upper_bound; lia). lia.
  - intros c. rewrite E. destruct (18 <? length live)%nat; [|by apply drop_codes_pending].
    destruct (drop_codes_spec st1 (codes_to_force_release st1)) as (F1 & _ & _).
    rewrite drop_codes_pending by done.
    assert (dict_get (_pending_confirmations st1) c = _) as -> by by apply drop_codes_pending.
    fold st1.
    assert (forall x, x ∈ keys (_confirmation_codes_in_use (drop_codes st1 (codes_to_force_release st1))) ->
      x ∈ keys (_confirmation_codes_in_use st1)) as Hin1.
    { intros x. rewrite F1, elem_of_keys_pops. tauto. }
    assert (forall x, x ∈ keys (_confirmation_codes_in_use st1) ->
      x ∈ keys (_confirmation_codes_in_use st)) as Hin2.
    { intros x. rewrite E1, elem_of_keys_pops. tauto. }
    specialize (Hin1 c). specialize (Hin2 c).
    repeat case_bool_decide; try done; exfalso; tauto.
Qed.

(** Nineteen codes: the four oldest are released. *)
Example check_reclaims_oldest_witness :
  confirmations_inv busy_confirmations /\
  let st' := _check_and_release_timed_out_codes 30000000 busy_confirmations in
  exists released,
    live_codes 30000000 busy_confirmations ≡ₚ released ++ _confirmation_codes_in_use st' /\
    length released = 4%nat /\
    forall c ts c' ts', (c, ts) ∈ released -> (c', ts') ∈ _confirmation_codes_in_use st' -> ts <= ts'.
Proof.
  split; [exact busy_inv|].
  exact (proj1 (check_reclaims_oldest 30000000 busy_confirmations busy_inv)).
Defined.
