(* ===== verification/Pci.v ===== *)
(** * The client of an interface: [cbus/protocol/pciprotocol.py]

    [PCIProtocol]: dispatch of received packets to event handlers, the commands
    and the packets they build, sending with a confirmation code, the reset
    sequence and the retry task. Its coroutines only suspend while they sleep,
    so an execution is a sequence of the atomic runs below, in any order the
    event loop picks: the relation [step]. *)

From S2P Require Import Prelude Common Hex Report Cal Lighting Clock StatusRequest.
From S2P Require Import Application Packet Decode Buffered PyDict Confirm.
From stdpp Require Import options.

Local Open Scope Z_scope.

(** ** Events *)

(** The calls of the event handlers that applications override. *)
Inductive pci_event :=
| OnPciCannotAcceptData
| OnLightingGroupRamp (source : option Z) (group application duration level : Z)
| OnLightingGroupOn (source : option Z) (group application : Z)
| OnLightingGroupOff (source : option Z) (group application : Z)
| OnLightingGroupTerminateRamp (source : option Z) (group application : Z)
| OnClockRequest (source : option Z)
| OnClockUpdate (source : option Z) (val : clock_val)
| OnLevelReport (child_application block_start : Z) (report : list (option Z)).

(** [create_task(...)] of the coroutines that do not send. *)
Inductive task :=
| RemoveFromPending (code : Z)
| ReleaseCode (code : Z)
| PciReset
| CheckPending.

(** *** Dispatch *)

Definition sal_event (source : option Z) (s : SAL) : list pci_event :=
  match s with
  | SLighting (LightingRampSAL g a d l) => [OnLightingGroupRamp source g a d l]
  | SLighting (LightingOnSAL g a) => [OnLightingGroupOn source g a]
  | SLighting (LightingOffSAL g a) => [OnLightingGroupOff source g a]
  | SLighting (LightingTerminateRampSAL g a) =>
      [OnLightingGroupTerminateRamp source g a]
  | SClock ClockRequestSAL => [OnClockRequest source]
  | SClock (ClockUpdateSAL v) => [OnClockUpdate source v]
  | SEnable _ | SStatusRequest _ | STemperature _ => []
  end.

Definition cal_event (c : AnyCAL) : list pci_event :=
  match c with
  | ExtendedCAL _ child start (LevelStatusReport r) => [OnLevelReport child start r]
  | _ => []
  end.

(** [on_confirmation]: [ord(code)] raises unless the code is one byte. *)
Definition on_confirmation (code : bytes) : result (list task) :=
  match code with
  | [code_int] =>
      Ok (RemoveFromPending code_int ::
          if byte_in code_int CONFIRMATION_CODES then [ReleaseCode code_int] else [])
  | _ => Raise TypeError
  end.

(** [handle_cbus_packet]: the handlers called and the tasks created.
    [on_clock_request] calls [self.clock_datetime()] without awaiting it, which
    only makes a coroutine object: nothing is sent. *)
Definition dispatch (d : decoded) : result (list pci_event * list task) :=
  match d with
  | DPacket PCIErrorPacket => Ok ([OnPciCannotAcceptData], [])
  | DPacket (ConfirmationPacket code _) => ts ← on_confirmation code; Ok ([], ts)
  | DPacket (PointToMultipointPacket h _ sals) =>
      Ok (flat_map (sal_event (source_address h)) sals, [])
  | DPacket (PointToPointPacket _ _ _ _ cals) => Ok (flat_map cal_event cals, [])
  | _ => Ok ([], [])
  end.

(** ** Commands *)

(** [Union[int, Iterable[int]]] *)
Inductive group_arg :=
| OneGroup (g : Z)
| Groups (gs : list Z).

Definition _normalize_group_addrs (group_addr : group_arg) : result (list Z) :=
  let gs := match group_addr with OneGroup g => [g] | Groups gs => gs end in
  if (9 <? length gs)%nat then Raise ValueError else Ok gs.

(** [PointToMultipointPacket(sals=sals)] *)
Definition pm_command (sals : list SAL) : result packet :=
  pm_new true PriorityClass.CLASS_4 None sals.

Definition lighting_sals (new : Z -> Z -> LightingSAL) (application_addr : Z)
    (gs : list Z) : result (list SAL) :=
  mapM_result (fun ga => s ← lighting_init (new ga application_addr); Ok (SLighting s)) gs.

Definition lighting_group_on (group_addr : group_arg) (application_addr : Z)
    : result packet :=
  gs ← _normalize_group_addrs group_addr;
  sals ← lighting_sals LightingOnSAL application_addr gs;
  pm_command sals.

Definition lighting_group_off (group_addr : group_arg) (application_addr : Z)
    : result packet :=
  gs ← _normalize_group_addrs group_addr;
  sals ← lighting_sals LightingOffSAL application_addr gs;
  pm_command sals.

Definition lighting_group_terminate_ramp (group_addr : group_arg) (application_addr : Z)
    : result packet :=
  gs ← _normalize_group_addrs group_addr;
  sals ← lighting_sals LightingTerminateRampSAL application_addr gs;
  pm_command sals.

Definition lighting_group_ramp (group_addr application_addr duration level : Z)
    : result packet :=
  s ← lighting_init (LightingRampSAL group_addr application_addr duration level);
  pm_command [SLighting s].

Definition request_status (group_addr application_addr : Z) : result packet :=
  pm_command [SStatusRequest {| sr_level_request := true;
                                sr_group_address := group_addr;
                                sr_child_application := application_addr |}].

Definition clock_datetime (d : date) (t : time) : result packet :=
  sals ← clock_update_sal (ADatetime d t);
  pm_command (map SClock sals).

Definition identify (unit_address attribute : Z) : result packet :=
  pp_new true PriorityClass.CLASS_4 unit_address 0 None [IdentifyCAL attribute].

(** A call of [_send]: the packet, [confirmation], [basic_mode]. *)
Record send_call := { cmd : packet; want_confirmation : bool; basic_mode : bool }.

Definition dm_option (parameter v : Z) : send_call :=
  {| cmd := dm_new false PriorityClass.CLASS_2 parameter v;
     want_confirmation := true; basic_mode := true |}.

Definition special (p : packet) : send_call :=
  {| cmd := p; want_confirmation := true; basic_mode := false |}.

(** The calls of [pci_reset], in order. *)
Definition pci_reset : list send_call :=
  [special ResetPacket; special ResetPacket; special ResetPacket;
   special SmartConnectShortcutPacket;
   dm_option 0x21 0xff; dm_option 0x22 0xff; dm_option 0x42 0x0e; dm_option 0x30 0x79].

(** ** Sending *)

(** [isinstance(cmd, SpecialClientPacket)] *)
Definition is_special_client (p : packet) : bool :=
  match p with ResetPacket | SmartConnectShortcutPacket => true | _ => false end.

(** [_prepare_packet]: the bytes to write, and the code they carry. The packet
    is encoded before a code is asked for. *)
Definition _prepare_packet (c : send_call) (current_time now : Z) (st : confirmations)
    : result (confirmations * bytes * option Z) :=
  let special := is_special_client (cmd c) in
  let basic_mode := special || basic_mode c in
  let confirmation := negb special && want_confirmation c in
  cmd_bytes ← encode_packet (cmd c);
  let cmd_bytes := if basic_mode then cmd_bytes else 92 :: cmd_bytes in
  if confirmation then
    let '(st, conf_code) := _get_confirmation_code current_time now st in
    Ok (st, cmd_bytes ++ [conf_code] ++ END_COMMAND, Some conf_code)
  else Ok (st, cmd_bytes ++ END_COMMAND, None).

(** ** State *)

(** A coroutine asleep in [_send_packet]: the transport it captured, what it
    will write, and the calls of [_send] that follow. *)
Record sending := {
  s_transport : nat;
  s_data : bytes;
  s_code : option Z;
  s_rest : list send_call
}.

(** The retry task: asleep between rounds, or in [_send_packet] with the rest of
    the round before it. *)
Inductive retry :=
| RetrySleeping
| RetrySending (transport : nat) (data : bytes) (rest : list (Z * bytes))
    (current_time : Z).

Record pci := {
  _transport : option nat;
  confs : confirmations;
  tasks : list task;
  sends : list sending;
  retries : list retry;
  written : list (nat * bytes) (* every [transport.write], oldest first *);
  events : list pci_event (* every handler call, oldest first *)
}.

Definition pci_init : pci :=
  {| _transport := None; confs := no_confirmations; tasks := []; sends := [];
     retries := []; written := []; events := [] |}.

Definition with_confs (st : pci) (c : confirmations) : pci :=
  {| _transport := _transport st; confs := c; tasks := tasks st; sends := sends st;
     retries := retries st; written := written st; events := events st |}.

Definition with_tasks (st : pci) (ts : list task) : pci :=
  {| _transport := _transport st; confs := confs st; tasks := ts; sends := sends st;
     retries := retries st; written := written st; events := events st |}.

Definition with_sends (st : pci) (ss : list sending) : pci :=
  {| _transport := _transport st; confs := confs st; tasks := tasks st; sends := ss;
     retries := retries st; written := written st; events := events st |}.

Definition with_retries (st : pci) (rs : list retry) : pci :=
  {| _transport := _transport st; confs := confs st; tasks := tasks st; sends := sends st;
     retries := rs; written := written st; events := events st |}.

Definition write (st : pci) (tr : nat) (data : bytes) : pci :=
  {| _transport := _transport st; confs := confs st; tasks := tasks st; sends := sends st;
     retries := retries st; written := written st ++ [(tr, data)]; events := events st |}.

(** ** The runs between suspension points *)

Definition connection_made (tr : nat) (st : pci) : pci :=
  {| _transport := Some tr; confs := no_confirmations;
     tasks := tasks st ++ [PciReset; CheckPending]; sends := sends st;
     retries := retries st; written := written st; events := events st |}.

Definition pci_connection_lost (st : pci) : pci :=
  {| _transport := None; confs := no_confirmations; tasks := tasks st;
     sends := sends st; retries := retries st; written := written st;
     events := events st |}.

(** [handle_cbus_packet]; an exception ends the call before any effect. *)
Definition handle_cbus_packet (st : pci) (d : decoded) : pci * result unit :=
  match dispatch d with
  | Ok (evs, ts) =>
      ({| _transport := _transport st; confs := confs st; tasks := tasks st ++ ts;
          sends := sends st; retries := retries st; written := written st;
          events := events st ++ evs |}, Ok tt)
  | Raise e => (st, Raise e)
  end.

(** [_send] of the first call, up to the delay in [_send_packet]. A code taken
    for a packet that cannot be sent stays taken; an exception ends the
    coroutine. *)
Definition start_send (calls : list send_call) (current_time now : Z) (st : pci) : pci :=
  match calls with
  | [] => st
  | c :: rest =>
      match _prepare_packet c current_time now (confs st) with
      | Raise _ => st
      | Ok (confs', data, code) =>
          let st := with_confs st confs' in
          match _transport st with
          | None => st
          | Some tr =>
              with_sends st (sends st ++ [{| s_transport := tr; s_data := data;
                                             s_code := code; s_rest := rest |}])
          end
      end
  end.

(** After the delay: write, register the packet as pending, and go on. *)
Definition resume_send (s : sending) (current_time now : Z) (st : pci) : pci :=
  let st := write st (s_transport s) (s_data s) in
  let st :=
    match s_code s with
    | None => st
    | Some c =>
        with_confs st
          (set_pending (confs st)
             (dict_set (_pending_confirmations (confs st)) c
                {| packet_data := s_data s; attempts := 1; last_attempt_time := now |}))
    end in
  start_send (s_rest s) current_time now st.

(** The scan of [_check_pending_confirmations]. *)
Definition to_retry (current_time : Z) (st : confirmations) : list (Z * bytes) :=
  omap (fun '(code, e) =>
    if (PACKET_RETRY_INTERVAL <=? current_time - last_attempt_time e) &&
       (attempts e <? MAX_PACKET_RETRIES)
    then Some (code, packet_data e) else None) (_pending_confirmations st).

Definition to_abandon (current_time : Z) (st : confirmations) : list Z :=
  omap (fun '(code, e) =>
    if (PACKET_RETRY_INTERVAL <=? current_time - last_attempt_time e) &&
       negb (attempts e <? MAX_PACKET_RETRIES)
    then Some code else None) (_pending_confirmations st).

(** Giving up on a code. *)
Definition abandon (st : confirmations) (code : Z) : confirmations :=
  _release_confirmation_code code
    (set_pending st (dict_pop (_pending_confirmations st) code)).

(** Counting one more attempt; the entry takes the data of the scan. *)
Definition count_attempt (st : confirmations) (code : Z) (data : bytes)
    (current_time : Z) : confirmations :=
  match dict_get (_pending_confirmations st) code with
  | Some e =>
      set_pending st (dict_set (_pending_confirmations st) code
        {| packet_data := data; attempts := attempts e + 1;
           last_attempt_time := current_time |})
  | None => st
  end.

(** The resending loop up to its next delay. Without a transport the
    [IOError] ends the round. *)
Definition retry_next (queue : list (Z * bytes)) (current_time : Z) (st : pci)
    : pci * retry :=
  match queue with
  | [] => (st, RetrySleeping)
  | (code, data) :: rest =>
      let st := with_confs st (count_attempt (confs st) code data current_time) in
      match _transport st with
      | None => (st, RetrySleeping)
      | Some tr => (st, RetrySending tr data rest current_time)
      end
  end.

(** The retry task wakes up: check, scan, give up, resend. *)
Definition retry_wake (current_time check_time : Z) (st : pci) : pci * retry :=
  let c := _check_and_release_timed_out_codes check_time (confs st) in
  let queue := to_retry current_time c in
  let c := foldl abandon c (to_abandon current_time c) in
  retry_next queue current_time (with_confs st c).

(** The retry task after the delay of [_send_packet]. *)
Definition retry_resume (tr : nat) (data : bytes) (rest : list (Z * bytes))
    (current_time : Z) (st : pci) : pci * retry :=
  retry_next rest current_time (write st tr data).

(** Running a task that was created. *)
Definition run_task (t : task) (current_time now : Z) (st : pci) : pci :=
  match t with
  | RemoveFromPending code =>
      with_confs st (_remove_from_pending_confirmations code (confs st))
  | ReleaseCode code => with_confs st (_release_confirmation_code code (confs st))
  | PciReset => start_send pci_reset current_time now st
  | CheckPending => with_retries st (retries st ++ [RetrySleeping])
  end.

(** [data_received] of the client. *)
Definition pci_received (p : @buffered pci) (data : bytes) : buffered :=
  cbus_received false (fun _ => true) handle_cbus_packet (fun st _ => st) p data.

(** ** Executions *)

(** One run of the event loop: an input, a task, or a coroutine that wakes up,
    at whatever times the clock then shows. *)
Inductive step : pci -> pci -> Prop :=
| StepConnectionMade tr st : step st (connection_made tr st)
| StepConnectionLost st : step st (pci_connection_lost st)
| StepPacket d st : step st (handle_cbus_packet st d).1
| StepTask ts1 t ts2 current_time now st :
    tasks st = ts1 ++ t :: ts2 ->
    step st (run_task t current_time now (with_tasks st (ts1 ++ ts2)))
| StepCommand calls current_time now st : step st (start_send calls current_time now st)
| StepSend ss1 s ss2 current_time now st :
    sends st = ss1 ++ s :: ss2 ->
    step st (resume_send s current_time now (with_sends st (ss1 ++ ss2)))
| StepRetryWake rs1 rs2 current_time check_time st st' r :
    retries st = rs1 ++ RetrySleeping :: rs2 ->
    retry_wake current_time check_time st = (st', r) ->
    step st (with_retries st' (rs1 ++ r :: rs2))
| StepRetrySend rs1 rs2 tr data rest t st st' r :
    retries st = rs1 ++ RetrySending tr data rest t :: rs2 ->
    retry_resume tr data rest t st = (st', r) ->
    step st (with_retries st' (rs1 ++ r :: rs2)).

(** The states an execution can reach. *)
Inductive reachable : pci -> Prop :=
| ReachInit : reachable pci_init
| ReachStep st st' : reachable st -> step st st' -> reachable st'.

(** ** Invariant *)

(** A prepared packet that asked for a confirmation ends with its code. *)
Definition carries (code : Z) (data : bytes) : Prop :=
  exists text, data = text ++ [code] ++ END_COMMAND.

Definition queue_ok (q : list (Z * bytes)) : Prop :=
  Forall (fun '(c, d) => c ∈ CONFIRMATION_CODES /\ carries c d) q.

Definition retry_ok (r : retry) : Prop :=
  match r with
  | RetrySleeping => True
  | RetrySending _ _ rest _ => queue_ok rest
  end.

Definition sending_ok (s : sending) : Prop :=
  match s_code s with
  | Some c => c ∈ CONFIRMATION_CODES /\ carries c (s_data s)
  | None => True
  end.

Definition pending_carry (st : confirmations) : Prop :=
  forall c e, (c, e) ∈ _pending_confirmations st -> carries c (packet_data e).

Definition pci_inv (st : pci) : Prop :=
  confirmations_inv (confs st) /\ pending_carry (confs st) /\
  Forall sending_ok (sends st) /\ Forall retry_ok (retries st).

(** ** Lemmas *)

Lemma pending_carry_sub st st' :
  pending_carry st ->
  (forall c e, (c, e) ∈ _pending_confirmations st' -> (c, e) ∈ _pending_confirmations st) ->
  pending_carry st'.
Proof. intros H Hsub c e Hin. by apply H, Hsub. Qed.

Lemma drop_pending_sub st c x e :
  (x, e) ∈ _pending_confirmations (drop_code st c) -> (x, e) ∈ _pending_confirmations st.
Proof. intros [? _]%elem_of_dict_pop. done. Qed.

Lemma dict_set_elem {V} (d : list (Z * V)) k v x w :
  (x, w) ∈ dict_set d k v -> (x = k /\ w = v) \/ (x, w) ∈ d.
Proof.
  induction d as [|[k' v'] d IH]; simpl.
  - intros [= -> ->]%list_elem_of_singleton. by left.
  - destruct (k' =? k).
    + intros [[= -> ->]|?]%elem_of_cons; [by left|]. right. by constructor.
    + intros [[= -> ->]|Hin]%elem_of_cons; [right; constructor|].
      destruct (IH Hin); [by left|]. right. by constructor.
Qed.

Lemma set_pending_carry st c e :
  pending_carry st -> carries c (packet_data e) ->
  pending_carry (set_pending st (dict_set (_pending_confirmations st) c e)).
Proof. intros H Hc x w [[-> ->]|Hin]%dict_set_elem; [done|by apply H]. Qed.

(** What the operations that only forget preserve. *)
Definition forgets (f : confirmations -> confirmations) : Prop :=
  forall st, confirmations_inv st -> confirmations_inv (f st) /\
    forall c e, (c, e) ∈ _pending_confirmations (f st) -> (c, e) ∈ _pending_confirmations st.

Lemma forgets_remove c : forgets (_remove_from_pending_confirmations c).
Proof.
  intros st H. split; [by apply remove_pending_inv|].
  intros x e [? _]%elem_of_dict_pop. done.
Qed.

Lemma forgets_release c : forgets (_release_confirmation_code c).
Proof.
  intros st H. split; [by apply release_inv|]. intros x e.
  unfold _release_confirmation_code. case_match; [apply drop_pending_sub|done].
Qed.

Lemma forgets_check t : forgets (_check_and_release_timed_out_codes t).
Proof.
  intros st H. split; [by apply check_inv|]. intros x e.
  destruct (check_spec t st H) as (dropped & _ & -> & _).
  intros [? _]%elem_of_dict_pops. done.
Qed.

Lemma forgets_comp f g : forgets f -> forgets g -> forgets (fun st => g (f st)).
Proof.
  intros Hf Hg st H. destruct (Hf st H) as [H1 H2]. destruct (Hg (f st) H1) as [H3 H4].
  split; [done|]. eauto.
Qed.

Lemma forgets_abandon c : forgets (fun st => abandon st c).
Proof.
  apply (forgets_comp (_remove_from_pending_confirmations c)
    (_release_confirmation_code c)); [apply forgets_remove|apply forgets_release].
Qed.

Lemma forgets_foldl_abandon cs : forgets (fun st => foldl abandon st cs).
Proof.
  induction cs as [|c cs IH]; [by intros st H|].
  apply (forgets_comp (fun st => abandon st c) (fun st => foldl abandon st cs));
    [apply forgets_abandon|exact IH].
Qed.

Lemma forgets_carry f st :
  forgets f -> confirmations_inv st -> pending_carry st -> pending_carry (f st).
Proof. intros Hf Hi Hp. eapply pending_carry_sub; [done|]. by apply Hf. Qed.

(** Preparing a packet keeps the bookkeeping, and tags the packet. *)
Lemma prepare_packet_ok c t now st st' data code :
  confirmations_inv st -> pending_carry st ->
  _prepare_packet c t now st = Ok (st', data, code) ->
  confirmations_inv st' /\ pending_carry st' /\
  match code with
  | Some k => k ∈ CONFIRMATION_CODES /\ carries k data
  | None => True
  end.
Proof.
  intros Hi Hp. unfold _prepare_packet. cbv zeta.
  intros (b & _ & H)%result_bind_Ok. destruct (negb _ && _).
  - pose proof (get_code_spec t now st Hi) as Hg. cbv zeta in Hg.
    destruct (_get_confirmation_code t now st) as [st1 k].
    injection H as <- <- <-. destruct Hg as (Hinv & Hk & _ & _ & Epend).
    split; [done|]. split; [|split; [done|by eexists]].
    eapply pending_carry_sub; [exact Hp|]. rewrite Epend. by apply forgets_check.
  - by injection H as <- <- <-.
Qed.

Lemma with_confs_inv st c :
  pci_inv st -> confirmations_inv c -> pending_carry c -> pci_inv (with_confs st c).
Proof. intros (_ & _ & Hs & Hr) Hi Hp. exact (conj Hi (conj Hp (conj Hs Hr))). Qed.

Lemma start_send_inv calls t now st : pci_inv st -> pci_inv (start_send calls t now st).
Proof.
  intros Hinv. pose proof Hinv as (Hi & Hp & Hs & Hr). unfold start_send.
  destruct calls as [|c rest]; [done|].
  destruct (_prepare_packet c t now (confs st)) as [[[confs' data] code]|e] eqn:E; [|done].
  destruct (prepare_packet_ok _ _ _ _ _ _ _ Hi Hp E) as (Hi' & Hp' & Hcode). cbv zeta.
  change (_transport (with_confs st confs')) with (_transport st).
  destruct (_transport st) as [tr|]; [|by apply with_confs_inv].
  split; [done|]. split; [done|]. split; [|done].
  apply Forall_app. split; [done|]. repeat constructor. exact Hcode.
Qed.

Lemma resume_send_inv s t now st :
  sending_ok s -> pci_inv st -> pci_inv (resume_send s t now st).
Proof.
  intros Hs Hinv. unfold resume_send. apply start_send_inv.
  assert (pci_inv (write st (s_transport s) (s_data s))) as Hw by exact Hinv.
  pose proof Hw as (Hi & Hp & _). unfold sending_ok in Hs.
  destruct (s_code s) as [c|]; [|done]. destruct Hs as [Hc Hcar].
  apply with_confs_inv; [done|by apply set_pending_inv|by apply set_pending_carry].
Qed.

Lemma count_attempt_inv st code data t :
  confirmations_inv st -> pending_carry st -> code ∈ CONFIRMATION_CODES ->
  carries code data ->
  confirmations_inv (count_attempt st code data t) /\
  pending_carry (count_attempt st code data t).
Proof.
  intros Hi Hp Hc Hd. unfold count_attempt. case_match; [|done].
  split; [by apply set_pending_inv|by apply set_pending_carry].
Qed.

Lemma retry_next_inv queue t st st' r :
  queue_ok queue -> pci_inv st -> retry_next queue t st = (st', r) ->
  pci_inv st' /\ retry_ok r /\ retries st' = retries st.
Proof.
  intros Hq Hinv. unfold retry_next.
  destruct queue as [|[code data] rest]; [by intros [= <- <-]|]. cbv zeta.
  pose proof Hinv as (Hi & Hp & _). apply Forall_cons in Hq as [[Hc Hd] Hq].
  destruct (count_attempt_inv (confs st) code data t Hi Hp Hc Hd) as [Hi' Hp'].
  pose proof (with_confs_inv _ _ Hinv Hi' Hp').
  change (_transport (with_confs st _)) with (_transport st).
  by destruct (_transport st); intros [= <- <-].
Qed.

Lemma to_retry_ok t st :
  confirmations_inv st -> pending_carry st -> queue_ok (to_retry t st).
Proof.
  intros (_ & _ & _ & _ & Hc) Hp. apply Forall_forall. intros [c d] Hin.
  apply list_elem_of_omap in Hin as ([c' e] & Hin & H).
  destruct (_ && _); [|done]. injection H as -> <-. split; [|by apply Hp].
  apply Hc, list_elem_of_fmap. by exists (c, e).
Qed.

(** A coroutine that wakes up, put back with its new state. *)
Lemma replace_retry_inv st rs1 r rs2 :
  pci_inv st -> Forall retry_ok (rs1 ++ rs2) -> retry_ok r ->
  pci_inv (with_retries st (rs1 ++ r :: rs2)).
Proof.
  intros (Hi & Hp & Hs & _) [H1 H2]%Forall_app Hr.
  refine (conj Hi (conj Hp (conj Hs _))). apply Forall_app. split; [done|by constructor].
Qed.

Lemma retry_wake_inv t ct st st' r :
  pci_inv st -> retry_wake t ct st = (st', r) -> pci_inv st' /\ retry_ok r.
Proof.
  intros Hinv H. pose proof Hinv as (Hi & Hp & _). unfold retry_wake in H. cbv zeta in H.
  set (c1 := _check_and_release_timed_out_codes ct (confs st)) in *.
  destruct (forgets_check ct (confs st) Hi) as [Hi1 _].
  pose proof (forgets_carry _ _ (forgets_check ct) Hi Hp) as Hp1. fold c1 in Hi1, Hp1.
  pose proof (forgets_foldl_abandon (to_abandon t c1)) as Hf.
  apply retry_next_inv in H as (Hinv' & Hro & _); [done|by apply to_retry_ok|].
  apply with_confs_inv; [done|by apply Hf|]. by apply (forgets_carry _ _ Hf).
Qed.

Lemma forget_inv f st : forgets f -> pci_inv st -> pci_inv (with_confs st (f (confs st))).
Proof.
  intros Hf Hinv. pose proof Hinv as (Hi & Hp & _).
  apply with_confs_inv; [done|by apply Hf|by apply forgets_carry].
Qed.

Lemma run_task_inv t t0 now st : pci_inv st -> pci_inv (run_task t t0 now st).
Proof.
  intros Hinv. destruct t as [c|c| |]; unfold run_task.
  - apply forget_inv; [apply forgets_remove|done].
  - apply forget_inv; [apply forgets_release|done].
  - by apply start_send_inv.
  - pose proof Hinv as (_ & _ & _ & Hr). apply (replace_retry_inv st (retries st)); [done| |done].
    by rewrite app_nil_r.
Qed.

Lemma no_confirmations_pci_inv st f :
  pci_inv st -> confs (f st) = no_confirmations -> sends (f st) = sends st ->
  retries (f st) = retries st -> pci_inv (f st).
Proof.
  intros (_ & _ & Hs & Hr) Ec Es Er. unfold pci_inv. rewrite Ec, Es, Er.
  split; [apply no_confirmations_inv|]. split; [|done]. intros c e ?%not_elem_of_nil. done.
Qed.

Lemma step_inv st st' : pci_inv st -> step st st' -> pci_inv st'.
Proof.
  intros Hinv Hstep. pose proof Hinv as (Hi & Hp & Hs & Hr).
  destruct Hstep as [tr st|st|d st|ts1 t ts2 t0 now st E|calls t0 now st|
    ss1 s ss2 t0 now st E|rs1 rs2 t0 ct st st' r E H|rs1 rs2 tr data rest t0 st st' r E H].
  - by apply (no_confirmations_pci_inv st (connection_made tr)).
  - by apply (no_confirmations_pci_inv st pci_connection_lost).
  - unfold handle_cbus_packet. by destruct (dispatch d) as [[evs ts]|e].
  - apply run_task_inv. exact (conj Hi (conj Hp (conj Hs Hr))).
  - by apply start_send_inv.
  - rewrite E in Hs. apply Forall_app in Hs as [Hs1 [Hs Hs2]%Forall_cons].
    apply resume_send_inv; [done|]. refine (conj Hi (conj Hp (conj _ Hr))).
    by apply Forall_app.
  - rewrite E in Hr. apply Forall_app in Hr as [Hr1 [_ Hr2]%Forall_cons].
    apply retry_wake_inv in H as [Hinv' Hro]; [|done].
    apply replace_retry_inv; [done|by apply Forall_app|done].
  - rewrite E in Hr. apply Forall_app in Hr as [Hr1 [Hro Hr2]%Forall_cons].
    unfold retry_resume in H. apply retry_next_inv in H as (Hinv' & Hro' & _); [|done|done].
    apply replace_retry_inv; [done|by apply Forall_app|done].
Qed.

Lemma reachable_inv st : reachable st -> pci_inv st.
Proof.
  induction 1 as [|st st' _ IH Hs]; [|by eapply step_inv].
  split; [apply no_confirmations_inv|]. split; [|by split].
  intros c e ?%not_elem_of_nil. done.
Qed.

(** *** How often a packet is sent *)

(** Retry tasks that exist or have been created. *)
Definition is_check (t : task) : bool := match t with CheckPending => true | _ => false end.
Definition retry_tasks (st : pci) : nat :=
  (length (List.filter is_check (tasks st)) + length (retries st))%nat.

(** Entries that a scan may still count as retried. *)
Definition attempts_ok (st : confirmations) : Prop :=
  forall c e, (c, e) ∈ _pending_confirmations st -> 1 <= attempts e <= MAX_PACKET_RETRIES.

Definition queue_fresh (st : confirmations) (q : list (Z * bytes)) : Prop :=
  NoDup (map fst q) /\
  forall c e, c ∈ map fst q -> (c, e) ∈ _pending_confirmations st ->
    attempts e < MAX_PACKET_RETRIES.

Definition retry_fresh (st : confirmations) (r : retry) : Prop :=
  match r with RetrySleeping => True | RetrySending _ _ rest _ => queue_fresh st rest end.

Definition attempts_inv (st : pci) : Prop :=
  attempts_ok (confs st) /\ Forall (retry_fresh (confs st)) (retries st).

(** Fewer pending packets, or new ones on their first attempt. *)
Definition fresher (st st' : confirmations) : Prop :=
  forall c e, (c, e) ∈ _pending_confirmations st' ->
    (c, e) ∈ _pending_confirmations st \/ attempts e = 1.

Lemma fresher_queue st st' q : fresher st st' -> queue_fresh st q -> queue_fresh st' q.
Proof.
  intros Hf [Hnd Hq]. split; [done|]. intros c e Hc [Hin| ->]%Hf; [by eapply Hq|done].
Qed.

Lemma fresher_attempts st st' : fresher st st' -> attempts_ok st -> attempts_ok st'.
Proof.
  intros Hf Ha c e [Hin| ->]%Hf; [by eapply Ha|]. unfold MAX_PACKET_RETRIES. lia.
Qed.

Lemma fresher_inv st c' :
  attempts_inv st -> fresher (confs st) c' -> attempts_inv (with_confs st c').
Proof.
  intros [Ha Hr] Hf. split; [by eapply fresher_attempts|].
  eapply Forall_impl; [exact Hr|]. intros [|tr data rest t]; [done|].
  by apply fresher_queue.
Qed.

Lemma forgets_fresher f st :
  forgets f -> confirmations_inv st -> fresher st (f st).
Proof. intros Hf Hi c e Hin. left. by apply Hf. Qed.

Lemma prepare_fresher c t now st st' data code :
  confirmations_inv st ->
  _prepare_packet c t now st = Ok (st', data, code) -> fresher st st'.
Proof.
  intros Hi. unfold _prepare_packet. cbv zeta.
  intros (b & _ & H)%result_bind_Ok. destruct (negb _ && _).
  - pose proof (get_code_spec t now st Hi) as Hg. cbv zeta in Hg.
    destruct (_get_confirmation_code t now st) as [st1 k].
    injection H as <- <- <-. destruct Hg as (_ & _ & _ & _ & Epend).
    intros x e. rewrite Epend. intros Hin. left. by apply (forgets_check t st Hi).
  - injection H as <- <- <-. intros x e ?. by left.
Qed.

(** Sending leaves the other tasks alone. *)
Lemma start_send_tasks calls t now st : tasks (start_send calls t now st) = tasks st.
Proof. unfold start_send. by repeat case_match. Qed.

Lemma start_send_retries calls t now st : retries (start_send calls t now st) = retries st.
Proof. unfold start_send. by repeat case_match. Qed.

Lemma resume_send_tasks s t now st : tasks (resume_send s t now st) = tasks st.
Proof. unfold resume_send. rewrite start_send_tasks. by case_match. Qed.

Lemma resume_send_retries s t now st : retries (resume_send s t now st) = retries st.
Proof. unfold resume_send. rewrite start_send_retries. by case_match. Qed.

Lemma retry_next_frame queue t st st' r :
  retry_next queue t st = (st', r) -> tasks st' = tasks st /\ retries st' = retries st.
Proof.
  unfold retry_next. destruct queue as [|[code data] rest]; [by intros [= <- <-]|].
  cbv zeta. by case_match; intros [= <- <-].
Qed.

Lemma start_send_attempts calls t now st :
  pci_inv st -> attempts_inv st ->
  attempts_inv (start_send calls t now st).
Proof.
  intros (Hi & _) Ha. unfold start_send. destruct calls as [|c rest]; [done|].
  destruct (_prepare_packet c t now (confs st)) as [[[confs' data] code]|e] eqn:E; [|done].
  apply prepare_fresher in E; [|done]. cbv zeta.
  change (_transport (with_confs st confs')) with (_transport st).
  destruct (_transport st); by apply (fresher_inv st confs').
Qed.

Lemma resume_send_attempts s t now st :
  sending_ok s -> pci_inv st -> attempts_inv st ->
  attempts_inv (resume_send s t now st).
Proof.
  intros Hs Hinv Ha. unfold resume_send. unfold sending_ok in Hs.
  destruct (s_code s) as [c|]; 
    [|exact (start_send_attempts (s_rest s) t now
               (write st (s_transport s) (s_data s)) Hinv Ha)].
  destruct Hs as [Hc Hcar]. pose proof Hinv as (Hi & Hp & _).
  apply start_send_attempts.
  - apply with_confs_inv; [exact Hinv|by apply set_pending_inv|by apply set_pending_carry].
  - apply (fresher_inv (write st (s_transport s) (s_data s))); [exact Ha|].
    intros x e [[-> ->]|Hin]%dict_set_elem; [by right|by left].
Qed.

(** Counting an attempt of a code at the head of a fresh queue. *)
Lemma count_attempt_attempts st code data t rest :
  NoDup (keys (_pending_confirmations st)) -> attempts_ok st ->
  queue_fresh st ((code, data) :: rest) ->
  attempts_ok (count_attempt st code data t) /\
  queue_fresh (count_attempt st code data t) rest.
Proof.
  intros Hnd Ha [Hq Hf]. apply NoDup_cons in Hq as [Hni Hq]. unfold count_attempt.
  destruct (dict_get (_pending_confirmations st) code) as [e|] eqn:E.
  - apply dict_get_elem in E. pose proof (Ha _ _ E) as Hb.
    pose proof (Hf code e ltac:(constructor) E) as Hlt. split.
    + intros c x [[-> ->]|Hin]%dict_set_elem; [simpl; lia|by eapply Ha].
    + split; [done|]. intros c x Hc [[-> _]|Hin]%dict_set_elem; [done|].
      eapply Hf; [|done]. by constructor.
  - split; [done|]. split; [done|]. intros c x Hc. apply Hf. by constructor.
Qed.

Lemma retry_next_attempts queue t st st' r :
  pci_inv st -> attempts_ok (confs st) -> queue_fresh (confs st) queue ->
  retry_next queue t st = (st', r) ->
  attempts_ok (confs st') /\ retry_fresh (confs st') r /\ tasks st' = tasks st.
Proof.
  intros ((_ & _ & Hnd & _) & _) Ha Hq. unfold retry_next.
  destruct queue as [|[code data] rest]; [by intros [= <- <-]|]. cbv zeta.
  destruct (count_attempt_attempts (confs st) code data t rest Hnd Ha Hq) as [Ha' Hq'].
  change (_transport (with_confs st _)) with (_transport st).
  by destruct (_transport st); intros [= <- <-].
Qed.

Lemma to_retry_fresh t st :
  NoDup (keys (_pending_confirmations st)) -> queue_fresh st (to_retry t st).
Proof.
  intros Hnd. unfold queue_fresh, to_retry.
  assert (forall c e, (c, e) ∈ _pending_confirmations st ->
    dict_get (_pending_confirmations st) c = Some e) as Hget.
  { intros c e. by apply dict_get_in. }
  assert (forall c d, (c, d) ∈ to_retry t st -> exists e,
    (c, e) ∈ _pending_confirmations st /\ attempts e < MAX_PACKET_RETRIES) as Hin.
  { intros c d ([c' e] & Hin & H)%list_elem_of_omap. exists e.
    destruct (_ && _) eqn:Eb; [|done]. injection H as -> <-.
    apply andb_true_iff in Eb as [_ Hlt%Z.ltb_lt]. done. }
  split.
  - unfold keys in Hnd. clear Hget Hin. revert Hnd.
    induction (_pending_confirmations st) as [|[c e] l IH]; intros Hnd; [constructor|].
    apply NoDup_cons in Hnd as [Hni Hnd]. simpl. destruct (_ && _); [|by apply IH].
    simpl. constructor; [|by apply IH]. intros Hc. apply Hni.
    apply list_elem_of_fmap in Hc as ([c' d] & -> & Hc).
    apply list_elem_of_omap in Hc as ([c'' e'] & Hin & H). destruct (_ && _); [|done].
    injection H as -> _. apply list_elem_of_fmap. by exists (c', e').
  - intros c e Hc He%Hget. apply list_elem_of_fmap in Hc as ([c' d] & -> & Hc).
    apply Hin in Hc as (e' & Hin'%Hget & Hlt). simpl in He. congruence.
Qed.

Lemma retry_wake_attempts t ct st st' r :
  pci_inv st -> attempts_ok (confs st) -> retry_wake t ct st = (st', r) ->
  attempts_ok (confs st') /\ retry_fresh (confs st') r /\ tasks st' = tasks st.
Proof.
  intros Hinv Ha H. pose proof Hinv as (Hi & Hp & _). unfold retry_wake in H. cbv zeta in H.
  set (c1 := _check_and_release_timed_out_codes ct (confs st)) in *.
  destruct (forgets_check ct (confs st) Hi) as [Hi1 _]. fold c1 in Hi1.
  pose proof (forgets_carry _ _ (forgets_check ct) Hi Hp) as Hp1. fold c1 in Hp1.
  pose proof (forgets_fresher _ _ (forgets_check ct) Hi) as Hf1. fold c1 in Hf1.
  pose proof (forgets_foldl_abandon (to_abandon t c1)) as Hf.
  pose proof (forgets_fresher _ _ Hf Hi1) as Hf2.
  apply retry_next_attempts in H as (H1 & H2 & H3); [done| | |].
  - apply with_confs_inv; [done|by apply Hf|by apply (forgets_carry _ _ Hf)].
  - simpl. eapply fresher_attempts; [exact Hf2|]. by eapply fresher_attempts.
  - simpl. eapply fresher_queue; [exact Hf2|]. apply to_retry_fresh. apply Hi1.
Qed.

Lemma dispatch_tasks d evs ts :
  dispatch d = Ok (evs, ts) -> List.filter is_check ts = [].
Proof.
  destruct d as [p|c]; [|by intros [= _ <-]].
  destruct p; simpl; try by intros [= _ <-].
  intros (ts' & H & [= _ <-])%result_bind_Ok. destruct code as [|x [|? ?]]; try done.
  injection H as <-. by case_match.
Qed.

Lemma filter_app_length (l1 l2 : list task) t :
  length (List.filter is_check (l1 ++ t :: l2)) =
    (length (List.filter is_check [t]) + length (List.filter is_check (l1 ++ l2)))%nat.
Proof.
  rewrite !List.filter_app, !length_app. simpl. destruct (is_check t); simpl; lia.
Qed.

(** Once created, a retry task stays for good. *)
Lemma retry_tasks_mono st st' : pci_inv st -> step st st' -> (retry_tasks st <= retry_tasks st')%nat.
Proof.
  intros Hinv Hstep. unfold retry_tasks.
  destruct Hstep as [tr st|st|d st|ts1 t ts2 t0 now st E|calls t0 now st|
    ss1 s ss2 t0 now st E|rs1 rs2 t0 ct st st' r E H|rs1 rs2 tr data rest t0 st st' r E H].
  - simpl. rewrite List.filter_app, length_app. simpl. lia.
  - simpl. lia.
  - unfold handle_cbus_packet. destruct (dispatch d) as [[evs ts]|e] eqn:E; simpl; [|lia].
    rewrite List.filter_app, (dispatch_tasks _ _ _ E), app_nil_r. lia.
  - rewrite E, filter_app_length. destruct t as [c|c| |]; [simpl; lia|simpl; lia| |].
    + cbn [run_task]. rewrite start_send_retries, start_send_tasks. simpl. lia.
    + simpl. rewrite length_app. simpl. lia.
  - rewrite start_send_retries, start_send_tasks. lia.
  - rewrite resume_send_retries, resume_send_tasks. simpl. lia.
  - unfold retry_wake in H. cbv zeta in H. apply retry_next_frame in H as [Et _].
    simpl in *. rewrite Et, E. rewrite !length_app. simpl. lia.
  - unfold retry_resume in H. apply retry_next_frame in H as [Et _].
    simpl in *. rewrite Et, E. rewrite !length_app. simpl. lia.
Qed.

(** With one retry task, what it may still resend is fresh. *)
Lemma step_attempts st st' :
  pci_inv st -> attempts_inv st -> step st st' -> (retry_tasks st' <= 1)%nat ->
  attempts_inv st'.
Proof.
  intros Hinv [Ha Hr] Hstep H1. unfold retry_tasks in H1. pose proof Hinv as (Hi & _ & Hs & _).
  destruct Hstep as [tr st|st|d st|ts1 t ts2 t0 now st E|calls t0 now st|
    ss1 s ss2 t0 now st E|rs1 rs2 t0 ct st st' r E H|rs1 rs2 tr data rest t0 st st' r E H].
  - apply (fresher_inv st no_confirmations); [done|]. intros c e ?%not_elem_of_nil. done.
  - apply (fresher_inv st no_confirmations); [done|]. intros c e ?%not_elem_of_nil. done.
  - unfold handle_cbus_packet. by destruct (dispatch d) as [[evs ts]|e].
  - destruct t as [c|c| |]; unfold run_task.
    + apply fresher_inv; [done|]. apply (forgets_fresher _ _ (forgets_remove c)). done.
    + apply fresher_inv; [done|]. apply (forgets_fresher _ _ (forgets_release c)). done.
    + by apply start_send_attempts.
    + split; [done|]. simpl. apply Forall_app. split; [done|]. by repeat constructor.
  - by apply start_send_attempts.
  - rewrite E in Hs. apply Forall_app in Hs as [Hs1 [Hs Hs2]%Forall_cons].
    apply resume_send_attempts; [done| |done].
    refine (conj Hi (conj _ (conj _ _))); try apply Hinv. by apply Forall_app.
  - simpl in H1. rewrite length_app in H1. simpl in H1.
    assert (rs1 = [] /\ rs2 = []) as [-> ->] by (destruct rs1, rs2; simpl in H1; try done; lia).
    apply retry_wake_attempts in H as (H2 & H3 & _); [|done|done].
    split; [done|]. by repeat constructor.
  - simpl in H1. rewrite length_app in H1. simpl in H1.
    assert (rs1 = [] /\ rs2 = []) as [-> ->] by (destruct rs1, rs2; simpl in H1; try done; lia).
    rewrite E in Hr. apply Forall_cons in Hr as [Hq _]. unfold retry_resume in H.
    apply retry_next_attempts in H as (H2 & H3 & _); [|exact Hinv|done|done].
    split; [done|]. by repeat constructor.
Qed.

Lemma reachable_attempts st :
  reachable st -> (retry_tasks st <= 1)%nat -> attempts_inv st.
Proof.
  induction 1 as [|st st' Hreach IH Hs]; intros H1.
  - split; [|done]. intros c e ?%not_elem_of_nil. done.
  - pose proof (reachable_inv st Hreach) as Hinv.
    pose proof (retry_tasks_mono st st' Hinv Hs). eapply step_attempts; [done| |done|done].
    apply IH. lia.
Qed.

(** *** How many packets the retry task writes *)

(** An execution with what was written in it: the packets that [_send] wrote, and
    those of the retry task. No other step writes. *)
Inductive history : list sending -> list (nat * bytes) -> pci -> Prop :=
| HistoryInit : history [] [] pci_init
| HistorySend ss1 s ss2 current_time now first again st :
    history first again st -> sends st = ss1 ++ s :: ss2 ->
    history (first ++ [s]) again (resume_send s current_time now (with_sends st (ss1 ++ ss2)))
| HistoryResend rs1 rs2 tr data rest t first again st st' r :
    history first again st -> retries st = rs1 ++ RetrySending tr data rest t :: rs2 ->
    retry_resume tr data rest t st = (st', r) ->
    history first (again ++ [(tr, data)]) (with_retries st' (rs1 ++ r :: rs2))
| HistoryOther first again st st' :
    history first again st -> step st st' -> written st' = written st -> history first again st'.

Definition has_code (s : sending) : bool := match s_code s with Some _ => true | None => false end.

(** The attempts that pending packets have left, and the packets of a queue that are
    not pending any more, which are written without being counted. *)
Definition attempts_left (d : list (Z * pending_entry)) : Z :=
  sumZ (map (fun '(_, e) => MAX_PACKET_RETRIES - attempts e) d).

Definition uncounted (d : list (Z * pending_entry)) (q : list (Z * bytes)) : nat :=
  length (filter (fun c => c ∉ keys d) (map fst q)).

Definition retry_writes (d : list (Z * pending_entry)) (r : retry) : Z :=
  match r with
  | RetrySleeping => 0
  | RetrySending _ _ rest _ => 1 + Z.of_nat (uncounted d rest)
  end.

(** What one retry task may still write. *)
Definition writes_left (st : pci) : Z :=
  let d := _pending_confirmations (confs st) in
  attempts_left d + match retries st with [] => 0 | r :: _ => retry_writes d r end.

Lemma start_send_written calls t now st : written (start_send calls t now st) = written st.
Proof. unfold start_send. by repeat case_match. Qed.

Lemma resume_send_written s t now st :
  written (resume_send s t now st) = written st ++ [(s_transport s, s_data s)].
Proof. unfold resume_send. rewrite start_send_written. by case_match. Qed.

Lemma retry_next_written q t st st' r : retry_next q t st = (st', r) -> written st' = written st.
Proof.
  unfold retry_next. destruct q as [|[c d] q]; [by intros [= <- _]|]. cbv zeta.
  by case_match; intros [= <- _].
Qed.

Lemma retry_resume_written tr data rest t st st' r :
  retry_resume tr data rest t st = (st', r) -> written st' = written st ++ [(tr, data)].
Proof. apply retry_next_written. Qed.

Lemma history_reachable first again st : history first again st -> reachable st.
Proof.
  induction 1 as [|ss1 s ss2 t now first again st _ IH E|rs1 rs2 tr data rest t first again st st' r _ IH E H
                 |first again st st' _ IH H _]; [constructor|..]; (eapply ReachStep; [exact IH|]);
    [by eapply StepSend|by eapply StepRetrySend|done].
Qed.

(** Every execution has one. *)
Lemma reachable_history st : reachable st -> exists first again, history first again st.
Proof.
  induction 1 as [|st st' _ (first & again & IH) Hs]; [by exists [], []; constructor|].
  pose proof Hs as Hs'.
  destruct Hs as [tr st|st|d st|ts1 t ts2 t0 now st E|calls t0 now st|
    ss1 s ss2 t0 now st E|rs1 rs2 t0 ct st st' r E H|rs1 rs2 tr data rest t0 st st' r E H].
  6: { do 2 eexists. by eapply HistorySend. }
  7: { do 2 eexists. by eapply HistoryResend. }
  all: exists first, again; eapply HistoryOther; [exact IH|exact Hs'|].
  - done.
  - done.
  - unfold handle_cbus_packet. by destruct (dispatch d) as [[evs ts]|e].
  - destruct t; try done. cbn [run_task]. by rewrite start_send_written.
  - apply start_send_written.
  - unfold retry_wake in H. cbv zeta in H. by apply retry_next_written in H.
Qed.

(** What is written is what the two wrote. *)
Lemma history_written first again st :
  history first again st ->
  written st ≡ₚ map (fun s => (s_transport s, s_data s)) first ++ again.
Proof.
  induction 1 as [|ss1 s ss2 t now first again st _ IH E|rs1 rs2 tr data rest t first again st st' r _ IH E H
                 |first again st st' _ IH H Hw]; [done|..].
  - rewrite resume_send_written, map_app, <- app_assoc. cbn [map written with_sends].
    rewrite IH, (Permutation_app_comm [_] again), app_assoc. done.
  - cbn [written with_retries]. by rewrite (retry_resume_written _ _ _ _ _ _ _ H), IH, <- app_assoc.
  - by rewrite Hw.
Qed.

Lemma attempts_left_app d1 d2 : attempts_left (d1 ++ d2) = attempts_left d1 + attempts_left d2.
Proof. unfold attempts_left. by rewrite map_app, sumZ_app. Qed.

Lemma attempts_left_cons c e d :
  attempts_left ((c, e) :: d) = MAX_PACKET_RETRIES - attempts e + attempts_left d.
Proof. done. Qed.

Lemma attempts_left_perm d1 d2 : d1 ≡ₚ d2 -> attempts_left d1 = attempts_left d2.
Proof.
  induction 1 as [|[c e] d1 d2 _ IH|[c1 e1] [c2 e2] d|d1 d2 d3 _ IH1 _ IH2];
    rewrite ?attempts_left_cons; lia.
Qed.

Lemma length_filter_or {A} (P Q R : A -> Prop) `{!forall x, Decision (P x)} `{!forall x, Decision (Q x)}
    `{!forall x, Decision (R x)} (l : list A) :
  (forall x, P x -> Q x \/ R x) -> (length (filter P l) <= length (filter Q l) + length (filter R l))%nat.
Proof.
  intros Hpq. induction l as [|x l IH]; [done|]. rewrite !filter_cons.
  repeat case_decide; cbn [length]; try lia. naive_solver.
Qed.

(** Entries that may be removed pay for the queue. *)
Lemma attempts_left_queue (d : list (Z * pending_entry)) (l : list Z) :
  NoDup l -> (forall c e, (c, e) ∈ d -> attempts e <= MAX_PACKET_RETRIES) ->
  (forall c e, c ∈ l -> (c, e) ∈ d -> attempts e < MAX_PACKET_RETRIES) ->
  Z.of_nat (length (filter (fun c => c ∈ keys d) l)) <= attempts_left d.
Proof.
  intros Hl Ha Hq.
  set (d' := filter (fun x : Z * pending_entry => attempts x.2 < MAX_PACKET_RETRIES) d).
  assert (Z.of_nat (length d') <= attempts_left d) as Hd.
  { unfold d'. clear -Ha. induction d as [|[c e] d IH]; [done|]. rewrite attempts_left_cons, filter_cons.
    pose proof (Ha c e ltac:(left)). assert (forall c e, (c, e) ∈ d -> attempts e <= MAX_PACKET_RETRIES)
      as Ha' by (intros c' e' Hin; apply (Ha c'); by right).
    specialize (IH Ha'). case_decide; cbn [length snd] in *; lia. }
  assert (length (filter (fun c => c ∈ keys d) l) <= length d')%nat; [|lia].
  rewrite <- (length_map fst d'). apply submseteq_length, NoDup_submseteq; [by apply NoDup_filter|].
  intros c [Hc Hin]%list_elem_of_filter. apply list_elem_of_fmap in Hc as ([c' e] & -> & Hc).
  apply list_elem_of_fmap. exists (c', e). split; [done|]. apply list_elem_of_filter.
  split; [by apply (Hq c')|done].
Qed.

(** What one may write does not grow when packets are forgotten. *)
Lemma forget_left (d d' : list (Z * pending_entry)) (q : list (Z * bytes)) :
  NoDup (keys d) -> NoDup (keys d') -> (forall x, x ∈ d' -> x ∈ d) ->
  (forall c e, (c, e) ∈ d -> 1 <= attempts e <= MAX_PACKET_RETRIES) ->
  NoDup (map fst q) ->
  (forall c e, c ∈ map fst q -> (c, e) ∈ d -> attempts e < MAX_PACKET_RETRIES) ->
  attempts_left d' + Z.of_nat (uncounted d' q) <= attempts_left d + Z.of_nat (uncounted d q).
Proof.
  intros Hd Hd' Hsub Ha Hq Hf.
  assert (d' ⊆+ d) as (gone & Hp)%submseteq_Permutation.
  { apply NoDup_submseteq; [by apply NoDup_of_keys|done]. }
  rewrite (attempts_left_perm _ _ Hp), attempts_left_app.
  pose proof (length_filter_or (fun c => c ∉ keys d') (fun c => c ∉ keys d)
    (fun c => c ∈ keys gone) (map fst q)) as Hle. fold (uncounted d' q) (uncounted d q) in Hle.
  assert (forall c, c ∉ keys d' -> c ∉ keys d \/ c ∈ keys gone) as Hor.
  { intros c Hc. destruct (decide (c ∈ keys gone)); [by right|left].
    unfold keys in *. rewrite Hp, map_app, elem_of_app. tauto. }
  specialize (Hle Hor).
  assert (Z.of_nat (length (filter (fun c => c ∈ keys gone) (map fst q))) <= attempts_left gone); [|lia].
  apply attempts_left_queue; [done| |]; [intros c e Hin|intros c e Hc Hin].
  - apply (Ha c). rewrite Hp. apply elem_of_app. by right.
  - apply (Hf c); [done|]. rewrite Hp. apply elem_of_app. by right.
Qed.

Lemma forget_writes_left st c' :
  pci_inv st -> attempts_inv st -> (length (retries st) <= 1)%nat ->
  NoDup (keys (_pending_confirmations c')) ->
  (forall x, x ∈ _pending_confirmations c' -> x ∈ _pending_confirmations (confs st)) ->
  writes_left (with_confs st c') <= writes_left st.
Proof.
  intros ((_ & _ & Hnd & _) & _) [Ha Hr] H1 Hnd' Hsub. unfold writes_left. cbn [confs with_confs retries].
  assert (forall q, queue_fresh (confs st) q ->
    attempts_left (_pending_confirmations c') + Z.of_nat (uncounted (_pending_confirmations c') q) <=
    attempts_left (_pending_confirmations (confs st)) +
      Z.of_nat (uncounted (_pending_confirmations (confs st)) q)) as Hq.
  { intros q [Hq1 Hq2]. by apply forget_left. }
  destruct (retries st) as [|[|tr data rest t] rs]; cbn [retry_writes].
  1-2: specialize (Hq []); cbn in Hq; apply Hq; split; [apply NoDup_nil_2|by intros ? ? ?%not_elem_of_nil].
  apply Forall_cons in Hr as [Hr _]. specialize (Hq rest Hr). lia.
Qed.

(** Counting an attempt. *)
Lemma attempts_left_set d c e e' :
  NoDup (keys d) -> dict_get d c = Some e ->
  attempts_left (dict_set d c e') = attempts_left d + attempts e - attempts e'.
Proof.
  intros Hnd. induction d as [|[c0 e0] d IH]; [done|]. cbn [dict_get dict_set].
  destruct (Z.eqb_spec c0 c) as [->|Hne].
  - intros [= ->]. rewrite !attempts_left_cons. lia.
  - intros E. rewrite !attempts_left_cons, IH; [lia| |done]. by apply NoDup_cons in Hnd as [_ Hnd].
Qed.

Lemma attempts_left_new d c e' :
  dict_get d c = None -> attempts_left (dict_set d c e') = attempts_left d + MAX_PACKET_RETRIES - attempts e'.
Proof.
  induction d as [|[c0 e0] d IH]; cbn [dict_get dict_set].
  - intros _. rewrite attempts_left_cons. unfold attempts_left. cbn. lia.
  - destruct (c0 =? c); [done|]. intros E. rewrite !attempts_left_cons, IH by done. lia.
Qed.

Lemma uncounted_keys d d' q :
  (forall c, c ∈ keys d -> c ∈ keys d') -> (uncounted d' q <= uncounted d q)%nat.
Proof.
  intros Hk. unfold uncounted. induction (map fst q) as [|x l IH]; [done|]. rewrite !filter_cons.
  pose proof (Hk x). repeat case_decide; cbn [length]; try lia. tauto.
Qed.

Lemma retry_next_left q t st st' r :
  NoDup (keys (_pending_confirmations (confs st))) -> retry_next q t st = (st', r) ->
  attempts_left (_pending_confirmations (confs st')) +
    retry_writes (_pending_confirmations (confs st')) r <=
  attempts_left (_pending_confirmations (confs st)) +
    Z.of_nat (uncounted (_pending_confirmations (confs st)) q).
Proof.
  intros Hnd. unfold retry_next. destruct q as [|[c data] q]; [intros [= <- <-]; cbn; lia|]. cbv zeta.
  set (d := _pending_confirmations (confs st)) in *.
  set (d' := _pending_confirmations (count_attempt (confs st) c data t)).
  assert (attempts_left d' + 1 + Z.of_nat (uncounted d' q) <=
    attempts_left d + Z.of_nat (uncounted d ((c, data) :: q))) as Hle.
  { unfold d', count_attempt. fold d. unfold uncounted at 2. cbn [map fst]. rewrite filter_cons.
    destruct (dict_get d c) as [e|] eqn:E.
    - cbn [_pending_confirmations set_pending]. rewrite (attempts_left_set _ _ e) by done.
      cbn [attempts]. assert (c ∈ keys d) as Hc by (apply dict_get_mem; by rewrite E).
      rewrite decide_False by tauto. fold (uncounted d q).
      pose proof (uncounted_keys d (dict_set d c {| packet_data := data; attempts := attempts e + 1;
        last_attempt_time := t |}) q) as Hu.
      assert (forall x, x ∈ keys d -> x ∈ keys (dict_set d c {| packet_data := data;
        attempts := attempts e + 1; last_attempt_time := t |})) as Hk
        by (intros x Hx; apply elem_of_keys_set; by right).
      specialize (Hu Hk). lia.
    - apply dict_get_None in E. fold d. rewrite decide_True by done. cbn [length].
      fold (uncounted d q). lia. }
  change (_transport (with_confs st _)) with (_transport st).
  destruct (_transport st); intros [= <- <-]; cbn [confs with_confs retry_writes]; fold d'; lia.
Qed.

Lemma prepare_sub c t now st st' data code :
  confirmations_inv st -> _prepare_packet c t now st = Ok (st', data, code) ->
  forall x, x ∈ _pending_confirmations st' -> x ∈ _pending_confirmations st.
Proof.
  intros Hi. unfold _prepare_packet. cbv zeta. intros (b & _ & H)%result_bind_Ok.
  destruct (negb _ && _).
  - pose proof (get_code_spec t now st Hi) as Hg. cbv zeta in Hg.
    destruct (_get_confirmation_code t now st) as [st1 k].
    injection H as <- <- <-. destruct Hg as (_ & _ & _ & _ & Epend).
    intros [x e]. rewrite Epend. by apply (forgets_check t st Hi).
  - by injection H as <- <- <-.
Qed.

Lemma start_send_left calls t now st :
  pci_inv st -> attempts_inv st -> (length (retries st) <= 1)%nat ->
  writes_left (start_send calls t now st) <= writes_left st.
Proof.
  intros Hinv Ha H1. unfold start_send. destruct calls as [|c rest]; [lia|].
  destruct (_prepare_packet c t now (confs st)) as [[[confs' data] code]|e] eqn:E; [|lia].
  pose proof Hinv as (Hi & Hp & _).
  pose proof (prepare_packet_ok _ _ _ _ _ _ _ Hi Hp E) as ((_ & _ & Hnd & _) & _).
  pose proof (prepare_sub _ _ _ _ _ _ _ Hi E) as Hsub.
  pose proof (forget_writes_left st confs' Hinv Ha H1 Hnd Hsub).
  cbv zeta. by destruct (_transport (with_confs st confs')).
Qed.

(** A packet that becomes pending may be written again twice. *)
Lemma resume_send_left s t now st :
  sending_ok s -> pci_inv st -> attempts_inv st -> (length (retries st) <= 1)%nat ->
  writes_left (resume_send s t now st) <= writes_left st + (if has_code s then 2 else 0).
Proof.
  intros Hs Hinv Ha H1. unfold resume_send, has_code. unfold sending_ok in Hs.
  destruct (s_code s) as [c|];
    [|pose proof (start_send_left (s_rest s) t now (write st (s_transport s) (s_data s)) Hinv Ha H1)
        as Hle; unfold writes_left in *; cbn [confs retries write] in Hle |- *; lia].
  destruct Hs as [Hc Hcar]. pose proof Hinv as (Hi & Hp & _).
  pose proof Hi as (_ & _ & Hnd & _).
  set (e := {| packet_data := s_data s; attempts := 1; last_attempt_time := now |}).
  match goal with |- writes_left (start_send _ _ _ ?x) <= _ => set (st1 := x) end.
  assert (writes_left st1 <= writes_left st + 2) as Hset.
  { unfold writes_left. change (retries st1) with (retries st).
    change (_pending_confirmations (confs st1)) with (dict_set (_pending_confirmations (confs st)) c e).
    set (d := _pending_confirmations (confs st)) in *.
    assert (attempts_left (dict_set d c e) <= attempts_left d + 2) as Hd.
    { destruct (dict_get d c) as [e0|] eqn:E.
      - rewrite (attempts_left_set _ _ e0) by done. destruct Ha as [Ha _].
        apply dict_get_elem in E. pose proof (Ha c e0 E) as Hb. unfold MAX_PACKET_RETRIES in Hb.
        cbn [attempts e]. lia.
      - rewrite attempts_left_new by done. unfold MAX_PACKET_RETRIES. cbn [attempts e]. lia. }
    destruct (retries st) as [|[|tr data rest t'] rs]; cbn [retry_writes]; try lia.
    pose proof (uncounted_keys d (dict_set d c e) rest) as Hu.
    assert (forall x, x ∈ keys d -> x ∈ keys (dict_set d c e)) as Hk
      by (intros x Hx; apply elem_of_keys_set; by right).
    specialize (Hu Hk). lia. }
  assert (pci_inv st1) as Hinv1.
  { apply with_confs_inv; [exact Hinv|by apply set_pending_inv|by apply set_pending_carry]. }
  assert (attempts_inv st1) as Ha1.
  { apply (fresher_inv (write st (s_transport s) (s_data s))); [exact Ha|].
    intros x e' [[-> ->]|Hin]%dict_set_elem; [by right|by left]. }
  pose proof (start_send_left (s_rest s) t now st1 Hinv1 Ha1 H1). lia.
Qed.

Lemma uncounted_queued (d : list (Z * pending_entry)) (q : list (Z * bytes)) :
  (forall c, c ∈ map fst q -> c ∈ keys d) -> uncounted d q = 0%nat.
Proof.
  unfold uncounted. induction (map fst q) as [|x l IH]; intros Hk; [done|].
  rewrite filter_cons, decide_False by (intros Hx; apply Hx, Hk; left).
  apply IH. intros c Hc. apply Hk. by right.
Qed.

Lemma to_retry_keys t st c :
  c ∈ map fst (to_retry t st) -> c ∈ keys (_pending_confirmations st).
Proof.
  intros ([c' d] & -> & Hc)%list_elem_of_fmap.
  apply list_elem_of_omap in Hc as ([c'' e] & Hin & H). destruct (_ && _); [|done].
  injection H as -> _. apply list_elem_of_fmap. by exists (c', e).
Qed.

Lemma with_confs_writes st c' :
  writes_left (with_confs st c') = attempts_left (_pending_confirmations c') +
    match retries st with [] => 0 | r :: _ => retry_writes (_pending_confirmations c') r end.
Proof. done. Qed.

Lemma retry_wake_left t ct st st' r :
  pci_inv st -> attempts_ok (confs st) -> retry_wake t ct st = (st', r) ->
  attempts_left (_pending_confirmations (confs st')) +
    retry_writes (_pending_confirmations (confs st')) r <=
  attempts_left (_pending_confirmations (confs st)).
Proof.
  intros Hinv Ha H. pose proof Hinv as (Hi & _). unfold retry_wake in H. cbv zeta in H.
  set (c1 := _check_and_release_timed_out_codes ct (confs st)) in *.
  destruct (forgets_check ct (confs st) Hi) as [Hi1 Hs1]. fold c1 in Hi1, Hs1.
  pose proof (forgets_fresher _ _ (forgets_check ct) Hi) as Hf1. fold c1 in Hf1.
  destruct (forgets_foldl_abandon (to_abandon t c1) c1 Hi1) as [Hi2 Hs2].
  set (c2 := foldl abandon c1 (to_abandon t c1)) in *.
  pose proof (to_retry_fresh t c1 ltac:(apply Hi1)) as [Hq1 Hq2].
  pose proof (fresher_attempts _ _ Hf1 Ha) as Ha1.
  apply retry_next_left in H; [|apply Hi2]. cbn [confs with_confs] in H.
  pose proof (forget_left (_pending_confirmations (confs st)) (_pending_confirmations c1) []) as H1.
  pose proof (forget_left (_pending_confirmations c1) (_pending_confirmations c2) (to_retry t c1)) as H2.
  rewrite (uncounted_queued (_pending_confirmations c1)) in H2 by apply to_retry_keys.
  cbn in H1. change (uncounted (_pending_confirmations c1) []) with 0%nat in H1.
  change (uncounted (_pending_confirmations (confs st)) []) with 0%nat in H1.
  assert (attempts_left (_pending_confirmations c1) + 0 <=
    attempts_left (_pending_confirmations (confs st)) + 0).
  { apply H1; [apply Hi|apply Hi1|by intros []; apply Hs1|done|apply NoDup_nil_2|].
    by intros ? ? ?%not_elem_of_nil. }
  assert (attempts_left (_pending_confirmations c2) +
    Z.of_nat (uncounted (_pending_confirmations c2) (to_retry t c1)) <=
    attempts_left (_pending_confirmations c1) + 0).
  { apply H2; [apply Hi1|apply Hi2|by intros []; apply Hs2|done|done|done]. }
  lia.
Qed.

Lemma one_retry (rs1 rs2 : list retry) r :
  (length (rs1 ++ r :: rs2) <= 1)%nat -> rs1 = [] /\ rs2 = [].
Proof. rewrite length_app. simpl. destruct rs1, rs2; simpl; try lia. done. Qed.

Lemma forgets_left st f :
  forgets f -> pci_inv st -> attempts_inv st -> (length (retries st) <= 1)%nat ->
  writes_left (with_confs st (f (confs st))) <= writes_left st.
Proof.
  intros Hf Hinv Ha H1. pose proof Hinv as (Hi & _). destruct (Hf (confs st) Hi) as [Hi' Hs].
  apply forget_writes_left; [done|done|done|apply Hi'|by intros []; apply Hs].
Qed.

Lemma forgets_all : forgets (fun _ => no_confirmations).
Proof.
  intros st _. split; [apply no_confirmations_inv|by intros c e ?%not_elem_of_nil].
Qed.

(** A step that writes nothing adds nothing to what may still be written. *)
Lemma quiet_step_left st st' :
  pci_inv st -> attempts_inv st -> (retry_tasks st <= 1)%nat -> (retry_tasks st' <= 1)%nat ->
  step st st' -> written st' = written st ->
  writes_left st' <= writes_left st.
Proof.
  intros Hinv Ha H1 H1' Hstep Hw. assert (length (retries st) <= 1)%nat as Hr by (unfold retry_tasks in H1; lia).
  destruct Hstep as [tr st|st|d st|ts1 t ts2 t0 now st E|calls t0 now st|
    ss1 s ss2 t0 now st E|rs1 rs2 t0 ct st st' r E H|rs1 rs2 tr data rest t0 st st' r E H].
  - exact (forgets_left st _ forgets_all Hinv Ha Hr).
  - exact (forgets_left st _ forgets_all Hinv Ha Hr).
  - unfold handle_cbus_packet. destruct (dispatch d) as [[evs ts]|e]; apply Z.le_refl.
  - destruct t as [c|c| |].
    + exact (forgets_left st _ (forgets_remove c) Hinv Ha Hr).
    + exact (forgets_left st _ (forgets_release c) Hinv Ha Hr).
    + exact (start_send_left pci_reset t0 now (with_tasks st (ts1 ++ ts2)) Hinv Ha Hr).
    + unfold writes_left. cbn [run_task confs retries with_retries with_tasks].
      destruct (retries st); cbn [app retry_writes]; lia.
  - by apply start_send_left.
  - rewrite resume_send_written in Hw. apply (f_equal length) in Hw.
    rewrite length_app in Hw. cbn in Hw. lia.
  - rewrite E in Hr. destruct (one_retry _ _ _ Hr) as [-> ->].
    apply retry_wake_left in H; [|done|apply Ha].
    unfold writes_left. cbn [confs retries with_retries app]. rewrite E. cbn [app retry_writes]. lia.
  - apply retry_resume_written in H. cbn [written with_retries] in Hw. rewrite H in Hw.
    apply (f_equal length) in Hw. rewrite length_app in Hw. cbn in Hw. lia.
Qed.

Lemma resend_left rs1 rs2 tr data rest t st st' r :
  pci_inv st -> (length (retries st) <= 1)%nat ->
  retries st = rs1 ++ RetrySending tr data rest t :: rs2 ->
  retry_resume tr data rest t st = (st', r) ->
  1 + writes_left (with_retries st' (rs1 ++ r :: rs2)) <= writes_left st.
Proof.
  intros ((_ & _ & Hnd & _) & _) Hr E H. rewrite E in Hr. destruct (one_retry _ _ _ Hr) as [-> ->].
  apply retry_next_left in H; [|done].
  unfold writes_left. cbn [confs retries with_retries app write] in *. rewrite E. cbn [app retry_writes]. lia.
Qed.

(** Every packet sent with a code pays for two more writes. *)
Lemma history_left first again st :
  history first again st -> (retry_tasks st <= 1)%nat ->
  Z.of_nat (length again) + writes_left st <= 2 * Z.of_nat (length (List.filter has_code first)).
Proof.
  induction 1 as [|ss1 s ss2 t now first again st Hh IH E|
    rs1 rs2 tr data rest t first again st st' r Hh IH E H|first again st st' Hh IH Hs Hw]; intros H1.
  - clear. vm_compute. discriminate.
  - pose proof (history_reachable _ _ _ Hh) as Hreach. pose proof (reachable_inv _ Hreach) as Hinv.
    pose proof (retry_tasks_mono _ _ Hinv (StepSend ss1 s ss2 t now st E)) as Hmono.
    specialize (IH ltac:(lia)). pose proof (reachable_attempts _ Hreach ltac:(lia)) as Ha.
    pose proof Hinv as (Hi & Hp & Hss & Hq). rewrite E in Hss.
    apply Forall_app in Hss as [Hs1 [Hs Hs2]%Forall_cons].
    assert (pci_inv (with_sends st (ss1 ++ ss2))) as Hinv'.
    { refine (conj Hi (conj Hp (conj _ Hq))). by apply Forall_app. }
    pose proof (resume_send_left s t now (with_sends st (ss1 ++ ss2)) Hs Hinv' Ha
      ltac:(unfold retry_tasks in *; cbn; lia)) as Hle.
    change (writes_left (with_sends st (ss1 ++ ss2))) with (writes_left st) in Hle.
    rewrite List.filter_app, length_app. cbn [List.filter]. destruct (has_code s); cbn [length]; lia.
  - pose proof (history_reachable _ _ _ Hh) as Hreach. pose proof (reachable_inv _ Hreach) as Hinv.
    pose proof (retry_tasks_mono _ _ Hinv (StepRetrySend rs1 rs2 tr data rest t st st' r E H)) as Hmono.
    specialize (IH ltac:(lia)).
    pose proof (resend_left _ _ _ _ _ _ _ _ _ Hinv ltac:(unfold retry_tasks in *; lia) E H).
    rewrite length_app. cbn [length]. lia.
  - pose proof (history_reachable _ _ _ Hh) as Hreach. pose proof (reachable_inv _ Hreach) as Hinv.
    pose proof (retry_tasks_mono _ _ Hinv Hs) as Hmono. specialize (IH ltac:(lia)).
    pose proof (quiet_step_left _ _ Hinv (reachable_attempts _ Hreach ltac:(lia)) ltac:(lia) H1 Hs Hw).
    lia.
Qed.

Lemma writes_left_nonneg st : attempts_ok (confs st) -> 0 <= writes_left st.
Proof.
  intros Ha. unfold writes_left.
  assert (0 <= attempts_left (_pending_confirmations (confs st))) as H0.
  { unfold attempts_ok in Ha. induction (_pending_confirmations (confs st)) as [|[c e] d IH]; [done|].
    rewrite attempts_left_cons. pose proof (Ha c e ltac:(left)).
    assert (0 <= attempts_left d); [apply IH; intros c' e' Hin; apply (Ha c'); by right|lia]. }
  destruct (retries st) as [|[|] ?]; cbn [retry_writes]; lia.
Qed.

(** *** Retry rounds that are not interleaved with anything *)

(** The retry task run until it sleeps again. *)
Fixpoint retry_run (fuel : nat) (st : pci) (r : retry) : pci :=
  match r with
  | RetrySleeping => st
  | RetrySending tr data rest t =>
      match fuel with
      | O => st
      | S fuel => let '(st, r) := retry_resume tr data rest t st in retry_run fuel st r
      end
  end.

(** One unit of fuel per packet that may be resent. *)
Definition retry_round (t ct : Z) (st : pci) : pci :=
  let '(st', r) := retry_wake t ct st in
  retry_run (length (_pending_confirmations (confs st))) st' r.

(** Every pending packet was sent [k] times or more, and is due at [t]. *)
Definition due (k t : Z) (st : confirmations) : Prop :=
  forall c e, (c, e) ∈ _pending_confirmations st ->
    k <= attempts e /\ last_attempt_time e + PACKET_RETRY_INTERVAL <= t.

(** A packet is in the queue still, or was counted in this round. *)
Definition round_inv (k t : Z) (q : list (Z * bytes)) (st : confirmations) : Prop :=
  NoDup (keys (_pending_confirmations st)) /\ NoDup (map fst q) /\
  forall c e, (c, e) ∈ _pending_confirmations st ->
    if decide (c ∈ map fst q) then k <= attempts e
    else k + 1 <= attempts e /\ last_attempt_time e = t.

Lemma count_attempt_round k t code data rest st :
  round_inv k t ((code, data) :: rest) st ->
  round_inv k t rest (count_attempt st code data t).
Proof.
  intros (Hnd & Hq & Hr). apply NoDup_cons in Hq as [Hni Hq]. unfold count_attempt.
  destruct (dict_get (_pending_confirmations st) code) as [e|] eqn:E.
  - split; [by apply NoDup_keys_set|]. split; [done|]. intros c x Hx.
    apply dict_get_in in Hx; [|by apply NoDup_keys_set]. simpl in Hx.
    rewrite dict_get_set in Hx. destruct (Z.eqb_spec code c) as [->|Hne].
    + injection Hx as <-. simpl. rewrite decide_False by done.
      apply dict_get_elem, Hr in E. rewrite decide_True in E by constructor. lia.
    + apply dict_get_elem, Hr in Hx. destruct (decide (c ∈ map fst rest)).
      * rewrite decide_True in Hx by by constructor. done.
      * rewrite decide_False in Hx; [done|]. intros [->|?]%elem_of_cons; done.
  - split; [done|]. split; [done|]. intros c x Hx. pose proof (Hr c x Hx) as Hx'.
    destruct (decide (c ∈ map fst rest)).
    + by rewrite decide_True in Hx' by by constructor.
    + rewrite decide_False in Hx'; [done|]. intros [->|?]%elem_of_cons; [|done].
      apply dict_get_None in E. apply E, list_elem_of_fmap. by exists (code, x).
Qed.

Lemma retry_run_round k t q st tr fuel st' r :
  _transport st = Some tr -> (length q <= fuel)%nat -> round_inv k t q (confs st) ->
  retry_next q t st = (st', r) ->
  let out := retry_run fuel st' r in
  _transport out = Some tr /\ round_inv k t [] (confs out).
Proof.
  revert st st' r fuel. induction q as [|[code data] q IH]; intros st st' r fuel Htr Hf Hr H;
    cbn [retry_next] in H; cbv zeta in *.
  - injection H as <- <-. by destruct fuel.
  - change (_transport (with_confs st _)) with (_transport st) in H. rewrite Htr in H.
    injection H as <- <-. destruct fuel as [|fuel]; [simpl in Hf; lia|].
    cbn [retry_run]. unfold retry_resume.
    set (st1 := write (with_confs st (count_attempt (confs st) code data t)) tr data).
    destruct (retry_next q t st1) as [st'' r'] eqn:E. simpl in Hf.
    apply (IH st1 st'' r' fuel); [done|lia| |done].
    by apply count_attempt_round.
Qed.

Lemma foldl_abandon_pending st cs x :
  x ∈ _pending_confirmations (foldl abandon st cs) ->
  x ∈ _pending_confirmations st /\ x.1 ∉ cs.
Proof.
  revert st. induction cs as [|c cs IH]; intros st; simpl.
  - intros ?. split; [done|apply not_elem_of_nil].
  - intros [H Hn]%IH. rewrite not_elem_of_cons.
    assert (x ∈ dict_pop (_pending_confirmations st) c) as Hp.
    { unfold abandon, _release_confirmation_code in H. case_match; [|done].
      by apply elem_of_dict_pop in H as [? _]. }
    apply elem_of_dict_pop in Hp as [? ?]. tauto.
Qed.

Lemma length_omap_le {A B} (f : A -> option B) l : (length (omap f l) <= length l)%nat.
Proof.
  induction l as [|x l IH]; [done|].
  change (omap f (x :: l)) with
    (match f x with Some y => y :: omap f l | None => omap f l end).
  destruct (f x); simpl; lia.
Qed.

Lemma forgets_length f st :
  forgets f -> confirmations_inv st ->
  (length (_pending_confirmations (f st)) <= length (_pending_confirmations st))%nat.
Proof.
  intros Hf Hi. destruct (Hf st Hi) as ((_ & _ & Hnd & _) & Hsub).
  apply NoDup_incl_length.
  - apply NoDup_ListNoDup. by apply NoDup_fmap_1 in Hnd.
  - intros [c e] Hin. apply list_elem_of_In, Hsub. by apply list_elem_of_In.
Qed.

(** A round counts every due packet, and gives up those sent three times. *)
Lemma retry_round_due k t ct st tr :
  pci_inv st -> _transport st = Some tr -> due k t (confs st) ->
  let st' := retry_round t ct st in
  _transport st' = Some tr /\
  (k < MAX_PACKET_RETRIES -> due (k + 1) (t + PACKET_RETRY_INTERVAL) (confs st')) /\
  (MAX_PACKET_RETRIES <= k -> _pending_confirmations (confs st') = []) /\
  NoDup (keys (_pending_confirmations (confs st'))).
Proof.
  intros Hinv Htr Hdue. pose proof Hinv as (Hi & _). cbv zeta. unfold retry_round, retry_wake.
  cbv zeta. set (c1 := _check_and_release_timed_out_codes ct (confs st)).
  set (q := to_retry t c1). set (c2 := foldl abandon c1 (to_abandon t c1)).
  destruct (forgets_check ct (confs st) Hi) as [Hi1 Hsub1]. fold c1 in Hi1, Hsub1.
  destruct (forgets_foldl_abandon (to_abandon t c1) c1 Hi1) as [Hi2 Hsub2]. fold c2 in Hi2, Hsub2.
  assert (forall c e, (c, e) ∈ _pending_confirmations c2 -> c ∈ map fst q /\ k <= attempts e
    /\ attempts e < MAX_PACKET_RETRIES) as Hall.
  { intros c e Hin. apply foldl_abandon_pending in Hin as [Hin Hna]. simpl in Hna.
    destruct (Hdue c e (Hsub1 c e Hin)) as [Hk Hl].
    assert ((PACKET_RETRY_INTERVAL <=? t - last_attempt_time e) = true) as El by lia.
    destruct (attempts e <? MAX_PACKET_RETRIES) eqn:Ea.
    - split; [|lia]. apply list_elem_of_fmap. exists (c, packet_data e). split; [done|].
      apply list_elem_of_omap. exists (c, e). split; [done|]. by rewrite El, Ea.
    - exfalso. apply Hna, list_elem_of_omap. exists (c, e). split; [done|]. by rewrite El, Ea. }
  destruct (retry_next q t (with_confs st c2)) as [st' r] eqn:E.
  assert (round_inv k t q c2) as Hr.
  { split; [apply Hi2|]. split; [apply to_retry_fresh, Hi1|].
    intros c e Hin. apply Hall in Hin as (Hc & Hk & _). by rewrite decide_True. }
  destruct (retry_run_round k t q (with_confs st c2) tr
    (length (_pending_confirmations (confs st))) st' r Htr) as [Htr' (Hnd & _ & Hout)];
    [|exact Hr|exact E|].
  { etrans; [apply length_omap_le|].
    apply (forgets_length (_check_and_release_timed_out_codes ct)); [apply forgets_check|done]. }
  split; [done|]. split; [|split; [|done]].
  - intros _ c e Hin. apply Hout in Hin. rewrite decide_False in Hin by apply not_elem_of_nil.
    lia.
  - intros Hk. assert (q = []) as Eq.
    { destruct q as [|[c d] q'] eqn:Eq; [done|]. exfalso.
      assert ((c, d) ∈ to_retry t c1) as Hin by (fold q; rewrite Eq; constructor).
      apply list_elem_of_omap in Hin as ([c' e] & Hin & H).
      destruct (_ && _) eqn:Eb; [|done]. apply andb_true_iff in Eb as [_ Hlt%Z.ltb_lt].
      destruct (Hdue c' e (Hsub1 c' e Hin)). lia. }
    rewrite Eq in E. injection E as <- <-.
    assert (_pending_confirmations c2 = []) as He; [|by destruct (length _)].
    destruct (_pending_confirmations c2) as [|[c e] l]; [done|].
    destruct (Hall c e) as (_ & ? & ?); [constructor|lia].
Qed.

Lemma retry_run_inv fuel st r :
  pci_inv st -> retry_ok r -> pci_inv (retry_run fuel st r).
Proof.
  revert st r. induction fuel as [|fuel IH]; intros st [|tr data rest t] Hinv Hr; try done.
  cbn [retry_run]. destruct (retry_resume tr data rest t st) as [st' r'] eqn:E.
  unfold retry_resume in E. apply retry_next_inv in E as (Hinv' & Hr' & _); [|done|done].
  by apply IH.
Qed.

Lemma retry_round_inv t ct st : pci_inv st -> pci_inv (retry_round t ct st).
Proof.
  intros Hinv. unfold retry_round. destruct (retry_wake t ct st) as [st' r] eqn:E.
  apply retry_wake_inv in E as [Hinv' Hr]; [|done]. by apply retry_run_inv.
Qed.

(** The coroutine's own state is not part of what it works on. *)
Lemma retry_next_with_retries q t st rs :
  retry_next q t (with_retries st rs) =
    (with_retries (retry_next q t st).1 rs, (retry_next q t st).2).
Proof. destruct q as [|[c d] q]; [done|]. simpl. by destruct (_transport st). Qed.

Lemma retry_run_steps fuel st r :
  (match r with RetrySleeping => True
   | RetrySending _ _ rest _ => (length rest < fuel)%nat end) ->
  rtc step (with_retries st [r]) (with_retries (retry_run fuel st r) [RetrySleeping]).
Proof.
  revert st r. induction fuel as [|fuel IH]; intros st [|tr data rest t] Hf;
    try apply rtc_refl; [lia|]. cbn [retry_run].
  destruct (retry_resume tr data rest t st) as [st' r'] eqn:E.
  eapply rtc_l; [|apply (IH st' r')].
  - refine (StepRetrySend [] [] tr data rest t (with_retries st _)
      (with_retries st' [RetrySending tr data rest t]) r' eq_refl _).
    unfold retry_resume in *. change (write (with_retries st ?rs) tr data) with
      (with_retries (write st tr data) rs). by rewrite retry_next_with_retries, E.
  - unfold retry_resume, retry_next in E. destruct rest as [|[c d] rest]; [by injection E as _ <-|].
    cbv zeta in E. simpl in Hf. destruct (_transport _); injection E as _ <-; [lia|done].
Qed.

(** A round is an execution. *)
Lemma retry_round_steps t ct st :
  confirmations_inv (confs st) ->
  rtc step (with_retries st [RetrySleeping])
    (with_retries (retry_round t ct st) [RetrySleeping]).
Proof.
  intros Hi. unfold retry_round. destruct (retry_wake t ct st) as [st' r] eqn:E.
  eapply rtc_l; [|apply (retry_run_steps _ st' r)].
  - refine (StepRetryWake [] [] t ct (with_retries st _)
      (with_retries st' [RetrySleeping]) r eq_refl _).
    unfold retry_wake in *. cbv zeta in *.
    change (confs (with_retries st ?rs)) with (confs st).
    change (with_confs (with_retries st ?rs) ?c) with (with_retries (with_confs st c) rs).
    by rewrite retry_next_with_retries, E.
  - unfold retry_wake in E. cbv zeta in E.
    set (c1 := _check_and_release_timed_out_codes ct (confs st)) in *.
    pose proof (length_omap_le (fun '(code, e) =>
      if (PACKET_RETRY_INTERVAL <=? t - last_attempt_time e) &&
         (attempts e <? MAX_PACKET_RETRIES)
      then Some (code, packet_data e) else None) (_pending_confirmations c1)) as Hle.
    change (omap _ _) with (to_retry t c1) in Hle.
    pose proof (forgets_length _ (confs st) (forgets_check ct) Hi) as Hle2. fold c1 in Hle2.
    unfold retry_next in E. destruct (to_retry t c1) as [|[c d] rest]; [by injection E as _ <-|].
    simpl in Hle. destruct (_transport _); injection E as _ <-; [lia|done].
Qed.

(** *** What a prepared command means to the interface *)

Lemma lighting_sals_ok new app gs :
  (forall g, lighting_application (new g app) = app /\ lighting_group (new g app) = g) ->
  byte_in app lighting_applications = true -> Forall byte_ok gs ->
  lighting_sals new app gs = Ok (map (fun g => SLighting (new g app)) gs).
Proof.
  intros Hnew Happ Hgs. unfold lighting_sals.
  induction Hgs as [|g gs Hg Hgs IH]; [done|]. cbn [mapM_result map].
  destruct (Hnew g) as [Ha Eg]. rewrite (lighting_init_ok app); [|done|done|by rewrite Eg].
  by rewrite !bind_Ok, IH.
Qed.

(** The header of a command. *)
Definition command_header : header :=
  base_header true DestinationAddressType.POINT_TO_MULTIPOINT 0 false PriorityClass.CLASS_4.

(** A command built by [pm_command] from messages of one application. *)
Lemma pm_command_ok app sals :
  sals <> [] -> Forall (fun s => sal_application s = app) sals ->
  pm_command sals = Ok (PointToMultipointPacket command_header (Some app) sals).
Proof.
  intros Hne Hs. destruct sals as [|s sals]; [done|].
  apply Forall_cons in Hs as [Hs Hss]. unfold pm_command, pm_new. cbn [append_sals append_sal].
  rewrite bind_Ok, Hs, append_sals_ok by done. done.
Qed.

(** Preparing a valid packet for the interface, and the interface reading it. *)
Lemma prepared_is_received p h basic t now st rest strict :
  confirmations_inv st -> packet_valid p -> packet_header p = Some h ->
  from_interface h = false -> (basic = true -> dp h = true) ->
  exists st' data code,
    _prepare_packet {| cmd := p; want_confirmation := true; basic_mode := basic |} t now st =
      Ok (st', data, Some code) /\
    code ∈ CONFIRMATION_CODES /\ code ∈ keys (_confirmation_codes_in_use st') /\
    decode_packet (data ++ rest) (checksum h) strict false =
      Ok (Some (DPacket (received (Some [code]) p)), length data).
Proof.
  intros Hi Hv Hh Hsrc Hb. set (pre := if basic then [] else [92]).
  pose proof (get_code_spec t now st Hi) as Hg. cbv zeta in Hg.
  destruct (_get_confirmation_code t now st) as [st' code] eqn:Eg.
  destruct Hg as (_ & Hcode & _ & Euse & _).
  destruct (to_pci_wire p h pre (Some code) rest strict Hv Hh Hsrc) as (txt & Et & Hd).
  { unfold pre. destruct basic; [right|by left]. split; [done|by apply Hb]. }
  { by apply byte_in_spec. }
  exists st', (pre ++ txt ++ [code] ++ END_COMMAND), code.
  split; [|split; [done|split]].
  - unfold _prepare_packet. cbn [cmd want_confirmation basic_mode]. cbv zeta.
    assert (is_special_client p = false) as -> by by destruct p.
    cbn [orb negb andb]. rewrite Et, bind_Ok, Eg. unfold pre. by destruct basic.
  - rewrite Euse, elem_of_keys_set. by left.
  - change (option_list (Some code)) with [code] in Hd.
    rewrite <- !app_assoc. simpl in Hd |- *. rewrite Hd. repeat f_equal.
    rewrite !length_app. simpl. lia.
Qed.

(** ** Properties *)

(** C1. No packet waits under another packet's code. However received packets,
    commands, confirmations, timeouts, retries, delays and reconnections
    interleave, the codes in use and the codes waited for are distinct
    confirmation codes, and every pending packet, and every packet about to be
    written or resent, ends with the very code it is filed under. *)
Theorem pending_packets_carry_their_code st :
  reachable st ->
  confirmations_inv (confs st) /\
  (forall c e, (c, e) ∈ _pending_confirmations (confs st) -> carries c (packet_data e)) /\
  (forall s c, s ∈ sends st -> s_code s = Some c ->
     c ∈ CONFIRMATION_CODES /\ carries c (s_data s)) /\
  (forall tr d q t c d', RetrySending tr d q t ∈ retries st -> (c, d') ∈ q ->
     carries c d').
Proof.
  intros H%reachable_inv. destruct H as (Hi & Hp & Hs & Hr).
  split; [done|]. split; [done|]. split.
  - intros s c Hin Hc. rewrite Forall_forall in Hs. specialize (Hs s Hin).
    unfold sending_ok in Hs. by rewrite Hc in Hs.
  - intros tr d q t c d' Hin Hq. rewrite Forall_forall in Hr. specialize (Hr _ Hin).
    simpl in Hr. unfold queue_ok in Hr. rewrite Forall_forall in Hr. by apply (Hr (c, d')).
Qed.

(** A command was sent and registered, and its confirmation is being handled. *)
Definition after_command : pci :=
  let st := connection_made 7 pci_init in
  let st := start_send [dm_option 0x30 0x79] 0 0 st in
  match sends st with
  | s :: ss => resume_send s 0 0 (with_sends st ss)
  | [] => st
  end.

Lemma after_command_reachable : reachable after_command.
Proof.
  assert (reachable (start_send [dm_option 0x30 0x79] 0 0 (connection_made 7 pci_init))) as H.
  { eapply ReachStep; [|apply StepCommand].
    eapply ReachStep; [apply ReachInit|apply StepConnectionMade]. }
  eapply ReachStep; [exact H|].
  refine (StepSend [] _ [] 0 0 _ _). vm_compute. reflexivity.
Qed.

Example pending_packets_carry_their_code_witness :
  length (_pending_confirmations (confs after_command)) = 1%nat /\
  confirmations_inv (confs after_command) /\
  (forall c e, (c, e) ∈ _pending_confirmations (confs after_command) ->
     carries c (packet_data e)) /\
  (forall s c, s ∈ sends after_command -> s_code s = Some c ->
     c ∈ CONFIRMATION_CODES /\ carries c (s_data s)) /\
  (forall tr d q t c d', RetrySending tr d q t ∈ retries after_command -> (c, d') ∈ q ->
     carries c d').
Proof.
  split; [vm_compute; reflexivity|].
  apply (pending_packets_carry_their_code after_command). exact after_command_reachable.
Defined.

(** C5. Retries are bounded. In every execution with one retry task (one
    connection), whatever is interleaved: what was written is what [_send] wrote
    first and what the retry task wrote again; the retry task has written at most
    twice as many packets as were first sent with a confirmation code; and the
    attempts counted for every pending packet are between one and three. The bound
    is on all packets together: one that is filed again under the count of another
    takes that one's attempts. *)
Theorem attempts_bounded st :
  reachable st -> (retry_tasks st <= 1)%nat ->
  (exists first again, history first again st) /\
  (forall first again, history first again st ->
     written st ≡ₚ map (fun s => (s_transport s, s_data s)) first ++ again /\
     (length again <= 2 * length (List.filter has_code first))%nat) /\
  forall c e, (c, e) ∈ _pending_confirmations (confs st) -> 1 <= attempts e <= 3.
Proof.
  intros Hr H1. destruct (reachable_attempts _ Hr H1) as [Ha _].
  split; [by apply reachable_history|]. split; [|exact Ha]. intros first again Hh.
  pose proof (history_left _ _ _ Hh H1). pose proof (writes_left_nonneg st Ha).
  split; [by apply history_written|lia].
Qed.

Example attempts_bounded_witness :
  (retry_tasks after_command <= 1)%nat /\
  (exists first again, history first again after_command) /\
  (forall first again, history first again after_command ->
     written after_command ≡ₚ map (fun s => (s_transport s, s_data s)) first ++ again /\
     (length again <= 2 * length (List.filter has_code first))%nat) /\
  forall c e, (c, e) ∈ _pending_confirmations (confs after_command) -> 1 <= attempts e <= 3.
Proof.
  assert (retry_tasks after_command <= 1)%nat as H1.
  { vm_compute. constructor. }
  split; [exact H1|].
  apply (attempts_bounded after_command); [exact after_command_reachable|exact H1].
Defined.

(** C4. Every packet is confirmed or given up. With a transport, and nothing
    else happening, three rounds of the retry task at least one second apart
    leave no packet pending, however many there were; each round is an execution
    of the retry task. *)
Theorem packets_given_up t1 t2 t3 c1 c2 c3 st tr :
  pci_inv st -> attempts_ok (confs st) -> _transport st = Some tr ->
  (forall c e, (c, e) ∈ _pending_confirmations (confs st) ->
     last_attempt_time e + PACKET_RETRY_INTERVAL <= t1) ->
  t1 + PACKET_RETRY_INTERVAL <= t2 -> t2 + PACKET_RETRY_INTERVAL <= t3 ->
  let st3 := retry_round t3 c3 (retry_round t2 c2 (retry_round t1 c1 st)) in
  _pending_confirmations (confs st3) = [] /\
  rtc step (with_retries st [RetrySleeping]) (with_retries st3 [RetrySleeping]).
Proof.
  intros Hinv Ha Htr Hl H12 H23.
  set (st1 := retry_round t1 c1 st). set (st2 := retry_round t2 c2 st1). cbv zeta.
  pose proof (retry_round_inv t1 c1 st Hinv) as Hinv1. fold st1 in Hinv1.
  pose proof (retry_round_inv t2 c2 st1 Hinv1) as Hinv2. fold st2 in Hinv2.
  assert (due 1 t1 (confs st)) as Hd1.
  { intros c e Hin. split; [by eapply Ha|by eapply Hl]. }
  destruct (retry_round_due 1 t1 c1 st tr Hinv Htr Hd1) as (Htr1 & Hn1 & _).
  fold st1 in Htr1, Hn1.
  assert (due 2 t2 (confs st1)) as Hd2.
  { intros c e Hin. destruct (Hn1 ltac:(done) c e Hin). lia. }
  destruct (retry_round_due 2 t2 c2 st1 tr Hinv1 Htr1 Hd2) as (Htr2 & Hn2 & _).
  fold st2 in Htr2, Hn2.
  assert (due 3 t3 (confs st2)) as Hd3.
  { intros c e Hin. destruct (Hn2 ltac:(done) c e Hin). lia. }
  split; [by apply (retry_round_due 3 t3 c3 st2 tr Hinv2 Htr2 Hd3)|].
  etrans; [apply (retry_round_steps t1 c1), Hinv|].
  etrans; [apply (retry_round_steps t2 c2), Hinv1|].
  apply (retry_round_steps t3 c3), Hinv2.
Qed.

Example packets_given_up_witness :
  length (_pending_confirmations (confs (retry_round 2000000 2000000
    (retry_round 1000000 1000000 after_command)))) = 1%nat /\
  let st3 := retry_round 3000000 3000000 (retry_round 2000000 2000000
    (retry_round 1000000 1000000 after_command)) in
  _pending_confirmations (confs st3) = [] /\
  rtc step (with_retries after_command [RetrySleeping])
    (with_retries st3 [RetrySleeping]).
Proof.
  split; [vm_compute; reflexivity|].
  apply (packets_given_up 1000000 2000000 3000000 1000000 2000000 3000000
    after_command 7%nat).
  - apply reachable_inv. exact after_command_reachable.
  - apply reachable_attempts; [exact after_command_reachable|vm_compute; constructor].
  - reflexivity.
  - intros c e Hin. vm_compute in Hin.
    apply list_elem_of_singleton in Hin. injection Hin as -> ->. vm_compute. discriminate.
  - vm_compute. discriminate.
  - vm_compute. discriminate.
Defined.

(** C6. A confirmation settles its packet and nothing else. Whatever it reports,
    success or failure, handling it creates two tasks; once both have run, in
    either order, its code is free again and nothing waits for it, and every
    other code and packet is as before. *)
Theorem confirmation_settles st c success order :
  confirmations_inv (confs st) -> c ∈ CONFIRMATION_CODES ->
  order ≡ₚ [RemoveFromPending c; ReleaseCode c] ->
  let st' := (handle_cbus_packet st (DPacket (ConfirmationPacket [c] success))).1 in
  tasks st' = tasks st ++ [RemoveFromPending c; ReleaseCode c] /\
  let out := confs (foldl (fun st t => run_task t 0 0 st) st' order) in
  forall c',
    dict_get (_confirmation_codes_in_use out) c' =
      (if c =? c' then None else dict_get (_confirmation_codes_in_use (confs st)) c') /\
    dict_get (_pending_confirmations out) c' =
      (if c =? c' then None else dict_get (_pending_confirmations (confs st)) c').
Proof.
  intros Hi Hc%byte_in_spec Ho. cbv zeta. unfold handle_cbus_packet, dispatch, on_confirmation.
  rewrite Hc, !bind_Ok. split; [done|].
  assert (order = [RemoveFromPending c; ReleaseCode c] \/
          order = [ReleaseCode c; RemoveFromPending c]) as [-> | ->].
  { symmetry in Ho. apply permutations_Permutation in Ho. simpl in Ho.
    repeat (apply elem_of_cons in Ho as [->|Ho]; [tauto|]). by apply not_elem_of_nil in Ho. }
  all: intros c'; simpl; unfold _release_confirmation_code; simpl;
    destruct (dict_mem (_confirmation_codes_in_use (confs st)) c) eqn:E; simpl;
    rewrite ?dict_get_pop; destruct (Z.eqb_spec c c') as [->|]; try done;
    split; try done; by apply dict_get_None, dict_mem_false.
Qed.

Example confirmation_settles_witness :
  let st' := (handle_cbus_packet after_command
    (DPacket (ConfirmationPacket [104] false))).1 in
  tasks st' = tasks after_command ++ [RemoveFromPending 104; ReleaseCode 104] /\
  let out := confs (foldl (fun st t => run_task t 0 0 st) st'
    [ReleaseCode 104; RemoveFromPending 104]) in
  forall c',
    dict_get (_confirmation_codes_in_use out) c' =
      (if 104 =? c' then None
       else dict_get (_confirmation_codes_in_use (confs after_command)) c') /\
    dict_get (_pending_confirmations out) c' =
      (if 104 =? c' then None
       else dict_get (_pending_confirmations (confs after_command)) c').
Proof.
  apply (confirmation_settles after_command 104 false
    [ReleaseCode 104; RemoveFromPending 104]).
  - apply reachable_inv. exact after_command_reachable.
  - apply byte_in_spec. reflexivity.
  - apply perm_swap.
Defined.

(** C7. A lighting command reaches the interface. Turning on, turning off or
    stopping one to nine valid groups of a lighting application builds a packet,
    takes a code, and the bytes prepared are read by the interface, whatever
    follows them, as exactly those messages in that order with that code; more
    than nine groups are refused. *)
Theorem lighting_commands_received new command gs app t now st rest strict :
  In (new, command)
     [(LightingOnSAL, lighting_group_on); (LightingOffSAL, lighting_group_off);
      (LightingTerminateRampSAL, lighting_group_terminate_ramp)] ->
  confirmations_inv st -> byte_in app lighting_applications = true ->
  Forall byte_ok gs -> gs <> [] ->
  if (9 <? length gs)%nat then command (Groups gs) app = Raise ValueError
  else exists p st' data code h,
    command (Groups gs) app = Ok p /\
    _prepare_packet {| cmd := p; want_confirmation := true; basic_mode := false |}
      t now st = Ok (st', data, Some code) /\
    code ∈ CONFIRMATION_CODES /\ confirmation h = Some [code] /\
    decode_packet (data ++ rest) true strict false =
      Ok (Some (DPacket (PointToMultipointPacket h (Some app)
            (map (fun g => SLighting (new g app)) gs))), length data).
Proof.
  intros Hin Hi Happ Hgs Hne.
  assert ((forall g, lighting_application (new g app) = app /\
             lighting_group (new g app) = g /\ on_wire (new g app) = new g app /\
             (byte_ok g -> lighting_valid app (new g app))) /\
    forall ga a, command ga a = (gs ← _normalize_group_addrs ga;
      sals ← lighting_sals new a gs; pm_command sals)) as [Hnew Hcmd].
  { simpl in Hin. destruct Hin as [[= <- <-]|[[= <- <-]|[[= <- <-]|[]]]];
      split; try done; intros g; by repeat split. }
  rewrite Hcmd. unfold _normalize_group_addrs.
  destruct (9 <? length gs)%nat; [done|].
  rewrite bind_Ok, (lighting_sals_ok new app gs), bind_Ok;
    [|intros g; by destruct (Hnew g) as (? & ? & _)|done|done].
  set (sals := map (fun g => SLighting (new g app)) gs).
  rewrite (pm_command_ok app); [|unfold sals; by destruct gs|
    apply Forall_map, Forall_true; intros g; exact (proj1 (Hnew g))].
  match goal with |- context [PointToMultipointPacket ?hd _ _] => set (h := hd) end.
  assert (packet_valid (PointToMultipointPacket h (Some app) sals)) as Hv.
  { split; [done|]. split; [done|]. split; [done|]. split.
    - by rewrite (proj2 (get_application_spec app LightingApplication) Happ).
    - apply Forall_map. eapply Forall_impl; [exact Hgs|]. intros g Hg. simpl.
      destruct (Hnew g) as (Ha & _ & _ & Hl). split; [exact Ha|by apply Hl]. }
  destruct (prepared_is_received _ h false t now st rest strict Hi Hv eq_refl eq_refl
    ltac:(done)) as (st' & data & code & Hp & Hc & _ & Hd).
  eexists _, st', data, code, (received_header (Some [code]) h).
  split; [done|]. split; [exact Hp|]. split; [done|]. split; [done|].
  change (checksum h) with true in Hd. rewrite Hd. unfold received, packet_image, map_header.
  repeat f_equal. unfold sals. rewrite map_map. apply map_ext. intros g.
  cbn [sal_on_wire]. by destruct (Hnew g) as (_ & _ & -> & _).
Qed.

Example lighting_commands_received_witness :
  exists p st' data code h,
    lighting_group_on (Groups [1; 2; 3]) 0x38 = Ok p /\
    _prepare_packet {| cmd := p; want_confirmation := true; basic_mode := false |}
      0 0 no_confirmations = Ok (st', data, Some code) /\
    code ∈ CONFIRMATION_CODES /\ confirmation h = Some [code] /\
    decode_packet (data ++ [126]) true true false =
      Ok (Some (DPacket (PointToMultipointPacket h (Some 0x38)
            (map (fun g => SLighting (LightingOnSAL g 0x38)) [1; 2; 3]))), length data).
Proof.
  refine (lighting_commands_received LightingOnSAL lighting_group_on [1; 2; 3] 0x38 0 0
    no_confirmations [126] true _ no_confirmations_inv eq_refl _ _).
  - left. reflexivity.
  - apply forallb_byte_ok. reflexivity.
  - discriminate.
Defined.

(** The handlers that one packet from the interface calls. *)
Definition packet_events (p : packet) : list pci_event :=
  match received None p with
  | PointToMultipointPacket h _ sals => flat_map (sal_event (source_address h)) sals
  | PointToPointPacket _ _ _ _ cals => flat_map cal_event cals
  | _ => []
  end.

(** Packets of the interface call their handlers. *)
Lemma network_events st ps :
  Forall interface_packet ps ->
  exists ts, mapM_result encode_packet ps = Ok ts /\
    _process_buffer (handle_data false (fun _ => true) handle_cbus_packet (fun st _ => st))
      (concat (map (fun t => t ++ END_RESPONSE) ts)) st =
      ([], {| _transport := _transport st; confs := confs st; tasks := tasks st;
              sends := sends st; retries := retries st; written := written st;
              events := events st ++ flat_map packet_events ps |}, Ok tt).
Proof.
  intros Hps.
  assert (forall st p, p ∈ ps -> handle_cbus_packet st (DPacket (received None p)) =
    ({| _transport := _transport st; confs := confs st; tasks := tasks st;
        sends := sends st; retries := retries st; written := written st;
        events := events st ++ packet_events p |}, Ok tt)) as Hone.
  { intros s p Hin. rewrite Forall_forall in Hps.
    destruct (Hps p Hin) as (Hv & h & Hh & _). unfold handle_cbus_packet, packet_events.
    destruct p as [| | | | | |h' a sals|h' hops br u cals|h' pa v]; try done;
      unfold received; simpl; by rewrite ?app_nil_r. }
  destruct (deliver_all handle_cbus_packet (fun st _ => st) ps st Hps) as (ts & Hts & Hrun).
  { intros s p Hin. by rewrite Hone. }
  exists ts. split; [done|]. rewrite Hrun. f_equal. f_equal. clear Hrun Hts Hps.
  revert st. induction ps as [|p ps IH]; intros st; simpl.
  - rewrite app_nil_r. by destruct st.
  - rewrite Hone by constructor. simpl. rewrite IH.
    + simpl. by rewrite app_assoc.
    + intros s q Hq. apply Hone. by constructor.
Qed.

(** C8. What happens on the network reaches the application, and only that.
    When the interface sends any packets, the handlers are called for each
    message in order, with the source of its packet, and nothing else changes:
    in particular nothing is ever sent in return, so that a request for the
    time, although announced to its handler, is never answered. *)
Theorem network_events_reported st ps :
  Forall interface_packet ps ->
  exists ts, mapM_result encode_packet ps = Ok ts /\
    _process_buffer (handle_data false (fun _ => true) handle_cbus_packet (fun st _ => st))
      (concat (map (fun t => t ++ END_RESPONSE) ts)) st =
      ([], {| _transport := _transport st; confs := confs st; tasks := tasks st;
              sends := sends st; retries := retries st; written := written st;
              events := events st ++ flat_map packet_events ps |}, Ok tt).
Proof. apply network_events. Qed.

Example network_events_reported_witness :
  exists ts, mapM_result encode_packet [pm_sample] = Ok ts /\
    _process_buffer (handle_data false (fun _ => true) handle_cbus_packet (fun st _ => st))
      (concat (map (fun t => t ++ END_RESPONSE) ts)) pci_init =
      ([], {| _transport := None; confs := no_confirmations; tasks := [];
              sends := []; retries := []; written := [];
              events := [] ++ flat_map packet_events [pm_sample] |}, Ok tt).
Proof.
  apply (network_events_reported pci_init [pm_sample]).
  apply Forall_cons_2; [|apply Forall_nil_2]. split.
  - unfold pm_sample, packet_valid, lighting_sample.
    repeat split; repeat constructor; simpl; lia.
  - eexists. repeat split.
Defined.
