(* ===== verification/PciServer.v ===== *)
(** * The simulated interface: [cbus/protocol/pciserverprotocol.py]

    [PCIServerProtocol]: the options of an interface, the commands that change
    them, local echo, confirmations and status replies. The transport is set
    before any data arrives and stays, so the state only keeps what was written
    to it. Its methods [lighting_group_on], [..._off], [..._ramp],
    [..._terminate_ramp], and [on_clock_update], build a lighting message
    without the application address that its constructor requires. *)

From S2P Require Import Prelude Common Hex Report Cal Lighting Clock StatusRequest.
From S2P Require Import Application Packet Decode Buffered PyDict Confirm Pci.
From stdpp Require Import options.

Local Open Scope Z_scope.

(** ** State *)

Record server := {
  sv_basic_mode : bool;
  sv_connect : bool;
  sv_checksum : bool;
  sv_monitor : bool;
  sv_idmon : bool;
  application_addr1 : Z;
  application_addr2 : Z;
  _send_queue : list bytes;
  sv_written : list bytes
}.

(** [PCIServerProtocol.__init__] *)
Definition server_init : server :=
  {| sv_basic_mode := true; sv_connect := false; sv_checksum := false;
     sv_monitor := false; sv_idmon := false; application_addr1 := 0xff;
     application_addr2 := 0xff; _send_queue := []; sv_written := [] |}.

Definition set_options (basic connect checksum monitor idmon : bool) (s : server) : server :=
  {| sv_basic_mode := basic; sv_connect := connect; sv_checksum := checksum;
     sv_monitor := monitor; sv_idmon := idmon;
     application_addr1 := application_addr1 s; application_addr2 := application_addr2 s;
     _send_queue := _send_queue s; sv_written := sv_written s |}.

(** [self._transport.write(m)] for each message, leaving the queue as given. *)
Definition write_all (ms : list bytes) (queue : list bytes) (s : server) : server :=
  {| sv_basic_mode := sv_basic_mode s; sv_connect := sv_connect s;
     sv_checksum := sv_checksum s; sv_monitor := sv_monitor s; sv_idmon := sv_idmon s;
     application_addr1 := application_addr1 s; application_addr2 := application_addr2 s;
     _send_queue := queue; sv_written := sv_written s ++ ms |}.

(** ** Sending *)

(** [_serialize_packet]: every message but a confirmation ends the line. *)
Definition _serialize_packet (p : packet) : result bytes :=
  cmd ← encode_packet p;
  Ok (match p with ConfirmationPacket _ _ => cmd | _ => cmd ++ END_RESPONSE end).

(** [_send] of serialized bytes: the queue is sent after the message. *)
Definition send_bytes (cmd : bytes) (s : server) : server :=
  write_all (cmd :: _send_queue s) [] s.

(** A handler runs on the state until it returns or raises. *)
Abbreviation outcome := (server * result unit)%type.

Definition sv_send (p : packet) (s : server) : outcome :=
  match _serialize_packet p with
  | Ok cmd => (send_bytes cmd s, Ok tt)
  | Raise e => (s, Raise e)
  end.

Definition sv_send_standard (c : StandardCAL) (s : server) : outcome :=
  match standard_encode_packet c with
  | Ok cmd => (send_bytes (cmd ++ END_RESPONSE) s, Ok tt)
  | Raise e => (s, Raise e)
  end.

Definition _send_later (p : packet) (s : server) : outcome :=
  match _serialize_packet p with
  | Ok cmd => (write_all [] (_send_queue s ++ [cmd]) s, Ok tt)
  | Raise e => (s, Raise e)
  end.

Definition send_error (s : server) : outcome := sv_send PCIErrorPacket s.

Definition send_confirmation (code : bytes) (ok : bool) (s : server) : outcome :=
  match confirmation_new code ok with
  | Ok p => sv_send p s
  | Raise e => (s, Raise e)
  end.

(** [connection_made]: the power up notification. *)
Definition sv_connection_made (s : server) : outcome := sv_send PowerOnPacket s.

Definition sv_echo (s : server) (data : bytes) : server :=
  if sv_basic_mode s then write_all [data] (_send_queue s) s else s.

(** The constructor call [LightingOnSAL(group_addr)] and its like: a required
    argument is missing. *)
Definition lighting_sal_without_application : result LightingSAL := Raise TypeError.

(** [lighting_group_on] and the three other methods of that shape. *)
Definition sv_lighting (source_addr : Z) (s : server) : outcome :=
  match lighting_sal_without_application with
  | Raise e => (s, Raise e)
  | Ok sal =>
      match pm_new (sv_checksum s) PriorityClass.CLASS_4 None [SLighting sal] with
      | Raise e => (s, Raise e)
      | Ok p => sv_send (map_header (set_routing None (Some source_addr)) p) s
      end
  end.

(** ** Events *)

Definition on_reset (s : server) : server :=
  {| sv_basic_mode := true; sv_connect := false; sv_checksum := false;
     sv_monitor := false; sv_idmon := false; application_addr1 := 0xff;
     application_addr2 := 0xff; _send_queue := _send_queue s;
     sv_written := sv_written s |}.

(** [on_clock_update]: two lighting messages are to be sent later. *)
Definition on_clock_update (s : server) : outcome :=
  match lighting_sal_without_application with
  | Raise e => (s, Raise e)
  | Ok sal =>
      match pm_new (sv_checksum s) PriorityClass.CLASS_4 None [SLighting sal] with
      | Raise e => (s, Raise e)
      | Ok p => _send_later p s
      end
  end.

(** The units whose presence is reported. *)
Definition unit_states : list GroupState.t :=
  [GroupState.MISSING] ++ replicate 10 GroupState.ON ++
  replicate (0xfe - 12) GroupState.MISSING ++ [GroupState.ON].

(** [states[x:][:0x58]] *)
Definition status_block (x : nat) : StandardCAL :=
  {| std_child_application := value Application.MASTER_APPLICATION;
     std_block_start := Z.of_nat x;
     std_report := take 0x58 (drop x unit_states); std_checksum := true |}.

Fixpoint send_standards (cs : list StandardCAL) (s : server) : outcome :=
  match cs with
  | [] => (s, Ok tt)
  | c :: cs =>
      match sv_send_standard c s with
      | (s, Ok _) => send_standards cs s
      | (s, Raise e) => (s, Raise e)
      end
  end.

(** [for x in range(0, 0xff, 0x58)] *)
Definition on_master_application_status (s : server) : outcome :=
  if sv_basic_mode s
  then send_standards (map status_block [0; 0x58; 0xb0]%nat) s
  else (s, Raise NotImplementedError).

(** ** Dispatch *)

(** What follows a message: the next one, or the end of the handler. *)
Inductive flow := Continue | Return.

Definition sal_handler (sal : SAL) (s : server) : server * result flow :=
  match sal with
  | SLighting _ => (s, Ok Continue)
  | SClock (ClockUpdateSAL _) =>
      let '(s, r) := on_clock_update s in (s, (fun _ => Continue) <$> r)
  | SClock ClockRequestSAL => (s, Ok Continue)
  | SStatusRequest r =>
      if (sr_child_application r =? value Application.MASTER_APPLICATION) &&
         negb (sr_level_request r)
      then let '(s, r) := on_master_application_status s in (s, (fun _ => Continue) <$> r)
      else (s, Ok Return)
  | SEnable _ | STemperature _ => (s, Ok Return)
  end.

Fixpoint sals_handler (sals : list SAL) (s : server) : server * result flow :=
  match sals with
  | [] => (s, Ok Continue)
  | sal :: sals =>
      match sal_handler sal s with
      | (s, Ok Continue) => sals_handler sals s
      | other => other
      end
  end.

(** [x & bit] as a condition. *)
Definition bit (v m : Z) : bool := negb (Z.land v m =? 0).

Definition parameter_handler (parameter v : Z) (s : server) : server * flow :=
  if byte_in parameter [0x21; 0x22; 0x3e; 0x42] then (s, Continue)
  else if byte_in parameter [0x30; 0x41] then
    (set_options (negb (bit v 0x10)) (bit v 0x01) (bit v 0x08) (bit v 0x20) (bit v 0x40) s,
     Continue)
  else (s, Return).

(** The end of [handle_cbus_packet]: [if p.confirmation: ...]. *)
Definition confirm (h : header) (s : server) : outcome :=
  match confirmation h with
  | Some (c :: code) => send_confirmation (c :: code) true s
  | _ => (s, Ok tt)
  end.

Definition server_handle (s : server) (d : decoded) : outcome :=
  match d with
  | DPacket ResetPacket => (on_reset s, Ok tt)
  | DPacket SmartConnectShortcutPacket =>
      (set_options false true (sv_checksum s) (sv_monitor s) (sv_idmon s) s, Ok tt)
  | DPacket (PointToMultipointPacket h _ sals) =>
      match sals_handler sals s with
      | (s, Ok Continue) => confirm h s
      | (s, Ok Return) => (s, Ok tt)
      | (s, Raise e) => (s, Raise e)
      end
  | DPacket (DeviceManagementPacket h parameter v) =>
      match parameter_handler parameter v s with
      | (s, Continue) => confirm h s
      | (s, Return) => (s, Ok tt)
      end
  | _ => (s, Ok tt)
  end.

(** [data_received] and [handle_data] of the simulated interface. *)
Definition server_data (s : server) (buf : bytes) : server * result Z :=
  handle_data true sv_checksum server_handle sv_echo s buf.

Definition server_process (buf : bytes) (s : server) : bytes * server * result unit :=
  _process_buffer server_data buf s.

Definition server_received (p : @buffered server) (data : bytes) : buffered :=
  data_received server_data p data.

(** ** Lemmas *)

(** What a client writes for a sequence of calls of [_send], each prepared in
    some reachable state of its bookkeeping, and the codes it took. *)
Inductive sent_lines : list send_call -> list bytes -> list Z -> Prop :=
| SentNil : sent_lines [] [] []
| SentCons c cs t now st st' data code lines codes :
    confirmations_inv st ->
    _prepare_packet c t now st = Ok (st', data, code) ->
    sent_lines cs lines codes ->
    sent_lines (c :: cs) (data :: lines) (option_list code ++ codes).

Lemma sent_special p b cs lines codes :
  is_special_client p = true -> encode_packet p = Ok b ->
  sent_lines (special p :: cs) lines codes ->
  exists lines', lines = (b ++ END_COMMAND) :: lines' /\ sent_lines cs lines' codes.
Proof.
  intros Hp Hb H. inversion H as [|? ? t now st st' data code ls cds Hi Hprep Hrest]; subst.
  unfold _prepare_packet in Hprep. cbn [cmd special want_confirmation] in Hprep.
  rewrite Hp, Hb, bind_Ok in Hprep. injection Hprep as <- <- <-. by exists ls.
Qed.

(** An option of the interface: its command with a code, as the interface
    without checksums reads it. *)
Lemma sent_option parameter v cs lines codes :
  sent_lines (dm_option parameter v :: cs) lines codes ->
  exists line k lines' codes',
    lines = line :: lines' /\ codes = k :: codes' /\ sent_lines cs lines' codes' /\
    k ∈ CONFIRMATION_CODES /\
    forall rest, decode_packet (line ++ rest) false true false =
      Ok (Some (DPacket (received (Some [k]) (dm_new false PriorityClass.CLASS_2 parameter v))),
          length line).
Proof.
  intros H. inversion H as [|? ? t now st st' data code ls cds Hi Hprep Hrest]; subst.
  pose proof (fun rest => prepared_is_received
    (dm_new false PriorityClass.CLASS_2 parameter v) _ true t now st rest true Hi
    (conj eq_refl (conj eq_refl eq_refl)) eq_refl eq_refl (fun _ => eq_refl)) as Hd.
  unfold dm_option in Hprep. destruct (Hd []) as (st1 & data1 & k & E & Hk & _).
  rewrite Hprep in E. injection E as _ _ ->.
  exists data, k, ls, cds. repeat split; try done. intros rest.
  destruct (Hd rest) as (st2 & data2 & k2 & E & _ & _ & Hdec).
  rewrite Hprep in E. injection E as _ <- <-. exact Hdec.
Qed.

(** One turn of the server's loop. *)
Lemma server_step buf s d n s' :
  decode_packet buf (sv_checksum s) true false = Ok (d, n) -> (0 < n)%nat ->
  match d with
  | Some d => server_handle (sv_echo s (take n buf)) d = (s', Ok tt)
  | None => sv_echo s (take n buf) = s'
  end ->
  server_process buf s = server_process (drop n buf) s'.
Proof.
  intros Hd Hn Hh. unfold server_process. rewrite process_step; last first.
  { intros ->. injection Hd as _ <-. lia. }
  unfold server_data at 1, handle_data. cbn [negb andb]. rewrite Hd.
  rewrite (proj2 (Nat.ltb_lt 0 n)) by done.
  destruct d as [d|]; rewrite Hh, (proj2 (Z.ltb_ge _ 0)), (proj2 (Z.ltb_lt 0 _)), Nat2Z.id by lia;
    done.
Qed.

Lemma decode_end_command rest cs strict :
  decode_packet (END_COMMAND ++ rest) cs strict false = Ok (None, 1%nat).
Proof.
  unfold decode_packet, decode_to_pci, cancel_position, decode_line. simpl.
  by destruct (find_sub [63] rest).
Qed.

(** The reset command, and the end of its line. *)
Definition after_reset (s : server) : server :=
  sv_echo (on_reset (sv_echo s [126])) END_COMMAND.

Lemma server_reset rest s :
  server_process (([126] ++ END_COMMAND) ++ rest) s = server_process rest (after_reset s).
Proof.
  rewrite (server_step _ s (Some (DPacket ResetPacket)) 1 (on_reset (sv_echo s [126]))) by (done || lia).
  rewrite (server_step _ _ None 1 (after_reset s));
    [done|apply (decode_end_command rest)|lia|done].
Qed.

Definition after_connect (s : server) : server :=
  let s := sv_echo s ([124] ++ END_COMMAND) in
  set_options false true (sv_checksum s) (sv_monitor s) (sv_idmon s) s.

Lemma server_connect rest s :
  server_process (([124] ++ END_COMMAND) ++ rest) s = server_process rest (after_connect s).
Proof.
  by rewrite (server_step _ s (Some (DPacket SmartConnectShortcutPacket)) 2 (after_connect s))
    by (done || lia).
Qed.

Lemma send_confirmation_ok k s :
  k ∈ CONFIRMATION_CODES ->
  send_confirmation [k] true s = (write_all ([k; 46] :: _send_queue s) [] s, Ok tt).
Proof.
  intros Hk. pose proof (confirmation_new_byte k [] true) as E.
  change (take 1 [k]) with [k] in E. unfold send_confirmation.
  by rewrite E by by apply byte_in_spec.
Qed.

(** An option command in smart mode: set and confirmed, not echoed. *)
Lemma server_option parameter v line k rest s s' :
  sv_basic_mode s = false -> sv_checksum s = false -> k ∈ CONFIRMATION_CODES ->
  (forall rest, decode_packet (line ++ rest) false true false =
      Ok (Some (DPacket (received (Some [k]) (dm_new false PriorityClass.CLASS_2 parameter v))),
          length line)) ->
  parameter_handler (Z.land parameter 0xff) (Z.land v 0xff) s = (s', Continue) ->
  server_process (line ++ rest) s =
    server_process rest (write_all ([k; 46] :: _send_queue s') [] s').
Proof.
  intros Hb Hc Hk Hd Hp.
  pose proof (decode_packet_bound _ _ _ _ _ _ (Hd [])) as Hn. simpl in Hn.
  rewrite (server_step _ s _ _ (write_all ([k; 46] :: _send_queue s') [] s')
    ltac:(rewrite Hc; apply Hd)).
  - by rewrite drop_app_length.
  - lia.
  - unfold sv_echo. rewrite Hb. unfold received, packet_image, dm_new, map_header, server_handle.
    rewrite Hp. unfold confirm. cbn. by rewrite send_confirmation_ok.
Qed.

(** *** A line that starts with the echo of a command *)

Lemma find_response_None l : 10 ∉ l -> find_sub END_RESPONSE l = None.
Proof.
  induction l as [|x l IH]; intros Hl; [done|].
  apply not_elem_of_cons in Hl as [Hx Hl].
  change (find_sub END_RESPONSE (x :: l)) with
    (if startswith END_RESPONSE (x :: l) then Some O else S <$> find_sub END_RESPONSE l).
  rewrite (IH Hl). destruct l as [|y l]; cbn [startswith END_RESPONSE app];
    [by rewrite ?andb_false_r|].
  apply not_elem_of_cons in Hl as [Hy _].
  rewrite (proj2 (Z.eqb_neq 10 y)) by done. by rewrite andb_false_r.
Qed.

Lemma find_response_after l r :
  10 ∉ l -> find_sub END_RESPONSE (l ++ END_RESPONSE ++ r) = Some (length l).
Proof.
  induction l as [|x l IH]; intros Hl; [done|].
  apply not_elem_of_cons in Hl as [Hx Hl].
  change (find_sub END_RESPONSE ((x :: l) ++ END_RESPONSE ++ r)) with
    (if startswith END_RESPONSE (x :: l ++ END_RESPONSE ++ r) then Some O
     else S <$> find_sub END_RESPONSE (l ++ END_RESPONSE ++ r)).
  rewrite (IH Hl). destruct l as [|y l]; cbn [startswith END_RESPONSE app];
    [by rewrite ?andb_false_r|].
  apply not_elem_of_cons in Hl as [Hy _].
  rewrite (proj2 (Z.eqb_neq 10 y)) by done. by rewrite andb_false_r.
Qed.

(** The client waits for the end of a line that no message of the interface
    starts with, then has one invalid packet. *)
Lemma client_echo_line x l :
  x = 13 \/ x = 126 -> 10 ∉ l -> l <> [] ->
  decode_packet (x :: l) true true true = Ok (None, 0%nat) /\
  forall rest, decode_packet ((x :: l) ++ END_RESPONSE ++ rest) true true true =
    Ok (Some (DPacket (InvalidPacket (x :: l) (Some ValueError))), (length (x :: l) + 2)%nat).
Proof.
  intros Hx Hl Hne.
  assert (forall l', l' <> [] ->
    decode_packet (x :: l') true true true = decode_line (x :: l') END_RESPONSE true true true)
    as Hdec.
  { intros [|y l'] Hl'; [done|]. unfold decode_packet, decode_from_pci.
    assert (len (x :: y :: l') <? MIN_MESSAGE_SIZE = false) as Hlen.
    { apply Z.ltb_ge. unfold len, MIN_MESSAGE_SIZE. simpl. lia. }
    rewrite Hlen, item_0, bind_Ok. by destruct Hx as [-> | ->]. }
  assert (10 ∉ x :: l) as Hxl by (apply not_elem_of_cons; split; [lia|done]).
  split.
  - rewrite Hdec by done. unfold decode_line. by rewrite find_response_None.
  - intros rest. change ((x :: l) ++ END_RESPONSE ++ rest) with
      (x :: (l ++ END_RESPONSE ++ rest)).
    rewrite Hdec by by destruct l. unfold decode_line.
    change (x :: (l ++ END_RESPONSE ++ rest)) with ((x :: l) ++ END_RESPONSE ++ rest).
    rewrite find_response_after by done. rewrite take_app_length.
    unfold decode_text. by destruct Hx as [-> | ->].
Qed.

(** *** Handling commands *)

(** The messages of a client that the server only logs. *)
Definition only_logged (s : SAL) : bool :=
  match s with SLighting _ | SClock ClockRequestSAL => true | _ => false end.

Lemma sals_handler_logged sals more s :
  forallb only_logged sals = true ->
  sals_handler (sals ++ more) s = sals_handler more s.
Proof.
  induction sals as [|sal sals IH]; [done|]. simpl. intros [Hs Hss]%andb_true_iff.
  destruct sal as [|[]| | |]; try done; by apply IH.
Qed.

Lemma only_logged_on_wire s : only_logged (sal_on_wire s) = only_logged s.
Proof. by destruct s as [|[[]|]| | |]. Qed.

Lemma forallb_logged_on_wire sals :
  forallb only_logged (map sal_on_wire sals) = forallb only_logged sals.
Proof.
  induction sals as [|s sals IH]; [done|]. simpl. by rewrite only_logged_on_wire, IH.
Qed.

(** A command the client prepared, read by the server in smart mode. *)
Lemma command_is_handled p h t now st s :
  confirmations_inv st -> packet_valid p -> packet_header p = Some h ->
  from_interface h = false -> checksum h = sv_checksum s ->
  exists st' data code,
    _prepare_packet {| cmd := p; want_confirmation := true; basic_mode := false |} t now st =
      Ok (st', data, Some code) /\
    code ∈ CONFIRMATION_CODES /\ code ∈ keys (_confirmation_codes_in_use st') /\
    data <> [] /\
    forall rest, decode_packet (data ++ rest) (sv_checksum s) true false =
      Ok (Some (DPacket (received (Some [code]) p)), length data).
Proof.
  intros Hi Hv Hh Hsrc Hcs.
  assert (forall rest, exists st' data code,
    _prepare_packet {| cmd := p; want_confirmation := true; basic_mode := false |} t now st =
      Ok (st', data, Some code) /\
    code ∈ CONFIRMATION_CODES /\ code ∈ keys (_confirmation_codes_in_use st') /\
    decode_packet (data ++ rest) (checksum h) true false =
      Ok (Some (DPacket (received (Some [code]) p)), length data)) as Hall.
  { intros rest. by apply prepared_is_received. }
  destruct (Hall []) as (st' & data & code & Hp & Hc & Hu & Hd).
  exists st', data, code. repeat split; try done.
  - intros ->. discriminate Hd.
  - intros rest. destruct (Hall rest) as (st2 & data2 & code2 & Hp2 & _ & _ & Hd2).
    rewrite <- Hcs. congruence.
Qed.

(** ** Properties *)

(** The bytes that a server answers the reset sequence with. *)
Definition handshake_echo (s : server) : list bytes :=
  (if sv_basic_mode s then [[126]] else []) ++
  [[13]; [126]; [13]; [126]; [13]; [124; 13]].

Definition handshake_replies (queue : list bytes) (codes : list Z) : list bytes :=
  match map (fun k => [k; 46]) codes with
  | [] => []
  | r :: rs => r :: queue ++ rs
  end.

(** C11. The reset sequence of a client configures the interface. Whatever state
    the server is in, and in whatever states of the client's bookkeeping the
    eight commands were prepared, processing what the client writes empties the
    buffer and leaves the server in smart mode with connect, checksums, monitor
    and idmon on; it echoed the commands up to the shortcut and confirmed each
    of the four options with the code it carried. *)
Theorem reset_sequence_configures s lines codes :
  sent_lines pci_reset lines codes ->
  length codes = 4%nat /\
  server_process (concat lines) s =
    ([], {| sv_basic_mode := false; sv_connect := true; sv_checksum := true;
            sv_monitor := true; sv_idmon := true; application_addr1 := 0xff;
            application_addr2 := 0xff; _send_queue := [];
            sv_written := sv_written s ++ handshake_echo s ++
                          handshake_replies (_send_queue s) codes |}, Ok tt).
Proof.
  intros H. unfold pci_reset in H.
  do 3 (apply (sent_special _ [126]) in H as (? & -> & H); [|done..]).
  apply (sent_special _ [124]) in H as (? & -> & H); [|done..].
  apply sent_option in H as (l1 & k1 & ? & ? & -> & -> & H & Hk1 & Hd1).
  apply sent_option in H as (l2 & k2 & ? & ? & -> & -> & H & Hk2 & Hd2).
  apply sent_option in H as (l3 & k3 & ? & ? & -> & -> & H & Hk3 & Hd3).
  apply sent_option in H as (l4 & k4 & ? & ? & -> & -> & H & Hk4 & Hd4).
  inversion H; subst. split; [done|]. cbn [concat].
  rewrite !server_reset, server_connect.
  set (s1 := after_connect _).
  erewrite (server_option 0x21 0xff l1 k1); try done.
  erewrite (server_option 0x22 0xff l2 k2); try done.
  erewrite (server_option 0x42 0x0e l3 k3); try done.
  erewrite (server_option 0x30 0x79 l4 k4); try done.
  unfold server_process. rewrite process_nil. repeat f_equal.
  subst s1. clear. destruct s as [b c cs m i a1 a2 q w].
  destruct b; cbv -[app]; rewrite <- !app_assoc; reflexivity.
Qed.

Example reset_sequence_configures_witness :
  let lines := [[126; 13]; [126; 13]; [126; 13]; [124; 13];
    [65; 51; 50; 49; 48; 48; 70; 70; 104; 13]; [65; 51; 50; 50; 48; 48; 70; 70; 104; 13];
    [65; 51; 52; 50; 48; 48; 48; 69; 104; 13]; [65; 51; 51; 48; 48; 48; 55; 57; 104; 13]] in
  4%nat = 4%nat /\
  server_process (concat lines) server_init =
    ([], {| sv_basic_mode := false; sv_connect := true; sv_checksum := true;
            sv_monitor := true; sv_idmon := true; application_addr1 := 0xff;
            application_addr2 := 0xff; _send_queue := [];
            sv_written := [] ++ handshake_echo server_init ++
                          handshake_replies [] [104; 104; 104; 104] |}, Ok tt).
Proof.
  refine (reset_sequence_configures server_init _ [104; 104; 104; 104] _).
  assert (forall c cs data code lines codes,
    match _prepare_packet c 0 0 no_confirmations with
    | Ok (_, d, k) => d = data /\ k = code
    | Raise _ => False
    end -> sent_lines cs lines codes ->
    sent_lines (c :: cs) (data :: lines) (option_list code ++ codes)) as Hone.
  { intros c cs data code lines codes Hp Hrest.
    destruct (_prepare_packet c 0 0 no_confirmations) as [[[st2 d] k]|] eqn:E; [|done].
    destruct Hp as [<- <-].
    by apply (SentCons c cs 0 0 no_confirmations st2 d k lines codes no_confirmations_inv E). }
  do 4 (refine (Hone _ _ _ None _ _ _ _); [by vm_compute|]).
  do 4 (refine (Hone _ _ _ (Some 104) _ _ _ _); [by vm_compute|]).
  constructor.
Defined.

(** The echo of the reset sequence hides its confirmations. A client that
    receives what the server writes for the sequence, however it is cut, hands
    nothing to its handler and keeps all of it in its buffer; when a line ends
    at last, everything up to there, that line included, is one invalid packet:
    none of the four confirmations, and no event of that line, is ever seen. *)
Theorem reset_confirmations_unseen (s : server) (codes : list Z) (st : pci) :
  Forall (fun k => k ∈ CONFIRMATION_CODES) codes ->
  let reply := concat (handshake_echo s ++ handshake_replies [] codes) in
  let client := handle_data false (fun _ => true) handle_cbus_packet (fun st _ => st) in
  _process_buffer client reply st = (reply, st, Ok tt) /\
  forall line rest, 10 ∉ line ->
    _process_buffer client (reply ++ line ++ END_RESPONSE ++ rest) st =
    _process_buffer client rest st.
Proof.
  intros Hcodes reply client.
  assert (exists x l, reply = x :: l /\ (x = 13 \/ x = 126) /\ l <> [] /\ 10 ∉ l)
    as (x & l & E & Hx & Hne & Hl).
  { assert (10 ∉ concat (handshake_replies [] codes)) as Hr.
    { unfold handshake_replies. destruct Hcodes as [|k ks Hk Hks]; [apply not_elem_of_nil|].
      cbn [map app]. rewrite <- (map_cons (fun k => [k; 46])).
      assert (Forall (fun k => k ∈ CONFIRMATION_CODES) (k :: ks)) as Hall by by constructor.
      clear Hk Hks. induction Hall as [|j js Hj _ IH]; [apply not_elem_of_nil|].
      cbn [map concat app]. rewrite !not_elem_of_cons. split; [|split; [lia|done]].
      intros <-. apply byte_in_spec in Hj. discriminate Hj. }
    unfold reply, handshake_echo. rewrite concat_app.
    destruct (sv_basic_mode s); cbn [concat app]; eexists _, _;
      (split; [done|]); (split; [lia|]); (split; [done|]);
      rewrite !not_elem_of_cons; repeat (split; [lia|]); done. }
  rewrite E. unfold client. split.
  - destruct (client_echo_line x l Hx Hl Hne) as [Hd _].
    rewrite process_step by done. unfold handle_data at 1. cbn [negb andb]. by rewrite Hd.
  - intros line rest Hline.
    assert (10 ∉ l ++ line) as Hll by (rewrite elem_of_app; tauto).
    destruct (client_echo_line x (l ++ line) Hx Hll) as [_ Hd]; [by destruct l|].
    specialize (Hd rest). rewrite app_assoc. change ((x :: l) ++ line) with (x :: (l ++ line)).
    rewrite process_step by done. unfold handle_data at 1. cbn [negb andb]. rewrite Hd.
    change (dispatch (DPacket (InvalidPacket (x :: l ++ line) (Some ValueError))))
      with (@Ok (list pci_event * list task) ([], [])).
    unfold handle_cbus_packet at 1. cbn [dispatch].
    rewrite (proj2 (Z.ltb_ge _ 0)), (proj2 (Z.ltb_lt 0 _)) by lia.
    rewrite Nat2Z.id, app_assoc.
    replace (length (x :: l ++ line) + 2)%nat with (length ((x :: l ++ line) ++ END_RESPONSE))
      by by rewrite length_app.
    rewrite drop_app_length. f_equal. destruct st; simpl. by rewrite !app_nil_r.
Qed.

Example reset_confirmations_unseen_witness :
  let reply := concat (handshake_echo server_init ++ handshake_replies [] [104; 105; 106; 107]) in
  let client := handle_data false (fun _ => true) handle_cbus_packet (fun st _ => st) in
  _process_buffer client reply pci_init = (reply, pci_init, Ok tt) /\
  forall line rest, 10 ∉ line ->
    _process_buffer client (reply ++ line ++ END_RESPONSE ++ rest) pci_init =
    _process_buffer client rest pci_init.
Proof.
  apply (reset_confirmations_unseen server_init [104; 105; 106; 107] pci_init).
  repeat constructor; apply byte_in_spec; reflexivity.
Defined.

(** C14. A lighting command is confirmed. In smart mode the server answers a
    point to multipoint command of lighting messages and clock requests that a
    client prepared with nothing but the code the command carried, once, and
    the client reads the answer as the confirmation of that code: it creates the
    tasks that settle it. *)
Theorem lighting_command_confirmed h app sals t now st s c :
  confirmations_inv st ->
  packet_valid (PointToMultipointPacket h (Some app) sals) ->
  forallb only_logged sals = true ->
  source_address h = None -> checksum h = sv_checksum s -> sv_basic_mode s = false ->
  exists st' data code,
    _prepare_packet {| cmd := PointToMultipointPacket h (Some app) sals;
                       want_confirmation := true; basic_mode := false |} t now st =
      Ok (st', data, Some code) /\
    code ∈ keys (_confirmation_codes_in_use st') /\
    server_process data s = ([], write_all ([code; 46] :: _send_queue s) [] s, Ok tt) /\
    forall more,
      handle_data false (fun _ => true) handle_cbus_packet (fun st _ => st) c ([code; 46] ++ more) =
      (with_tasks c (tasks c ++ [RemoveFromPending code; ReleaseCode code]),
       Ok 2).
Proof.
  intros Hi Hv Hl Hsrc Hcs Hb. set (p := PointToMultipointPacket h (Some app) sals).
  destruct (command_is_handled p h t now st s Hi Hv eq_refl) as
    (st' & data & code & Hp & Hc & Hu & Hne & Hd); [by unfold from_interface; rewrite Hsrc|done|].
  exists st', data, code. split; [done|]. split; [done|]. split.
  - specialize (Hd []). rewrite app_nil_r in Hd.
    rewrite (server_step _ s _ _ (write_all ([code; 46] :: _send_queue s) [] s) Hd).
    + rewrite drop_all. apply process_nil.
    + destruct data; [done|simpl; lia].
    + unfold sv_echo. rewrite Hb. unfold received, packet_image, map_header, server_handle, p.
      pose proof (sals_handler_logged (map sal_on_wire sals) [] s) as Hh.
      rewrite app_nil_r in Hh. rewrite Hh by by rewrite forallb_logged_on_wire.
      unfold confirm, received_header. cbn [sals_handler confirmation]. rewrite Hsrc.
      by apply send_confirmation_ok.
  - intros more. assert (byte_in code CONFIRMATION_CODES = true) as Hcb by by apply byte_in_spec.
    assert (decode_packet ([code; 46] ++ more) true true true =
      Ok (Some (DPacket (ConfirmationPacket [code] true)), 2%nat)) as Hdec.
    { unfold decode_packet, decode_from_pci. cbn [Datatypes.app].
      assert (len (code :: 46 :: more) <? MIN_MESSAGE_SIZE = false) as ->.
      { apply Z.ltb_ge. unfold len, MIN_MESSAGE_SIZE. simpl. lia. }
      assert (startswith [43] (code :: 46 :: more) = false) as ->.
      { apply byte_in_spec in Hcb. cbn [startswith]. rewrite andb_true_r.
        apply Z.eqb_neq. intros <-. apply byte_in_spec in Hcb. discriminate Hcb. }
      assert (startswith [33] (code :: 46 :: more) = false) as ->.
      { apply byte_in_spec in Hcb. cbn [startswith]. rewrite andb_true_r.
        apply Z.eqb_neq. intros <-. apply byte_in_spec in Hcb. discriminate Hcb. }
      rewrite item_0, bind_Ok, Hcb. change (item (code :: 46 :: more) 1) with (@Ok Z 46).
      rewrite bind_Ok, confirmation_new_byte by done. done. }
    unfold handle_data. cbn [negb andb]. rewrite Hdec.
    unfold handle_cbus_packet, dispatch, on_confirmation. rewrite Hcb, bind_Ok.
    destruct c. cbn. by rewrite app_nil_r.
Qed.

(** A clock update breaks the server's connection handling. The handler
    builds its reply without the application address that the constructor
    requires, so a command that contains an update of the date or the time
    raises: it is never confirmed, and everything received with it is dropped
    from the buffer unseen. *)
Theorem clock_update_unanswered h app sals v more_sals t now st s :
  confirmations_inv st ->
  packet_valid (PointToMultipointPacket h (Some app) (sals ++ SClock (ClockUpdateSAL v) :: more_sals)) ->
  forallb only_logged sals = true ->
  source_address h = None -> checksum h = sv_checksum s -> sv_basic_mode s = false ->
  exists st' data code,
    _prepare_packet
      {| cmd := PointToMultipointPacket h (Some app) (sals ++ SClock (ClockUpdateSAL v) :: more_sals);
         want_confirmation := true; basic_mode := false |} t now st =
      Ok (st', data, Some code) /\
    code ∈ keys (_confirmation_codes_in_use st') /\
    forall rest,
      server_process (data ++ rest) s = (data ++ rest, s, Raise TypeError) /\
      server_received (cbus_init s) (data ++ rest) = cbus_init s.
Proof.
  intros Hi Hv Hl Hsrc Hcs Hb.
  set (p := PointToMultipointPacket h (Some app) (sals ++ SClock (ClockUpdateSAL v) :: more_sals)).
  destruct (command_is_handled p h t now st s Hi Hv eq_refl) as
    (st' & data & code & Hp & Hc & Hu & Hne & Hd); [by unfold from_interface; rewrite Hsrc|done|].
  exists st', data, code. split; [done|]. split; [done|]. intros rest.
  assert (server_process (data ++ rest) s = (data ++ rest, s, Raise TypeError)) as Hrun.
  { unfold server_process. rewrite process_step by by destruct data.
    unfold server_data at 1, handle_data. cbn [negb andb]. rewrite Hd.
    unfold sv_echo. rewrite Hb.
    unfold received, packet_image, map_header, server_handle, p.
    rewrite map_app, sals_handler_logged by by rewrite forallb_logged_on_wire.
    cbn [map sals_handler sal_handler sal_on_wire clock_on_wire].
    by destruct v; destruct (0 <? length data)%nat. }
  split; [done|]. unfold server_received, data_received. cbn [_closed cbus_init buffered_init].
  do 2 (case_match; [done|]).
  unfold server_process in Hrun. cbn [_buf inner cbus_init buffered_init].
  change ([] ++ data ++ rest) with (data ++ rest). by rewrite Hrun.
Qed.

(** A server that the reset sequence configured. *)
Definition configured_server : server :=
  set_options false true true true true server_init.

Definition lighting_command : packet :=
  PointToMultipointPacket command_header (Some 0x38) (map SLighting lighting_sample).

Example lighting_command_confirmed_witness :
  exists st' data code,
    _prepare_packet {| cmd := lighting_command; want_confirmation := true; basic_mode := false |}
      0 0 no_confirmations = Ok (st', data, Some code) /\
    code ∈ keys (_confirmation_codes_in_use st') /\
    server_process data configured_server =
      ([], write_all ([code; 46] :: []) [] configured_server, Ok tt) /\
    forall more,
      handle_data false (fun _ => true) handle_cbus_packet (fun st _ => st) pci_init
        ([code; 46] ++ more) =
      (with_tasks pci_init ([] ++ [RemoveFromPending code; ReleaseCode code]), Ok 2).
Proof.
  refine (lighting_command_confirmed command_header 0x38 (map SLighting lighting_sample) 0 0
    no_confirmations configured_server pci_init no_confirmations_inv _
    eq_refl eq_refl eq_refl eq_refl).
  unfold packet_valid, lighting_sample. repeat split; repeat constructor; simpl; lia.
Defined.

Definition clock_command_sals : list SAL :=
  [SClock (ClockUpdateSAL (VDate {| year := 2024; month := 2; day := 29 |}))].

Example clock_update_unanswered_witness :
  exists st' data code,
    _prepare_packet
      {| cmd := PointToMultipointPacket command_header (Some 0xdf)
            ([] ++ clock_command_sals);
         want_confirmation := true; basic_mode := false |} 0 0 no_confirmations =
      Ok (st', data, Some code) /\
    code ∈ keys (_confirmation_codes_in_use st') /\
    forall rest,
      server_process (data ++ rest) configured_server =
        (data ++ rest, configured_server, Raise TypeError) /\
      server_received (cbus_init configured_server) (data ++ rest) =
        cbus_init configured_server.
Proof.
  refine (clock_update_unanswered command_header 0xdf [] _ [] 0 0 no_confirmations configured_server
    no_confirmations_inv _ eq_refl eq_refl eq_refl eq_refl).
  unfold packet_valid. repeat split; repeat constructor.
Defined.
