(* ===== verification/Text.v ===== *)
(** * Text

    What the daemon uses of python's strings: searching and splitting, [str] and
    [f"{n:03d}"] of an integer, and [int] of a string. A character is a code
    point below 256. *)

From S2P Require Import Prelude.
From Stdlib Require Import String Ascii Btauto.
From stdpp Require Import strings options.

Local Open Scope string_scope.
Local Open Scope Z_scope.

#[local] Arguments String.append !_ _ / : simpl nomatch.

(** ** Searching and splitting *)

Fixpoint str_in (c : ascii) (s : string) : bool :=
  match s with
  | EmptyString => false
  | String x s => Ascii.eqb c x || str_in c s
  end.

(** [s[n:]] for [n <= len(s)] *)
Fixpoint str_drop (n : nat) (s : string) : string :=
  match n, s with
  | S n, String _ s => str_drop n s
  | _, _ => s
  end.

Fixpoint str_take (n : nat) (s : string) : string :=
  match n, s with
  | S n, String c s => String c (str_take n s)
  | _, _ => EmptyString
  end.

Definition str_endswith (suffix s : string) : bool :=
  (String.length suffix <=? String.length s)%nat &&
  String.eqb (str_drop (String.length s - String.length suffix) s) suffix.

(** [s.split(c, maxsplit=1)[0]] *)
Fixpoint str_until (c : ascii) (s : string) : string :=
  match s with
  | EmptyString => EmptyString
  | String x s => if Ascii.eqb c x then EmptyString else String x (str_until c s)
  end.

(** [s.split(c)]: the head and the rest of the list, which is never empty. *)
Fixpoint str_split (c : ascii) (s : string) : string * list string :=
  match s with
  | EmptyString => (EmptyString, [])
  | String x s =>
      let '(h, t) := str_split c s in
      if Ascii.eqb c x then (EmptyString, h :: t) else (String x h, t)
  end.

Fixpoint str_rev (s acc : string) : string :=
  match s with
  | EmptyString => acc
  | String c s => str_rev s (String c acc)
  end.

(** [s.replace(pat, '')]: occurrences from the left, that do not overlap. *)
Fixpoint str_remove (pat : string) (skip : nat) (s : string) : string :=
  match s with
  | EmptyString => EmptyString
  | String c s' =>
      match skip with
      | S skip => str_remove pat skip s'
      | O =>
          if String.prefix pat s then str_remove pat (String.length pat - 1) s'
          else String c (str_remove pat O s')
      end
  end.

(** ** Integers to text *)

Definition digit_char (d : Z) : ascii := ascii_of_nat (Z.to_nat (48 + d)).

Fixpoint dec_fuel (fuel : nat) (n : Z) (acc : string) : string :=
  match fuel with
  | O => acc
  | S fuel =>
      if n <? 10 then String (digit_char n) acc
      else dec_fuel fuel (n / 10) (String (digit_char (n mod 10)) acc)
  end.

(** The digits of [n >= 0]: dividing by ten takes a bit off at least. *)
Definition str_nat (n : Z) : string := dec_fuel (S (Z.to_nat (Z.log2 n))) n "".

(** [str(n)] *)
Definition str_int (n : Z) : string :=
  if n <? 0 then "-" +:+ str_nat (- n) else str_nat n.

Fixpoint zeros (n : nat) : string :=
  match n with O => "" | S n => String "0" (zeros n) end.

(** [f"{n:03d}"]: zeros after the sign, three characters in all. *)
Definition fmt03d (n : Z) : string :=
  let digits := str_nat (Z.abs n) in
  if n <? 0 then "-" +:+ zeros (2 - String.length digits) +:+ digits
  else zeros (3 - String.length digits) +:+ digits.

(** ** Text to integers *)

Definition digit_value (c : ascii) : option Z :=
  let n := Z.of_nat (nat_of_ascii c) in
  if (48 <=? n) && (n <=? 57) then Some (n - 48) else None.

Fixpoint digits_value (acc : Z) (s : string) : option Z :=
  match s with
  | EmptyString => Some acc
  | String c s => d ← digit_value c; digits_value (acc * 10 + d) s
  end.

(** [str.isspace] below 256 *)
Definition is_space (c : ascii) : bool :=
  let n := Z.of_nat (nat_of_ascii c) in
  ((9 <=? n) && (n <=? 13)) || ((28 <=? n) && (n <=? 32)) || (n =? 0x85) || (n =? 0xa0).

Fixpoint str_lstrip (s : string) : string :=
  match s with
  | String c s' => if is_space c then str_lstrip s' else s
  | EmptyString => s
  end.

Definition str_strip (s : string) : string :=
  str_rev (str_lstrip (str_rev (str_lstrip s) "")) "".

(** [sys.get_int_max_str_digits()] *)
Definition MAX_STR_DIGITS : nat := 4300.

(** Whether there is a minus sign, and what follows the sign. *)
Definition take_sign (s : string) : bool * string :=
  match s with
  | String c rest =>
      if Ascii.eqb c "-" then (true, rest)
      else if Ascii.eqb c "+" then (false, rest) else (false, s)
  | EmptyString => (false, s)
  end.

(** [int(s)] for a text without underscores. *)
Definition int_of_str (s : string) : result Z :=
  let '(negative, s) := take_sign (str_strip s) in
  match s with
  | EmptyString => Raise ValueError
  | String _ _ =>
      if (MAX_STR_DIGITS <? String.length s)%nat then Raise ValueError
      else
        match digits_value 0 s with
        | Some v => Ok (if negative : bool then - v else v)
        | None => Raise ValueError
        end
  end.

Definition is_decimal (c : ascii) : bool := match digit_value c with Some _ => true | None => false end.

(** A text without its underscores, each of which must be between two digits. *)
Fixpoint drop_underscores (digit : ascii -> bool) (prev : bool) (s : string) : option string :=
  match s with
  | EmptyString => Some EmptyString
  | String c s' =>
      if Ascii.eqb c "_" then
        match s' with
        | String d _ => if prev && digit d then drop_underscores digit false s' else None
        | EmptyString => None
        end
      else String c <$> drop_underscores digit (digit c) s'
  end.

(** [int(s)] of any text *)
Definition int_text (s : string) : result Z :=
  match drop_underscores is_decimal false (str_strip s) with
  | Some s => int_of_str s
  | None => Raise ValueError
  end.

(** *** Base 16 *)

Definition char_xdigit (c : ascii) : option Z :=
  let n := Z.of_nat (nat_of_ascii c) in
  if (48 <=? n) && (n <=? 57) then Some (n - 48)
  else if (65 <=? n) && (n <=? 70) then Some (n - 55)
  else if (97 <=? n) && (n <=? 102) then Some (n - 87) else None.

Definition is_xdigit (c : ascii) : bool := match char_xdigit c with Some _ => true | None => false end.

Fixpoint xdigits_value (acc : Z) (s : string) : option Z :=
  match s with
  | EmptyString => Some acc
  | String c s => d ← char_xdigit c; xdigits_value (acc * 16 + d) s
  end.

(** The prefix that base 16 admits; an underscore may follow it. *)
Definition drop_0x (s : string) : bool * string :=
  match s with
  | String z (String x rest) =>
      if Ascii.eqb z "0" && (Ascii.eqb x "x" || Ascii.eqb x "X") then (true, rest) else (false, s)
  | _ => (false, s)
  end.

(** [int(s, 16)] *)
Definition int_base16 (s : string) : result Z :=
  let '(negative, s) := take_sign (str_strip s) in
  let '(prefixed, s) := drop_0x s in
  match drop_underscores is_xdigit prefixed s with
  | None | Some EmptyString => Raise ValueError
  | Some s =>
      match xdigits_value 0 s with
      | Some v => Ok (if negative : bool then - v else v)
      | None => Raise ValueError
      end
  end.

(** ** Text and bytes *)

(** A text as its code points. *)
Definition txt (s : string) : list Z :=
  map (fun c => Z.of_nat (nat_of_ascii c)) (list_ascii_of_string s).

(** Code points below 256 as a text. *)
Definition text_of (l : list Z) : string :=
  string_of_list_ascii (map (fun b => ascii_of_nat (Z.to_nat b)) l).

(** [s.encode('ascii')] *)
Definition encode_ascii (s : list Z) : result bytes :=
  if forallb (fun c => (0 <=? c) && (c <? 128)) s then Ok s else Raise UnicodeError.

(** *** UTF-8 *)

Definition continuation (b : Z) : bool := (0x80 <=? b) && (b <? 0xc0).

(** [b.decode()]: well-formed UTF-8, without surrogates and overlong forms. *)
Fixpoint utf8 (b : bytes) : bool :=
  match b with
  | [] => true
  | a :: b =>
      if a <? 0x80 then utf8 b
      else
        match b with
        | x :: b =>
            if (0xc2 <=? a) && (a <=? 0xdf) then continuation x && utf8 b
            else
              match b with
              | y :: b =>
                  if (0xe0 <=? a) && (a <=? 0xef) then
                    continuation x && continuation y &&
                    negb ((a =? 0xe0) && (x <? 0xa0)) && negb ((a =? 0xed) && (0xa0 <=? x)) &&
                    utf8 b
                  else
                    match b with
                    | z :: b =>
                        (0xf0 <=? a) && (a <=? 0xf4) &&
                        continuation x && continuation y && continuation z &&
                        negb ((a =? 0xf0) && (x <? 0x90)) && negb ((a =? 0xf4) && (0x90 <=? x)) &&
                        utf8 b
                    | [] => false
                    end
              | [] => false
              end
        | [] => false
        end
  end.

Definition decode_utf8 (b : bytes) : result bytes := if utf8 b then Ok b else Raise UnicodeError.

(** [b.decode(errors="replace")] as the UTF-8 of the text: the longest start of a
    character that goes wrong becomes one U+FFFD. *)
Definition REPLACEMENT : bytes := [0xef; 0xbf; 0xbd].

(** The second byte of a character that starts with [a]. *)
Definition second_ok (a x : Z) : bool :=
  continuation x && negb ((a =? 0xe0) && (x <? 0xa0)) && negb ((a =? 0xed) && (0xa0 <=? x)) &&
  negb ((a =? 0xf0) && (x <? 0x90)) && negb ((a =? 0xf4) && (0x90 <=? x)).

Fixpoint decode_replace (b : bytes) : bytes :=
  match b with
  | [] => []
  | a :: b1 =>
      if a <? 0x80 then a :: decode_replace b1
      else if (0xc2 <=? a) && (a <=? 0xf4) then
        match b1 with
        | [] => REPLACEMENT
        | x :: b2 =>
            if negb (second_ok a x) then REPLACEMENT ++ decode_replace b1
            else if a <=? 0xdf then a :: x :: decode_replace b2
            else
              match b2 with
              | [] => REPLACEMENT
              | y :: b3 =>
                  if negb (continuation y) then REPLACEMENT ++ decode_replace b2
                  else if a <=? 0xef then a :: x :: y :: decode_replace b3
                  else
                    match b3 with
                    | [] => REPLACEMENT
                    | z :: b4 =>
                        if negb (continuation z) then REPLACEMENT ++ decode_replace b3
                        else a :: x :: y :: z :: decode_replace b4
                    end
              end
        end
      else REPLACEMENT ++ decode_replace b1
  end.

(** ** Lemmas *)

Lemma str_app_nil s : s +:+ "" = s.
Proof. induction s as [|c s IH]; [done|]. simpl. by rewrite IH. Qed.

Lemma str_app_assoc a b c : (a +:+ b) +:+ c = a +:+ (b +:+ c).
Proof. induction a as [|x a IH]; [done|]. simpl. by rewrite IH. Qed.

Lemma str_length_app a b : String.length (a +:+ b) = (String.length a + String.length b)%nat.
Proof. induction a as [|x a IH]; [done|]. simpl. by rewrite IH. Qed.

Lemma str_in_app c a b : str_in c (a +:+ b) = str_in c a || str_in c b.
Proof. induction a as [|x a IH]; [done|]. simpl. by rewrite IH, orb_assoc. Qed.

Lemma str_drop_app a b : str_drop (String.length a) (a +:+ b) = b.
Proof. induction a as [|x a IH]; [by destruct b|done]. Qed.

Lemma str_prefix_app a b : String.prefix a (a +:+ b) = true.
Proof.
  induction a as [|x a IH]; [by destruct b|]. simpl. by destruct (ascii_dec x x).
Qed.

Lemma str_endswith_app a b : str_endswith b (a +:+ b) = true.
Proof.
  unfold str_endswith. rewrite str_length_app, (proj2 (Nat.leb_le _ _)) by lia.
  replace (String.length a + String.length b - String.length b)%nat
    with (String.length a) by lia.
  rewrite str_drop_app. apply String.eqb_refl.
Qed.

Lemma str_until_app c a b : str_in c a = false -> str_until c (a +:+ String c b) = a.
Proof.
  induction a as [|x a IH]; simpl; [by rewrite Ascii.eqb_refl|].
  intros [-> Ha]%orb_false_iff. by rewrite IH.
Qed.

Lemma str_split_none c s : str_in c s = false -> str_split c s = (s, []).
Proof.
  induction s as [|x s IH]; simpl; [done|].
  intros [Hx Hs]%orb_false_iff. by rewrite IH, Hx.
Qed.

Lemma str_split_app c a b :
  str_in c a = false ->
  str_split c (a +:+ String c b) = (a, (str_split c b).1 :: (str_split c b).2).
Proof.
  induction a as [|x a IH]; simpl.
  - intros _. rewrite Ascii.eqb_refl. by destruct (str_split c b).
  - intros [Hx Ha]%orb_false_iff. by rewrite IH, Hx.
Qed.

Lemma str_app_inj_length a b c d :
  String.length b = String.length d -> a +:+ b = c +:+ d -> a = c /\ b = d.
Proof.
  intros Hl. revert c. induction a as [|x a IH]; intros [|y c]; simpl; intros H.
  - done.
  - apply (f_equal String.length) in H. simpl in H. rewrite str_length_app in H. lia.
  - apply (f_equal String.length) in H. simpl in H. rewrite str_length_app in H. lia.
  - injection H as -> H. by destruct (IH c H) as [-> ->].
Qed.

(** *** Digits *)

Lemma digit_value_char d : 0 <= d < 10 -> digit_value (digit_char d) = Some d.
Proof.
  intros Hd. assert (forallb (fun d => bool_decide (digit_value (digit_char d) = Some d))
    (seqZ 0 10) = true) as H by reflexivity.
  rewrite forallb_forall in H. apply (bool_decide_unpack _), Is_true_eq_left, H.
  apply list_elem_of_In, elem_of_seqZ. lia.
Qed.

Lemma dec_fuel_value fuel n acc :
  0 <= n -> Z.log2 n < Z.of_nat fuel ->
  digits_value 0 (dec_fuel fuel n acc) = digits_value n acc.
Proof.
  revert n acc. induction fuel as [|fuel IH]; intros n acc Hn Hf.
  { pose proof (Z.log2_nonneg n). lia. }
  cbn [dec_fuel]. destruct (Z.ltb_spec n 10) as [Hlt|Hge].
  - cbn [digits_value]. by rewrite digit_value_char by lia.
  - pose proof (Z.mod_pos_bound n 10 ltac:(lia)) as Hm.
    rewrite IH; [|apply Z.div_pos; lia|].
    + cbn [digits_value]. rewrite digit_value_char by lia. cbn.
      f_equal. pose proof (Z.div_mod n 10 ltac:(lia)). lia.
    + assert (n / 10 <= n / 2) as Hq.
      { pose proof (Z.div_mod n 10 ltac:(lia)). apply Z.div_le_lower_bound; lia. }
      apply Z.log2_le_mono in Hq.
      assert (Z.log2 (n / 2) = Z.log2 n - 1) as Hlog; [|lia].
      pose proof (Z.log2_shiftr n 1 ltac:(lia)) as Hs.
      rewrite Z.shiftr_div_pow2 in Hs by lia. change (2 ^ 1) with 2 in Hs.
      assert (Z.log2 8 <= Z.log2 n) as H8 by (apply Z.log2_le_mono; lia).
      change (Z.log2 8) with 3 in H8. lia.
Qed.

Lemma str_nat_value n :
  0 <= n -> digits_value 0 (str_nat n) = Some n.
Proof.
  intros Hn. unfold str_nat. rewrite dec_fuel_value; [done|done|].
  pose proof (Z.log2_nonneg n). lia.
Qed.

Lemma dec_fuel_length fuel n acc :
  (String.length (dec_fuel fuel n acc) <= fuel + String.length acc)%nat.
Proof.
  revert n acc. induction fuel as [|fuel IH]; intros n acc; [done|]. cbn [dec_fuel].
  destruct (n <? 10); [simpl; lia|]. etrans; [apply IH|]. simpl. lia.
Qed.

Lemma dec_fuel_first fuel n acc :
  fuel <> O -> exists c s, dec_fuel fuel n acc = String c s.
Proof.
  revert n acc. induction fuel as [|fuel IH]; intros n acc Hf; [done|]. cbn [dec_fuel].
  destruct (n <? 10); [by eexists _, _|].
  destruct fuel as [|fuel]; [by eexists _, _|]. by apply IH.
Qed.

Lemma str_nat_length n :
  0 <= n < 2 ^ 64 -> (1 <= String.length (str_nat n) <= 64)%nat.
Proof.
  intros Hn. unfold str_nat. split.
  - destruct (dec_fuel_first (S (Z.to_nat (Z.log2 n))) n "") as (c & s & ->); [done|].
    simpl. lia.
  - etrans; [apply dec_fuel_length|]. simpl.
    assert (Z.log2 n < 64); [|pose proof (Z.log2_nonneg n); lia].
    destruct (decide (n = 0)) as [->|]; [done|]. apply Z.log2_lt_pow2; lia.
Qed.

Lemma zeros_value k s : digits_value 0 (zeros k +:+ s) = digits_value 0 s.
Proof. induction k as [|k IH]; [done|]. exact IH. Qed.

Lemma zeros_length k : String.length (zeros k) = k.
Proof. induction k as [|k IH]; [done|]. simpl. by rewrite IH. Qed.

(** A text of digits contains no other character. *)
Lemma digits_free c acc s v :
  digits_value acc s = Some v -> digit_value c = None -> str_in c s = false.
Proof.
  intros Hs Hc. revert acc Hs. induction s as [|x s IH]; intros acc Hs; [done|].
  cbn [digits_value str_in] in *. destruct (digit_value x) as [d|] eqn:Ex; [|done].
  rewrite (IH _ Hs), orb_false_r. apply Ascii.eqb_neq. intros ->. congruence.
Qed.

(** *** Stripping *)

Definition no_space (s : string) : Prop := forall c, str_in c s = true -> is_space c = false.

Lemma str_rev_app s acc t : str_rev (str_rev s acc) t = str_rev acc (s +:+ t).
Proof. revert acc. induction s as [|c s IH]; intros acc; [done|]. simpl. by rewrite IH. Qed.

Lemma str_rev_in c s acc : str_in c (str_rev s acc) = str_in c s || str_in c acc.
Proof.
  revert acc. induction s as [|x s IH]; intros acc; [done|]. simpl. rewrite IH. simpl.
  by destruct (Ascii.eqb c x), (str_in c s).
Qed.

Lemma str_lstrip_id s : no_space s -> str_lstrip s = s.
Proof.
  destruct s as [|c s]; [done|]. intros H. simpl. rewrite (H c); [done|].
  simpl. by rewrite Ascii.eqb_refl.
Qed.

Lemma str_strip_id s : no_space s -> str_strip s = s.
Proof.
  intros H. unfold str_strip. rewrite (str_lstrip_id s) by done.
  rewrite str_lstrip_id, str_rev_app; [simpl; apply str_app_nil|].
  intros c. rewrite str_rev_in. simpl. rewrite orb_false_r. apply H.
Qed.

Lemma digits_no_space s v : digits_value 0 s = Some v -> no_space s.
Proof.
  intros H c Hc. destruct (is_space c) eqn:E; [|done]. exfalso.
  destruct (digit_value c) as [d|] eqn:Ed.
  - unfold is_space, digit_value in *. cbv zeta in *.
    destruct ((48 <=? _) && _) eqn:E2; [lia|discriminate Ed].
  - by rewrite (digits_free c 0 s v) in Hc.
Qed.

(** A sign and digits are read back. *)
Lemma int_of_str_digits (negative : bool) s v :
  digits_value 0 s = Some v -> (1 <= String.length s <= MAX_STR_DIGITS)%nat ->
  int_of_str ((if negative then "-" else "") +:+ s) = Ok (if negative then - v else v).
Proof.
  intros Hv [H1 H2]. unfold int_of_str.
  rewrite str_strip_id; last first.
  { intros c. rewrite str_in_app. intros [Hc|Hc]%orb_true_iff.
    - destruct negative; [|done]. simpl in Hc. rewrite orb_false_r in Hc.
      by apply Ascii.eqb_eq in Hc as ->.
    - by apply (digits_no_space s v). }
  assert (take_sign ((if negative then "-" else "") +:+ s) = (negative, s)) as ->.
  { destruct negative; [done|]. cbn [String.append]. destruct s as [|x s]; [done|].
    unfold take_sign. cbn [digits_value] in Hv.
    destruct (Ascii.eqb_spec x "-") as [->|]; [done|].
    by destruct (Ascii.eqb_spec x "+") as [->|]. }
  destruct s as [|x s]; [simpl in H1; lia|].
  rewrite (proj2 (Nat.ltb_ge _ _)) by done. by rewrite Hv.
Qed.

Lemma int_of_str_int n : Z.abs n < 2 ^ 64 -> int_of_str (str_int n) = Ok n.
Proof.
  intros Hn. pose proof (str_nat_length (Z.abs n) ltac:(lia)) as Hl.
  assert (int_of_str ((if n <? 0 then "-" else "") +:+ str_nat (Z.abs n)) =
    Ok (if n <? 0 then - Z.abs n else Z.abs n)) as H.
  { apply int_of_str_digits; [apply str_nat_value; lia|]. unfold MAX_STR_DIGITS. lia. }
  unfold str_int. destruct (Z.ltb_spec n 0).
  - replace (- n) with (Z.abs n) by lia. simpl in *. rewrite H. f_equal. lia.
  - replace (Z.abs n) with n in * by lia. exact H.
Qed.

Lemma int_of_fmt03d n : Z.abs n < 2 ^ 64 -> int_of_str (fmt03d n) = Ok n.
Proof.
  intros Hn. pose proof (str_nat_length (Z.abs n) ltac:(lia)) as Hl.
  assert (forall k, (k <= 3)%nat ->
    int_of_str ((if n <? 0 then "-" else "") +:+
      (zeros (k - String.length (str_nat (Z.abs n))) +:+ str_nat (Z.abs n))) =
    Ok (if n <? 0 then - Z.abs n else Z.abs n)) as H.
  { intros k Hk. apply int_of_str_digits.
    - rewrite zeros_value. apply str_nat_value. lia.
    - rewrite str_length_app, zeros_length. unfold MAX_STR_DIGITS. lia. }
  unfold fmt03d. destruct (Z.ltb_spec n 0).
  - specialize (H 2%nat ltac:(lia)). simpl in *. rewrite H. f_equal. lia.
  - specialize (H 3%nat ltac:(lia)). simpl in *. rewrite H. f_equal. lia.
Qed.

(** *** Text and code points *)

Lemma txt_app a b : txt (a +:+ b) = (txt a ++ txt b)%list.
Proof. unfold txt. induction a as [|c a IH]; [done|]. simpl. by rewrite IH. Qed.

Lemma text_of_txt s : text_of (txt s) = s.
Proof.
  unfold text_of, txt. induction s as [|c s IH]; [done|]. cbn [list_ascii_of_string map].
  cbn [string_of_list_ascii]. rewrite Nat2Z.id, ascii_nat_embedding. by f_equal.
Qed.

Lemma txt_text_of l : bytes_ok l -> txt (text_of l) = l.
Proof.
  unfold txt, text_of. rewrite list_ascii_of_string_of_list_ascii, map_map.
  induction 1 as [|b l Hb _ IH]; [done|]. simpl. rewrite IH. f_equal.
  unfold byte_ok in Hb. rewrite nat_ascii_embedding by lia. lia.
Qed.

Lemma str_in_code c s : str_in c s = false -> Z.of_nat (nat_of_ascii c) ∉ txt s.
Proof.
  induction s as [|x s IH]; [intros _; apply not_elem_of_nil|]. cbn [str_in].
  intros [Hx Hs]%orb_false_iff.
  change (txt (String x s)) with (Z.of_nat (nat_of_ascii x) :: txt s).
  apply not_elem_of_cons. split; [|by apply IH]. intros H%Nat2Z.inj.
  apply Ascii.eqb_neq in Hx. apply Hx.
  by rewrite <- (ascii_nat_embedding c), H, ascii_nat_embedding.
Qed.

(** *** UTF-8 *)

(** What follows a byte of a character, in [utf8] and in [decode_replace]. *)
Lemma utf8_ascii a b : (a <? 0x80) = true -> utf8 (a :: b) = utf8 b.
Proof. intros H. cbn [utf8]. by rewrite H. Qed.

Lemma utf8_two a x b :
  (0xc2 <=? a) && (a <=? 0xdf) = true -> utf8 (a :: x :: b) = continuation x && utf8 b.
Proof. intros H. cbn [utf8]. rewrite H. by destruct (Z.ltb_spec a 0x80); [lia|]. Qed.

Lemma utf8_three a x y b :
  (0xe0 <=? a) && (a <=? 0xef) = true ->
  utf8 (a :: x :: y :: b) = second_ok a x && continuation y && utf8 b.
Proof.
  intros H. cbn [utf8]. rewrite H. destruct (Z.ltb_spec a 0x80); [lia|].
  replace ((0xc2 <=? a) && (a <=? 0xdf)) with false by lia. unfold second_ok.
  replace (a =? 0xf0) with false by lia. replace (a =? 0xf4) with false by lia.
  cbn [andb negb]. rewrite !andb_true_r. btauto.
Qed.

Lemma utf8_four a x y z b :
  (0xf0 <=? a) && (a <=? 0xf4) = true ->
  utf8 (a :: x :: y :: z :: b) = second_ok a x && continuation y && continuation z && utf8 b.
Proof.
  intros H. cbn [utf8]. rewrite H. destruct (Z.ltb_spec a 0x80); [lia|].
  replace ((0xc2 <=? a) && (a <=? 0xdf)) with false by lia.
  replace ((0xe0 <=? a) && (a <=? 0xef)) with false by lia. unfold second_ok.
  replace (a =? 0xe0) with false by lia. replace (a =? 0xed) with false by lia.
  cbn [andb negb]. rewrite !andb_true_r. btauto.
Qed.

Lemma utf8_replacement b : utf8 (REPLACEMENT ++ b) = utf8 b.
Proof. done. Qed.

(** What is decoded is UTF-8, and UTF-8 is decoded to itself. *)
Lemma decode_replace_utf8 b : utf8 (decode_replace b) = true.
Proof.
  induction b as [b IH] using (induction_ltof1 _ length). unfold ltof in IH.
  destruct b as [|a b1]; [done|]. cbn [decode_replace]. cbn [length] in IH.
  destruct (a <? 0x80) eqn:Ha; [rewrite utf8_ascii by done; apply IH; lia|].
  destruct ((0xc2 <=? a) && (a <=? 0xf4)) eqn:Hs; [|rewrite utf8_replacement; apply IH; lia].
  destruct b1 as [|x b2]; [done|]. cbn [length] in IH.
  destruct (second_ok a x) eqn:Hx; cbn [negb]; [|rewrite utf8_replacement; apply IH; simpl; lia].
  destruct (Z.leb_spec a 0xdf).
  { rewrite utf8_two, IH, andb_true_r by (simpl; lia).
    unfold second_ok in Hx. by destruct (continuation x). }
  destruct b2 as [|y b3]; [done|]. cbn [length] in IH.
  destruct (continuation y) eqn:Hy; cbn [negb]; [|rewrite utf8_replacement; apply IH; simpl; lia].
  destruct (Z.leb_spec a 0xef).
  { rewrite utf8_three, Hx, Hy by lia. apply IH. lia. }
  destruct b3 as [|z b4]; [done|]. cbn [length] in IH.
  destruct (continuation z) eqn:Hz; cbn [negb]; [|rewrite utf8_replacement; apply IH; simpl; lia].
  rewrite utf8_four, Hx, Hy, Hz by lia. apply IH. lia.
Qed.

Lemma decode_replace_id b : utf8 b = true -> decode_replace b = b.
Proof.
  induction b as [b IH] using (induction_ltof1 _ length). unfold ltof in IH. intros H.
  destruct b as [|a b1]; [done|]. cbn [decode_replace]. cbn [length] in IH.
  destruct (a <? 0x80) eqn:Ha; [rewrite utf8_ascii in H by done; f_equal; apply IH; [lia|done]|].
  destruct b1 as [|x b2].
  { cbn [utf8] in H. by rewrite Ha in H. }
  destruct (Z.leb_spec 0xc2 a) as [Hl|Hl].
  2: { exfalso. cbn [utf8] in H. rewrite Ha in H. repeat case_match; lia. }
  destruct (Z.leb_spec a 0xdf) as [H2|H2].
  { rewrite utf8_two in H by lia. apply andb_true_iff in H as [Hx H].
    replace (a <=? 0xf4) with true by lia. cbn [andb].
    assert (second_ok a x = true) as ->.
    { unfold second_ok. rewrite Hx. by replace (a =? 0xe0) with false by lia;
        replace (a =? 0xed) with false by lia; replace (a =? 0xf0) with false by lia;
        replace (a =? 0xf4) with false by lia. }
    cbn [negb]. do 2 f_equal. apply IH; [simpl; lia|done]. }
  destruct b2 as [|y b3].
  { exfalso. cbn [utf8] in H. rewrite Ha in H. repeat case_match; lia. }
  destruct (Z.leb_spec a 0xef) as [H3|H3].
  { rewrite utf8_three in H by lia. apply andb_true_iff in H as [[Hx Hy]%andb_true_iff H].
    rewrite Hx, Hy. replace (a <=? 0xf4) with true by lia. cbn [andb negb].
    do 3 f_equal. apply IH; [simpl; lia|done]. }
  destruct b3 as [|z b4].
  { exfalso. cbn [utf8] in H. rewrite Ha in H. repeat case_match; lia. }
  destruct (Z.leb_spec a 0xf4) as [H4|H4].
  - rewrite utf8_four in H by lia.
    apply andb_true_iff in H as [[[Hx Hy]%andb_true_iff Hz]%andb_true_iff H].
    rewrite Hx, Hy, Hz. cbn [andb negb]. do 4 f_equal. apply IH; [simpl; lia|done].
  - exfalso. cbn [utf8] in H. rewrite Ha in H. repeat case_match; lia.
Qed.
