(* ===== verification/Topics.v ===== *)
(** * MQTT topics: [cbus/daemon/topics.py]

    How a light, a group of an application, is named in topics, and
    [get_topic_group_address] of [cbus/daemon/mqtt_gateway.py], which reads the
    name back. *)

From S2P Require Import Prelude Text Common.
From Stdlib Require Import String Ascii.
From stdpp Require Import strings options.

Local Open Scope string_scope.
Local Open Scope Z_scope.

(** ** Definitions *)

Definition _BINSENSOR_TOPIC_PREFIX : string := "homeassistant/binary_sensor/cbus_".
Definition _LIGHT_TOPIC_PREFIX : string := "homeassistant/light/cbus_".
Definition _TOPIC_SET_SUFFIX : string := "/set".
Definition _TOPIC_CONF_SUFFIX : string := "/config".
Definition _TOPIC_STATE_SUFFIX : string := "/state".

Definition ga_string (group_addr app_addr : Z) (zeros : bool) : string :=
  if app_addr =? value Application.LIGHTING
  then if zeros then fmt03d group_addr else str_int group_addr
  else fmt03d app_addr +:+ "_" +:+ fmt03d group_addr.

Definition set_topic (group_addr app_addr : Z) : string :=
  _LIGHT_TOPIC_PREFIX +:+ ga_string group_addr app_addr false +:+ _TOPIC_SET_SUFFIX.

Definition state_topic (group_addr app_addr : Z) : string :=
  _LIGHT_TOPIC_PREFIX +:+ ga_string group_addr app_addr false +:+ _TOPIC_STATE_SUFFIX.

Definition conf_topic (group_addr app_addr : Z) : string :=
  _LIGHT_TOPIC_PREFIX +:+ ga_string group_addr app_addr false +:+ _TOPIC_CONF_SUFFIX.

Definition bin_sensor_state_topic (group_addr app_addr : Z) : string :=
  _BINSENSOR_TOPIC_PREFIX +:+ ga_string group_addr app_addr false +:+ _TOPIC_STATE_SUFFIX.

Definition bin_sensor_conf_topic (group_addr app_addr : Z) : string :=
  _BINSENSOR_TOPIC_PREFIX +:+ ga_string group_addr app_addr false +:+ _TOPIC_CONF_SUFFIX.

(** The address in a topic: the application, if any, and the group. *)
Definition split_address (address : string) : result (Z * Z) :=
  match str_split "_" address with
  | (a1, []) => ga ← int_of_str a1; Ok (value Application.LIGHTING, ga)
  | (a1, a2 :: _) => aa ← int_of_str a1; ga ← int_of_str a2; Ok (aa, ga)
  end.

(** [get_topic_group_address] *)
Definition get_topic_group_address (topic : string) : result (Z * Z) :=
  if negb (String.prefix _LIGHT_TOPIC_PREFIX topic) then Raise ValueError
  else
    '(aa, ga) ← split_address
      (str_until "/" (str_drop (String.length _LIGHT_TOPIC_PREFIX) topic));
    _ ← check_ga ga;
    Ok (ga, aa).

(** ** Lemmas *)

(** Addresses as python holds them; on the wire they are bytes. *)
Definition address_ok (n : Z) : Prop := Z.abs n < 2 ^ 64.

Lemma byte_address n : byte_ok n -> address_ok n.
Proof. unfold byte_ok, address_ok. lia. Qed.

(** What does not occur in a number. *)
Lemma number_free c n :
  digit_value c = None -> c <> "-"%char -> address_ok n ->
  str_in c (str_int n) = false /\ str_in c (fmt03d n) = false.
Proof.
  intros Hc Hm Hn.
  assert (digits_value 0 (str_nat (Z.abs n)) = Some (Z.abs n)) as Hv
    by (apply str_nat_value; lia).
  assert (str_in c (str_nat (Z.abs n)) = false) as H by by apply (digits_free c 0 _ (Z.abs n)).
  assert (forall k, str_in c (zeros k +:+ str_nat (Z.abs n)) = false) as Hz.
  { intros k. apply (digits_free c 0 _ (Z.abs n)); [by rewrite zeros_value|done]. }
  assert (forall s, str_in c ("-" +:+ s) = str_in c s) as Hminus.
  { intros s. rewrite str_in_app. simpl. by rewrite (proj2 (Ascii.eqb_neq _ _) Hm). }
  unfold str_int, fmt03d. destruct (Z.ltb_spec n 0).
  - replace (- n) with (Z.abs n) by lia. rewrite !Hminus. split; [done|apply Hz].
  - replace n with (Z.abs n) at 1 by lia. split; [done|apply Hz].
Qed.

Lemma drop_underscores_none digit prev s :
  str_in "_" s = false -> drop_underscores digit prev s = Some s.
Proof.
  revert prev. induction s as [|c s IH]; intros prev; [done|]. cbn [str_in drop_underscores].
  intros [Hc Hs]%orb_false_iff. by rewrite Ascii.eqb_sym, Hc, IH.
Qed.

(** The text of a number, read as any text is. *)
Lemma int_text_str_int n : address_ok n -> int_text (str_int n) = Ok n.
Proof.
  intros Hn. unfold int_text. rewrite str_strip_id.
  - rewrite drop_underscores_none by by apply number_free. by apply int_of_str_int.
  - intros c Hc. destruct (is_space c) eqn:E; [|done].
    destruct (number_free c n) as [Hf _]; [| |done|congruence].
    + unfold is_space, digit_value in *. destruct ((48 <=? _) && _) eqn:E2; [lia|done].
    + intros ->. discriminate E.
Qed.

Lemma split_ga_string g a :
  address_ok g -> address_ok a -> split_address (ga_string g a false) = Ok (a, g).
Proof.
  intros Hg Ha. unfold split_address, ga_string.
  destruct (number_free "_" g) as [Hs Hf]; [done|done|done|].
  destruct (Z.eqb_spec a (value Application.LIGHTING)) as [->|Hne].
  - rewrite str_split_none by done. rewrite int_of_str_int by done. done.
  - destruct (number_free "_" a) as [_ Hfa]; [done|done|done|].
    change (fmt03d a +:+ "_" +:+ fmt03d g) with (fmt03d a +:+ String "_" (fmt03d g)).
    rewrite str_split_app, str_split_none by done. cbn [fst snd].
    by rewrite !int_of_fmt03d by done.
Qed.

Lemma ga_string_inj g a g' a' :
  address_ok g -> address_ok a -> address_ok g' -> address_ok a' ->
  ga_string g a false = ga_string g' a' false -> g = g' /\ a = a'.
Proof.
  intros Hg Ha Hg' Ha' E. pose proof (split_ga_string g a Hg Ha) as H.
  rewrite E, split_ga_string in H by done. by injection H as -> ->.
Qed.

Lemma ga_string_no_slash g a :
  address_ok g -> address_ok a -> str_in "/" (ga_string g a false) = false.
Proof.
  intros Hg Ha. unfold ga_string.
  destruct (number_free "/" g) as [Hs Hf]; [done|done|done|].
  destruct (number_free "/" a) as [_ Hfa]; [done|done|done|].
  destruct (_ =? _); [done|]. by rewrite !str_in_app, Hf, Hfa.
Qed.

(** The address is read back from any topic of a light. *)
Lemma topic_address g a rest :
  byte_ok g -> address_ok a ->
  get_topic_group_address
    (_LIGHT_TOPIC_PREFIX +:+ ga_string g a false +:+ String "/" rest) = Ok (g, a).
Proof.
  intros Hg Ha. pose proof (byte_address g Hg) as Hgo. unfold get_topic_group_address.
  rewrite str_prefix_app, str_drop_app, str_until_app by by apply ga_string_no_slash.
  rewrite split_ga_string, bind_Ok, check_ga_ok by done. done.
Qed.

(** The topics of a light. *)
Inductive light_topic := SetTopic | StateTopic | ConfTopic | SensorStateTopic | SensorConfTopic.

Definition topic_of (t : light_topic) : Z -> Z -> string :=
  match t with
  | SetTopic => set_topic
  | StateTopic => state_topic
  | ConfTopic => conf_topic
  | SensorStateTopic => bin_sensor_state_topic
  | SensorConfTopic => bin_sensor_conf_topic
  end.

(** The address and the suffix of a topic determine it. *)
Lemma address_suffix_inj a b s t :
  str_in "/" a = false -> str_in "/" b = false ->
  a +:+ String "/" s = b +:+ String "/" t -> a = b /\ s = t.
Proof.
  intros Ha Hb E. pose proof (str_until_app "/" a s Ha) as H.
  rewrite E, str_until_app in H by done. subst b. split; [done|].
  apply (f_equal (str_drop (String.length a))) in E. rewrite !str_drop_app in E. congruence.
Qed.

(** Topics determine the light and the role. *)
Lemma topic_inj g a g' a' t t' :
  address_ok g -> address_ok a -> address_ok g' -> address_ok a' ->
  topic_of t g a = topic_of t' g' a' -> t = t' /\ g = g' /\ a = a'.
Proof.
  intros Hg Ha Hg' Ha' E.
  pose proof (ga_string_no_slash g a Hg Ha) as Hs.
  pose proof (ga_string_no_slash g' a' Hg' Ha') as Hs'.
  assert (forall p x y,
    p +:+ ga_string g a false +:+ String "/" x = p +:+ ga_string g' a' false +:+ String "/" y ->
    x = y /\ g = g' /\ a = a') as Hinj.
  { intros p x y H. apply (f_equal (str_drop (String.length p))) in H.
    rewrite !str_drop_app in H. apply address_suffix_inj in H as [H Hxy]; [|done..].
    split; [done|]. by apply ga_string_inj. }
  assert (t = t' /\ exists p x y, p +:+ ga_string g a false +:+ String "/" x =
    p +:+ ga_string g' a' false +:+ String "/" y) as [-> (p & x & y & H)].
  { destruct t, t'; try discriminate E; (split; [try done|by eexists _, _, _]);
      exfalso; apply Hinj in E as [E _]; discriminate E. }
  apply Hinj in H as (_ & -> & ->). done.
Qed.

(** ** Properties *)

(** C37. Topics name lights uniquely. The address of a light is read back from the
    topic of its commands, whatever application and group it is; and no topic,
    for commands, state or discovery, as a light or as a sensor, belongs to two
    lights or has two roles. *)
Theorem topics_name_lights g a :
  byte_ok g -> address_ok a ->
  get_topic_group_address (set_topic g a) = Ok (g, a) /\
  forall g' a' t t', byte_ok g' -> address_ok a' ->
    topic_of t g a = topic_of t' g' a' -> t = t' /\ g = g' /\ a = a'.
Proof.
  intros Hg Ha. split; [by apply topic_address|]. intros g' a' t t' Hg' Ha'.
  by apply topic_inj; [apply byte_address| |apply byte_address|].
Qed.

Example topics_name_lights_witness :
  get_topic_group_address (set_topic 7 0x30) = Ok (7, 0x30) /\
  forall g' a' t t', byte_ok g' -> address_ok a' ->
    topic_of t 7 0x30 = topic_of t' g' a' -> t = t' /\ 7 = g' /\ 0x30 = a'.
Proof. apply (topics_name_lights 7 0x30); unfold byte_ok, address_ok; lia. Defined.

Example set_topic_text : set_topic 7 0x30 = "homeassistant/light/cbus_048_007/set".
Proof. reflexivity. Qed.
