(* ===== verification/Periodic.v ===== *)
(** * The throttler: [cbus/toolkit/periodic.py]

    [Periodic] runs queued functions in order with a pause after each. Times are
    integers; the loop and its callers interleave, so an execution is a sequence
    of the steps below. *)

From S2P Require Import Prelude.
From stdpp Require Import options.

Local Open Scope Z_scope.

Section periodic.
(** A queued function. *)
Context {A : Type}.

Record periodic := {
  queue : list A;
  max_queue_size : nat;
  period : Z;
  running : bool;
  next_run : Z (* when the pause of the loop ends *);
  executed : list (Z * A) (* what ran, and when, oldest first *)
}.

Definition periodic_init (period : Z) (max_queue_size : nat) : periodic :=
  {| queue := []; max_queue_size := max_queue_size; period := period; running := true;
     next_run := 0; executed := [] |}.

(** [asyncio.Queue.full] *)
Definition queue_full (p : periodic) : bool :=
  (0 <? max_queue_size p)%nat && (max_queue_size p <=? length (queue p))%nat.

Definition with_queue (p : periodic) (q : list A) : periodic :=
  {| queue := q; max_queue_size := max_queue_size p; period := period p;
     running := running p; next_run := next_run p; executed := executed p |}.

Definition enqueue (task : A) (p : periodic) : periodic :=
  if running p && negb (queue_full p) then with_queue p (queue p ++ [task]) else p.

(** A turn of [_work] at time [now]: the function runs, with or without an
    exception, and the loop sleeps. *)
Definition _work (now : Z) (p : periodic) : periodic :=
  match queue p with
  | [] => p
  | task :: q =>
      if running p && (next_run p <=? now) then
        {| queue := q; max_queue_size := max_queue_size p; period := period p;
           running := true; next_run := now + period p;
           executed := executed p ++ [(now, task)] |}
      else p
  end.

(** [cleanup]: the loop is cancelled and the queue emptied. *)
Definition cleanup (p : periodic) : periodic :=
  {| queue := []; max_queue_size := max_queue_size p; period := period p;
     running := false; next_run := next_run p; executed := executed p |}.

Inductive periodic_event := Enqueue (task : A) | Work (now : Z) | Cleanup.

Definition periodic_step (p : periodic) (e : periodic_event) : periodic :=
  match e with
  | Enqueue task => enqueue task p
  | Work now => _work now p
  | Cleanup => cleanup p
  end.

(** ** Invariant *)

(** Successive elements are at least [k] apart. *)
Fixpoint spaced (k : Z) (l : list (Z * A)) : Prop :=
  match l with
  | (t, _) :: l' =>
      match l' with (t', _) :: _ => t + k <= t' | [] => True end /\ spaced k l'
  | [] => True
  end.

Definition periodic_inv (p : periodic) : Prop :=
  (max_queue_size p = O \/ (length (queue p) <= max_queue_size p)%nat) /\
  spaced (period p) (executed p) /\
  match last (executed p) with Some (t, _) => t + period p <= next_run p | None => True end.

Lemma spaced_snoc k l t a :
  spaced k l ->
  match last l with Some (t', _) => t' + k <= t | None => True end ->
  spaced k (l ++ [(t, a)]).
Proof.
  induction l as [|[x b] [|[y c] l] IH]; [done| |].
  - simpl. tauto.
  - intros [Hxy Hs] Hl. split; [done|]. by apply IH.
Qed.

Lemma periodic_step_inv p e : periodic_inv p -> periodic_inv (periodic_step p e).
Proof.
  intros (Hq & Hs & Hl). destruct e as [task|now|]; simpl.
  - unfold enqueue. destruct (running p); [|done]. simpl.
    unfold queue_full. destruct (_ && _) eqn:Ef; [done|]. simpl.
    split; [|done]. simpl. rewrite length_app. simpl.
    destruct Hq as [?|Hq]; [by left|]. apply andb_false_iff in Ef.
    rewrite Nat.ltb_ge, Nat.leb_gt in Ef. lia.
  - unfold _work. destruct (queue p) as [|task q] eqn:Eq; [by rewrite <- Eq in Hq|].
    destruct (running p && (next_run p <=? now)) eqn:Er; [|by rewrite <- Eq in Hq].
    apply andb_true_iff in Er as [_ Er%Z.leb_le]. split; [simpl in *; lia|].
    split; cbn [period executed next_run].
    + apply spaced_snoc; [done|]. destruct (last (executed p)) as [[t x]|]; [lia|done].
    + rewrite last_snoc. lia.
  - split; [right; simpl; lia|done].
Qed.

(** First in, first out: the functions accepted are those run, then those
    waiting; refusing one or running one changes neither order. *)
Lemma enqueue_accepted p task :
  map snd (executed (enqueue task p)) ++ queue (enqueue task p) =
  (map snd (executed p) ++ queue p) ++
    (if running p && negb (queue_full p) then [task] else []).
Proof. unfold enqueue. destruct (_ && _); simpl; by rewrite ?app_assoc, ?app_nil_r. Qed.

Lemma work_accepted p now :
  map snd (executed (_work now p)) ++ queue (_work now p) = map snd (executed p) ++ queue p.
Proof.
  unfold _work. destruct (queue p) as [|task q] eqn:Eq; [by rewrite Eq|].
  destruct (_ && _); [|by rewrite Eq]. simpl. by rewrite map_app, <- app_assoc.
Qed.

(** The functions [enqueue] takes, over a run. *)
Fixpoint accepted (p : periodic) (es : list periodic_event) : list A :=
  match es with
  | [] => []
  | e :: es =>
      (match e with
       | Enqueue task => if running p && negb (queue_full p) then [task] else []
       | _ => []
       end) ++ accepted (periodic_step p e) es
  end.

Lemma periodic_run_accepted p es :
  ~ In Cleanup es ->
  let q := foldl periodic_step p es in
  map snd (executed q) ++ queue q = map snd (executed p) ++ queue p ++ accepted p es.
Proof.
  revert p. induction es as [|e es IH]; intros p Hc; cbn [foldl accepted].
  { cbv zeta. by rewrite app_nil_r. }
  cbv zeta in IH |- *. rewrite IH by (intros H; apply Hc; by right).
  rewrite app_assoc. destruct e as [task|now|]; cbn [periodic_step].
  - rewrite enqueue_accepted. by rewrite <- !app_assoc.
  - rewrite work_accepted. by rewrite <- !app_assoc.
  - exfalso. apply Hc. by left.
Qed.

End periodic.

Arguments periodic A : clear implicits.
Arguments periodic_event A : clear implicits.

(** ** Properties *)

(** C38. The throttler keeps order and distance. In any interleaving of calls and
    turns of the loop from a fresh throttler, the queue never exceeds its limit,
    two functions run at least the period apart, and until the cleanup the
    functions that ran followed by those that wait are exactly the functions
    accepted, in the order they were enqueued. *)
Theorem throttler_order_and_distance {A} (k : Z) (size : nat) (es : list (periodic_event A)) :
  (0 < size)%nat ->
  let p := foldl periodic_step (periodic_init k size) es in
  (length (queue p) <= size)%nat /\ spaced k (executed p) /\
  (~ In Cleanup es ->
     map snd (executed p) ++ queue p = accepted (periodic_init k size) es).
Proof.
  intros Hsize p.
  assert (forall q : periodic A, periodic_inv q ->
    periodic_inv (foldl periodic_step q es) /\
    max_queue_size (foldl periodic_step q es) = max_queue_size q /\
    period (foldl periodic_step q es) = period q) as Hinv.
  { clear. induction es as [|e es IH]; intros q Hq; [done|]. cbn [foldl].
    destruct (IH _ (periodic_step_inv q e Hq)) as (Hi & -> & ->). split; [done|].
    destruct e; simpl; unfold enqueue, _work; repeat case_match; done. }
  destruct (Hinv (periodic_init k size)) as ((Hq & Hs & _) & Em & Ep).
  { split; [right; simpl; lia|done]. }
  fold p in Hq, Hs, Em, Ep. simpl in Em, Ep. rewrite Em in Hq. rewrite Ep in Hs.
  split; [lia|]. split; [done|]. intros Hc.
  exact (periodic_run_accepted (periodic_init k size) es Hc).
Qed.

Example throttler_order_and_distance_witness :
  let es := [Enqueue 1; Enqueue 2; Work 5; Work 6; Enqueue 3; Work 15; Enqueue 4] in
  let p := foldl periodic_step (periodic_init 10 2) es in
  (length (queue p) <= 2)%nat /\ spaced 10 (executed p) /\
  (~ In Cleanup es -> map snd (executed p) ++ queue p = accepted (periodic_init 10 2) es).
Proof.
  apply (throttler_order_and_distance 10 2
    [Enqueue 1; Enqueue 2; Work 5; Work 6; Enqueue 3; Work 15; Enqueue 4]).
  lia.
Defined.
