(* ===== verification/Gateway.v ===== *)
(** * The MQTT gateway: [cbus/daemon/mqtt_gateway.py]

    [CBusHandler], a [PCIProtocol] that passes events on, and [MqttClient], which
    publishes them and turns messages of the broker into commands. The broker's
    library (aiomqtt) is not part of the repository: what the gateway asks of it
    is recorded, and a message is its topic and the outcome of [json.loads] on
    its payload. *)

From S2P Require Import Prelude Text Common Hex Report Lighting Clock StatusRequest.
From S2P Require Import Application Packet Carried Decode Buffered PyDict Confirm Pci Topics Periodic.
From Stdlib Require Import String Ascii QArith.
From stdpp Require Import strings gmap options.

Local Open Scope string_scope.
Local Open Scope list_scope.
Local Open Scope Z_scope.

#[local] Obligation Tactic := idtac.

(** ** Data *)

(** A python [float]. *)
Inductive pyfloat := Finite (q : Q) | Infinite (positive : bool) | NaN.

(** What [json.loads] returns and [json.dumps] takes. *)
#[warnings="-register-all"]
Inductive json :=
| JNull
| JBool (b : bool)
| JInt (n : Z)
| JFloat (f : pyfloat)
| JString (s : string)
| JArray (l : list json)
| JObject (fields : list (string * json)).

(** [d.get(key)] of an object; its keys are distinct. *)
Fixpoint field (key : string) (fields : list (string * json)) : option json :=
  match fields with
  | [] => None
  | (k, v) :: fields => if String.eqb k key then Some v else field key fields
  end.

(** [bool(j)] *)
Definition truthy (j : json) : bool :=
  match j with
  | JNull => false
  | JBool b => b
  | JInt n => negb (n =? 0)
  | JFloat (Finite q) => negb (Qeq_bool q 0)
  | JFloat _ => true
  | JString s => negb (String.eqb s "")
  | JArray l => negb (bool_decide (l = []))
  | JObject fields => negb (bool_decide (fields = []))
  end.

(** A payload: a dict, which [publish] turns into text, or a text. *)
Inductive payload := PJson (j : json) | PText (s : string).

(** A call of the MQTT library, made in a task. *)
Inductive mqtt_call :=
| Subscribe (topic : string) (qos : Z)
| Publish (topic : string) (p : payload) (qos : Z) (retain : bool).

(** Labels: applications, their names and the names of their groups. *)
Definition labels : Type := list (Z * (string * list (Z * string))).

Record mqtt := {
  _client : bool (* connected *);
  groupDB : gmap Z (gmap Z bool);
  calls : list mqtt_call (* oldest first *)
}.

Definition mqtt_init : mqtt := {| _client := false; groupDB := ∅; calls := [] |}.

(** A method of [MqttClient]: it may raise after it changed the state. *)
Definition method (A : Type) : Type := mqtt -> mqtt * result A.

#[export] Instance method_ret : MRet method := fun A a m => (m, Ok a).
#[export] Instance method_bind : MBind method :=
  fun A B f x m =>
    match x m with
    | (m, Ok a) => f a m
    | (m, Raise e) => (m, Raise e)
    end.

(** ** Publishing *)

Definition call (c : mqtt_call) : method unit := fun m =>
  if _client m
  then ({| _client := true; groupDB := groupDB m; calls := calls m ++ [c] |}, Ok tt)
  else (m, Raise RuntimeError).

Definition publish (topic : string) (p : payload) : method unit :=
  call (Publish topic p 1 true).

Definition subscribe (topic : string) (qos : Z) : method unit := call (Subscribe topic qos).

Definition with_groupDB (m : mqtt) (db : gmap Z (gmap Z bool)) : mqtt :=
  {| _client := _client m; groupDB := db; calls := calls m |}.

(** [self.groupDB.setdefault(app_addr, {})] *)
Definition group_setdefault (app_addr : Z) : method (gmap Z bool) := fun m =>
  match groupDB m !! app_addr with
  | Some groups => (m, Ok groups)
  | None => (with_groupDB m (<[app_addr := ∅]> (groupDB m)), Ok ∅)
  end.

(** [self.groupDB[app_addr] = groups] *)
Definition set_groups (app_addr : Z) (groups : gmap Z bool) : method unit := fun m =>
  (with_groupDB m (<[app_addr := groups]> (groupDB m)), Ok tt).

Definition default_light_name (group_addr app_addr : Z) : string :=
  "C-Bus Light " +:+ ga_string group_addr app_addr true.

(** The [device] of the discovery messages. *)
Definition device (uid default_name : string) (group_addr app_addr : Z) : json :=
  JObject
    [("identifiers", JArray [JString uid]);
     ("connections", JArray
        [JArray [JString "cbus_group_address"; JString (str_int group_addr)];
         JArray [JString "cbus_application_address"; JString (str_int app_addr)]]);
     ("sw_version", JString "cmqttd https://github.com/mitchell-johnson/cbus");
     ("name", JString default_name);
     ("manufacturer", JString "Clipsal");
     ("model", JString "C-Bus Lighting Application");
     ("via_device", JString "cmqttd")].

Definition light_conf (name : string) (group_addr app_addr : Z) : json :=
  let uid := "cbus_light_" +:+ ga_string group_addr app_addr false in
  JObject
    [("name", JString name); ("unique_id", JString uid);
     ("cmd_t", JString (set_topic group_addr app_addr));
     ("stat_t", JString (state_topic group_addr app_addr));
     ("schema", JString "json"); ("brightness", JBool true);
     ("device", device uid (default_light_name group_addr app_addr) group_addr app_addr)].

Definition sensor_conf (name : string) (group_addr app_addr : Z) : json :=
  let uid := "cbus_bin_sensor_" +:+ ga_string group_addr app_addr false in
  JObject
    [("name", JString (name +:+ " (as binary sensor)")); ("unique_id", JString uid);
     ("stat_t", JString (bin_sensor_state_topic group_addr app_addr));
     ("device", device uid (default_light_name group_addr app_addr) group_addr app_addr)].

(** The label of a light, or its default name. *)
Definition light_name (app_labels : option labels) (group_addr app_addr : Z) : string :=
  match app_labels with
  | None => default_light_name group_addr app_addr
  | Some ls =>
      match dict_get ls app_addr with
      | Some (_, groups) =>
          default (default_light_name group_addr app_addr) (dict_get groups group_addr)
      | None => default_light_name group_addr app_addr
      end
  end.

Definition publish_light (group_addr app_addr : Z) (app_labels : option labels)
    : method unit :=
  let name := light_name app_labels group_addr app_addr in
  _ ← subscribe (set_topic group_addr app_addr) 2;
  _ ← publish (conf_topic group_addr app_addr) (PJson (light_conf name group_addr app_addr));
  _ ← publish (bin_sensor_conf_topic group_addr app_addr)
        (PJson (sensor_conf name group_addr app_addr));
  groups ← group_setdefault app_addr;
  set_groups app_addr (<[group_addr := true]> groups).

Definition check_published (group_addr app_addr : Z) : method unit :=
  groups ← group_setdefault app_addr;
  if default false (groups !! group_addr) then mret tt
  else publish_light group_addr app_addr None.

Definition source_json (source_addr : option Z) : json :=
  match source_addr with Some s => JInt s | None => JNull end.

Definition light_state (state : string) (brightness transition : Z) (source_addr : option Z)
    : json :=
  JObject [("state", JString state); ("brightness", JInt brightness);
           ("transition", JInt transition); ("cbus_source_addr", source_json source_addr)].

Definition publish_binary_sensor (group_addr app_addr : Z) (state : bool) : method unit :=
  publish (bin_sensor_state_topic group_addr app_addr)
    (PText (if state then "ON" else "OFF")).

Definition mqtt_group_on (source_addr : option Z) (group_addr app_addr : Z) : method unit :=
  _ ← check_published group_addr app_addr;
  _ ← publish (state_topic group_addr app_addr) (PJson (light_state "ON" 255 0 source_addr));
  publish_binary_sensor group_addr app_addr true.

Definition mqtt_group_off (source_addr : option Z) (group_addr app_addr : Z) : method unit :=
  _ ← check_published group_addr app_addr;
  _ ← publish (state_topic group_addr app_addr) (PJson (light_state "OFF" 0 0 source_addr));
  publish_binary_sensor group_addr app_addr false.

Definition mqtt_group_ramp (source_addr : option Z) (group_addr app_addr duration level : Z)
    : method unit :=
  _ ← check_published group_addr app_addr;
  _ ← publish (state_topic group_addr app_addr)
        (PJson (light_state "ON" level duration source_addr));
  publish_binary_sensor group_addr app_addr (0 <? level).

(** [for x in l: f(x)] *)
Fixpoint for_each {A} (f : A -> method unit) (l : list A) : method unit :=
  match l with
  | [] => mret tt
  | x :: l => _ ← f x; for_each f l
  end.

Definition META_TOPIC : string := "homeassistant/binary_sensor/cbus_cmqttd".

Definition meta_conf : json :=
  JObject
    [("~", JString META_TOPIC); ("name", JString "cmqttd"); ("unique_id", JString "cmqttd");
     ("stat_t", JString ("~" +:+ _TOPIC_STATE_SUFFIX));
     ("device", JObject
        [("identifiers", JArray [JString "cmqttd"]);
         ("sw_version", JString "cmqttd https://github.com/mitchell-johnson/cbus");
         ("name", JString "cmqttd"); ("manufacturer", JString "micolous");
         ("model", JString "libcbus")])].

Definition publish_all_lights (app_labels : labels) : method unit :=
  _ ← publish (META_TOPIC +:+ _TOPIC_CONF_SUFFIX) (PJson meta_conf);
  for_each (fun '(app_addr, (_, groups)) =>
    for_each (fun '(group_addr, _) => publish_light group_addr app_addr (Some app_labels))
      groups) app_labels.

(** ** The gateway *)

(** A function in the throttler's queue: it starts a coroutine. *)
Inductive action :=
| SwitchLight (group_addr app_addr : Z) (light_on : bool) (brightness transition : Z)
| RequestStatus (block app_addr : Z).

(** Where [_dispatcher_loop] is: waiting for its subscription, in the loop over the
    broker's messages, or at its end. *)
Inductive dispatcher_loop := Subscribing | Iterating | LoopEnded.

Record gateway := {
  mq : mqtt;
  app_labels : labels;
  mqtt_api : bool (* the handler is bound to the MQTT client *);
  _is_closing : bool;
  throttler : periodic action;
  loop : dispatcher_loop;
  clock_tasks : nat (* coroutines [clock_datetime()] started *)
}.

(** Whether the loop over the broker's messages runs. *)
Definition dispatcher (gw : gateway) : bool :=
  match loop gw with Iterating => true | _ => false end.

Definition DEFAULT_LABELS : labels := [(56, ("Lighting", []))].

(** [CBusHandler.__init__] and [MqttClient.__init__], with the throttler of
    [_main]: a fifth of a second between two actions. *)
Definition gateway_init (ls : option labels) : gateway :=
  {| mq := mqtt_init; app_labels := default DEFAULT_LABELS ls; mqtt_api := false;
     _is_closing := false; throttler := periodic_init 200000 1000; loop := LoopEnded;
     clock_tasks := 0 |}.

Definition with_mq (gw : gateway) (m : mqtt) : gateway :=
  {| mq := m; app_labels := app_labels gw; mqtt_api := mqtt_api gw;
     _is_closing := _is_closing gw; throttler := throttler gw; loop := loop gw;
     clock_tasks := clock_tasks gw |}.

Definition with_handler (gw : gateway) (api closing : bool) : gateway :=
  {| mq := mq gw; app_labels := app_labels gw; mqtt_api := api;
     _is_closing := closing; throttler := throttler gw; loop := loop gw;
     clock_tasks := clock_tasks gw |}.

Definition with_throttler (gw : gateway) (p : periodic action) : gateway :=
  {| mq := mq gw; app_labels := app_labels gw; mqtt_api := mqtt_api gw;
     _is_closing := _is_closing gw; throttler := p; loop := loop gw;
     clock_tasks := clock_tasks gw |}.

Definition with_loop (gw : gateway) (d : dispatcher_loop) : gateway :=
  {| mq := mq gw; app_labels := app_labels gw; mqtt_api := mqtt_api gw;
     _is_closing := _is_closing gw; throttler := throttler gw; loop := d;
     clock_tasks := clock_tasks gw |}.

(** A call of the MQTT client by the handler. *)
Definition run_method (f : method unit) (gw : gateway) : gateway * result unit :=
  let '(m, r) := f (mq gw) in (with_mq gw m, r).

(** *** Events of the network *)

(** The loop of [on_level_report]. *)
Fixpoint report_levels (app_addr start : Z) (report : list (option Z)) : method unit :=
  match report with
  | [] => mret tt
  | None :: report => report_levels app_addr (start + 1) report
  | Some val :: report =>
      _ ← check_published start app_addr;
      _ ← (if val =? 0 then mqtt_group_off (Some 0) start app_addr
           else if val =? 255 then mqtt_group_on (Some 0) start app_addr
           else mqtt_group_ramp (Some 0) start app_addr 0 val);
      report_levels app_addr (start + 1) report
  end.

Definition on_level_report (app_addr start : Z) (report : list (option Z)) : method unit :=
  _ ← group_setdefault app_addr;
  report_levels app_addr start report.

(** The overridden handlers of [CBusHandler]. *)
Definition on_event (e : pci_event) (gw : gateway) : gateway * result unit :=
  match e with
  | OnClockRequest _ =>
      if _is_closing gw then (gw, Ok tt)
      else ({| mq := mq gw; app_labels := app_labels gw; mqtt_api := mqtt_api gw;
               _is_closing := _is_closing gw; throttler := throttler gw;
               loop := loop gw; clock_tasks := S (clock_tasks gw) |}, Ok tt)
  | OnPciCannotAcceptData | OnClockUpdate _ _ | OnLightingGroupTerminateRamp _ _ _ =>
      (gw, Ok tt)
  | _ =>
      if negb (mqtt_api gw) || _is_closing gw then (gw, Ok tt)
      else
        run_method
          (match e with
           | OnLightingGroupRamp source g a duration level =>
               mqtt_group_ramp source g a duration level
           | OnLightingGroupOn source g a => mqtt_group_on source g a
           | OnLightingGroupOff source g a => mqtt_group_off source g a
           | OnLevelReport a start report => on_level_report a start report
           | _ => mret tt
           end) gw
  end.

(** The handlers a packet calls, until one raises. *)
Fixpoint on_events (es : list pci_event) (gw : gateway) : gateway * result unit :=
  match es with
  | [] => (gw, Ok tt)
  | e :: es =>
      match on_event e gw with
      | (gw, Ok _) => on_events es gw
      | (gw, Raise e) => (gw, Raise e)
      end
  end.

(** *** Connections *)

(** [[f(block) for block in range(0, 256, 32)]] *)
Definition queue_status_requests (app_addr : Z) (p : periodic action) : periodic action :=
  foldl (fun p block => enqueue (RequestStatus (32 * block) app_addr) p) p (seqZ 0 8).

Definition queue_all_status_requests (gw : gateway) : gateway :=
  with_throttler gw
    (foldl (fun p a => queue_status_requests a p) (throttler gw)
       (supported_applications LightingApplication)).

Definition gw_connection_made (gw : gateway) : gateway :=
  if mqtt_api gw then queue_all_status_requests gw else gw.

Definition gw_cleanup (gw : gateway) : gateway :=
  if _is_closing gw then gw else with_handler gw false true.

Definition gw_connection_lost (gw : gateway) : gateway :=
  let gw := if mqtt_api gw then with_mq gw (with_groupDB (mq gw) ∅) else gw in
  gw_cleanup gw.

(** The filter of [_dispatcher_loop]. *)
Definition LIGHT_FILTER : string := "homeassistant/light/#".

(** [MqttClient.__aenter__], once the broker is connected. The task of the dispatcher
    is created before those that publish, so that its call is the first. *)
Definition aenter (gw : gateway) : gateway * result unit :=
  let m := {| _client := true; groupDB := groupDB (mq gw); calls := calls (mq gw) |} in
  let gw := with_loop (with_handler (with_mq gw m) true (_is_closing gw)) Subscribing in
  let '(gw, _) := run_method (subscribe LIGHT_FILTER 0) gw in
  match run_method (publish_all_lights (app_labels gw)) gw with
  | (gw, Ok _) => (queue_all_status_requests gw, Ok tt)
  | (gw, Raise e) => (gw, Raise e)
  end.

(** A reconnection creates a new handler; [_main] binds it later. *)
Definition handler_created (gw : gateway) : gateway := with_handler gw false false.

Definition handler_rebound (gw : gateway) : gateway :=
  with_handler gw true (_is_closing gw).

(** *** Commands *)

(** [s.upper() == 'ON']: no other character has an O or an N as upper case. *)
Definition upper_is_on (s : string) : bool :=
  existsb (String.eqb s) ["ON"; "On"; "oN"; "on"].

(** [isinstance(x, (int, float))] *)
Definition is_number (j : json) : bool :=
  match j with JBool _ | JInt _ | JFloat _ => true | _ => false end.

(** [int(x)] *)
Definition int_of_json (j : json) : result Z :=
  match j with
  | JInt n => Ok n
  | JBool b => Ok (if b then 1 else 0)
  | JFloat (Finite q) => Ok (Z.quot (Qnum q) (Z.pos (Qden q)))
  | JFloat (Infinite _) => Raise OverflowError
  | JFloat NaN => Raise ValueError
  | _ => Raise TypeError
  end.

(** [int] of a field that is a number, or of the default. *)
Definition int_field (key : string) (default_value : Z) (fields : list (string * json))
    : result Z :=
  let v := default (JInt default_value) (field key fields) in
  int_of_json (if is_number v then v else JInt default_value).

(** The [try] block that reads the payload; [None] is a missing state. *)
Definition parse_command (payload : json) : result (option (bool * Z * Z)) :=
  match payload with
  | JObject fields =>
      match field "state" fields with
      | None => Ok None
      | Some (JString state) =>
          brightness ← int_field "brightness" 255 fields;
          transition ← int_field "transition" 0 fields;
          Ok (Some (upper_is_on state, Z.max 0 (Z.min 255 brightness), Z.max 0 transition))
      | Some _ => Raise AttributeError
      end
  | JString s =>
      match String.index 0 "state" s with Some _ => Raise TypeError | None => Ok None end
  | JArray l =>
      if existsb (fun j => match j with JString s => String.eqb s "state" | _ => false end) l
      then Raise TypeError else Ok None
  | _ => Raise TypeError
  end.

(** [_handle_message] *)
Definition _handle_message (topic : string) (loads : result json) (gw : gateway)
    : gateway * result bool :=
  if negb (String.prefix _LIGHT_TOPIC_PREFIX topic && str_endswith _TOPIC_SET_SUFFIX topic)
  then (gw, Ok false)
  else
    match get_topic_group_address topic with
    | Raise ValueError => (gw, Ok false)
    | Raise e => (gw, Raise e)
    | Ok (group_addr, app_addr) =>
        match loads with
        | Raise _ => (gw, Ok false)
        | Ok payload =>
            match parse_command payload with
            | Ok None | Raise KeyError | Raise ValueError | Raise TypeError => (gw, Ok false)
            | Raise e => (gw, Raise e)
            | Ok (Some (light_on, brightness, transition)) =>
                (with_throttler gw
                   (enqueue (SwitchLight group_addr app_addr light_on brightness transition)
                      (throttler gw)), Ok true)
            end
        end
    end.

(** The subscription of [_dispatcher_loop] returns, or raises. *)
Definition on_subscribed (r : result unit) (gw : gateway) : gateway :=
  match loop gw with
  | Subscribing => with_loop gw (match r with Ok _ => Iterating | Raise _ => LoopEnded end)
  | _ => gw
  end.

(** The iterator over the broker's messages raises. *)
Definition on_messages_failed (gw : gateway) : gateway :=
  if dispatcher gw then with_loop gw LoopEnded else gw.

(** A turn of [_dispatcher_loop]: an exception ends the loop. *)
Definition on_message (topic : string) (loads : result json) (gw : gateway) : gateway :=
  if dispatcher gw then
    match _handle_message topic loads gw with
    | (gw, Ok _) => gw
    | (gw, Raise _) => with_loop gw LoopEnded
    end
  else gw.

(** The command the coroutine of an action sends: [switchLight] up to its
    [await], or [request_status]. *)
Definition action_command (a : action) : result packet :=
  match a with
  | SwitchLight g a light_on brightness transition =>
      if light_on then
        if (brightness =? 255) && (transition =? 0)
        then lighting_group_on (OneGroup g) a
        else lighting_group_ramp g a transition brightness
      else lighting_group_off (OneGroup g) a
  | RequestStatus block a => request_status block a
  end.

(** [switchLight] after the command was sent. *)
Definition switch_report (a : action) : method unit :=
  match a with
  | SwitchLight g a light_on brightness transition =>
      if light_on then
        if (brightness =? 255) && (transition =? 0)
        then mqtt_group_on None g a
        else mqtt_group_ramp None g a transition brightness
      else mqtt_group_off None g a
  | RequestStatus _ _ => mret tt
  end.

(** *** Executions *)

Inductive gateway_event :=
| NetworkEvents (es : list pci_event)
| NetworkConnected
| NetworkLost
| HandlerCreated
| HandlerRebound
| DispatcherSubscribed (r : result unit)
| Message (topic : string) (loads : result json)
| MessagesFailed
| Throttled (now : Z)
| CommandSent (a : action).

(** An exception of a callback or a task goes no further. *)
Definition gateway_step (gw : gateway) (e : gateway_event) : gateway :=
  match e with
  | NetworkEvents es => (on_events es gw).1
  | NetworkConnected => gw_connection_made gw
  | NetworkLost => gw_connection_lost gw
  | HandlerCreated => handler_created gw
  | HandlerRebound => handler_rebound gw
  | DispatcherSubscribed r => on_subscribed r gw
  | Message topic loads => on_message topic loads gw
  | MessagesFailed => on_messages_failed gw
  | Throttled now => with_throttler gw (_work now (throttler gw))
  | CommandSent a => (run_method (switch_report a) gw).1
  end.

(** The daemon: entered once, then any events. *)
Definition gateway_run (ls : option labels) (es : list gateway_event) : gateway :=
  foldl gateway_step (aenter (gateway_init ls)).1 es.

(** ** What the broker retains *)

(** The last retained payload of a topic. *)
Definition retain (topic : string) (acc : option payload) (c : mqtt_call) : option payload :=
  match c with
  | Publish t p _ true => if String.eqb t topic then Some p else acc
  | _ => acc
  end.

Definition retained (cs : list mqtt_call) (topic : string) : option payload :=
  foldl (retain topic) None cs.

(** *** The specification: the last report of each light *)

Record light := { l_on : bool; l_brightness : Z; l_transition : Z; l_source : option Z }.

Definition state_payload (l : light) : payload :=
  PJson (light_state (if l_on l then "ON" else "OFF") (l_brightness l) (l_transition l)
           (l_source l)).

Definition sensor_payload (l : light) : payload :=
  PText (if 0 <? l_brightness l then "ON" else "OFF").

Abbreviation lights := (gmap (Z * Z) light).

Definition record (ls : lights) (rs : list (Z * Z * light)) : lights :=
  foldl (fun ls '(k, l) => <[k := l]> ls) ls rs.

Definition light_on (source : option Z) : light :=
  {| l_on := true; l_brightness := 255; l_transition := 0; l_source := source |}.
Definition light_off (source : option Z) : light :=
  {| l_on := false; l_brightness := 0; l_transition := 0; l_source := source |}.
Definition light_ramp (source : option Z) (duration level : Z) : light :=
  {| l_on := true; l_brightness := level; l_transition := duration; l_source := source |}.

(** What a level report says of the group with that level. *)
Definition light_level (level : Z) : light :=
  if level =? 0 then light_off (Some 0)
  else if level =? 255 then light_on (Some 0) else light_ramp (Some 0) 0 level.

Fixpoint level_reports (a start : Z) (report : list (option Z)) : list (Z * Z * light) :=
  match report with
  | [] => []
  | None :: report => level_reports a (start + 1) report
  | Some v :: report => (start, a, light_level v) :: level_reports a (start + 1) report
  end.

Definition event_reports (e : pci_event) : list (Z * Z * light) :=
  match e with
  | OnLightingGroupRamp s g a d l => [(g, a, light_ramp s d l)]
  | OnLightingGroupOn s g a => [(g, a, light_on s)]
  | OnLightingGroupOff s g a => [(g, a, light_off s)]
  | OnLevelReport a start report => level_reports a start report
  | _ => []
  end.

Definition command_reports (a : action) : list (Z * Z * light) :=
  match a with
  | SwitchLight g a on b t =>
      [(g, a, if on then if (b =? 255) && (t =? 0) then light_on None else light_ramp None t b
              else light_off None)]
  | RequestStatus _ _ => []
  end.

(** Which handler is bound, and the lights. *)
Record spec := { sp_bound : bool; sp_closing : bool; sp_lights : lights }.

Definition spec_step (s : spec) (e : gateway_event) : spec :=
  match e with
  | NetworkEvents es =>
      if sp_bound s && negb (sp_closing s)
      then {| sp_bound := sp_bound s; sp_closing := sp_closing s;
              sp_lights := record (sp_lights s) (flat_map event_reports es) |}
      else s
  | CommandSent a =>
      {| sp_bound := sp_bound s; sp_closing := sp_closing s;
         sp_lights := record (sp_lights s) (command_reports a) |}
  | NetworkLost =>
      {| sp_bound := sp_bound s && sp_closing s; sp_closing := true;
         sp_lights := sp_lights s |}
  | HandlerCreated =>
      {| sp_bound := false; sp_closing := false; sp_lights := sp_lights s |}
  | HandlerRebound =>
      {| sp_bound := true; sp_closing := sp_closing s; sp_lights := sp_lights s |}
  | NetworkConnected | DispatcherSubscribed _ | Message _ _ | MessagesFailed | Throttled _ => s
  end.

Definition spec_init : spec := {| sp_bound := true; sp_closing := false; sp_lights := ∅ |}.

(** The addresses of an event are ones python text can hold. *)
Definition event_ok (e : pci_event) : Prop :=
  match e with
  | OnLightingGroupRamp _ g a _ _ | OnLightingGroupOn _ g a | OnLightingGroupOff _ g a =>
      address_ok g /\ address_ok a
  | OnLevelReport a start report =>
      address_ok a /\ 0 <= start /\ address_ok (start + Z.of_nat (length report))
  | _ => True
  end.

Definition action_ok (a : action) : Prop :=
  match a with
  | SwitchLight g a _ _ _ => address_ok g /\ address_ok a
  | RequestStatus _ _ => True
  end.

Definition gateway_event_ok (e : gateway_event) : Prop :=
  match e with
  | NetworkEvents es => Forall event_ok es
  | CommandSent a => action_ok a
  | _ => True
  end.

Definition labels_ok (ls : labels) : Prop :=
  Forall (fun '(a, (_, groups)) =>
    address_ok a /\ Forall (fun '(g, _) => address_ok g) (groups : list (Z * string))) ls.

(** *** The relation *)

(** Announced to Home Assistant, with its commands subscribed to. *)
Definition discovered (cs : list mqtt_call) (g a : Z) : Prop :=
  In (Subscribe (set_topic g a) 2) cs /\ exists p, In (Publish (conf_topic g a) p 1 true) cs.

Definition discovery_first (cs : list mqtt_call) : Prop :=
  forall pre p q r post g a, cs = pre ++ Publish (state_topic g a) p q r :: post ->
    address_ok g -> address_ok a -> discovered pre g a.

Definition shows (cs : list mqtt_call) (ls : lights) : Prop :=
  forall g a, address_ok g -> address_ok a ->
    retained cs (state_topic g a) = state_payload <$> ls !! (g, a) /\
    retained cs (bin_sensor_state_topic g a) = sensor_payload <$> ls !! (g, a).

Definition client_ok (m : mqtt) : Prop :=
  _client m = true /\ discovery_first (calls m) /\
  forall a groups g, groupDB m !! a = Some groups -> groups !! g = Some true ->
    discovered (calls m) g a.

(** A call that says nothing of the state of a light. *)
Definition chatter (c : mqtt_call) : Prop :=
  match c with
  | Subscribe _ _ => True
  | Publish t _ _ _ => forall g a, address_ok g -> address_ok a ->
      t <> state_topic g a /\ t <> bin_sensor_state_topic g a
  end.

(** ** Lemmas *)

Lemma retained_snoc cs c t : retained (cs ++ [c]) t = retain t (retained cs t) c.
Proof. unfold retained. by rewrite foldl_app. Qed.

Lemma retained_publish cs t p q t' :
  retained (cs ++ [Publish t p q true]) t' = if String.eqb t t' then Some p else retained cs t'.
Proof. by rewrite retained_snoc. Qed.

Lemma chatter_retained cs more g a :
  Forall chatter more -> address_ok g -> address_ok a ->
  retained (cs ++ more) (state_topic g a) = retained cs (state_topic g a) /\
  retained (cs ++ more) (bin_sensor_state_topic g a) = retained cs (bin_sensor_state_topic g a).
Proof.
  intros Hm Hg Ha. revert cs. induction Hm as [|c more Hc Hm IH]; intros cs.
  - by rewrite app_nil_r.
  - replace (cs ++ c :: more) with ((cs ++ [c]) ++ more) by by rewrite <- app_assoc.
    destruct (IH (cs ++ [c])) as [-> ->]. rewrite !retained_snoc.
    destruct c as [|t p q r]; [done|]. destruct (Hc g a Hg Ha) as [Hs Hb]. simpl.
    destruct r; [|done].
    by rewrite (proj2 (String.eqb_neq _ _) Hs), (proj2 (String.eqb_neq _ _) Hb).
Qed.

Lemma shows_chatter cs more ls : shows cs ls -> Forall chatter more -> shows (cs ++ more) ls.
Proof.
  intros Hs Hm g a Hg Ha. destruct (chatter_retained cs more g a Hm Hg Ha) as [-> ->].
  by apply Hs.
Qed.

(** What [publish_light] does. *)
Definition light_calls (g a : Z) (ls : option labels) : list mqtt_call :=
  [Subscribe (set_topic g a) 2;
   Publish (conf_topic g a) (PJson (light_conf (light_name ls g a) g a)) 1 true;
   Publish (bin_sensor_conf_topic g a) (PJson (sensor_conf (light_name ls g a) g a)) 1 true].

Lemma discovered_app cs more g a : discovered cs g a -> discovered (cs ++ more) g a.
Proof. intros [Hs [p Hp]]. split; [|exists p]; apply in_or_app; by left. Qed.

Lemma light_discovered cs g a ls : discovered (cs ++ light_calls g a ls) g a.
Proof. split; [|eexists]; apply in_or_app; right; [by left|right; by left]. Qed.

(** Appending a call keeps discovery first, unless it is the state of a light
    not yet discovered. *)
Lemma discovery_first_snoc cs c :
  discovery_first cs ->
  (forall g a p q r, c = Publish (state_topic g a) p q r -> address_ok g -> address_ok a ->
     discovered cs g a) ->
  discovery_first (cs ++ [c]).
Proof.
  intros Hd Hc pre p q r post g a E Hg Ha.
  destruct (exists_last (l := Publish (state_topic g a) p q r :: post)) as (post' & x & Ep);
    [done|].
  rewrite Ep, app_assoc in E. apply app_inj_tail in E as [E <-].
  destruct post' as [|y post']; simpl in Ep.
  - injection Ep as <- ->. rewrite app_nil_r in E. subst pre. by apply (Hc g a p q r).
  - injection Ep as <- ->. by apply (Hd pre p q r post').
Qed.

Lemma discovery_first_chatter cs more :
  discovery_first cs -> Forall chatter more -> discovery_first (cs ++ more).
Proof.
  intros Hd Hm. revert cs Hd. induction Hm as [|c more Hc Hm IH]; intros cs Hd.
  - by rewrite app_nil_r.
  - replace (cs ++ c :: more) with ((cs ++ [c]) ++ more) by by rewrite <- app_assoc.
    apply IH, discovery_first_snoc; [done|]. intros g a p q r -> Hg Ha.
    by destruct (Hc g a Hg Ha).
Qed.

(** *** Topics of chatter *)

Lemma topic_neq t t' g a g' a' :
  t <> t' -> address_ok g -> address_ok a -> address_ok g' -> address_ok a' ->
  topic_of t g a <> topic_of t' g' a'.
Proof. intros Hne Hg Ha Hg' Ha' E. by apply topic_inj in E as [? _]. Qed.

Lemma chatter_conf g a p q r :
  address_ok g -> address_ok a -> chatter (Publish (conf_topic g a) p q r).
Proof.
  intros Hg Ha g' a' Hg' Ha'. split.
  - by apply (topic_neq ConfTopic StateTopic).
  - by apply (topic_neq ConfTopic SensorStateTopic).
Qed.

Lemma chatter_sensor_conf g a p q r :
  address_ok g -> address_ok a -> chatter (Publish (bin_sensor_conf_topic g a) p q r).
Proof.
  intros Hg Ha g' a' Hg' Ha'. split.
  - by apply (topic_neq SensorConfTopic StateTopic).
  - by apply (topic_neq SensorConfTopic SensorStateTopic).
Qed.

Lemma chatter_meta p q r : chatter (Publish (META_TOPIC +:+ _TOPIC_CONF_SUFFIX) p q r).
Proof.
  intros g a Hg Ha. split; [discriminate|]. intros E.
  apply (f_equal (str_drop (String.length _BINSENSOR_TOPIC_PREFIX))) in E.
  unfold bin_sensor_state_topic in E. rewrite str_drop_app in E.
  apply (address_suffix_inj "cmqttd" _ "config" "state") in E as [_ E]; [done|done|].
  by apply ga_string_no_slash.
Qed.

(** *** Methods *)

(** A method that leaves the client in order and reports [rs]. *)
Definition announces (f : method unit) (rs : list (Z * Z * light)) : Prop :=
  forall m, client_ok m -> exists m', f m = (m', Ok tt) /\ client_ok m' /\
    forall ls, shows (calls m) ls -> shows (calls m') (record ls rs).

Lemma announces_ret : announces (mret tt) [].
Proof. intros m Hm. by exists m. Qed.

Lemma announces_bind f (g : unit -> method unit) rs rs' :
  announces f rs -> announces (g tt) rs' -> announces (f ≫= g) (rs ++ rs').
Proof.
  intros Hf Hg m Hm. destruct (Hf m Hm) as (m1 & E1 & H1 & S1).
  destruct (Hg m1 H1) as (m2 & E2 & H2 & S2). exists m2. split; [|split; [done|]].
  - unfold mbind, method_bind. by rewrite E1.
  - intros ls Hs. unfold record. rewrite foldl_app. by apply S2, S1.
Qed.

Lemma call_run c m :
  _client m = true ->
  call c m = ({| _client := true; groupDB := groupDB m; calls := calls m ++ [c] |}, Ok tt).
Proof. intros H. unfold call. by rewrite H. Qed.

Lemma publish_light_run g a ls m :
  _client m = true ->
  exists db, publish_light g a ls m =
    ({| _client := true; groupDB := db; calls := calls m ++ light_calls g a ls |}, Ok tt) /\
    db = <[a := <[g := true]> (default ∅ (groupDB m !! a))]> (groupDB m).
Proof.
  intros Hm. eexists. split; [|done].
  unfold publish_light, subscribe, publish, mbind, method_bind.
  do 3 (rewrite call_run by done; cbn [groupDB calls]).
  unfold group_setdefault, set_groups, with_groupDB, light_calls. cbn [groupDB].
  rewrite <- !app_assoc. cbn [app].
  destruct (groupDB m !! a) as [groups|] eqn:E; [done|]. cbn [_client groupDB calls default].
  by rewrite insert_insert_eq.
Qed.

Lemma publish_light_announces g a ls :
  address_ok g -> address_ok a -> announces (publish_light g a ls) [].
Proof.
  intros Hg Ha m (Hc & Hf & Hdb).
  destruct (publish_light_run g a ls m Hc) as (db & -> & ->). eexists. split; [done|].
  assert (Forall chatter (light_calls g a ls)) as Hch.
  { unfold light_calls. constructor; [exact I|]. constructor; [by apply chatter_conf|].
    constructor; [by apply chatter_sensor_conf|constructor]. }
  split; [|intros l Hs; by apply shows_chatter].
  split; [done|]. split; [by apply discovery_first_chatter|]. cbn [groupDB calls].
  intros a' groups g'. destruct (decide (a' = a)) as [->|Hne].
  - rewrite lookup_insert_eq. intros [= <-].
    destruct (decide (g' = g)) as [->|Hng].
    + intros _. apply light_discovered.
    + rewrite lookup_insert_ne by done. intros Hl. apply discovered_app.
      destruct (groupDB m !! a) as [gs|] eqn:E; [by apply (Hdb a gs)|done].
  - rewrite lookup_insert_ne by done. intros. by apply discovered_app, (Hdb a' groups).
Qed.

Lemma group_setdefault_run a m :
  exists db, group_setdefault a m =
    ({| _client := _client m; groupDB := db; calls := calls m |},
     Ok (default ∅ (groupDB m !! a))) /\
    forall a', db !! a' = if decide (a' = a) then Some (default ∅ (groupDB m !! a))
                          else groupDB m !! a'.
Proof.
  unfold group_setdefault. destruct (groupDB m !! a) as [groups|] eqn:E.
  - exists (groupDB m). split; [by destruct m|]. intros a'. by case_decide; subst.
  - eexists. split; [done|]. intros a'. case_decide as Ha; [subst; apply lookup_insert_eq|].
    by apply lookup_insert_ne.
Qed.

Lemma group_setdefault_ok a m :
  client_ok m -> exists m', (group_setdefault a m).1 = m' /\ client_ok m' /\ calls m' = calls m /\
    (group_setdefault a m).2 = Ok (default ∅ (groupDB m !! a)) /\
    forall groups g, groups = default ∅ (groupDB m !! a) -> groups !! g = Some true ->
      discovered (calls m) g a.
Proof.
  intros (Hc & Hf & Hdb). destruct (group_setdefault_run a m) as (db & -> & Hl).
  eexists. split; [done|]. split.
  - split; [done|]. split; [done|]. cbn [groupDB calls]. intros a' groups g.
    rewrite Hl. case_decide as Ha.
    + subst a'. intros [= <-]. destruct (groupDB m !! a) as [gs|] eqn:E; [|done].
      by apply Hdb.
    + apply Hdb.
  - split; [done|]. split; [done|]. intros groups g ->.
    destruct (groupDB m !! a) as [gs|] eqn:E; [by apply Hdb|done].
Qed.

(** After [check_published] the light is known to Home Assistant. *)
Lemma check_published_ok g a m :
  address_ok g -> address_ok a -> client_ok m ->
  exists m', check_published g a m = (m', Ok tt) /\ client_ok m' /\ discovered (calls m') g a /\
    forall ls, shows (calls m) ls -> shows (calls m') ls.
Proof.
  intros Hg Ha Hm. unfold check_published, mbind, method_bind.
  destruct (group_setdefault_ok a m Hm) as (m1 & E1 & H1 & Ec & E2 & Hd).
  destruct (group_setdefault a m) as [m1' r]. simpl in E1, E2. subst m1' r.
  destruct (default ∅ (groupDB m !! a) !! g) as [[]|] eqn:El; simpl.
  1: { exists m1. rewrite Ec. split; [done|]. split; [done|]. split; [|done]. by eapply Hd. }
  all: destruct (publish_light_announces g a None Hg Ha m1 H1) as (m2 & E & H2 & S2);
    exists m2; rewrite E; (split; [done|]); (split; [done|]);
    rewrite <- Ec; (split; [|intros ls Hs; by apply (S2 ls)]);
    destruct (publish_light_run g a None m1 (proj1 H1)) as (db & E' & _);
    assert (m2 = {| _client := true; groupDB := db; calls := calls m1 ++ light_calls g a None |})
      as -> by congruence;
    apply light_discovered.
Qed.

Lemma publish_topic t p q r t' p' q' r' :
  Publish t p q r = Publish t' p' q' r' -> t = t'.
Proof. congruence. Qed.

(** The two messages that show a light. *)
Lemma show_light g a l m :
  address_ok g -> address_ok a -> client_ok m -> discovered (calls m) g a ->
  exists m',
    (_ ← publish (state_topic g a) (state_payload l);
     publish (bin_sensor_state_topic g a) (sensor_payload l)) m = (m', Ok tt) /\
    client_ok m' /\ forall ls, shows (calls m) ls -> shows (calls m') (<[(g, a) := l]> ls).
Proof.
  intros Hg Ha (Hc & Hf & Hdb) Hd. unfold publish, mbind, method_bind.
  do 2 (rewrite call_run by done; cbn [groupDB calls]). eexists. split; [done|].
  cbn [groupDB calls]. split.
  - split; [done|]. cbn [groupDB calls]. split.
    + apply discovery_first_snoc; [apply discovery_first_snoc; [done|]|].
      * intros g' a' p q r E Hg' Ha'. apply publish_topic in E.
        apply (topic_inj _ _ _ _ StateTopic StateTopic) in E as (_ & <- & <-); done.
      * intros g' a' p q r E Hg' Ha'. apply publish_topic in E.
        apply (topic_inj _ _ _ _ SensorStateTopic StateTopic) in E as (? & _); done.
    + intros a' groups g' H1 H2. by apply discovered_app, discovered_app, (Hdb a' groups).
  - intros ls Hs g' a' Hg' Ha'. rewrite !retained_publish.
    destruct (Hs g' a' Hg' Ha') as [Es Eb].
    assert (bin_sensor_state_topic g a <> state_topic g' a') as Hn1
      by by apply (topic_neq SensorStateTopic StateTopic).
    assert (state_topic g a <> bin_sensor_state_topic g' a') as Hn2
      by by apply (topic_neq StateTopic SensorStateTopic).
    rewrite (proj2 (String.eqb_neq _ _) Hn1), (proj2 (String.eqb_neq _ _) Hn2).
    destruct (decide ((g, a) = (g', a'))) as [[= <- <-]|Hne].
    + by rewrite !String.eqb_refl, lookup_insert_eq.
    + rewrite lookup_insert_ne by done.
      assert (state_topic g a <> state_topic g' a') as Hn3.
      { intros E. apply (topic_inj _ _ _ _ StateTopic StateTopic) in E as (_ & -> & ->); done. }
      assert (bin_sensor_state_topic g a <> bin_sensor_state_topic g' a') as Hn4.
      { intros E.
        apply (topic_inj _ _ _ _ SensorStateTopic SensorStateTopic) in E as (_ & -> & ->); done. }
      by rewrite (proj2 (String.eqb_neq _ _) Hn3), (proj2 (String.eqb_neq _ _) Hn4).
Qed.

Lemma report_announces g a l (f : method unit) :
  address_ok g -> address_ok a ->
  f = (_ ← check_published g a;
       _ ← publish (state_topic g a) (state_payload l);
       publish (bin_sensor_state_topic g a) (sensor_payload l)) ->
  announces f [(g, a, l)].
Proof.
  intros Hg Ha -> m Hm. destruct (check_published_ok g a m Hg Ha Hm) as (m1 & E1 & H1 & Hd & S1).
  destruct (show_light g a l m1 Hg Ha H1 Hd) as (m2 & E2 & H2 & S2).
  exists m2. split; [|split; [done|]].
  - unfold mbind at 1, method_bind at 1. by rewrite E1.
  - intros ls Hs. apply (S2 ls), S1, Hs.
Qed.

Lemma group_on_announces s g a :
  address_ok g -> address_ok a -> announces (mqtt_group_on s g a) [(g, a, light_on s)].
Proof. intros Hg Ha. by apply report_announces. Qed.

Lemma group_off_announces s g a :
  address_ok g -> address_ok a -> announces (mqtt_group_off s g a) [(g, a, light_off s)].
Proof. intros Hg Ha. by apply report_announces. Qed.

Lemma group_ramp_announces s g a d l :
  address_ok g -> address_ok a ->
  announces (mqtt_group_ramp s g a d l) [(g, a, light_ramp s d l)].
Proof. intros Hg Ha. by apply report_announces. Qed.

Lemma report_levels_announces a start report :
  address_ok a -> 0 <= start -> address_ok (start + Z.of_nat (length report)) ->
  announces (report_levels a start report) (level_reports a start report).
Proof.
  intros Ha. revert start. induction report as [|[v|] report IH]; intros start H0 Hs;
    cbn [report_levels level_reports length] in *; [apply announces_ret| |].
  - assert (address_ok start) as Hg by (unfold address_ok in *; lia).
    apply (announces_bind _ _ [] ((start, a, light_level v) :: _)).
    { intros m Hm. destruct (check_published_ok start a m Hg Ha Hm) as (m1 & ? & ? & _ & ?).
      by exists m1. }
    apply (announces_bind _ _ [_]); [|apply IH; [lia|by replace (start + 1 + Z.of_nat (length report))
      with (start + Z.of_nat (S (length report))) by lia]].
    unfold light_level. destruct (v =? 0); [by apply group_off_announces|].
    destruct (v =? 255); [by apply group_on_announces|by apply group_ramp_announces].
  - apply IH; [lia|]. by replace (start + 1 + Z.of_nat (length report))
      with (start + Z.of_nat (S (length report))) by lia.
Qed.

Lemma level_report_announces a start report :
  address_ok a -> 0 <= start -> address_ok (start + Z.of_nat (length report)) ->
  announces (on_level_report a start report) (level_reports a start report).
Proof.
  intros Ha H0 Hs m Hm. unfold on_level_report, mbind, method_bind.
  destruct (group_setdefault_ok a m Hm) as (m1 & E1 & H1 & Ec & E2 & _).
  destruct (group_setdefault a m) as [m1' r]. simpl in E1, E2. subst m1' r.
  rewrite <- Ec. by apply report_levels_announces.
Qed.

(** *** Simulation *)

Definition simulates (gw : gateway) (s : spec) : Prop :=
  client_ok (mq gw) /\ shows (calls (mq gw)) (sp_lights s) /\
  sp_bound s = mqtt_api gw /\ sp_closing s = _is_closing gw.

Lemma run_announces f rs gw s :
  announces f rs -> simulates gw s ->
  exists m, run_method f gw = (with_mq gw m, Ok tt) /\
    simulates (with_mq gw m)
      {| sp_bound := sp_bound s; sp_closing := sp_closing s;
         sp_lights := record (sp_lights s) rs |}.
Proof.
  intros Hf (Hc & Hs & Hb). destruct (Hf (mq gw) Hc) as (m & E & Hm & Hsh).
  exists m. unfold run_method. rewrite E. split; [done|]. split; [done|].
  split; [by apply Hsh|done].
Qed.

Definition bound (gw : gateway) : bool := mqtt_api gw && negb (_is_closing gw).

Lemma on_event_bound e gw s :
  event_ok e -> bound gw = true -> simulates gw s ->
  exists gw', on_event e gw = (gw', Ok tt) /\ bound gw' = true /\
    simulates gw' {| sp_bound := sp_bound s; sp_closing := sp_closing s;
                     sp_lights := record (sp_lights s) (event_reports e) |}.
Proof.
  intros He Hb Hs.
  assert (forall f, announces f (event_reports e) ->
    exists gw', run_method f gw = (gw', Ok tt) /\ bound gw' = true /\
      simulates gw' {| sp_bound := sp_bound s; sp_closing := sp_closing s;
                       sp_lights := record (sp_lights s) (event_reports e) |}) as Hrun.
  { intros f Hf. destruct (run_announces f _ gw s Hf Hs) as (m & E & Hm).
    by exists (with_mq gw m). }
  assert (negb (mqtt_api gw) || _is_closing gw = false) as Hc.
  { unfold bound in Hb. by destruct (mqtt_api gw), (_is_closing gw). }
  assert (exists gw', (gw, @Ok unit tt) = (gw', Ok tt) /\ bound gw' = true /\
    simulates gw' {| sp_bound := sp_bound s; sp_closing := sp_closing s;
                     sp_lights := sp_lights s |}) as Hskip by (exists gw; by destruct s).
  unfold on_event. rewrite Hc.
  destruct e as [|src g a d l|src g a|src g a|src g a|src|src v|a start report];
    cbn [event_ok event_reports record foldl] in *.
  - exact Hskip.
  - destruct He. by apply Hrun, group_ramp_announces.
  - destruct He. by apply Hrun, group_on_announces.
  - destruct He. by apply Hrun, group_off_announces.
  - exact Hskip.
  - destruct (_is_closing gw) eqn:Ecl; [exact Hskip|]. eexists. split; [done|].
    unfold bound in *. cbn. rewrite Ecl in Hb. split; [done|].
    destruct Hs as (? & ? & ? & ?). by rewrite Ecl in *.
  - exact Hskip.
  - destruct He as (? & ? & ?). by apply Hrun, level_report_announces.
Qed.

Lemma on_events_bound es gw s :
  Forall event_ok es -> bound gw = true -> simulates gw s ->
  simulates (on_events es gw).1
    {| sp_bound := sp_bound s; sp_closing := sp_closing s;
       sp_lights := record (sp_lights s) (flat_map event_reports es) |}.
Proof.
  intros Hes. revert gw s. induction Hes as [|e es He _ IH]; intros gw s Hb Hs.
  - by destruct s.
  - destruct (on_event_bound e gw s He Hb Hs) as (gw' & E & Hb' & Hs'). cbn [on_events].
    rewrite E. cbn [flat_map]. unfold record. rewrite foldl_app.
    exact (IH gw' _ Hb' Hs').
Qed.

(** A handler that is not bound publishes nothing. *)
Lemma on_events_unbound es gw s :
  bound gw = false -> simulates gw s -> simulates (on_events es gw).1 s.
Proof.
  revert gw. induction es as [|e es IH]; intros gw Hb Hs; [done|]. cbn [on_events].
  assert (exists gw', on_event e gw = (gw', Ok tt) /\ bound gw' = false /\ simulates gw' s)
    as (gw' & E & Hb' & Hs').
  { assert (negb (mqtt_api gw) || _is_closing gw = true) as Hc.
    { unfold bound in Hb. by destruct (mqtt_api gw), (_is_closing gw). }
    unfold on_event. rewrite Hc.
    destruct e; try (by exists gw). destruct (_is_closing gw) eqn:Ecl; [by exists gw|].
    eexists. split; [done|]. unfold bound in *. cbn. rewrite Ecl in Hb. split; [done|].
    destruct Hs as (? & ? & ? & ?). by rewrite Ecl in *. }
  rewrite E. by apply IH.
Qed.

Lemma on_message_frame topic loads gw :
  mq (on_message topic loads gw) = mq gw /\
  mqtt_api (on_message topic loads gw) = mqtt_api gw /\
  _is_closing (on_message topic loads gw) = _is_closing gw.
Proof.
  unfold on_message, _handle_message. repeat case_match; simplify_eq; done.
Qed.

Lemma gateway_step_simulates gw s e :
  gateway_event_ok e -> simulates gw s -> simulates (gateway_step gw e) (spec_step s e).
Proof.
  intros He Hs. pose proof Hs as (Hc & Hsh & Hb & Hcl).
  destruct e as [es| | | | |r|topic loads| |now|a]; cbn [gateway_step spec_step].
  - rewrite Hb, Hcl. change (mqtt_api gw && negb (_is_closing gw)) with (bound gw).
    destruct (bound gw) eqn:E; [|by apply on_events_unbound].
    pose proof (on_events_bound es gw s He E Hs) as H. by rewrite Hb, Hcl in H.
  - unfold gw_connection_made. destruct (mqtt_api gw) eqn:E; [|by rewrite <- E in Hb].
    split; [done|]. split; [done|]. by rewrite <- E in Hb.
  - unfold gw_connection_lost, gw_cleanup. rewrite Hb, Hcl.
    destruct (mqtt_api gw) eqn:E1, (_is_closing gw) eqn:E2; cbn; rewrite ?E1, ?E2;
      (split; [|done]); try done; destruct Hc as (? & ? & ?);
      (split; [done|]); (split; [done|]); by intros a' groups g' Hl.
  - by split.
  - by split.
  - unfold on_subscribed. by destruct (loop gw).
  - destruct (on_message_frame topic loads gw) as (E1 & E2 & E3).
    unfold simulates. by rewrite E1, E2, E3.
  - unfold on_messages_failed. by destruct (dispatcher gw).
  - exact Hs.
  - assert (announces (switch_report a) (command_reports a)) as Ha.
    { destruct a as [g a on b t|block a]; [|apply announces_ret]. destruct He as [Hg Ha].
      cbn [switch_report command_reports]. destruct on; [destruct (_ && _)|];
        [by apply group_on_announces|by apply group_ramp_announces|by apply group_off_announces]. }
    destruct (run_announces _ _ gw s Ha Hs) as (m & -> & H). exact H.
Qed.

Lemma for_each_announces {A} (f : A -> method unit) l :
  Forall (fun x => announces (f x) []) l -> announces (for_each f l) [].
Proof.
  induction 1 as [|x l Hx _ IH]; [apply announces_ret|].
  cbn [for_each]. by apply (announces_bind _ _ [] []).
Qed.

Lemma publish_all_lights_announces ls : labels_ok ls -> announces (publish_all_lights ls) [].
Proof.
  intros Hls. unfold publish_all_lights. apply (announces_bind _ _ [] []).
  - intros m (Hc & Hf & Hdb). unfold publish. rewrite call_run by done.
    assert (Forall chatter [Publish (META_TOPIC +:+ _TOPIC_CONF_SUFFIX) (PJson meta_conf) 1 true])
      as Hch by (constructor; [apply chatter_meta|constructor]).
    eexists. split; [done|]. split; [|intros l Hs; by apply shows_chatter].
    split; [done|]. split; [by apply discovery_first_chatter|].
    intros a groups g H1 H2. by apply discovered_app, (Hdb a groups).
  - apply for_each_announces. eapply Forall_impl; [exact Hls|].
    intros [a [n groups]] [Ha Hgs]. apply for_each_announces.
    eapply Forall_impl; [exact Hgs|]. intros [g n'] Hg. by apply publish_light_announces.
Qed.

Lemma subscribe_announces t q : announces (subscribe t q) [].
Proof.
  intros m (Hc & Hf & Hdb). unfold subscribe. rewrite call_run by done.
  assert (Forall chatter [Subscribe t q]) as Hch by by repeat constructor.
  eexists. split; [done|]. split; [|intros l Hs; by apply shows_chatter].
  split; [done|]. split; [by apply discovery_first_chatter|].
  intros a groups g H1 H2. by apply discovered_app, (Hdb a groups).
Qed.

(** Entering the client never fails, whatever the labels: once the broker is connected
    no call raises. *)
Definition works {A} (f : method A) : Prop :=
  forall m, _client m = true -> exists m' x, f m = (m', Ok x) /\ _client m' = true.

Lemma works_ret {A} (x : A) : works (mret x).
Proof. intros m Hm. by exists m, x. Qed.

Lemma works_bind {A B} (f : method A) (k : A -> method B) :
  works f -> (forall x, works (k x)) -> works (f ≫= k).
Proof.
  intros Hf Hk m Hm. destruct (Hf m Hm) as (m1 & x & E & H1). destruct (Hk x m1 H1) as (m2 & y & E2 & H2).
  exists m2, y. split; [|done]. unfold mbind, method_bind. by rewrite E.
Qed.

Lemma works_call c : works (call c).
Proof. intros m Hm. unfold call. rewrite Hm. by eexists _, tt. Qed.

Lemma works_for_each {A} (f : A -> method unit) l : (forall x, works (f x)) -> works (for_each f l).
Proof.
  intros Hf. induction l as [|x l IH]; [apply works_ret|]. apply works_bind; [apply Hf|by intros []].
Qed.

Lemma works_publish_light g a ls : works (publish_light g a ls).
Proof.
  unfold publish_light. do 3 (apply works_bind; [apply works_call|intros []]).
  apply works_bind; [|intros groups m Hm; by eexists _, tt].
  intros m Hm. unfold group_setdefault. destruct (groupDB m !! a); by eexists _, _.
Qed.

Lemma aenter_works ls : (aenter (gateway_init ls)).2 = Ok tt.
Proof.
  unfold aenter. set (gw0 := with_loop _ _).
  unfold run_method at 1. change (subscribe LIGHT_FILTER 0 (mq gw0)) with (call (Subscribe LIGHT_FILTER 0) (mq gw0)).
  destruct (works_call (Subscribe LIGHT_FILTER 0) (mq gw0) eq_refl) as (m1 & x & -> & H1).
  unfold run_method. cbn [mq with_mq].
  assert (works (publish_all_lights (app_labels (with_mq gw0 m1)))) as Hw.
  { apply works_bind; [apply works_call|intros []]. apply works_for_each. intros [a [n groups]].
    apply works_for_each. intros [g name]. apply works_publish_light. }
  destruct (Hw m1 H1) as (m2 & [] & E & _). change (mq (with_mq gw0 m1)) with m1. by rewrite E.
Qed.

Lemma aenter_simulates ls :
  labels_ok (default DEFAULT_LABELS ls) ->
  exists gw, aenter (gateway_init ls) = (gw, Ok tt) /\ simulates gw spec_init.
Proof.
  intros Hls. unfold aenter.
  set (m0 := {| _client := true; groupDB := groupDB _; calls := _ |}).
  set (gw0 := with_loop _ _).
  assert (simulates gw0 spec_init) as H0.
  { split; [|by split; [|split]]. split; [done|]. split.
    - intros pre p q r post g a E. destruct pre; discriminate E.
    - intros a groups g. change (groupDB (mq gw0)) with (∅ : gmap Z (gmap Z bool)).
      by rewrite lookup_empty. }
  destruct (run_announces _ _ gw0 spec_init (subscribe_announces LIGHT_FILTER 0) H0) as (m1 & -> & H1).
  destruct (run_announces _ _ (with_mq gw0 m1) spec_init
    (publish_all_lights_announces (app_labels gw0) Hls) H1) as (m & E & H).
  change (app_labels (with_mq gw0 m1)) with (app_labels gw0). rewrite E.
  eexists. split; [done|]. exact H.
Qed.

Lemma gateway_run_simulates ls es :
  labels_ok (default DEFAULT_LABELS ls) -> Forall gateway_event_ok es ->
  simulates (gateway_run ls es) (foldl spec_step spec_init es).
Proof.
  intros Hls Hes. unfold gateway_run. destruct (aenter_simulates ls Hls) as (gw & -> & Hs). cbn [fst].
  revert gw Hs. generalize spec_init. induction Hes as [|e es He _ IH]; intros s gw Hs; [done|].
  cbn [foldl]. by apply IH, gateway_step_simulates.
Qed.

(** *** Commands *)

(** The packet of a switch action on a lighting application. *)
Lemma switch_packet g a on b t :
  byte_ok g -> byte_in a lighting_applications = true -> byte_ok b ->
  exists sals,
    action_command (SwitchLight g a on b t) =
      Ok (PointToMultipointPacket command_header (Some a) sals) /\
    packet_valid (PointToMultipointPacket command_header (Some a) sals) /\
    flat_map event_reports (flat_map (sal_event None) sals) =
      command_reports (SwitchLight g a on b t).
Proof.
  intros Hg Ha Hb.
  assert (exists l, lighting_valid a l /\
    action_command (SwitchLight g a on b t) = (s ← lighting_init l; pm_command [SLighting s]) /\
    flat_map event_reports (sal_event None (SLighting l)) =
      command_reports (SwitchLight g a on b t)) as (l & Hl & E & Er).
  { cbn [action_command command_reports].
    assert (forall new, lighting_valid a (new g a) ->
      (gs ← _normalize_group_addrs (OneGroup g); sals ← lighting_sals new a gs; pm_command sals) =
      (s ← lighting_init (new g a); pm_command [SLighting s])) as H1.
    { intros new (? & ? & ? & _). unfold _normalize_group_addrs. cbn [length Nat.ltb Nat.leb].
      rewrite bind_Ok. unfold lighting_sals. cbn [mapM_result].
      by rewrite (lighting_init_ok a). }
    destruct on; [destruct (_ && _)|].
    - exists (LightingOnSAL g a). split; [done|]. split; [|done]. by apply H1.
    - exists (LightingRampSAL g a t b). split; [done|]. by split.
    - exists (LightingOffSAL g a). split; [done|]. split; [|done]. by apply H1. }
  exists [SLighting l]. pose proof Hl as (Hla & Hb1 & Hb2 & _).
  rewrite E, (lighting_init_ok a), bind_Ok by done.
  rewrite (pm_command_ok a) by (done || by constructor). split; [done|]. split.
  - split; [done|]. split; [done|]. split; [done|]. split.
    + by rewrite (proj2 (get_application_spec a LightingApplication) Ha).
    + constructor; [|constructor]. by split.
  - cbn [flat_map]. by rewrite app_nil_r.
Qed.

(** What the interface reads of it: the same, with the time that it takes. *)
Lemma switch_packet_read g a on b t sals :
  0 <= t -> byte_ok g -> byte_in a lighting_applications = true ->
  action_command (SwitchLight g a on b t) =
    Ok (PointToMultipointPacket command_header (Some a) sals) ->
  exists t', ramp_read t t' /\
    flat_map event_reports (flat_map (sal_event None) (map sal_on_wire sals)) =
      command_reports (SwitchLight g a on b t').
Proof.
  intros Ht Hg Ha. destruct (on_wire_ramp t) as (t' & Et & Hr).
  assert (forall l, lighting_application l = a -> lighting_group l = g ->
    (s ← lighting_init l; pm_command [SLighting s]) =
      Ok (PointToMultipointPacket command_header (Some a) sals) -> sals = [SLighting l]) as Hs.
  { intros l Hla Hlg. rewrite (lighting_init_ok a), bind_Ok by (done || by rewrite Hlg).
    rewrite (pm_command_ok a) by (done || by repeat constructor). by intros [= <-]. }
  assert (forall new, lighting_application (new g a) = a -> lighting_group (new g a) = g ->
    (gs ← _normalize_group_addrs (OneGroup g); sals ← lighting_sals new a gs; pm_command sals) =
      Ok (PointToMultipointPacket command_header (Some a) sals) -> sals = [SLighting (new g a)]) as Hs1.
  { intros new Hla Hlg. unfold _normalize_group_addrs. cbn [length Nat.ltb Nat.leb].
    rewrite bind_Ok. unfold lighting_sals. cbn [mapM_result].
    rewrite (lighting_init_ok a), !bind_Ok by (done || by rewrite Hlg).
    rewrite (pm_command_ok a) by (done || by repeat constructor). by intros [= <-]. }
  intros E. exists t'. split; [done|]. cbn [action_command command_reports] in *.
  destruct on; [|by apply Hs1 in E as ->].
  destruct ((b =? 255) && (t =? 0)) eqn:Eb.
  - apply Hs1 in E as ->; [|done..]. apply andb_true_iff in Eb as [-> ->%Z.eqb_eq].
    by rewrite (ramp_read_exact 0 t') by (done || constructor).
  - apply (Hs (LightingRampSAL g a t b)) in E as ->; [|done..].
    assert ((b =? 255) && (t' =? 0) = false) as ->; [|cbn; by rewrite Et].
    destruct (Z.eqb_spec t' 0) as [->|]; [|apply andb_false_r].
    destruct Hr as (_ & [H0|] & _); [|done]. by replace t with 0 in Eb by lia.
Qed.

(** A payload on which the reading of the fields raises an exception that
    [_handle_message] does not catch. *)
Definition infinite (v : option json) : bool :=
  match v with Some (JFloat (Infinite _)) => true | _ => false end.

Definition fatal_payload (j : json) : bool :=
  match j with
  | JObject fields =>
      match field "state" fields with
      | None => false
      | Some (JString _) =>
          infinite (field "brightness" fields) ||
          (is_Ok (int_field "brightness" 255 fields) && infinite (field "transition" fields))
      | Some _ => true
      end
  | _ => false
  end.

Definition is_set_topic (topic : string) : bool :=
  String.prefix _LIGHT_TOPIC_PREFIX topic && str_endswith _TOPIC_SET_SUFFIX topic.

Lemma set_topic_is_set_topic g a : is_set_topic (set_topic g a) = true.
Proof.
  unfold is_set_topic, set_topic. rewrite str_prefix_app.
  rewrite <- str_app_assoc. apply str_endswith_app.
Qed.

Lemma int_field_outcome key d fields :
  match int_field key d fields with
  | Ok _ => infinite (field key fields) = false
  | Raise OverflowError => infinite (field key fields) = true
  | Raise e => e = ValueError /\ infinite (field key fields) = false
  end.
Proof. unfold int_field. destruct (field key fields) as [[| | |[]| | |]|]; done. Qed.

Lemma parse_command_outcome j :
  match parse_command j with
  | Ok _ | Raise KeyError | Raise ValueError | Raise TypeError => fatal_payload j = false
  | Raise _ => fatal_payload j = true
  end.
Proof.
  destruct j as [| | | |s|l|fields]; try done; cbn [parse_command fatal_payload].
  - by destruct (String.index 0 "state" s).
  - by destruct (existsb _ l).
  - destruct (field "state" fields) as [[| | | |st| |]|]; try done.
    pose proof (int_field_outcome "brightness" 255 fields) as Hb.
    pose proof (int_field_outcome "transition" 0 fields) as Ht.
    destruct (int_field "brightness" 255 fields) as [b|e];
      [|by destruct e; simpl in Hb; first [by rewrite Hb | destruct Hb as [He Hb]; by (rewrite Hb || discriminate He)]].
    rewrite bind_Ok, Hb. cbn [is_Ok orb andb].
    destruct (int_field "transition" 0 fields) as [t|e]; [done|].
    by destruct e; simpl in Ht; first [by rewrite Ht | destruct Ht as [He Ht]; by (rewrite Ht || discriminate He)].
Qed.

Lemma get_topic_raise topic e : get_topic_group_address topic = Raise e -> e = ValueError.
Proof.
  assert (forall s e, int_of_str s = Raise e -> e = ValueError) as Hint.
  { intros s e'. unfold int_of_str. repeat case_match; congruence. }
  unfold get_topic_group_address. destruct (negb _); [by intros [= <-]|].
  unfold split_address. destruct (str_split _ _) as [a1 [|a2 rest]]; intros H; follow_result;
    unfold check_ga, require in *; repeat case_match; simplify_eq; eauto.
Qed.

Lemma stopped_stays gw e : loop gw = LoopEnded -> loop (gateway_step gw e) = LoopEnded.
Proof.
  intros Hd.
  assert (forall f gw, loop (run_method f gw).1 = loop gw) as Hr.
  { intros f gw'. unfold run_method. by destruct (f (mq gw')). }
  assert (dispatcher gw = false) as Hdf by (unfold dispatcher; by rewrite Hd).
  destruct e as [es| | | | |r|topic loads| |now|a]; cbn [gateway_step]; try done.
  - clear Hdf. revert gw Hd. induction es as [|e es IH]; intros gw Hd; [done|]. cbn [on_events].
    assert (loop (on_event e gw).1 = loop gw) as He.
    { unfold on_event. destruct e; repeat case_match; try done; apply Hr. }
    rewrite Hd in He. destruct (on_event e gw) as [gw1 [u|x]]; [by apply IH|exact He].
  - unfold gw_connection_made. by destruct (mqtt_api gw).
  - unfold gw_connection_lost, gw_cleanup. repeat case_match; done.
  - unfold on_subscribed. by rewrite Hd.
  - unfold on_message. by rewrite Hdf.
  - unfold on_messages_failed. by rewrite Hdf.
  - by rewrite Hr.
Qed.

(** ** Properties *)

(** C19. The broker shows the last state of every light. Whatever events of the
    network, commands sent, messages, connections lost and handlers rebound the
    daemon sees after it entered the MQTT client, what the broker retains for a
    light, as a light and as a sensor, is exactly the last report of that light
    that a bound handler relayed or a command left, or nothing if there was none;
    and no state is ever published for a light before its discovery message and the
    subscription to its commands. *)
Theorem broker_shows_lights ls es :
  labels_ok (default DEFAULT_LABELS ls) -> Forall gateway_event_ok es ->
  let gw := gateway_run ls es in
  let s := foldl spec_step spec_init es in
  (forall g a, address_ok g -> address_ok a ->
     retained (calls (mq gw)) (state_topic g a) = state_payload <$> sp_lights s !! (g, a) /\
     retained (calls (mq gw)) (bin_sensor_state_topic g a) =
       sensor_payload <$> sp_lights s !! (g, a)) /\
  discovery_first (calls (mq gw)).
Proof.
  intros Hls Hes. by destruct (gateway_run_simulates ls es Hls Hes) as ((_ & Hf & _) & Hsh & _).
Qed.

Example broker_shows_lights_witness :
  let es := [NetworkEvents [OnLightingGroupOn (Some 5) 1 56]; NetworkLost;
             CommandSent (SwitchLight 1 56 true 128 4)] in
  let gw := gateway_run None es in
  let s := foldl spec_step spec_init es in
  (forall g a, address_ok g -> address_ok a ->
     retained (calls (mq gw)) (state_topic g a) = state_payload <$> sp_lights s !! (g, a) /\
     retained (calls (mq gw)) (bin_sensor_state_topic g a) =
       sensor_payload <$> sp_lights s !! (g, a)) /\
  discovery_first (calls (mq gw)).
Proof.
  apply (broker_shows_lights None [NetworkEvents [OnLightingGroupOn (Some 5) 1 56];
    NetworkLost; CommandSent (SwitchLight 1 56 true 128 4)]).
  - repeat constructor.
  - repeat constructor.
Defined.

(** C21. A message on the topic of a light becomes one command for that light.
    When the fields of the payload can be read as numbers, exactly one action is
    queued, with the brightness clamped to a byte and the transition to a
    non-negative time; its command is a valid packet, and what the daemon reports
    once it is sent is what the packet says. The interface reads it, whatever
    bookkeeping state it is prepared in, as the same order for the same light, with the
    transition that a ramp can take: the next of the sixteen times, or the longest.
    Report and order are the same when the transition is one of these. *)
Theorem message_switches_light g a fields st b t gw :
  byte_ok g -> byte_in a lighting_applications = true ->
  dispatcher gw = true -> running (throttler gw) = true -> queue_full (throttler gw) = false ->
  field "state" fields = Some (JString st) ->
  int_field "brightness" 255 fields = Ok b -> int_field "transition" 0 fields = Ok t ->
  let act t := SwitchLight g a (upper_is_on st) (Z.max 0 (Z.min 255 b)) t in
  let asked := Z.max 0 t in
  on_message (set_topic g a) (Ok (JObject fields)) gw =
    with_throttler gw (with_queue (throttler gw) (queue (throttler gw) ++ [act asked])) /\
  exists sals read taken,
    let p := PointToMultipointPacket command_header (Some a) sals in
    action_command (act asked) = Ok p /\
    flat_map event_reports (flat_map (sal_event None) sals) = command_reports (act asked) /\
    ramp_read asked taken /\ (asked ∈ ramp_times -> taken = asked) /\
    flat_map event_reports (flat_map (sal_event None) read) = command_reports (act taken) /\
    forall ct now confs rest, confirmations_inv confs ->
      exists confs' data code,
        _prepare_packet {| cmd := p; want_confirmation := true; basic_mode := false |}
          ct now confs = Ok (confs', data, Some code) /\
        decode_packet (data ++ rest) true true false =
          Ok (Some (DPacket (PointToMultipointPacket (received_header (Some [code]) command_header)
                               (Some a) read)), length data).
Proof.
  intros Hg Ha Hdisp Hrun Hfull Hst Hb Ht act asked. split.
  - unfold on_message, _handle_message. rewrite Hdisp. fold (is_set_topic (set_topic g a)).
    rewrite set_topic_is_set_topic. unfold set_topic, _TOPIC_SET_SUFFIX.
    assert (address_ok a) as Haddr.
    { apply byte_address. by apply (application_byte a LightingApplication), get_application_spec. }
    rewrite (topic_address g a "set") by done. cbn [negb parse_command].
    rewrite Hst, Hb, bind_Ok, Ht, bind_Ok. unfold enqueue. by rewrite Hrun, Hfull.
  - destruct (switch_packet g a (upper_is_on st) (Z.max 0 (Z.min 255 b)) asked Hg Ha)
      as (sals & Ep & Hv & Er); [unfold byte_ok; lia|].
    destruct (switch_packet_read g a (upper_is_on st) (Z.max 0 (Z.min 255 b)) asked sals)
      as (taken & Hr & Eread); [lia|done..|].
    exists sals, (map sal_on_wire sals), taken. split; [done|]. split; [done|].
    split; [done|]. split; [by apply ramp_read_exact|]. split; [done|].
    intros ct now confs rest Hi.
    destruct (prepared_is_received _ command_header false ct now confs rest true Hi Hv
      eq_refl eq_refl ltac:(done)) as (confs' & data & code & Hp & _ & _ & Hd).
    by exists confs', data, code.
Qed.

(** The daemon once its subscription has been answered. *)
Definition sample_gateway : gateway := gateway_run None [DispatcherSubscribed (Ok tt)].

(** A transition of five seconds is reported as such, and takes eight. *)
Example message_switches_light_witness :
  let act t := SwitchLight 7 56 (upper_is_on "on") (Z.max 0 (Z.min 255 300)) t in
  let payload := [("state", JString "on"); ("brightness", JInt 300);
                  ("transition", JFloat (Finite (11 # 2)))] in
  on_message (set_topic 7 56) (Ok (JObject payload)) sample_gateway =
    with_throttler sample_gateway (with_queue (throttler sample_gateway)
      (queue (throttler sample_gateway) ++ [act 5])) /\
  exists sals read,
    flat_map event_reports (flat_map (sal_event None) sals) = command_reports (act 5) /\
    flat_map event_reports (flat_map (sal_event None) read) = command_reports (act 8).
Proof.
  destruct (message_switches_light 7 56
    [("state", JString "on"); ("brightness", JInt 300);
     ("transition", JFloat (Finite (11 # 2)))] "on" 300 5 sample_gateway)
    as (Hm & sals & read & taken & _ & Hs & Hr & _ & Hread & _);
    [unfold byte_ok; lia|reflexivity..|].
  split; [exact Hm|]. exists sals, read. split; [exact Hs|].
  assert (taken = 8) as ->; [|exact Hread].
  destruct Hr as (Hin & [H5|E] & Hmin); change (Z.max 0 5) with 5 in *.
  - assert (taken <= 8) as H8 by (apply (Hmin 8); [apply (bool_decide_unpack _); exact I|lia]).
    apply list_elem_of_In in Hin. simpl in Hin. lia.
  - assert (taken <= 8) as H8 by (apply (Hmin 8); [apply (bool_decide_unpack _); exact I|lia]). lia.
Defined.

(** C34. One malformed message stops the daemon from obeying any other. The loop
    over the broker's messages ends exactly when a message on the topic of a
    light has a [state] that is not a text, or an infinite brightness or
    transition: these raise exceptions that are not caught. No later event makes
    it run again. *)
Theorem dispatcher_stops_iff topic loads gw :
  dispatcher gw = true ->
  let gw' := on_message topic loads gw in
  (dispatcher gw' = false <->
   is_set_topic topic = true /\ is_Ok (get_topic_group_address topic) = true /\
   exists j, loads = Ok j /\ fatal_payload j = true) /\
  (dispatcher gw' = false -> forall es, dispatcher (foldl gateway_step gw' es) = false).
Proof.
  intros Hd gw'. split.
  - unfold gw', on_message, _handle_message. rewrite Hd. fold (is_set_topic topic).
    unfold dispatcher in *. destruct (is_set_topic topic); cbn [negb]; [|simpl; rewrite Hd; naive_solver].
    destruct (get_topic_group_address topic) as [[g a]|e] eqn:Et;
      [|apply get_topic_raise in Et as ->; simpl; rewrite Hd; naive_solver].
    destruct loads as [j|e]; [|simpl; rewrite Hd; naive_solver].
    pose proof (parse_command_outcome j) as Hj.
    destruct (parse_command j) as [[[[on b] t]|]|e]; [simpl; rewrite Hd; naive_solver..|].
    destruct e; simpl; rewrite ?Hd; naive_solver.
  - intros Hd' es. assert (loop gw' = LoopEnded) as He.
    { revert Hd Hd'. unfold gw', on_message, dispatcher. destruct (loop gw) eqn:El; [done| |done].
      intros _. destruct (_handle_message topic loads gw) as [gw1 [r|e]] eqn:E; [|done].
      assert (loop gw1 = loop gw) as ->; [|by rewrite El].
      revert E. unfold _handle_message. repeat case_match; intros; simplify_eq; done. }
    clear -He. revert He. generalize gw'. clear gw'. induction es as [|e es IH]; intros gw' He;
      [cbn; unfold dispatcher; by rewrite He|]. by apply IH, stopped_stays.
Qed.

Example dispatcher_stops_iff_witness :
  let gw := sample_gateway in
  let bad := Ok (JObject [("state", JInt 1)]) in
  let gw' := on_message (set_topic 7 56) bad gw in
  (dispatcher gw' = false <->
   is_set_topic (set_topic 7 56) = true /\
   is_Ok (get_topic_group_address (set_topic 7 56)) = true /\
   exists j, bad = Ok j /\ fatal_payload j = true) /\
  (dispatcher gw' = false -> forall es, dispatcher (foldl gateway_step gw' es) = false).
Proof.
  apply (dispatcher_stops_iff (set_topic 7 56) (Ok (JObject [("state", JInt 1)]))
    sample_gateway). reflexivity.
Defined.

(** *** Labels and reconnections *)

(** The label of group 1, published at the start and again after a connection
    was lost and a new handler bound: the second discovery message has the
    default name. *)
Example label_forgotten :
  let ls : labels := [(56, ("Lighting", [(1, "Kitchen")]))] in
  retained (calls (mq (gateway_run (Some ls) []))) (conf_topic 1 56) =
    Some (PJson (light_conf "Kitchen" 1 56)) /\
  retained (calls (mq (gateway_run (Some ls)
    [NetworkLost; HandlerCreated; NetworkConnected; HandlerRebound;
     NetworkEvents [OnLightingGroupOn (Some 5) 1 56]]))) (conf_topic 1 56) =
    Some (PJson (light_conf "C-Bus Light 001" 1 56)).
Proof. split; vm_compute; reflexivity. Qed.

(** The handler that replaces a lost one asks for no status: it connects before
    it is bound. *)
Example no_status_after_reconnection :
  let queued gw := length (queue (throttler gw)) in
  queued (gateway_run None []) = 384%nat /\
  queued (gateway_run None [NetworkLost; HandlerCreated; NetworkConnected; HandlerRebound])
    = 384%nat.
Proof. split; vm_compute; reflexivity. Qed.
