(* ===== verification/Emulator.v ===== *)
(** * The emulated bridge: [cbus/esp32/emulator/device.py]

    [ESP32Emulator]: units with their attributes, the levels of the groups, and
    the commands of a client as a line protocol. One function handles what one
    read of a connection delivers; its writes are in order. The delay before a
    command, during which other connections may run, changes nothing it reads;
    the log of commands, which only tests look at, is left out. *)

From S2P Require Import Prelude Text Common Hex Report Cal.
From Stdlib Require Import String Ascii.
From stdpp Require Import gmap options.

Local Open Scope list_scope.
Local Open Scope Z_scope.

(** ** Text and bytes *)

(** [b.ljust(n, fill)] *)
Definition ljust (n : nat) (fill : Z) (b : bytes) : bytes :=
  b ++ replicate (n - length b) fill.

(** [bytes.fromhex(data.decode('ascii'))] *)
Definition fromhex_ascii (data : bytes) : result bytes :=
  if forallb (fun c => c <? 128) data then fromhex data else Raise UnicodeError.

(** ** Units *)

(** Texts are lists of code points. *)
Record EmulatedUnit := {
  address : Z;
  type_name : list Z;
  firmware_short : list Z;
  firmware_extended : list Z;
  serial_number : bytes;
  manufacturer_code : bytes;
  installed_apps : list Z;
  terminal_levels : bytes;
  parameter_area : Z;
  gav_zone_data : bytes;
  group_address_table : bytes;
  output_summary : bytes;
  gav_store : bytes
}.

(** [s.encode('ascii').ljust(n, fill)[:n]] *)
Definition padded_text (n : nat) (fill : Z) (s : list Z) : result bytes :=
  b ← encode_ascii s; Ok (take n (ljust n fill b)).

Definition some {A} (r : result A) : result (option A) := a ← r; Ok (Some a).

Definition get_attribute (u : EmulatedUnit) (attr : Z) : result (option bytes) :=
  match @enum_call DeviceAttribute.t _ attr with
  | Raise _ => Ok None
  | Ok DeviceAttribute.TYPE_NAME => some (padded_text 8 32 (type_name u))
  | Ok DeviceAttribute.FIRMWARE_VERSION => some (padded_text 8 32 (firmware_short u))
  | Ok DeviceAttribute.SERIAL_NUMBER => Ok (Some (ljust 12 0 (take 12 (serial_number u))))
  | Ok DeviceAttribute.TERMINAL_LEVELS => Ok (Some (take 4 (terminal_levels u)))
  | Ok DeviceAttribute.GAV_ZONE_DATA => Ok (Some (take 12 (gav_zone_data u)))
  | Ok DeviceAttribute.OUTPUT_SUMMARY => Ok (Some (take 6 (output_summary u)))
  | Ok DeviceAttribute.GAV_STORE => Ok (Some (take 6 (gav_store u)))
  | Ok DeviceAttribute.GROUP_ADDRESS_TABLE => Ok (Some (take 12 (group_address_table u)))
  | Ok DeviceAttribute.PARAMETER_AREA => some (mk_bytes [parameter_area u])
  | Ok DeviceAttribute.TYPE_IDENTIFICATION =>
      t ← padded_text 8 32 (type_name u); Ok (Some (take 4 (manufacturer_code u) ++ t))
  | Ok DeviceAttribute.INSTALLED_APPS =>
      apps ← mk_bytes (installed_apps u); Ok (Some (take 44 (ljust 44 0xff apps)))
  | Ok DeviceAttribute.FIRMWARE_EXTENDED => some (padded_text 9 0 (firmware_extended u))
  | Ok DeviceAttribute.INSTALLED_APPS_SHORT => some (mk_bytes [len (installed_apps u)])
  | Ok DeviceAttribute.IDENTIFY_BLOCK => Ok (Some (replicate 12 0))
  | Ok DeviceAttribute.DSI_STATUS => Ok (Some [0])
  | Ok DeviceAttribute.NETWORK_TERMINAL_LEVELS => Ok (Some (replicate 4 0))
  end.

(** ** State *)

Record emulator := { group_levels : list Z; units : gmap Z EmulatedUnit }.

(** [GroupState] and the emulator's own unit address. *)
Definition CNI_UNIT_ADDRESS : Z := 0x10.

Definition hexbytes (s : string) : bytes := match fromhex (txt s) with Ok b => b | Raise _ => [] end.

(** The defaults of the dataclass. *)
Definition unit_defaults (a : Z) (name : string) : EmulatedUnit :=
  {| address := a; type_name := txt name; firmware_short := txt "2.5.00  ";
     firmware_extended := txt "01.05.00";
     serial_number := hexbytes "FFFFFF000000000000000001";
     manufacturer_code := hexbytes "00000000"; installed_apps := [0x38];
     terminal_levels := hexbytes "00000000"; parameter_area := 0x40;
     gav_zone_data := replicate 12 0; group_address_table := replicate 12 0xff;
     output_summary := replicate 6 0; gav_store := replicate 6 0 |}.

Definition make_unit (a : Z) (name short extended serial code levels : string)
    (apps : list Z) : EmulatedUnit :=
  {| address := a; type_name := txt name; firmware_short := txt short;
     firmware_extended := txt extended; serial_number := hexbytes serial;
     manufacturer_code := hexbytes code; installed_apps := apps;
     terminal_levels := hexbytes levels; parameter_area := 0x40;
     gav_zone_data := gav_zone_data (unit_defaults a name);
     group_address_table := group_address_table (unit_defaults a name);
     output_summary := output_summary (unit_defaults a name);
     gav_store := gav_store (unit_defaults a name) |}.

(** The dimmer of the default network. *)
Definition unit_3 : EmulatedUnit :=
  make_unit 3 "DIMDN8  " "2.7.00  " "01.07.00" "FFFFFF000018A664A3B20002"
    "18A664A3" "00000000" [0x38].

Definition _make_default_units : gmap Z EmulatedUnit :=
  <[1 := make_unit 1 "RELDN12 " "2.7.00  " "01.07.00" "FFFFFF000018A664A3B10001"
           "18A664A3" "00000000" [0x38]]>
  (<[3 := unit_3]>
  (<[5 := make_unit 5 "KEYGL5  " "5.5.00  " "01.05.00" "FFFFFF000018B3F682A40001"
            "18B3F682" "800000FF" [0x38; 0x19; 0x1b; 0x18; 0x21]]>
  (<[CNI_UNIT_ADDRESS := make_unit CNI_UNIT_ADDRESS "PC_CNIED" "5.5.00  " "01.05.00"
            "FFFFFF000018B3F682000001" "18B3F682" "00000000" [0x38; 0xff]]> ∅))).

(** [ESP32Emulator.__init__] *)
Definition emulator_init (num_groups : nat) : emulator :=
  {| group_levels := replicate num_groups 0; units := _make_default_units |}.

(** [EmulatedGroup.level] *)
Definition clamp_level (value : Z) : Z := Z.max 0 (Z.min 255 value).

Definition get_group_level (group_id : Z) (em : emulator) : Z :=
  if (0 <=? group_id) && (group_id <? len (group_levels em))
  then default 0 (group_levels em !! Z.to_nat group_id) else 0.

Definition set_group_level (group_id level : Z) (em : emulator) : emulator :=
  if (0 <=? group_id) && (group_id <? len (group_levels em))
  then {| group_levels := <[Z.to_nat group_id := clamp_level level]> (group_levels em);
          units := units em |}
  else em.

(** ** Replies *)

Definition hex_line (raw : bytes) : bytes := b16encode raw ++ END_RESPONSE.

Definition _build_reply_cal (param : Z) (data : bytes) : result bytes :=
  r ← reply_encode param data; Ok (hex_line (add_cbus_checksum r)).

Definition _build_pp_reply (source_unit param : Z) (data : bytes) : result bytes :=
  pp_header ← mk_bytes [0x86; source_unit; CNI_UNIT_ADDRESS; 0x00];
  r ← reply_encode param data;
  Ok (hex_line (add_cbus_checksum (pp_header ++ r))).

(** [writer.write(conf_code + b".\r\n")], if there is a code. *)
Definition confirm_line (conf_code : option bytes) : list bytes :=
  match conf_code with
  | Some c => [c ++ [46] ++ END_RESPONSE]
  | None => []
  end.

(** The bits of group [gid] in its byte. *)
Definition group_bits (em : emulator) (gid : Z) : Z :=
  value (if gid <? len (group_levels em)
         then if 0 <? get_group_level gid em then GroupState.ON else GroupState.OFF
         else GroupState.MISSING).

Definition status_byte (em : emulator) (first : Z) : Z :=
  foldl (fun b pair => Z.lor b (Z.shiftl (Z.land (group_bits em (first + pair)) 0x03) (6 - pair * 2)))
    0 [0; 1; 2; 3].

Definition _send_binary_status (app_id block_start : Z) (em : emulator) : result bytes :=
  let state_bytes := map (fun i => status_byte em (block_start + i * 4)) (seqZ 0 22) in
  let cal_len := len state_bytes + 3 in
  raw ← mk_bytes [0x86; CNI_UNIT_ADDRESS; CNI_UNIT_ADDRESS; 0x00;
                  Z.lor 0xe0 (Z.land cal_len 0x1f); 0x40; app_id; block_start];
  Ok (hex_line (add_cbus_checksum (raw ++ state_bytes))).

(** ** Commands *)

(** What a handler wrote, and how it ended. *)
Abbreviation output := (list bytes * result unit)%type.

(** A write of a reply that may fail to be built, then more. *)
Definition write_reply (r : result bytes) (k : output) : output :=
  match r with
  | Raise e => ([], Raise e)
  | Ok line => let '(ws, res) := k in (line :: ws, res)
  end.

(** The reply with an attribute, if the unit has it. *)
Definition attribute_reply (build : bytes -> result bytes) (attr : result (option bytes))
    (k : output) : output :=
  match attr with
  | Raise e => ([], Raise e)
  | Ok None => k
  | Ok (Some data) => write_reply (build data) k
  end.

Definition _handle_dm_cal (data : bytes) (conf_code : option bytes) (em : emulator) : output :=
  match fromhex_ascii data with
  | Raise _ | Ok [] => ([], Ok tt)
  | Ok (cmd :: args) =>
      let confirm := (confirm_line conf_code, Ok tt) in
      let cni := units em !! CNI_UNIT_ADDRESS in
      if (cmd =? value CAL.IDENTIFY) && (1 <=? length args)%nat then
        match cni, args with
        | Some u, attr :: _ =>
            attribute_reply (_build_reply_cal attr) (get_attribute u attr) confirm
        | _, _ => confirm
        end
      else if (cmd =? value CAL.RECALL) && (2 <=? length args)%nat then
        match cni, args with
        | Some u, attr :: count :: _ =>
            attribute_reply (fun d => _build_reply_cal attr (take (Z.to_nat count) d))
              (get_attribute u attr) confirm
        | _, _ => confirm
        end
      else confirm
  end.

(** The chained CALs of a point to point command. *)
Fixpoint pp_cals (unit_addr : Z) (u : EmulatedUnit) (cal_data : bytes) : output :=
  match cal_data with
  | [] => ([], Ok tt)
  | cmd :: rest =>
      if cmd =? value CAL.IDENTIFY then
        match rest with
        | attr :: rest =>
            attribute_reply (_build_pp_reply unit_addr attr) (get_attribute u attr)
              (pp_cals unit_addr u rest)
        | [] => ([], Ok tt)
        end
      else if cmd =? value CAL.RECALL then
        match rest with
        | attr :: count :: rest =>
            attribute_reply (fun d => _build_pp_reply unit_addr attr (take (Z.to_nat count) d))
              (get_attribute u attr) (pp_cals unit_addr u rest)
        | _ => ([], Ok tt)
        end
      else ([], Ok tt)
  end.

Definition _handle_pp_command (data : bytes) (conf_code : option bytes) (em : emulator)
    : output :=
  match data with
  | unit_addr :: _ :: _ :: _ =>
      match units em !! unit_addr with
      | Some u =>
          let '(ws, r) := pp_cals unit_addr u (drop 2 data) in
          (confirm_line conf_code ++ ws, r)
      | None => (confirm_line conf_code, Ok tt)
      end
  | _ => (confirm_line conf_code, Ok tt)
  end.

Definition _handle_lighting (packet_bytes : bytes) (em : emulator) : emulator :=
  let cmd_type := default 0 (packet_bytes !! 3%nat) in
  let group_addr := default 0 (packet_bytes !! 4%nat) in
  if cmd_type =? 0x79 then set_group_level group_addr 255 em
  else if cmd_type =? 0x01 then set_group_level group_addr 0 em
  else if cmd_type =? 0x09 then em
  else if (0x02 <=? cmd_type) && (cmd_type <=? 0x7a) then
    set_group_level group_addr (default 255 (packet_bytes !! 5%nat)) em
  else em.

(** The codes of the emulator, in its own order. *)
Definition EMULATOR_CODES : bytes := txt "hijklmnopqrstuvwxyzg".

(** The code at the end of a command, and what is before it. *)
Definition split_conf (payload : bytes) : option bytes * bytes :=
  match last payload with
  | Some c => if byte_in c EMULATOR_CODES then (Some [c], but_last payload) else (None, payload)
  | None => (None, payload)
  end.

(** What the bytes of a command do. *)
Definition run_command (conf_code : option bytes) (packet_bytes : bytes) (em : emulator)
    : emulator * output :=
  let confirm := (confirm_line conf_code, Ok tt) in
  match packet_bytes with
  | dest_type :: _ :: _ =>
      if dest_type =? 0x46 then
        let '(ws, r) := _handle_pp_command (drop 1 packet_bytes) conf_code em in
        match r with
        | Ok _ => (em, (ws, Ok tt))
        | Raise _ => (em, (ws ++ confirm_line conf_code, Ok tt))
        end
      else if (4 <=? length packet_bytes)%nat && (dest_type =? 0x05) then
        let app_id := default 0 (packet_bytes !! 1%nat) in
        if app_id =? 0x38 then (_handle_lighting packet_bytes em, confirm)
        else if (app_id =? 0xff) && (5 <=? length packet_bytes)%nat then
          (em, write_reply
                 (_send_binary_status (default 0 (packet_bytes !! 3%nat))
                    (default 0 (packet_bytes !! 4%nat)) em) confirm)
        else (em, confirm)
      else (em, confirm)
  | _ => (em, confirm)
  end.

(** A command that starts with a backslash: text that is not hexadecimal stands
    for itself. *)
Definition handle_command (payload : bytes) (em : emulator) : emulator * output :=
  let '(conf_code, payload) := split_conf payload in
  run_command conf_code
    (match fromhex_ascii payload with Ok b => b | Raise _ => payload end) em.

(** One line of a client. *)
Definition handle_line (cmd_bytes : bytes) (em : emulator) : emulator * output :=
  if bool_decide (cmd_bytes ∈ [[]; txt "~~~"; txt "~"; txt "null"; txt "|"; txt "||"])
  then (em, ([], Ok tt))
  else if startswith (txt "@") cmd_bytes then (em, _handle_dm_cal (drop 1 cmd_bytes) None em)
  else if startswith (txt "A3") cmd_bytes then (em, ([txt "g." ++ END_RESPONSE], Ok tt))
  else if startswith [92] cmd_bytes then handle_command (drop 1 cmd_bytes) em
  else
    let '(conf_code, bare) := split_conf cmd_bytes in
    match fromhex_ascii bare with
    | Raise _ => (em, ([], Ok tt))
    | Ok _ =>
        match bare with
        | [] => (em, ([], Ok tt))
        | _ :: _ => (em, _handle_dm_cal bare conf_code em)
        end
    end.

(** Where a line ends, and where the next one starts. *)
Definition line_end (buf : bytes) : option (nat * nat) :=
  cr_pos ← find_sub [13] buf;
  Some (cr_pos, if startswith [13; 10] (drop cr_pos buf) then (cr_pos + 2)%nat
                else (cr_pos + 1)%nat).

(** [_process_buffer]: the lines of a buffer, each at least a byte long. *)
Fixpoint emulator_lines (fuel : nat) (buf : bytes) (em : emulator)
    : bytes * emulator * output :=
  match fuel with
  | O => (buf, em, ([], Ok tt))
  | S fuel =>
      match line_end buf with
      | None => (buf, em, ([], Ok tt))
      | Some (e, next) =>
          match handle_line (take e buf) em with
          | (em, (ws, Raise x)) => (drop next buf, em, (ws, Raise x))
          | (em, (ws, Ok _)) =>
              let '(buf, em, (ws', r)) := emulator_lines fuel (drop next buf) em in
              (buf, em, (ws ++ ws', r))
          end
      end
  end.

Definition emulator_process (buf : bytes) (em : emulator) : bytes * emulator * output :=
  emulator_lines (length buf) buf em.

(** ** Lemmas *)

Lemma fromhex_ascii_b16encode b : bytes_ok b -> fromhex_ascii (b16encode b) = Ok b.
Proof.
  intros Hb. unfold fromhex_ascii.
  assert (forallb (fun c => c <? 128) (b16encode b) = true) as ->; [|by apply fromhex_b16encode].
  rewrite forallb_forall. intros c Hc%list_elem_of_In. apply (b16encode_elem b c Hb) in Hc. lia.
Qed.

(** The two sides use the same codes. *)
Lemma emulator_codes k : k ∈ CONFIRMATION_CODES -> byte_in k EMULATOR_CODES = true.
Proof.
  intros Hk. assert (forallb (fun k => byte_in k EMULATOR_CODES) CONFIRMATION_CODES = true) as H
    by reflexivity.
  rewrite forallb_forall in H. by apply H, list_elem_of_In.
Qed.

(** A command with a code, as a client sends it. *)
Lemma emulator_command body k em :
  bytes_ok body -> k ∈ CONFIRMATION_CODES ->
  emulator_process ([92] ++ b16encode body ++ [k] ++ END_COMMAND) em =
    let '(em', (ws, r)) := run_command (Some [k]) body em in ([], em', (ws, r)).
Proof.
  intros Hb Hk. set (line := [92] ++ b16encode body ++ [k]).
  assert ([92] ++ b16encode body ++ [k] ++ END_COMMAND = line ++ [13]) as ->.
  { unfold line. by rewrite <- !app_assoc. }
  assert (13 ∉ line) as H13.
  { unfold line. rewrite !elem_of_app, !list_elem_of_singleton. intros [?|[H|<-]]; [lia| |].
    - apply b16encode_elem in H; [lia|done].
    - apply byte_in_spec in Hk. discriminate Hk. }
  assert (line_end (line ++ [13]) = Some (length line, (length line + 1)%nat)) as He.
  { unfold line_end. change [13] with (13 :: []). rewrite find_sub_end1 by done. cbn [mbind option_bind].
    by rewrite drop_app_length. }
  assert (handle_line line em = run_command (Some [k]) body em) as Hl.
  { unfold handle_line, handle_command, split_conf. rewrite bool_decide_eq_false_2; last first.
    { unfold line. cbn [app]. rewrite !elem_of_cons, elem_of_nil. naive_solver. }
    change (startswith (txt "@") line) with false. change (startswith (txt "A3") line) with false.
    change (startswith [92] line) with true. cbn iota.
    change (drop 1 line) with (b16encode body ++ [k]).
    rewrite last_snoc, emulator_codes, but_last_snoc, fromhex_ascii_b16encode by done. done. }
  unfold emulator_process. rewrite length_app. cbn [length]. rewrite Nat.add_1_r.
  cbn [emulator_lines]. rewrite He, take_app_length, Hl.
  replace (length line + 1)%nat with (length (line ++ [13])) by by rewrite length_app.
  rewrite drop_all. destruct (run_command (Some [k]) body em) as [em' [ws [[]|x]]]; [|done].
  assert (forall n, emulator_lines n [] em' = ([], em', ([], Ok tt))) as -> by by intros [].
  by rewrite app_nil_r.
Qed.
