(* ===== verification/Interrogator.v ===== *)
(** * The interrogator: [cbus/protocol/interrogator.py]

    [UnitInterrogator] asks a unit for its attributes, one command at a time, and
    waits for the reply to each. What its connection delivers is a sequence of
    events; [Emulator] is the interface its theorem runs it against. *)

From S2P Require Import Prelude Text Common Hex Report Cal Application Packet Decode PyDict Emulator.
From stdpp Require Import gmap options.

Local Open Scope Z_scope.

(** ** Definitions *)

(** [UnitInfo]; texts are code points. *)
Record UnitInfo := {
  i_address : Z;
  i_type_name : list Z;
  i_firmware_version : list Z;
  i_firmware_extended : list Z;
  i_serial_number : bytes;
  i_installed_apps : list Z;
  i_terminal_levels : bytes;
  i_parameter_area : Z;
  i_gav_zone_data : bytes;
  i_group_address_table : bytes;
  i_output_summary : bytes;
  i_gav_store : bytes;
  i_raw_attributes : list (Z * bytes) (* the dict's items, in order *)
}.

Definition named_unit (unit_address : Z) (name : list Z) : UnitInfo :=
  {| i_address := unit_address; i_type_name := name; i_firmware_version := [];
     i_firmware_extended := []; i_serial_number := []; i_installed_apps := [];
     i_terminal_levels := []; i_parameter_area := 0; i_gav_zone_data := [];
     i_group_address_table := []; i_output_summary := []; i_gav_store := [];
     i_raw_attributes := [] |}.

Definition unit_info (unit_address : Z) : UnitInfo := named_unit unit_address [].

(** [unique_id]: six bytes of the serial number, in hexadecimal. *)
Definition unique_id (info : UnitInfo) : bytes :=
  if (9 <=? length (i_serial_number info))%nat
  then b16encode (slice 3 9 (i_serial_number info)) else [].

Definition _INTERROGATION_ATTRS : list (CAL.t * DeviceAttribute.t) :=
  [(CAL.IDENTIFY, DeviceAttribute.TYPE_NAME);
   (CAL.IDENTIFY, DeviceAttribute.FIRMWARE_VERSION);
   (CAL.IDENTIFY, DeviceAttribute.SERIAL_NUMBER);
   (CAL.RECALL, DeviceAttribute.TERMINAL_LEVELS);
   (CAL.RECALL, DeviceAttribute.PARAMETER_AREA);
   (CAL.RECALL, DeviceAttribute.INSTALLED_APPS);
   (CAL.RECALL, DeviceAttribute.FIRMWARE_EXTENDED);
   (CAL.RECALL, DeviceAttribute.GAV_ZONE_DATA);
   (CAL.RECALL, DeviceAttribute.GROUP_ADDRESS_TABLE);
   (CAL.RECALL, DeviceAttribute.OUTPUT_SUMMARY);
   (CAL.RECALL, DeviceAttribute.GAV_STORE)].

(** [_RECALL_COUNTS.get(attr, 12)] *)
Definition recall_count (attr : DeviceAttribute.t) : Z :=
  match attr with
  | DeviceAttribute.TERMINAL_LEVELS => 4
  | DeviceAttribute.PARAMETER_AREA => 1
  | DeviceAttribute.INSTALLED_APPS => 44
  | DeviceAttribute.FIRMWARE_EXTENDED => 9
  | DeviceAttribute.GAV_ZONE_DATA => 12
  | DeviceAttribute.GROUP_ADDRESS_TABLE => 12
  | DeviceAttribute.OUTPUT_SUMMARY => 6
  | DeviceAttribute.GAV_STORE => 6
  | _ => 12
  end.

(** [d.decode('ascii', errors='replace')] *)
Definition decode_ascii_replace (d : bytes) : list Z :=
  map (fun b => if b <? 128 then b else 0xfffd) d.

(** [d.rstrip(b'\x00')] *)
Fixpoint rstrip_zeros (d : bytes) : bytes :=
  match d with
  | [] => []
  | b :: d =>
      match rstrip_zeros d with
      | [] => if b =? 0 then [] else [b]
      | d => b :: d
      end
  end.

(** Assignments to the fields of [UnitInfo], by attribute. *)
Definition _apply_attribute (info : UnitInfo) (attr : DeviceAttribute.t) (data : bytes)
    : UnitInfo :=
  let set name version extended serial apps levels area zone table summary store :=
    {| i_address := i_address info; i_type_name := name; i_firmware_version := version;
       i_firmware_extended := extended; i_serial_number := serial; i_installed_apps := apps;
       i_terminal_levels := levels; i_parameter_area := area; i_gav_zone_data := zone;
       i_group_address_table := table; i_output_summary := summary; i_gav_store := store;
       i_raw_attributes := i_raw_attributes info |} in
  let '(Build_UnitInfo _ name version extended serial apps levels area zone table summary
          store _) := info in
  match attr with
  | DeviceAttribute.TYPE_NAME =>
      set (decode_ascii_replace data) version extended serial apps levels area zone table
        summary store
  | DeviceAttribute.FIRMWARE_VERSION =>
      set name (decode_ascii_replace data) extended serial apps levels area zone table
        summary store
  | DeviceAttribute.SERIAL_NUMBER =>
      set name version extended data apps levels area zone table summary store
  | DeviceAttribute.TERMINAL_LEVELS =>
      set name version extended serial apps data area zone table summary store
  | DeviceAttribute.PARAMETER_AREA =>
      set name version extended serial apps levels (default 0 (head data)) zone table
        summary store
  | DeviceAttribute.INSTALLED_APPS =>
      set name version extended serial (List.filter (fun b => negb (b =? 0xff)) data) levels
        area zone table summary store
  | DeviceAttribute.FIRMWARE_EXTENDED =>
      set name version (decode_ascii_replace (rstrip_zeros data)) serial apps levels area
        zone table summary store
  | DeviceAttribute.GAV_ZONE_DATA =>
      set name version extended serial apps levels area data table summary store
  | DeviceAttribute.GROUP_ADDRESS_TABLE =>
      set name version extended serial apps levels area zone data summary store
  | DeviceAttribute.OUTPUT_SUMMARY =>
      set name version extended serial apps levels area zone table data store
  | DeviceAttribute.GAV_STORE =>
      set name version extended serial apps levels area zone table summary data
  | _ => info
  end.

(** [info.raw_attributes[attr] = data] *)
Definition set_raw (info : UnitInfo) (attr : Z) (data : bytes) : UnitInfo :=
  {| i_address := i_address info; i_type_name := i_type_name info;
     i_firmware_version := i_firmware_version info;
     i_firmware_extended := i_firmware_extended info;
     i_serial_number := i_serial_number info; i_installed_apps := i_installed_apps info;
     i_terminal_levels := i_terminal_levels info; i_parameter_area := i_parameter_area info;
     i_gav_zone_data := i_gav_zone_data info;
     i_group_address_table := i_group_address_table info;
     i_output_summary := i_output_summary info; i_gav_store := i_gav_store info;
     i_raw_attributes := dict_set (i_raw_attributes info) attr data |}.

(** [_next_conf]: the code of the [idx]-th command. *)
Definition _next_conf (idx : nat) : Z :=
  default 0 (CONFIRMATION_CODES !! (idx mod length CONFIRMATION_CODES)%nat).

(** [_pp_identify] and [_pp_recall]: what is written. *)
Definition attribute_command (idx : nat) (unit : Z) (q : CAL.t * DeviceAttribute.t)
    : result bytes :=
  let '(cal_cmd, attr) := q in
  cmd ← mk_bytes ([0x46; unit; 0x00; value cal_cmd; value attr] ++
                  match cal_cmd with CAL.RECALL => [recall_count attr] | _ => [] end);
  Ok ([92] ++ b16encode cmd ++ [_next_conf idx] ++ END_COMMAND).

(** What [reader.read] gives: bytes, the end of the stream, or nothing in time;
    [Failed] is a [ConnectionError], which the callers treat like a timeout. *)
Inductive read_event := Chunk (data : bytes) | Eof | TimedOut | Failed.

(** [for cal in pkt: if isinstance(cal, ReplyCAL): return cal.data] *)
Fixpoint first_reply (cals : list AnyCAL) : option bytes :=
  match cals with
  | [] => None
  | ReplyCAL _ data :: _ => Some data
  | _ :: cals => first_reply cals
  end.

(** One line: a confirmation, or a packet. A packet that is not a sequence, or
    not of CALs, gives no reply; an exception is dropped. *)
Definition line_reply (line : bytes) : option bytes :=
  if (length line =? 2)%nat && startswith [46] (drop 1 line) then None
  else
    match decode_packet (line ++ END_RESPONSE) true false true with
    | Ok (Some (DPacket (PointToPointPacket _ _ _ _ cals)), _) => first_reply cals
    | _ => None
    end.

(** [while END_RESPONSE in buf]: the first reply, and the rest of the buffer. *)
Fixpoint scan_fuel (fuel : nat) (buf : bytes) : option bytes * bytes :=
  match fuel with
  | O => (None, buf)
  | S fuel =>
      match find_sub END_RESPONSE buf with
      | None => (None, buf)
      | Some e =>
          match line_reply (take e buf) with
          | Some data => (Some data, drop (e + 2) buf)
          | None => scan_fuel fuel (drop (e + 2) buf)
          end
      end
  end.

(** A line takes at least the two bytes of its end. *)
Definition scan (buf : bytes) : option bytes * bytes := scan_fuel (length buf) buf.

(** [_read_reply]: the data, and the events that are left. What is left in the
    buffer is dropped. *)
Fixpoint _read_reply (buf : bytes) (events : list read_event)
    : option bytes * list read_event :=
  match events with
  | [] => (None, [])
  | Eof :: events | TimedOut :: events | Failed :: events | Chunk [] :: events =>
      (None, events)
  | Chunk chunk :: events =>
      match scan (buf ++ chunk) with
      | (Some data, _) => (Some data, events)
      | (None, buf) => _read_reply buf events
      end
  end.

(** What a reply to a question teaches. *)
Definition learn (info : UnitInfo) (q : CAL.t * DeviceAttribute.t) (data : bytes) : UnitInfo :=
  _apply_attribute (set_raw info (value q.2) data) q.2 data.

(** The loop of [interrogate]: what was learnt and what is left to read. *)
Fixpoint interrogate_loop (unit_address : Z) (qs : list (CAL.t * DeviceAttribute.t))
    (idx : nat) (events : list read_event) (info : UnitInfo)
    : result (UnitInfo * list read_event) :=
  match qs with
  | [] => Ok (info, events)
  | q :: qs =>
      _ ← attribute_command idx unit_address q;
      let '(data, events) := _read_reply [] events in
      let info :=
        match data with
        | Some data => learn info q data
        | None => info
        end in
      interrogate_loop unit_address qs (S idx) events info
  end.

Definition interrogate (unit_address : Z) (idx : nat) (events : list read_event)
    : result (UnitInfo * list read_event) :=
  interrogate_loop unit_address _INTERROGATION_ATTRS idx events (unit_info unit_address).

(** [s.strip()] of decoded bytes: blanks and the separators 28 to 31. *)
Definition strip_text (s : list Z) : list Z :=
  let is_space c := is_blank c || ((28 <=? c) && (c <=? 31)) in
  let fix lstrip s := match s with c :: s' => if is_space c then lstrip s' else s | [] => [] end in
  rev (lstrip (rev (lstrip s))).

(** One address of [discover_units]. *)
Definition discovered_unit (addr : Z) (data : option bytes) : list UnitInfo :=
  match data with
  | Some data =>
      if forallb (Z.eqb 0) data then []
      else
        match strip_text (decode_ascii_replace data) with
        | [] => []
        | name => [named_unit addr name]
        end
  | None => []
  end.

Fixpoint discover_loop (addrs : list Z) (idx : nat) (events : list read_event)
    : result (list UnitInfo) :=
  match addrs with
  | [] => Ok []
  | addr :: addrs =>
      _ ← attribute_command idx addr (CAL.IDENTIFY, DeviceAttribute.TYPE_NAME);
      let '(data, events) := _read_reply [] events in
      units ← discover_loop addrs (S idx) events;
      Ok (discovered_unit addr data ++ units)
  end.

Definition discover_units (max_address : Z) (idx : nat) (events : list read_event)
    : result (list UnitInfo) :=
  discover_loop (seqZ 0 (max_address + 1)) idx events.

(** ** Lemmas: reading *)

Lemma scan_enough n m buf :
  (length buf <= n)%nat -> (length buf <= m)%nat -> scan_fuel n buf = scan_fuel m buf.
Proof.
  revert m buf. induction n as [|n IH]; intros [|m] buf Hn Hm; cbn [scan_fuel]; [done| | |].
  1, 2: destruct buf; [done|simpl in *; lia].
  destruct (find_sub END_RESPONSE buf) as [e|] eqn:E; [|done].
  destruct (line_reply (take e buf)); [done|].
  apply find_sub_Some in E as [_ He]. change (length END_RESPONSE) with 2%nat in He.
  apply IH; rewrite length_drop; lia.
Qed.

(** One line of the buffer. *)
Lemma scan_line buf e :
  find_sub END_RESPONSE buf = Some e ->
  scan buf = match line_reply (take e buf) with
             | Some data => (Some data, drop (e + 2) buf)
             | None => scan (drop (e + 2) buf)
             end.
Proof.
  intros E. pose proof E as E'. apply find_sub_Some in E' as [_ He].
  change (length END_RESPONSE) with 2%nat in He.
  unfold scan at 1. destruct buf as [|x buf]; [simpl in He; lia|]. cbn [length scan_fuel].
  rewrite E. destruct (line_reply _); [done|].
  apply scan_enough; rewrite length_drop; simpl in *; lia.
Qed.

Lemma scan_wait buf : find_sub END_RESPONSE buf = None -> scan buf = (None, buf).
Proof.
  intros E. unfold scan. destruct buf as [|x buf]; [done|]. cbn [length scan_fuel]. by rewrite E.
Qed.

(** Bytes that arrive later may as well have been there. *)
Lemma scan_app buf more :
  match scan buf with
  | (Some data, rest) => scan (buf ++ more) = (Some data, rest ++ more)
  | (None, rest) => scan (buf ++ more) = scan (rest ++ more)
  end.
Proof.
  induction buf as [buf IH] using (induction_ltof1 _ length).
  destruct (find_sub END_RESPONSE buf) as [e|] eqn:E; [|by rewrite scan_wait].
  pose proof E as E'. apply find_sub_Some in E' as [_ He].
  change (length END_RESPONSE) with 2%nat in He.
  rewrite (scan_line buf e) by done.
  rewrite (scan_line (buf ++ more) e) by by apply find_sub_app.
  rewrite take_app_le, drop_app_le by lia.
  destruct (line_reply (take e buf)); [done|].
  apply IH. unfold ltof. rewrite length_drop. lia.
Qed.

(** However a reply is cut into chunks, it is read, and nothing after it. *)
Lemma read_reply_chunks chunks buf data events :
  Forall (fun c => c <> []) chunks -> scan buf = (None, buf) ->
  scan (buf ++ concat chunks) = (Some data, []) ->
  _read_reply buf (map Chunk chunks ++ events) = (Some data, events).
Proof.
  intros Hne. revert buf. induction Hne as [|c chunks Hc Hne IH]; intros buf Hw Hs.
  - simpl in Hs. rewrite app_nil_r, Hw in Hs. done.
  - cbn [map concat app] in *. destruct c as [|x c]; [done|]. cbn [_read_reply].
    pose proof (scan_app (buf ++ x :: c) (concat chunks)) as Ha.
    rewrite app_assoc in Hs. rewrite Hs in Ha.
    destruct (scan (buf ++ x :: c)) as [[d|] rest] eqn:E.
    + injection Ha as <- Hr. destruct rest; [|done]. simpl in Hr.
      destruct chunks as [|y chunks]; [done|]. inversion Hne as [|? ? Hy]; subst.
      by destruct y.
    + apply IH; [|done]. assert (scan rest = (None, rest)) as ->; [|done].
      pose proof (scan_app (buf ++ x :: c) []) as Hn. rewrite E, !app_nil_r in Hn. congruence.
Qed.

(** ** Lemmas: the reply of a unit *)

Definition reply_header (source : Z) : header :=
  {| checksum := true; destination_address_type := DestinationAddressType.POINT_TO_POINT;
     rc := 0; dp := false; priority_class := PriorityClass.CLASS_2; confirmation := None;
     source_address := Some source |}.

Lemma pp_reply_packet a attr data :
  byte_ok a -> byte_ok attr -> bytes_ok data ->
  let p := PointToPointPacket (reply_header a) [] false CNI_UNIT_ADDRESS
             [ReplyCAL attr (take 30 data)] in
  packet_valid p /\
  exists b, bytes_ok b /\ encode_packet p = Ok (b16encode b) /\
    _build_pp_reply a attr data = Ok (b16encode b ++ END_RESPONSE).
Proof.
  intros Ha Hattr Hd p.
  assert (bytes_ok (take 30 data)) as Ht by by apply Forall_take.
  assert (packet_valid p) as Hv.
  { repeat split; try done. constructor; [|constructor]. split; [done|]. split; [done|].
    rewrite length_take. lia. }
  split; [done|].
  assert (exists r, reply_encode attr data = Ok r /\ reply_encode attr (take 30 data) = Ok r)
    as (r & Er & Er').
  { assert (cal_ok (ReplyCAL attr (take 30 data))) as Hc
      by (split; [done|]; split; [done|]; rewrite length_take; lia).
    destruct (@wire_roundtrip _ cal_codec _ Hc) as (b & Hb & _).
    exists b. split; [|exact Hb]. rewrite <- Hb. simpl. unfold reply_encode.
    change 0x1e with 30. by rewrite take_take. }
  assert (base_encode (reply_header a) = Ok [0x86; a]) as Eb.
  { destruct (base_encode_ok (reply_header a)) as [-> _]; [done|].
    unfold header_bytes. simpl. by rewrite land_ff_id. }
  assert (encode_items cal_encode [ReplyCAL attr (take 30 data)] = Ok r) as Ei.
  { unfold encode_items. cbn [mapM_result cal_encode]. rewrite Er'. cbn.
    by rewrite app_nil_r. }
  assert (bytes_ok r) as Hr.
  { assert (cal_ok (ReplyCAL attr (take 30 data))) as Hc
      by (split; [done|]; split; [done|]; rewrite length_take; lia).
    destruct (@wire_roundtrip _ cal_codec _ Hc) as (b & Hb & _ & Hbb & _).
    assert (b = r) as <-; [|done]. simpl in Hb. congruence. }
  exists (add_cbus_checksum ([0x86; a; CNI_UNIT_ADDRESS; 0x00] ++ r)). split; [|split].
  - apply add_cbus_checksum_bytes, Forall_app. split; [|done].
    repeat (constructor; [done || by unfold CNI_UNIT_ADDRESS|]). constructor.
  - unfold encode_packet, packet_encode, p, pp_encode.
    change (mk_bytes [CNI_UNIT_ADDRESS; 0]) with (@Ok bytes [0x10; 0]).
    rewrite bind_Ok, Ei, bind_Ok, Eb, bind_Ok. done.
  - unfold _build_pp_reply. rewrite mk_bytes_ok by (solve_bytes || by unfold CNI_UNIT_ADDRESS).
    rewrite bind_Ok, Er, bind_Ok. reflexivity.
Qed.

(** The text of a reply is read as its data. *)
Lemma line_reply_pp a attr data :
  byte_ok a -> byte_ok attr -> bytes_ok data ->
  exists t, _build_pp_reply a attr data = Ok (t ++ END_RESPONSE) /\ 13 ∉ t /\
    line_reply t = Some (take 30 data).
Proof.
  intros Ha Hattr Hd. destruct (pp_reply_packet a attr data Ha Hattr Hd) as (Hv & b & Hb & Ee & Er).
  exists (b16encode b). split; [done|].
  assert (forall c, c ∈ b16encode b -> 48 <= c) as Hc.
  { intros c H%b16encode_elem; [lia|done]. }
  split; [intros H%Hc; lia|]. unfold line_reply.
  assert ((length (b16encode b) =? 2)%nat && startswith [46] (drop 1 (b16encode b)) = false) as ->.
  { destruct (startswith [46] _) eqn:E; [|by rewrite andb_false_r].
    apply startswith_split in E. exfalso.
    assert (46 ∈ b16encode b) as H%Hc; [|lia].
    rewrite <- (take_drop 1 (b16encode b)), E. apply elem_of_app. right. simpl. left. }
  destruct (from_pci_wire _ (reply_header a) [] false Hv eq_refl eq_refl) as (t & Et & Hdec).
  assert (t = b16encode b) as -> by congruence.
  rewrite app_nil_r in Hdec. change (checksum (reply_header a)) with true in Hdec.
  by rewrite Hdec.
Qed.

(** A confirmation, then a reply. *)
Lemma scan_confirmed_reply k t data :
  k <> 13 -> 13 ∉ t -> line_reply t = Some data ->
  scan (([k] ++ [46] ++ END_RESPONSE) ++ t ++ END_RESPONSE) = (Some data, []).
Proof.
  intros Hk Ht Hr.
  assert (forall rest, find_sub END_RESPONSE ([k; 46] ++ END_RESPONSE ++ rest) = Some 2%nat) as H1.
  { intros rest. apply (find_sub_end2 13 10 [k; 46]).
    rewrite !not_elem_of_cons. split; [done|]. split; [lia|apply not_elem_of_nil]. }
  change (([k] ++ [46] ++ END_RESPONSE) ++ t ++ END_RESPONSE)
    with ([k; 46] ++ END_RESPONSE ++ t ++ END_RESPONSE).
  rewrite (scan_line _ 2) by apply H1.
  change (line_reply (take 2 ([k; 46] ++ END_RESPONSE ++ t ++ END_RESPONSE)))
    with (@None bytes).
  change (drop (2 + 2) ([k; 46] ++ END_RESPONSE ++ t ++ END_RESPONSE)) with (t ++ END_RESPONSE).
  rewrite (scan_line _ (length t)) by (apply (find_sub_end2 13 10); done).
  rewrite take_app_length, Hr.
  replace (length t + 2)%nat with (length (t ++ END_RESPONSE)) by by rewrite length_app.
  by rewrite drop_all.
Qed.

(** ** Lemmas: the attributes of a unit *)

Definition text_ok (s : list Z) : Prop := Forall (fun c => 0 <= c < 128) s.

Definition unit_ok (u : EmulatedUnit) : Prop :=
  text_ok (type_name u) /\ text_ok (firmware_short u) /\ text_ok (firmware_extended u) /\
  bytes_ok (serial_number u) /\ bytes_ok (manufacturer_code u) /\ bytes_ok (installed_apps u) /\
  bytes_ok (terminal_levels u) /\ byte_ok (parameter_area u) /\ bytes_ok (gav_zone_data u) /\
  bytes_ok (group_address_table u) /\ bytes_ok (output_summary u) /\ bytes_ok (gav_store u).

(** What the interrogator asks for. *)
Definition asked (attr : DeviceAttribute.t) (u : EmulatedUnit) : bytes :=
  match attr with
  | DeviceAttribute.TYPE_NAME => take 8 (ljust 8 32 (type_name u))
  | DeviceAttribute.FIRMWARE_VERSION => take 8 (ljust 8 32 (firmware_short u))
  | DeviceAttribute.SERIAL_NUMBER => ljust 12 0 (take 12 (serial_number u))
  | DeviceAttribute.TERMINAL_LEVELS => take 4 (terminal_levels u)
  | DeviceAttribute.PARAMETER_AREA => [parameter_area u]
  | DeviceAttribute.INSTALLED_APPS => take 44 (ljust 44 0xff (installed_apps u))
  | DeviceAttribute.FIRMWARE_EXTENDED => take 9 (ljust 9 0 (firmware_extended u))
  | DeviceAttribute.GAV_ZONE_DATA => take 12 (gav_zone_data u)
  | DeviceAttribute.GROUP_ADDRESS_TABLE => take 12 (group_address_table u)
  | DeviceAttribute.OUTPUT_SUMMARY => take 6 (output_summary u)
  | DeviceAttribute.GAV_STORE => take 6 (gav_store u)
  | _ => []
  end.

Lemma ljust_forall (P : Z -> Prop) n fill l : P fill -> Forall P l -> Forall P (ljust n fill l).
Proof. intros Hf Hl. apply Forall_app. split; [done|]. by apply Forall_replicate. Qed.

Lemma padded_text_ok n fill s :
  text_ok s -> byte_ok fill ->
  padded_text n fill s = Ok (take n (ljust n fill s)) /\ bytes_ok (take n (ljust n fill s)).
Proof.
  intros Hs Hf. unfold padded_text, encode_ascii.
  assert (forallb (fun c => (0 <=? c) && (c <? 128)) s = true) as ->.
  { rewrite forallb_forall. intros c Hc%list_elem_of_In.
    pose proof (proj1 (Forall_forall _ _) Hs c Hc) as H. simpl in H. lia. }
  split; [done|]. apply Forall_take, ljust_forall; [done|].
  eapply Forall_impl; [exact Hs|]. intros c Hc. simpl in Hc. unfold byte_ok. lia.
Qed.

Lemma get_attribute_asked q u :
  q ∈ _INTERROGATION_ATTRS -> unit_ok u ->
  get_attribute u (value q.2) = Ok (Some (asked q.2 u)) /\ bytes_ok (asked q.2 u).
Proof.
  intros Hq (H1 & H2 & H3 & H4 & H5 & H6 & H7 & H8 & H9 & H10 & H11 & H12).
  unfold get_attribute. rewrite enum_call_value.
  assert (forall n l, bytes_ok l -> bytes_ok (take n l)) as Ht by by intros; apply Forall_take.
  unfold _INTERROGATION_ATTRS in Hq. rewrite !elem_of_cons, elem_of_nil in Hq.
  repeat destruct Hq as [->|Hq]; try done; cbn [snd asked].
  - destruct (padded_text_ok 8 32 (type_name u)) as [-> ?]; done.
  - destruct (padded_text_ok 8 32 (firmware_short u)) as [-> ?]; done.
  - split; [done|]. apply ljust_forall; [done|]. by apply Ht.
  - split; [done|]. by apply Ht.
  - rewrite mk_bytes_ok by solve_bytes. split; [done|solve_bytes].
  - rewrite mk_bytes_ok by done. split; [done|]. apply Ht. by apply ljust_forall.
  - destruct (padded_text_ok 9 0 (firmware_extended u)) as [-> ?]; done.
  - split; [done|]. by apply Ht.
  - split; [done|]. by apply Ht.
  - split; [done|]. by apply Ht.
  - split; [done|]. by apply Ht.
Qed.

(** The data of the reply: as many bytes as were asked for, thirty at most. *)
Definition answer (q : CAL.t * DeviceAttribute.t) (u : EmulatedUnit) : bytes :=
  take 30 (match q.1 with
           | CAL.RECALL => take (Z.to_nat (recall_count q.2)) (asked q.2 u)
           | _ => asked q.2 u
           end).

Lemma next_conf_code idx : _next_conf idx ∈ CONFIRMATION_CODES.
Proof.
  unfold _next_conf. destruct (CONFIRMATION_CODES !! _) as [c|] eqn:E; simpl.
  - by apply list_elem_of_lookup_2 in E.
  - apply lookup_ge_None in E. pose proof (Nat.mod_upper_bound idx (length CONFIRMATION_CODES)).
    simpl in *. lia.
Qed.

Lemma pp_cals_identify a u attr :
  pp_cals a u [value CAL.IDENTIFY; attr] =
    attribute_reply (_build_pp_reply a attr) (get_attribute u attr) ([], Ok tt).
Proof. done. Qed.

Lemma pp_cals_recall a u attr n :
  pp_cals a u [value CAL.RECALL; attr; n] =
    attribute_reply (fun d => _build_pp_reply a attr (take (Z.to_nat n) d))
      (get_attribute u attr) ([], Ok tt).
Proof. done. Qed.

(** One question of the interrogator, and what the emulator writes. *)
Lemma question_answered idx a u q em :
  byte_ok a -> unit_ok u -> units em !! a = Some u -> q ∈ _INTERROGATION_ATTRS ->
  exists cmd ws, attribute_command idx a q = Ok cmd /\
    emulator_process cmd em = ([], em, (ws, Ok tt)) /\
    scan (concat ws) = (Some (answer q u), []) /\ Forall (fun w => w <> []) ws.
Proof.
  intros Ha Hu Hem Hq. destruct (get_attribute_asked q u Hq Hu) as [Hget Hb].
  set (body := [0x46; a; 0x00; value q.1; value q.2] ++
    match q.1 with CAL.RECALL => [recall_count q.2] | _ => [] end).
  assert (bytes_ok body) as Hbody.
  { unfold body. unfold _INTERROGATION_ATTRS in Hq. rewrite !elem_of_cons, elem_of_nil in Hq.
    repeat destruct Hq as [->|Hq]; try done; cbn; repeat (constructor; [done|]); constructor. }
  set (data := match q.1 with
    | CAL.RECALL => take (Z.to_nat (recall_count q.2)) (asked q.2 u) | _ => asked q.2 u end).
  assert (bytes_ok data) as Hdata.
  { unfold data. destruct q.1; try done. by apply Forall_take. }
  assert (byte_ok (value q.2)) as Hattr.
  { destruct q as [? []]; done. }
  destruct (line_reply_pp a (value q.2) data Ha Hattr Hdata) as (t & Et & H13 & Hr).
  exists ([92] ++ b16encode body ++ [_next_conf idx] ++ END_COMMAND).
  exists [[_next_conf idx] ++ [46] ++ END_RESPONSE; t ++ END_RESPONSE].
  pose proof (next_conf_code idx) as Hk. split; [|split].
  - unfold attribute_command. destruct q as [c attr]. cbn [fst snd] in *.
    rewrite mk_bytes_ok by exact Hbody. done.
  - rewrite emulator_command by done.
    assert (run_command (Some [_next_conf idx]) body em =
      (em, ([[_next_conf idx] ++ [46] ++ END_RESPONSE; t ++ END_RESPONSE], Ok tt))) as ->; [|done].
    assert (pp_cals a u (drop 3 body) = ([t ++ END_RESPONSE], Ok tt)) as Hpp.
    { unfold body, data, _INTERROGATION_ATTRS in *. rewrite !elem_of_cons, elem_of_nil in Hq.
      repeat destruct Hq as [->|Hq]; try done; cbn [fst snd app drop] in *;
        rewrite ?pp_cals_identify, ?pp_cals_recall; unfold attribute_reply; rewrite Hget;
        unfold write_reply; by rewrite Et. }
    unfold run_command, body. cbn [app]. cbn [drop]. unfold _handle_pp_command.
    cbn [drop]. change (0x46 =? 0x46) with true. cbn iota. rewrite Hem.
    unfold body in Hpp. cbn [app drop] in Hpp. by rewrite Hpp.
  - split; [|repeat constructor; [done|by destruct t]].
    cbn [concat]. rewrite app_nil_r. apply scan_confirmed_reply; [|done|done].
    intros E. rewrite E in Hk. apply byte_in_spec in Hk. discriminate Hk.
Qed.

(** *** A whole interrogation *)

(** The events a connection to the emulator delivers: what it writes for each
    command, cut into chunks in any way. *)
Inductive talks (em : emulator) (a : Z) :
    nat -> list (CAL.t * DeviceAttribute.t) -> list read_event -> Prop :=
| TalksNil idx : talks em a idx [] []
| TalksCons idx q qs cmd ws r buf em' chunks events :
    attribute_command idx a q = Ok cmd ->
    emulator_process cmd em = (buf, em', (ws, r)) ->
    Forall (fun c => c <> []) chunks -> concat chunks = concat ws ->
    talks em a (S idx) qs events ->
    talks em a idx (q :: qs) (map Chunk chunks ++ events).

(** A connection that delivers each line the emulator writes as a chunk. *)
Fixpoint dialogue (em : emulator) (a : Z) (idx : nat) (qs : list (CAL.t * DeviceAttribute.t))
    : list read_event :=
  match qs with
  | [] => []
  | q :: qs =>
      match attribute_command idx a q with
      | Ok cmd =>
          let '(_, _, (ws, _)) := emulator_process cmd em in
          map Chunk ws ++ dialogue em a (S idx) qs
      | Raise _ => []
      end
  end.

Lemma dialogue_talks em a u idx qs :
  byte_ok a -> unit_ok u -> units em !! a = Some u -> qs ⊆ _INTERROGATION_ATTRS ->
  talks em a idx qs (dialogue em a idx qs).
Proof.
  intros Ha Hu Hem. revert idx. induction qs as [|q qs IH]; intros idx Hqs; [constructor|].
  destruct (question_answered idx a u q em Ha Hu Hem) as (cmd & ws & Hc & He & Hs & Hne).
  { apply Hqs. left. }
  cbn [dialogue]. rewrite Hc, He. apply (TalksCons _ _ _ _ _ cmd ws (Ok tt) [] em ws); try done.
  apply IH. intros x Hx. apply Hqs. by right.
Qed.

Lemma interrogate_loop_ok em a u idx qs events info :
  byte_ok a -> unit_ok u -> units em !! a = Some u -> qs ⊆ _INTERROGATION_ATTRS ->
  talks em a idx qs events ->
  interrogate_loop a qs idx events info =
    Ok (foldl (fun info q => learn info q (answer q u)) info qs, []).
Proof.
  intros Ha Hu Hem Hqs Ht. revert info.
  induction Ht as [idx|idx q qs cmd ws r buf em' chunks events Hc He Hne Hcat Ht IH]; intros info;
    [done|].
  cbn [interrogate_loop foldl].
  destruct (question_answered idx a u q em Ha Hu Hem) as (cmd' & ws' & Hc' & He' & Hs & _).
  { apply Hqs. left. }
  rewrite Hc in Hc'. injection Hc' as <-. rewrite He in He'. injection He' as _ _ <- _.
  rewrite Hc, bind_Ok. rewrite (read_reply_chunks chunks [] (answer q u) events Hne);
    [|done|by rewrite Hcat].
  apply IH. intros x Hx. apply Hqs. by right.
Qed.

Lemma decode_ascii_text d : Forall (fun c => 0 <= c < 128) d -> decode_ascii_replace d = d.
Proof.
  induction 1 as [|c d Hc _ IH]; [done|]. simpl. rewrite (proj2 (Z.ltb_lt c 128)) by lia.
  by f_equal.
Qed.

(** What the eleven answers become. *)
Lemma learn_all a (d : CAL.t * DeviceAttribute.t -> bytes) :
  let info := foldl (fun info q => learn info q (d q)) (unit_info a) _INTERROGATION_ATTRS in
  i_address info = a /\
  i_type_name info = decode_ascii_replace (d (CAL.IDENTIFY, DeviceAttribute.TYPE_NAME)) /\
  i_firmware_version info =
    decode_ascii_replace (d (CAL.IDENTIFY, DeviceAttribute.FIRMWARE_VERSION)) /\
  i_firmware_extended info =
    decode_ascii_replace (rstrip_zeros (d (CAL.RECALL, DeviceAttribute.FIRMWARE_EXTENDED))) /\
  i_serial_number info = d (CAL.IDENTIFY, DeviceAttribute.SERIAL_NUMBER) /\
  i_installed_apps info =
    List.filter (fun b => negb (b =? 0xff)) (d (CAL.RECALL, DeviceAttribute.INSTALLED_APPS)) /\
  i_terminal_levels info = d (CAL.RECALL, DeviceAttribute.TERMINAL_LEVELS) /\
  i_parameter_area info = default 0 (head (d (CAL.RECALL, DeviceAttribute.PARAMETER_AREA))) /\
  i_gav_zone_data info = d (CAL.RECALL, DeviceAttribute.GAV_ZONE_DATA) /\
  i_group_address_table info = d (CAL.RECALL, DeviceAttribute.GROUP_ADDRESS_TABLE) /\
  i_output_summary info = d (CAL.RECALL, DeviceAttribute.OUTPUT_SUMMARY) /\
  i_gav_store info = d (CAL.RECALL, DeviceAttribute.GAV_STORE) /\
  map fst (i_raw_attributes info) = map (fun q => value q.2) _INTERROGATION_ATTRS.
Proof. repeat (split; [reflexivity|]). reflexivity. Qed.

Lemma rstrip_forall (P : Z -> Prop) d : Forall P d -> Forall P (rstrip_zeros d).
Proof.
  induction 1 as [|c d Hc _ IH]; [constructor|]. cbn [rstrip_zeros].
  destruct (rstrip_zeros d); [|by constructor]. destruct (c =? 0); by repeat constructor.
Qed.

Lemma take_cut n m (l : bytes) : (n <= m)%nat -> take m (take n l) = take n l.
Proof. intros H. rewrite take_take. f_equal. lia. Qed.

(** ** Properties *)

(** C35. An interrogation learns what the unit is. Against the emulator, for any
    unit whose texts are ascii and whose fields are bytes, and however the
    connection cuts the replies into chunks, every attribute is read, none is
    taken for another, and the record holds the unit's fields as the emulator
    pads and cuts them; of the applications at most thirty arrive. *)
Theorem interrogation_reads_unit em a u idx events :
  byte_ok a -> unit_ok u -> units em !! a = Some u ->
  talks em a idx _INTERROGATION_ATTRS events ->
  exists info, interrogate a idx events = Ok (info, []) /\
    i_address info = a /\
    i_type_name info = take 8 (ljust 8 32 (type_name u)) /\
    i_firmware_version info = take 8 (ljust 8 32 (firmware_short u)) /\
    i_firmware_extended info = rstrip_zeros (take 9 (ljust 9 0 (firmware_extended u))) /\
    i_serial_number info = ljust 12 0 (take 12 (serial_number u)) /\
    i_installed_apps info =
      List.filter (fun b => negb (b =? 0xff)) (take 30 (ljust 44 0xff (installed_apps u))) /\
    i_terminal_levels info = take 4 (terminal_levels u) /\
    i_parameter_area info = parameter_area u /\
    i_gav_zone_data info = take 12 (gav_zone_data u) /\
    i_group_address_table info = take 12 (group_address_table u) /\
    i_output_summary info = take 6 (output_summary u) /\
    i_gav_store info = take 6 (gav_store u) /\
    map fst (i_raw_attributes info) = map (fun q => value q.2) _INTERROGATION_ATTRS.
Proof.
  intros Ha Hu Hem Ht. pose proof Hu as (H1 & H2 & H3 & _).
  assert (forall n k fill l, text_ok l -> 0 <= fill < 128 ->
    text_ok (take n (ljust k fill l))) as Hj.
  { intros n k fill l Hl Hf. by apply Forall_take, ljust_forall. }
  eexists. split; [by apply (interrogate_loop_ok em a u)|].
  destruct (learn_all a (fun q => answer q u)) as
    (-> & -> & -> & -> & -> & -> & -> & -> & -> & -> & -> & -> & ->).
  unfold answer. cbn [fst snd asked recall_count].
  change (Z.to_nat 44) with 44%nat. change (Z.to_nat 12) with 12%nat.
  change (Z.to_nat 9) with 9%nat. change (Z.to_nat 6) with 6%nat.
  change (Z.to_nat 4) with 4%nat. change (Z.to_nat 1) with 1%nat.
  rewrite !take_take. cbn [Nat.min].
  repeat split.
  - apply decode_ascii_text, Hj; [done|lia].
  - apply decode_ascii_text, Hj; [done|lia].
  - apply decode_ascii_text, rstrip_forall, Hj; [done|lia].
  - apply take_ge. unfold ljust. rewrite length_app, length_replicate, length_take. lia.
Qed.

Example interrogation_reads_unit_witness :
  let em := emulator_init 256 in
  let u := unit_3 in
  exists info, interrogate 3 0 (dialogue em 3 0 _INTERROGATION_ATTRS) = Ok (info, []) /\
    i_address info = 3 /\
    i_type_name info = take 8 (ljust 8 32 (type_name u)) /\
    i_firmware_version info = take 8 (ljust 8 32 (firmware_short u)) /\
    i_firmware_extended info = rstrip_zeros (take 9 (ljust 9 0 (firmware_extended u))) /\
    i_serial_number info = ljust 12 0 (take 12 (serial_number u)) /\
    i_installed_apps info =
      List.filter (fun b => negb (b =? 0xff)) (take 30 (ljust 44 0xff (installed_apps u))) /\
    i_terminal_levels info = take 4 (terminal_levels u) /\
    i_parameter_area info = parameter_area u /\
    i_gav_zone_data info = take 12 (gav_zone_data u) /\
    i_group_address_table info = take 12 (group_address_table u) /\
    i_output_summary info = take 6 (output_summary u) /\
    i_gav_store info = take 6 (gav_store u) /\
    map fst (i_raw_attributes info) = map (fun q => value q.2) _INTERROGATION_ATTRS.
Proof.
  assert (unit_ok unit_3) as Hu.
  { repeat split; repeat constructor; vm_compute; intuition congruence. }
  apply (interrogation_reads_unit (emulator_init 256) 3 unit_3 0
    (dialogue (emulator_init 256) 3 0 _INTERROGATION_ATTRS)); [done|exact Hu|done|].
  apply (dialogue_talks (emulator_init 256) 3 unit_3); [done|exact Hu|done|done].
Defined.
