(* ===== verification/EmulatorClient.v ===== *)
(** * The client against the emulated bridge

    What [ESP32Emulator] ([Emulator]) does with the commands that [PCIProtocol]
    ([Pci]) prepares. *)

From S2P Require Import Prelude Common Hex Report Cal Lighting StatusRequest Application.
From S2P Require Import Packet PyDict Confirm Pci Emulator.
From stdpp Require Import gmap options.

Local Open Scope Z_scope.

(** ** Lemmas *)

(** A command as it is written: escaped text, the code, and the end. *)
Lemma prepared_text p b t now st :
  confirmations_inv st -> is_special_client p = false -> is_special p = false ->
  packet_encode p = Ok b ->
  exists st' k,
    _prepare_packet {| cmd := p; want_confirmation := true; basic_mode := false |} t now st =
      Ok (st', [92] ++ b16encode b ++ [k] ++ END_COMMAND, Some k) /\
    k ∈ CONFIRMATION_CODES.
Proof.
  intros Hi Hsc Hs Hb. pose proof (get_code_spec t now st Hi) as Hg. cbv zeta in Hg.
  destruct (_get_confirmation_code t now st) as [st' k] eqn:Eg. exists st', k.
  split; [|tauto]. unfold _prepare_packet, encode_packet.
  cbn [cmd want_confirmation basic_mode]. rewrite Hsc, Hb, bind_Ok, Hs, bind_Ok.
  cbn [negb andb orb]. by rewrite Eg.
Qed.

(** The bytes of a point to multipoint command. *)
Lemma command_bytes app sals :
  packet_valid (PointToMultipointPacket command_header (Some app) sals) ->
  exists o, encode_items sal_encode sals = Ok o /\
    bytes_ok (add_cbus_checksum ([0x05; app; 0x00] ++ o)) /\
    packet_encode (PointToMultipointPacket command_header (Some app) sals) =
      Ok (add_cbus_checksum ([0x05; app; 0x00] ++ o)).
Proof.
  intros (Hdat & Hrc & Hdp & Ha & Hs).
  destruct (get_application app) as [cls|] eqn:Eg; [|done].
  destruct (sals_wire app sals Hs cls Eg) as (o & Ho & Hob & _).
  pose proof (application_byte app cls Eg) as Hbyte. exists o. split; [done|].
  split; [apply add_cbus_checksum_bytes; simpl; solve_bytes|].
  unfold packet_encode, pm_encode.
  rewrite (proj2 (Z.ltb_ge app 0)), (proj2 (Z.ltb_ge 0xff app)) by solve_byte.
  cbn [orb]. by rewrite Ho, bind_Ok.
Qed.

(** What the emulator takes a lighting message for. *)
Definition obey (l : LightingSAL) (em : emulator) : emulator :=
  match l with
  | LightingOnSAL g _ => set_group_level g 255 em
  | LightingOffSAL g _ => set_group_level g 0 em
  | LightingRampSAL g _ _ level => set_group_level g level em
  | LightingTerminateRampSAL _ _ => em
  end.

(** The code of a ramp is between the codes the emulator tests before it. *)
Lemma ramp_code d :
  let c := value (duration_to_ramp_rate d) in
  (c =? 0x79) = false /\ (c =? 0x01) = false /\ (c =? 0x09) = false /\
  (0x02 <=? c) && (c <=? 0x7a) = true.
Proof.
  cbv zeta. destruct (duration_to_ramp_rate_elem d) as [d' Hd].
  revert Hd. generalize (duration_to_ramp_rate d). intros c Hc.
  unfold _LIGHT_RAMP_RATES in Hc. rewrite !elem_of_cons, elem_of_nil in Hc.
  repeat destruct Hc as [[= -> _]|Hc]; done.
Qed.

(** The first message of the command is what the emulator looks at. *)
Lemma handle_lighting_first app l b rest em :
  lighting_encode l = Ok b ->
  _handle_lighting ([0x05; app; 0x00] ++ b ++ rest) em = obey l em.
Proof.
  destruct l as [g a d lev|g a|g a|g a]; unfold lighting_encode.
  - destruct (_ || _); [done|]. intros (u & _ & Hb)%result_bind_Ok.
    assert (b = [value (duration_to_ramp_rate d); g; lev]) as ->.
    { unfold mk_bytes in Hb. by destruct (forallb _ _); [injection Hb as <-|]. }
    destruct (ramp_code d) as (E1 & E2 & E3 & E4).
    unfold _handle_lighting. cbn [Datatypes.app lookup list_lookup default from_option id].
    by rewrite E1, E2, E3, E4.
  - intros (u & _ & Hb)%result_bind_Ok.
    assert (b = [value LightCommand.ON; g]) as ->; [|done].
    unfold mk_bytes in Hb. by destruct (forallb _ _); [injection Hb as <-|].
  - intros (u & _ & Hb)%result_bind_Ok.
    assert (b = [value LightCommand.OFF; g]) as ->; [|done].
    unfold mk_bytes in Hb. by destruct (forallb _ _); [injection Hb as <-|].
  - intros (u & _ & Hb)%result_bind_Ok.
    assert (b = [value LightCommand.TERMINATE_RAMP; g]) as ->; [|done].
    unfold mk_bytes in Hb. by destruct (forallb _ _); [injection Hb as <-|].
Qed.

Lemma encode_items_cons {A} (f : A -> result bytes) x l o :
  encode_items f (x :: l) = Ok o ->
  exists b rest, f x = Ok b /\ encode_items f l = Ok rest /\ o = b ++ rest.
Proof.
  unfold encode_items. cbn [mapM_result]. destruct (f x) as [b|]; [|done].
  rewrite bind_Ok. destruct (mapM_result f l) as [bs|]; [|done].
  cbn. intros [= <-]. by eexists _, _.
Qed.

(** The text of a lighting command, with a code. *)
Lemma command_obeyed l more o k em :
  encode_items sal_encode (map SLighting (l :: more)) = Ok o ->
  bytes_ok (add_cbus_checksum ([0x05; 0x38; 0x00] ++ o)) -> k ∈ CONFIRMATION_CODES ->
  emulator_process
    ([92] ++ b16encode (add_cbus_checksum ([0x05; 0x38; 0x00] ++ o)) ++ [k] ++ END_COMMAND) em =
  ([], obey l em, ([[k] ++ [46] ++ END_RESPONSE], Ok tt)).
Proof.
  intros Ho Hob Hk. rewrite emulator_command by done.
  cbn [map] in Ho. apply encode_items_cons in Ho as (b & rest & Hb & _ & ->).
  unfold add_cbus_checksum at 1. set (cs := cbus_checksum _).
  assert (([0x05; 0x38; 0x00] ++ b ++ rest) ++ [cs] = [0x05; 0x38; 0x00] ++ b ++ (rest ++ [cs])) as ->
    by by rewrite <- !app_assoc.
  unfold run_command. cbn [Datatypes.app]. change (0x05 =? 0x46) with false.
  assert ((4 <=? length (0x05 :: 0x38 :: 0x00 :: b ++ rest ++ [cs])%Z)%nat = true) as ->.
  { apply Nat.leb_le. simpl. rewrite !length_app. simpl. lia. }
  cbn [andb lookup list_lookup default from_option id].
  change (0x05 =? 0x05) with true. change (0x38 =? 0x38) with true. cbn iota.
  pose proof (handle_lighting_first 0x38 l b (rest ++ [cs]) em Hb) as Hl.
  cbn [Datatypes.app] in Hl. by rewrite Hl.
Qed.

(** ** Properties *)

(** The emulator obeys the first message of a lighting command. For any
    command of valid lighting messages that a client prepares, the emulator
    confirms its code once and sets the level of the group of the first message
    as it says; the messages after it, such as the other groups of a command for
    several lights, change nothing. *)
Theorem emulator_obeys_first_message l more t now st em :
  confirmations_inv st ->
  let p := PointToMultipointPacket command_header (Some 0x38) (map SLighting (l :: more)) in
  packet_valid p ->
  exists st' data k,
    _prepare_packet {| cmd := p; want_confirmation := true; basic_mode := false |} t now st =
      Ok (st', data, Some k) /\
    emulator_process data em = ([], obey l em, ([[k] ++ [46] ++ END_RESPONSE], Ok tt)).
Proof.
  intros Hi p Hv. destruct (command_bytes _ _ Hv) as (o & Ho & Hob & He).
  destruct (prepared_text p _ t now st Hi eq_refl eq_refl He) as (st' & k & Hp & Hk).
  eexists st', _, k. split; [exact Hp|]. by eapply command_obeyed.
Qed.

Example emulator_obeys_first_message_witness :
  exists st' data k,
    _prepare_packet
      {| cmd := PointToMultipointPacket command_header (Some 0x38)
           (map SLighting [LightingOnSAL 1 0x38; LightingOnSAL 2 0x38]);
         want_confirmation := true; basic_mode := false |} 0 0 no_confirmations =
      Ok (st', data, Some k) /\
    emulator_process data (emulator_init 256) =
      ([], obey (LightingOnSAL 1 0x38) (emulator_init 256),
       ([[k] ++ [46] ++ END_RESPONSE], Ok tt)).
Proof.
  refine (emulator_obeys_first_message (LightingOnSAL 1 0x38) [LightingOnSAL 2 0x38] 0 0
    no_confirmations (emulator_init 256) no_confirmations_inv _).
  repeat split; repeat constructor; simpl; unfold byte_ok; lia.
Defined.

(** *** Status requests *)

(** The emulator reads the two bytes of a level request, 0x73 and 0x07, as the
    application and the block: what a client asks for does not matter. *)
Lemma status_request_misread block app t now st em :
  confirmations_inv st -> byte_ok block -> byte_ok app ->
  exists p st' data k line,
    request_status block app = Ok p /\
    _prepare_packet {| cmd := p; want_confirmation := true; basic_mode := false |} t now st =
      Ok (st', data, Some k) /\
    _send_binary_status 0x73 0x07 em = Ok line /\
    emulator_process data em = ([], em, ([line; [k] ++ [46] ++ END_RESPONSE], Ok tt)).
Proof.
  intros Hi Hb Ha.
  set (r := {| sr_level_request := true; sr_group_address := block;
               sr_child_application := app |}).
  set (o := _LEVEL_REQUEST ++ [Z.land app 0xff; Z.land block 0xe0]).
  assert (bytes_ok [Z.land app 0xff; Z.land block 0xe0]) as Hland.
  { rewrite land_ff_id by done. constructor; [done|]. constructor; [|constructor].
    apply byte_okb_spec. clear -Hb. revert block Hb.
    apply (byte_forall (fun b => byte_okb (Z.land b 0xe0))). reflexivity. }
  assert (bytes_ok o) as Ho by (apply Forall_app; split; [by repeat constructor|done]).
  assert (packet_encode (PointToMultipointPacket command_header (Some 0xff) [SStatusRequest r]) =
    Ok (add_cbus_checksum ([0x05; 0xff; 0x00] ++ o))) as He.
  { unfold packet_encode, pm_encode. change ((255 <? 0) || (255 <? 255)) with false.
    assert (encode_items sal_encode [SStatusRequest r] = Ok o) as ->; [|done].
    unfold encode_items. cbn [mapM_result sal_encode]. unfold status_encode. cbn.
    rewrite mk_bytes_ok by done. done. }
  destruct (prepared_text
    (PointToMultipointPacket command_header (Some 0xff) [SStatusRequest r]) _ t now st Hi
    eq_refl eq_refl He) as (st' & k & Hp & Hk).
  assert (exists line, _send_binary_status 0x73 0x07 em = Ok line) as [line Hline].
  { unfold _send_binary_status. rewrite mk_bytes_ok; [by eexists|].
    repeat (constructor; [done|]). constructor. }
  eexists _, st', _, k, line. split; [done|]. split; [exact Hp|]. split; [done|].
  rewrite emulator_command;
    [|apply add_cbus_checksum_bytes, Forall_app; split; [by repeat constructor|done]|done].
  unfold run_command, add_cbus_checksum, o. cbn [Datatypes.app]. cbn. by rewrite Hline.
Qed.
