(* ===== verification/Transport.v ===== *)
(** * Transports: [cbus/transport/base.py]

    [CBusTransport]: the state of a connection, and the loop that restores it.
    How the connection is established ([_do_connect] of [tcp.py] and [serial.py])
    is the environment's: its outcomes are inputs. *)

From S2P Require Import Prelude.
From stdpp Require Import options.

Local Open Scope Z_scope.

(** ** Definitions *)

Inductive TransportState := DISCONNECTED | CONNECTING | CONNECTED | RECONNECTING | ERROR.

#[export] Instance TransportState_eq_dec : EqDecision TransportState.
Proof. solve_decision. Defined.

(** The fields of [TransportConfig] that decide anything. *)
Record TransportConfig := { reconnect : bool; max_reconnect_attempts : Z }.

Record transport := {
  _state : TransportState;
  _asyncio_transport : bool;
  _reconnect_attempts : Z;
  state_changes : list (TransportState * TransportState) (* [on_state_change], oldest first *)
}.

Definition transport_init : transport :=
  {| _state := DISCONNECTED; _asyncio_transport := false; _reconnect_attempts := 0;
     state_changes := [] |}.

Definition is_connected (t : transport) : bool := bool_decide (_state t = CONNECTED).

Definition _set_state (new_state : TransportState) (t : transport) : transport :=
  if bool_decide (_state t = new_state) then t
  else {| _state := new_state; _asyncio_transport := _asyncio_transport t;
          _reconnect_attempts := _reconnect_attempts t;
          state_changes := state_changes t ++ [(_state t, new_state)] |}.

Definition with_link (link : bool) (attempts : Z) (t : transport) : transport :=
  {| _state := _state t; _asyncio_transport := link; _reconnect_attempts := attempts;
     state_changes := state_changes t |}.

(** How [asyncio.wait_for(self._do_connect(), ...)] ends. *)
Inductive connect_outcome := Established | TimedOut | Refused | Cancelled.

(** How a call ends. *)
Inductive ending := Returned | RaisedCancelled | RaisedTransportError.

(** [connect] up to its wait, when it is not connected. *)
Definition connect_starts (t : transport) : transport := _set_state CONNECTING t.

(** [connect] after its wait. *)
Definition connect_ends (o : connect_outcome) (t : transport) : transport * ending :=
  match o with
  | Established => (_set_state CONNECTED (with_link true 0 t), Returned)
  | Cancelled => (_set_state DISCONNECTED t, RaisedCancelled)
  | TimedOut | Refused => (_set_state ERROR t, RaisedTransportError)
  end.

(** [connect], alone with the lock. *)
Definition connect (o : connect_outcome) (t : transport) : transport * ending :=
  if is_connected t then (t, Returned) else connect_ends o (connect_starts t).

(** [disconnect]; a reconnection task is cancelled, which [_reconnect_loop] sees
    as [SleepCancelled] or [Cancelled]. *)
Definition disconnect (t : transport) : transport :=
  match _state t with
  | DISCONNECTED => t
  | _ => with_link false (_reconnect_attempts t) (_set_state DISCONNECTED t)
  end.

(** [handle_connection_lost]: whether a reconnection task starts. *)
Definition handle_connection_lost (cfg : TransportConfig) (t : transport) : transport * bool :=
  let t := with_link false (_reconnect_attempts t) t in
  (t, reconnect cfg && negb (bool_decide (_state t = DISCONNECTED))).

(** What a turn of [_reconnect_loop] meets: its sleep is cancelled, [disconnect]
    ran during it, or the connection is tried. *)
Inductive turn := SleepCancelled | DisconnectedMeanwhile | Attempt (o : connect_outcome).

(** The loop; with no turn left it sleeps. The state and the turns not used. *)
Fixpoint reconnect_turns (cfg : TransportConfig) (turns : list turn) (t : transport)
    : transport * list turn :=
  if negb (bool_decide (_state t = RECONNECTING)) then (t, turns)
  else
    let attempts := _reconnect_attempts t + 1 in
    let t := with_link (_asyncio_transport t) attempts t in
    if (0 <? max_reconnect_attempts cfg) && (max_reconnect_attempts cfg <? attempts)
    then (_set_state ERROR t, turns)
    else
      match turns with
      | [] => (t, [])
      | SleepCancelled :: turns => (t, turns)
      | DisconnectedMeanwhile :: turns => (disconnect t, turns)
      | Attempt o :: turns =>
          match connect o t with
          | (t, Returned) | (t, RaisedCancelled) => (t, turns)
          | (t, RaisedTransportError) => reconnect_turns cfg turns t
          end
      end.

Definition _reconnect_loop (cfg : TransportConfig) (turns : list turn) (t : transport)
    : transport * list turn :=
  reconnect_turns cfg turns (_set_state RECONNECTING t).

(** ** Lemmas *)

(** Reported changes follow one another and end in the state. *)
Fixpoint linked (s : TransportState) (l : list (TransportState * TransportState))
    : option TransportState :=
  match l with
  | [] => Some s
  | (old, new) :: l =>
      if bool_decide (old = s) && negb (bool_decide (old = new)) then linked new l else None
  end.

Definition changes_ok (t : transport) : Prop := linked DISCONNECTED (state_changes t) = Some (_state t).

Lemma linked_app s l1 l2 : linked s (l1 ++ l2) = s' ← linked s l1; linked s' l2.
Proof.
  revert s. induction l1 as [|[old new] l1 IH]; intros s; [done|]. cbn [linked app].
  destruct (_ && _); [apply IH|done].
Qed.

Lemma set_state_ok s t : changes_ok t -> changes_ok (_set_state s t).
Proof.
  unfold changes_ok, _set_state. intros H. case_bool_decide as E; [done|].
  cbn [state_changes _state]. rewrite linked_app, H. cbn [mbind option_bind linked].
  rewrite !bool_decide_eq_true_2 by done. by rewrite bool_decide_eq_false_2.
Qed.

Lemma connect_ok o t : changes_ok t -> changes_ok (connect o t).1.
Proof.
  intros H. unfold connect, connect_ends, connect_starts. destruct (is_connected t); [done|].
  destruct o; repeat apply set_state_ok; done.
Qed.

Lemma disconnect_ok t : changes_ok t -> changes_ok (disconnect t).
Proof.
  intros H. unfold disconnect.
  pose proof (set_state_ok DISCONNECTED t H). by destruct (_state t).
Qed.

Lemma reconnect_turns_ok cfg turns t : changes_ok t -> changes_ok (reconnect_turns cfg turns t).1.
Proof.
  revert t. induction turns as [|o turns IH]; intros t H; cbn [reconnect_turns];
    (destruct (negb _); [done|]); (destruct (_ && _); [by apply set_state_ok|]); [done|].
  destruct o as [| |o]; [done|by apply disconnect_ok|].
  pose proof (connect_ok o (with_link (_asyncio_transport t) (_reconnect_attempts t + 1) t) H) as Hc.
  destruct (connect o _) as [t' []]; [done..|]. by apply IH.
Qed.

Lemma set_state_state s t : _state (_set_state s t) = s.
Proof. unfold _set_state. by case_bool_decide. Qed.

(** ** Properties *)

(** A failed reconnection is the last. After a connection is lost the loop
    tries at most once, whatever limit is configured, unlimited included: if the
    attempt fails the transport is left in [ERROR] with the loop ended and every
    later chance unused; if it succeeds the transport is connected and its
    counter reset. The state changes it reports are always consistent. *)
Theorem reconnection_tries_once cfg o turns t :
  changes_ok t ->
  let a := _reconnect_attempts t + 1 in
  let '(t', rest) := _reconnect_loop cfg (Attempt o :: turns) t in
  changes_ok t' /\
  if (0 <? max_reconnect_attempts cfg) && (max_reconnect_attempts cfg <? a)
  then _state t' = ERROR /\ rest = Attempt o :: turns /\ _reconnect_attempts t' = a
  else rest = turns /\
    match o with
    | Established => _state t' = CONNECTED /\ _asyncio_transport t' = true /\
                     _reconnect_attempts t' = 0
    | TimedOut | Refused => _state t' = ERROR /\ _reconnect_attempts t' = a
    | Cancelled => _state t' = DISCONNECTED /\ _reconnect_attempts t' = a
    end.
Proof.
  intros H a. pose proof (reconnect_turns_ok cfg (Attempt o :: turns) _
    (set_state_ok RECONNECTING t H)) as Hok. unfold _reconnect_loop.
  destruct (reconnect_turns cfg (Attempt o :: turns) (_set_state RECONNECTING t))
    as [t' rest] eqn:E. split; [exact Hok|]. clear Hok.
  set (t0 := _set_state RECONNECTING t) in *.
  assert (_reconnect_attempts t0 = _reconnect_attempts t) as Ea.
  { unfold t0, _set_state. by case_bool_decide. }
  assert (_state t0 = RECONNECTING) as Es by apply set_state_state.
  assert (forall s u, _reconnect_attempts (_set_state s u) = _reconnect_attempts u) as Hsa.
  { intros s u. unfold _set_state. by case_bool_decide. }
  assert (forall s u, _asyncio_transport (_set_state s u) = _asyncio_transport u) as Hsl.
  { intros s u. unfold _set_state. by case_bool_decide. }
  cbn [reconnect_turns] in E. rewrite Es, bool_decide_eq_true_2 in E by done.
  cbn [negb] in E. rewrite Ea in E. fold a in E.
  destruct (_ && _).
  { injection E as <- <-. by rewrite set_state_state, Hsa. }
  unfold connect, connect_ends, connect_starts, is_connected in E. cbn [_state with_link] in E. rewrite Es in E.
  change (bool_decide (RECONNECTING = CONNECTED)) with false in E.
  assert (forall u s, _state u = s -> s <> RECONNECTING ->
    reconnect_turns cfg turns u = (u, turns)) as Hend.
  { intros u s Hu Hs. destruct turns; cbn [reconnect_turns];
      by rewrite bool_decide_eq_false_2 by (by rewrite Hu). }
  destruct o; cbv zeta in E.
  - injection E as <- <-. by rewrite set_state_state, Hsl, Hsa.
  - rewrite (Hend _ ERROR) in E by (apply set_state_state || done).
    injection E as <- <-. by rewrite set_state_state, !Hsa.
  - rewrite (Hend _ ERROR) in E by (apply set_state_state || done).
    injection E as <- <-. by rewrite set_state_state, !Hsa.
  - injection E as <- <-. by rewrite set_state_state, !Hsa.
Qed.

Definition connected_transport : transport := (connect Established transport_init).1.

(** Unlimited attempts, a server that is back at the second one. *)
Example reconnection_tries_once_witness :
  let '(t', rest) := _reconnect_loop {| reconnect := true; max_reconnect_attempts := 0 |}
    [Attempt Refused; Attempt Established] connected_transport in
  changes_ok t' /\ rest = [Attempt Established] /\ _state t' = ERROR /\ _reconnect_attempts t' = 1.
Proof.
  exact (reconnection_tries_once {| reconnect := true; max_reconnect_attempts := 0 |}
    Refused [Attempt Established] connected_transport eq_refl).
Defined.
