(* ===== verification/SimState.v ===== *)
(** * The stand-alone simulator's state: [cbus-simulator/simulator/state.py]

    [SimulatorState] and the classes of [models.py] it is made of: networks of
    applications of groups with their levels, the quick table of levels, the
    settings, the units and the history of commands. A configuration is typed
    here (the code takes any JSON object); the probability of packet loss, which
    only decides how long a command is delayed, is left out, as is the readable
    copy of the time in the history. Times are integers, given as [now]. *)

From S2P Require Import Prelude Text.
From Stdlib Require Import String.
From stdpp Require Import strings gmap options.

Local Open Scope string_scope.
Local Open Scope list_scope.
Local Open Scope Z_scope.

(** ** Data: [models.py] *)

Record Group := {
  group_id : Z;
  group_name : string;
  level : Z;
  last_updated : Z
}.

Record SimApplication := {
  application_id : Z;
  application_name : string;
  groups : gmap Z Group
}.

Record Network := {
  network_id : Z;
  network_name : string;
  applications : gmap Z SimApplication
}.

Record DeviceInfo := {
  device_serial : string;
  device_type : string;
  firmware_version : string;
  pci_version : string
}.

Record SimulationSettings := {
  setting_smart_mode : bool;
  default_source_address : Z;
  delay_min_ms : Z;
  delay_max_ms : Z;
  clock_drift_seconds_per_day : Z
}.

Record UnitInfo := {
  unit_address : Z;
  unit_type : string;
  unit_group : option Z;
  unit_application : option Z;
  unit_zone : option Z
}.

(** The dictionary [pci_status]. *)
Record pci_status := { online : bool; last_reset : Z; error_count : Z }.

(** An entry of [command_history]. *)
Record history_entry := { h_command : string; h_timestamp : Z; h_source : option string }.

Record SimulatorState := {
  device_info : DeviceInfo;
  simulation_settings : SimulationSettings;
  networks : gmap Z Network;
  light_states : gmap Z Z;
  state_smart_mode : bool;
  status : pci_status;
  units : gmap Z UnitInfo;
  command_history : list history_entry
}.

(** [self.max_command_history] *)
Definition max_command_history : nat := 100.

(** ** Construction *)

Definition default_device : DeviceInfo :=
  {| device_serial := "00000000"; device_type := "5500CN"; firmware_version := "1.0.0";
     pci_version := "v3.7" |}.

Definition default_settings : SimulationSettings :=
  {| setting_smart_mode := true; default_source_address := 5; delay_min_ms := 10;
     delay_max_ms := 50; clock_drift_seconds_per_day := 0 |}.

Definition default_lighting_app (now : Z) : SimApplication :=
  {| application_id := 56; application_name := "Lighting";
     groups := list_to_map (map (fun gid =>
       (gid, {| group_id := gid; group_name := "Group " +:+ str_int gid; level := 0;
                last_updated := now |})) [1; 2; 3; 4]) |}.

Definition default_network (now : Z) : Network :=
  {| network_id := 254; network_name := "Default Network";
     applications := {[56 := default_lighting_app now]} |}.

(** [SimulatorState.__init__] *)
Definition sim_init (now : Z) : SimulatorState :=
  {| device_info := default_device; simulation_settings := default_settings;
     networks := {[254 := default_network now]};
     light_states := list_to_map (map (fun gid => (gid, 0)) [1; 2; 3; 4]);
     state_smart_mode := setting_smart_mode default_settings;
     status := {| online := true; last_reset := now; error_count := 0 |};
     units := ∅; command_history := [] |}.

(** ** Updates of one attribute *)

Definition with_levels (s : SimulatorState) (ns : gmap Z Network) (ls : gmap Z Z)
    : SimulatorState :=
  {| device_info := device_info s; simulation_settings := simulation_settings s;
     networks := ns; light_states := ls; state_smart_mode := state_smart_mode s;
     status := status s; units := units s; command_history := command_history s |}.

Definition with_device (s : SimulatorState) (d : DeviceInfo) : SimulatorState :=
  {| device_info := d; simulation_settings := simulation_settings s;
     networks := networks s; light_states := light_states s;
     state_smart_mode := state_smart_mode s; status := status s; units := units s;
     command_history := command_history s |}.

Definition with_settings (s : SimulatorState) (t : SimulationSettings) : SimulatorState :=
  {| device_info := device_info s; simulation_settings := t; networks := networks s;
     light_states := light_states s; state_smart_mode := setting_smart_mode t;
     status := status s; units := units s; command_history := command_history s |}.

Definition with_status (s : SimulatorState) (p : pci_status) : SimulatorState :=
  {| device_info := device_info s; simulation_settings := simulation_settings s;
     networks := networks s; light_states := light_states s;
     state_smart_mode := state_smart_mode s; status := p; units := units s;
     command_history := command_history s |}.

Definition with_units (s : SimulatorState) (us : gmap Z UnitInfo) : SimulatorState :=
  {| device_info := device_info s; simulation_settings := simulation_settings s;
     networks := networks s; light_states := light_states s;
     state_smart_mode := state_smart_mode s; status := status s; units := us;
     command_history := command_history s |}.

Definition with_history (s : SimulatorState) (h : list history_entry) : SimulatorState :=
  {| device_info := device_info s; simulation_settings := simulation_settings s;
     networks := networks s; light_states := light_states s;
     state_smart_mode := state_smart_mode s; status := status s; units := units s;
     command_history := h |}.

(** ** Configuration *)

Record group_config := {
  gc_id : option Z;
  gc_name : option string;
  gc_initial_level : option Z
}.

Record application_config := {
  ac_id : option Z;
  ac_name : option string;
  ac_groups : list group_config
}.

Record network_config := {
  nc_id : option Z;
  nc_name : option string;
  nc_applications : list application_config
}.

Record unit_config := {
  uc_address : option Z;
  uc_type : option string;
  uc_group : option Z;
  uc_application : option Z;
  uc_zone : option Z
}.

Record device_config := {
  dc_serial : option string;
  dc_type : option string;
  dc_firmware : option string;
  dc_pci : option string
}.

Record simulation_config := {
  sc_smart_mode : option bool;
  sc_source_address : option Z;
  sc_delay_min : option Z;
  sc_delay_max : option Z;
  sc_clock_drift : option Z
}.

Record config := {
  c_device : option device_config;
  c_networks : option (list network_config);
  c_units : option (list unit_config);
  c_simulation : option simulation_config
}.

(** [setattr] of the keys that are attributes. *)
Definition configure_device (d : device_config) (i : DeviceInfo) : DeviceInfo :=
  {| device_serial := default (device_serial i) (dc_serial d);
     device_type := default (device_type i) (dc_type d);
     firmware_version := default (firmware_version i) (dc_firmware d);
     pci_version := default (pci_version i) (dc_pci d) |}.

Definition configure_settings (c : simulation_config) (t : SimulationSettings)
    : SimulationSettings :=
  {| setting_smart_mode := default (setting_smart_mode t) (sc_smart_mode c);
     default_source_address := default (default_source_address t) (sc_source_address c);
     delay_min_ms := default (delay_min_ms t) (sc_delay_min c);
     delay_max_ms := default (delay_max_ms t) (sc_delay_max c);
     clock_drift_seconds_per_day :=
       default (clock_drift_seconds_per_day t) (sc_clock_drift c) |}.

(** One group: it is added to its application and to the quick table. *)
Definition configure_group (now : Z) (acc : gmap Z Group * gmap Z Z) (g : group_config)
    : gmap Z Group * gmap Z Z :=
  match gc_id g with
  | None => acc
  | Some grp_id =>
      let initial_level := default 0 (gc_initial_level g) in
      let group := {| group_id := grp_id;
                      group_name := default ("Group " +:+ str_int grp_id) (gc_name g);
                      level := initial_level; last_updated := now |} in
      (<[grp_id := group]> acc.1, <[grp_id := initial_level]> acc.2)
  end.

Definition configure_application (now : Z) (acc : gmap Z SimApplication * gmap Z Z)
    (a : application_config) : gmap Z SimApplication * gmap Z Z :=
  match ac_id a with
  | None => acc
  | Some app_id =>
      let '(gs, ls) := foldl (configure_group now) (∅, acc.2) (ac_groups a) in
      (<[app_id := {| application_id := app_id;
                      application_name :=
                        default ("Application " +:+ str_int app_id) (ac_name a);
                      groups := gs |}]> acc.1, ls)
  end.

Definition configure_network (now : Z) (acc : gmap Z Network * gmap Z Z)
    (n : network_config) : gmap Z Network * gmap Z Z :=
  let net_id := default 254 (nc_id n) in
  let '(apps, ls) := foldl (configure_application now) (∅, acc.2) (nc_applications n) in
  (<[net_id := {| network_id := net_id;
                  network_name := default ("Network " +:+ str_int net_id) (nc_name n);
                  applications := apps |}]> acc.1, ls).

Definition configure_unit (us : gmap Z UnitInfo) (u : unit_config) : gmap Z UnitInfo :=
  match uc_address u with
  | None => us
  | Some u_addr =>
      <[u_addr := {| unit_address := u_addr; unit_type := default "Unknown" (uc_type u);
                     unit_group := uc_group u; unit_application := uc_application u;
                     unit_zone := uc_zone u |}]> us
  end.

Definition apply_configuration (c : config) (now : Z) (s : SimulatorState)
    : SimulatorState :=
  let s :=
    match c_device c with
    | Some d => with_device s (configure_device d (device_info s))
    | None => s
    end in
  let s :=
    match c_networks c with
    | Some ns =>
        let '(nets, ls) := foldl (configure_network now) (∅, ∅) ns in
        with_levels s nets ls
    | None => sim_init now (* [self.__init__()] *)
    end in
  let s :=
    match c_units c with
    | Some us => with_units s (foldl configure_unit (units s) us)
    | None => s
    end in
  match c_simulation c with
  | Some t => with_settings s (configure_settings t (simulation_settings s))
  | None => s
  end.

(** ** Levels *)

(** [self.networks.get(n)], [net.applications.get(a)], [app.groups.get(g)] *)
Definition find_group (n a g : Z) (s : SimulatorState) : option Group :=
  net ← networks s !! n; app ← applications net !! a; groups app !! g.

Definition get_group_level (n a g : Z) (s : SimulatorState) : Z :=
  match find_group n a g s with Some grp => level grp | None => 0 end.

Definition set_level (v now : Z) (grp : Group) : Group :=
  {| group_id := group_id grp; group_name := group_name grp; level := v;
     last_updated := now |}.

(** The changes an assignment to an attribute of the group makes in the objects
    that hold it. *)
Definition update_groups (f : gmap Z Group -> gmap Z Group) (app : SimApplication)
    : SimApplication :=
  {| application_id := application_id app; application_name := application_name app;
     groups := f (groups app) |}.

Definition update_applications (f : gmap Z SimApplication -> gmap Z SimApplication)
    (net : Network) : Network :=
  {| network_id := network_id net; network_name := network_name net;
     applications := f (applications net) |}.

Definition update_group (n a g : Z) (f : Group -> Group) (ns : gmap Z Network)
    : gmap Z Network :=
  alter (update_applications (alter (update_groups (alter f g)) a)) n ns.

Definition set_group_level (n a g v now : Z) (s : SimulatorState)
    : SimulatorState * bool :=
  let v := Z.max 0 (Z.min 255 v) in
  match find_group n a g s with
  | Some _ =>
      (with_levels s (update_group n a g (set_level v now) (networks s))
         (<[g := v]> (light_states s)), true)
  | None => (with_levels s (networks s) (<[g := v]> (light_states s)), true)
  end.

(** The quick table, completed by the groups of the application. *)
Definition get_all_group_levels (n a : Z) (s : SimulatorState) : gmap Z Z :=
  match (net ← networks s !! n; applications net !! a) with
  | Some app => light_states s ∪ (level <$> groups app)
  | None => light_states s
  end.

(** ** History *)

(** [l[k:]] *)
Definition slice_from {A} (k : Z) (l : list A) : list A :=
  if k <? 0 then drop (Z.to_nat (len l + k)) l else drop (Z.to_nat k) l.

Definition log_command (command : string) (source : option string) (now : Z)
    (s : SimulatorState) : SimulatorState :=
  let h := command_history s ++
    [{| h_command := command; h_timestamp := now; h_source := source |}] in
  with_history s
    (if Z.of_nat max_command_history <? len h
     then slice_from (- Z.of_nat max_command_history) h else h).

Definition get_command_history (limit : option Z) (s : SimulatorState)
    : list history_entry :=
  match limit with
  | Some k => slice_from (- k) (command_history s)
  | None => command_history s
  end.

(** ** Reset *)

Definition zero_level (grp : Group) : Group := set_level 0 (last_updated grp) grp.

Definition reset (now : Z) (s : SimulatorState) : SimulatorState :=
  let s := with_levels s
    (update_applications (fmap (update_groups (fmap zero_level))) <$> networks s)
    ((fun _ => 0) <$> light_states s) in
  with_status s {| online := online (status s); last_reset := now; error_count := 0 |}.

(** ** Operations, as other parts call them *)

Inductive op :=
| Configure (c : config)
| SetLevel (n a g v : Z)
| Reset
| LogCommand (command : string) (source : option string)
| CountError.

(** [self.state.pci_status["error_count"] += 1], of [protocol.py] *)
Definition count_error (s : SimulatorState) : SimulatorState :=
  with_status s {| online := online (status s); last_reset := last_reset (status s);
                   error_count := error_count (status s) + 1 |}.

Definition run_op (o : op) (now : Z) (s : SimulatorState) : SimulatorState :=
  match o with
  | Configure c => apply_configuration c now s
  | SetLevel n a g v => (set_group_level n a g v now s).1
  | Reset => reset now s
  | LogCommand command source => log_command command source now s
  | CountError => count_error s
  end.

(** Operations with their times. *)
Definition run_ops (ops : list (op * Z)) (s : SimulatorState) : SimulatorState :=
  foldl (fun s '(o, now) => run_op o now s) s ops.

(** ** Well-formed states *)

Definition group_ok (k : Z) (g : Group) : Prop := group_id g = k /\ byte_ok (level g).

Definition application_ok (k : Z) (a : SimApplication) : Prop :=
  application_id a = k /\ map_Forall group_ok (groups a).

Definition network_ok (k : Z) (n : Network) : Prop :=
  network_id n = k /\ map_Forall application_ok (applications n).

Definition levels_ok (ls : gmap Z Z) : Prop := map_Forall (fun _ v => byte_ok v) ls.

Definition state_ok (s : SimulatorState) : Prop :=
  map_Forall network_ok (networks s) /\ levels_ok (light_states s) /\
  map_Forall (fun k u => unit_address u = k) (units s) /\
  (length (command_history s) <= max_command_history)%nat /\ 0 <= error_count (status s).

(** The levels of a configuration, which the code does not check. *)
Definition initial_level_ok (g : group_config) : Prop :=
  byte_ok (default 0 (gc_initial_level g)).

Definition config_ok (c : config) : Prop :=
  Forall (fun n => Forall (fun a => Forall initial_level_ok (ac_groups a)) (nc_applications n))
    (default [] (c_networks c)).

Definition op_ok (o : op) : Prop :=
  match o with Configure c => config_ok c | _ => True end.

(** *** Lemmas *)

Lemma foldl_invariant {A B} (P : A -> Prop) (Q : B -> Prop) (f : A -> B -> A) l a :
  (forall a b, P a -> Q b -> P (f a b)) -> Forall Q l -> P a -> P (foldl f a l).
Proof.
  intros Hf Hl. revert a. induction Hl as [|b l Hb Hl IH]; intros a Ha; [done|].
  apply IH, Hf; done.
Qed.

Lemma configure_group_ok now acc g :
  initial_level_ok g ->
  map_Forall group_ok acc.1 /\ levels_ok acc.2 ->
  map_Forall group_ok (configure_group now acc g).1 /\ levels_ok (configure_group now acc g).2.
Proof.
  intros Hg [H1 H2]. unfold configure_group. destruct (gc_id g) as [k|]; [|done].
  split; by apply map_Forall_insert_2.
Qed.

Lemma configure_application_ok now acc a :
  Forall initial_level_ok (ac_groups a) ->
  map_Forall application_ok acc.1 /\ levels_ok acc.2 ->
  map_Forall application_ok (configure_application now acc a).1 /\
  levels_ok (configure_application now acc a).2.
Proof.
  intros Ha [H1 H2]. unfold configure_application. destruct (ac_id a) as [k|]; [|done].
  pose proof (foldl_invariant
    (fun acc => map_Forall group_ok acc.1 /\ levels_ok acc.2) initial_level_ok
    (configure_group now) (ac_groups a) (∅, acc.2)) as H.
  destruct (foldl _ _ _) as [gs ls]. destruct H as [Hgs Hls]; [|done| |].
  - intros. by apply configure_group_ok.
  - split; [apply map_Forall_empty|done].
  - split; [by apply map_Forall_insert_2|done].
Qed.

Lemma configure_network_ok now acc n :
  Forall (fun a => Forall initial_level_ok (ac_groups a)) (nc_applications n) ->
  map_Forall network_ok acc.1 /\ levels_ok acc.2 ->
  map_Forall network_ok (configure_network now acc n).1 /\
  levels_ok (configure_network now acc n).2.
Proof.
  intros Hn [H1 H2]. unfold configure_network.
  pose proof (foldl_invariant
    (fun acc => map_Forall application_ok acc.1 /\ levels_ok acc.2)
    (fun a => Forall initial_level_ok (ac_groups a))
    (configure_application now) (nc_applications n) (∅, acc.2)) as H.
  destruct (foldl _ _ _) as [apps ls]. destruct H as [Ha Hls]; [|done| |].
  - intros. by apply configure_application_ok.
  - split; [apply map_Forall_empty|done].
  - split; [by apply map_Forall_insert_2|done].
Qed.

Lemma sim_init_ok now : state_ok (sim_init now).
Proof.
  assert (map_Forall group_ok (groups (default_lighting_app now))) as Hg.
  { unfold default_lighting_app. cbn [groups map list_to_map foldr fst snd].
    repeat (apply map_Forall_insert_2; [done|]). apply map_Forall_empty. }
  split; [|split; [|split; [|split]]]; [| |done|simpl; lia|done].
  - apply map_Forall_singleton. split; [done|]. apply map_Forall_singleton. by split.
  - unfold sim_init, levels_ok. cbn [light_states map list_to_map foldr fst snd].
    repeat (apply map_Forall_insert_2; [done|]). apply map_Forall_empty.
Qed.

Lemma apply_configuration_ok c now s :
  config_ok c -> state_ok s -> state_ok (apply_configuration c now s).
Proof.
  intros Hc Hs. unfold apply_configuration.
  set (s1 := match c_device c with Some d => _ | None => s end).
  assert (state_ok s1) as H1 by (unfold s1; by destruct (c_device c)). clearbody s1.
  set (s2 := match c_networks c with Some ns => _ | None => _ end).
  assert (state_ok s2) as H2.
  { unfold s2, config_ok in *. destruct (c_networks c) as [ns|]; [|apply sim_init_ok].
    pose proof (foldl_invariant
      (fun acc => map_Forall network_ok acc.1 /\ levels_ok acc.2)
      (fun n => Forall (fun a => Forall initial_level_ok (ac_groups a)) (nc_applications n))
      (configure_network now) ns (∅, ∅)) as H.
    destruct (foldl _ _ _) as [nets ls]. destruct H as [Hn Hls]; [|done| |].
    - intros. by apply configure_network_ok.
    - split; apply map_Forall_empty.
    - destruct H1 as (_ & _ & H1). by split; [|split]. }
  clearbody s2.
  set (s3 := match c_units c with Some us => _ | None => s2 end).
  assert (state_ok s3) as H3.
  { unfold s3. destruct (c_units c) as [us|]; [|done].
    destruct H2 as (Ha & Hb & Hu & Hd). split; [done|]. split; [done|]. split; [|done].
    apply (foldl_invariant (map_Forall (fun k u => unit_address u = k)) (fun _ => True));
      [|by apply Forall_true|done].
    intros m u Hm _. unfold configure_unit. destruct (uc_address u); [|done].
    by apply map_Forall_insert_2. }
  clearbody s3. by destruct (c_simulation c).
Qed.

Lemma map_Forall_alter {A} (P : Z -> A -> Prop) f k (m : gmap Z A) :
  (forall x, P k x -> P k (f x)) -> map_Forall P m -> map_Forall P (alter f k m).
Proof.
  intros Hf Hm i x. destruct (decide (i = k)) as [->|Hne].
  - rewrite lookup_alter_eq. intros (y & Hy & ->)%fmap_Some. by apply Hf, Hm.
  - rewrite lookup_alter_ne by done. apply Hm.
Qed.

Lemma map_Forall_fmap_self {A} (P : Z -> A -> Prop) f (m : gmap Z A) :
  (forall k x, P k x -> P k (f x)) -> map_Forall P m -> map_Forall P (f <$> m).
Proof.
  intros Hf Hm k x. rewrite lookup_fmap. intros (y & Hy & ->)%fmap_Some. by apply Hf, Hm.
Qed.

Lemma clamp_byte v : byte_ok (Z.max 0 (Z.min 255 v)).
Proof. unfold byte_ok. lia. Qed.

Lemma set_group_level_ok n a g v now s :
  state_ok s -> state_ok (set_group_level n a g v now s).1.
Proof.
  intros (Hn & Hl & H). unfold set_group_level.
  assert (levels_ok (<[g := Z.max 0 (Z.min 255 v)]> (light_states s))) as Hl'
    by (apply map_Forall_insert_2; [apply clamp_byte|done]).
  destruct (find_group n a g s); (split; [|by split]); [|done].
  cbn [networks with_levels fst]. apply map_Forall_alter; [|done].
  intros net [E Hnet]. split; [done|]. apply map_Forall_alter; [|done].
  intros app [E' Happ]. split; [done|]. apply map_Forall_alter; [|done].
  intros grp [E'' Hgrp]. split; [done|]. apply clamp_byte.
Qed.

Lemma reset_ok now s : state_ok s -> state_ok (reset now s).
Proof.
  intros (Hn & Hl & Hu & Hh & He). split; [|split; [|split; [done|split; [done|done]]]].
  - cbn [networks reset with_levels with_status]. apply map_Forall_fmap_self; [|done].
    intros k net [E Hnet]. split; [done|]. apply map_Forall_fmap_self; [|done].
    intros k' app [E' Happ]. split; [done|]. apply map_Forall_fmap_self; [|done].
    intros k'' grp [E'' Hgrp]. by split.
  - cbn [light_states reset with_levels with_status]. intros k v.
    rewrite lookup_fmap. by intros (w & _ & ->)%fmap_Some.
Qed.

Lemma log_command_ok command source now s :
  state_ok s -> state_ok (log_command command source now s).
Proof.
  intros (Hn & Hl & Hu & Hh & He).
  split; [done|]. split; [done|]. split; [done|]. split; [|done].
  unfold log_command, slice_from, len, max_command_history in *. cbn [command_history with_history].
  rewrite length_app. cbn [length].
  destruct (Z.ltb_spec (Z.of_nat 100) (Z.of_nat (length (command_history s) + 1))).
  - change (- Z.of_nat 100 <? 0) with true. cbn iota. rewrite length_drop, length_app. cbn [length]. lia.
  - rewrite length_app. cbn [length]. lia.
Qed.

Lemma run_op_ok o now s : op_ok o -> state_ok s -> state_ok (run_op o now s).
Proof.
  destruct o; cbn [op_ok run_op]; intros Ho Hs.
  - by apply apply_configuration_ok.
  - by apply set_group_level_ok.
  - by apply reset_ok.
  - by apply log_command_ok.
  - destruct Hs as (? & ? & ? & ? & ?). repeat (split; [done|]). cbn. lia.
Qed.

(** ** What the levels say *)

(** The level that a sequence of operations leaves in a group that had level
    [v], where [mine n a g] says whether a setting is for the group. *)
Definition level_after (mine : Z -> Z -> Z -> bool) (v : Z) (ops : list (op * Z)) : Z :=
  foldl (fun v '(o, _) =>
    match o with
    | SetLevel n a g w => if mine n a g then Z.max 0 (Z.min 255 w) else v
    | Reset => 0
    | _ => v
    end) v ops.

(** The group of a network and an application. *)
Definition this_group (n a g n' a' g' : Z) : bool := (n' =? n) && (a' =? a) && (g' =? g).

(** A group number, in any application. *)
Definition this_number (g n' a' g' : Z) : bool := g' =? g.

Definition is_configure (o : op) : bool :=
  match o with Configure _ => true | _ => false end.

(** *** Lemmas *)

Lemma find_group_some n a g s :
  find_group n a g s = net ← networks s !! n; app ← applications net !! a; groups app !! g.
Proof. done. Qed.

Lemma find_update_group n a g f n' a' g' s ls :
  find_group n' a' g' (with_levels s (update_group n a g f (networks s)) ls) =
  if this_group n' a' g' n a g then f <$> find_group n' a' g' s else find_group n' a' g' s.
Proof.
  unfold this_group, update_group. rewrite !find_group_some. cbn [networks with_levels].
  destruct (Z.eqb_spec n n') as [->|Hn]; [|by rewrite lookup_alter_ne].
  rewrite lookup_alter_eq. destruct (networks s !! n') as [net|]; [|by destruct (_ && _)].
  cbn [fmap option_fmap option_map mbind option_bind]. cbn [applications update_applications].
  destruct (Z.eqb_spec a a') as [->|Ha]; [|by rewrite lookup_alter_ne].
  rewrite lookup_alter_eq. destruct (applications net !! a') as [app|]; [|by destruct (_ && _)].
  cbn [fmap option_fmap option_map mbind option_bind]. cbn [groups update_groups].
  destruct (Z.eqb_spec g g') as [->|Hg]; [|by rewrite lookup_alter_ne].
  by rewrite lookup_alter_eq.
Qed.

Lemma find_reset n a g now s :
  find_group n a g (reset now s) = zero_level <$> find_group n a g s.
Proof.
  rewrite !find_group_some. cbn [networks reset with_levels with_status].
  rewrite lookup_fmap. destruct (networks s !! n) as [net|]; [|done].
  cbn [fmap option_fmap option_map mbind option_bind applications update_applications].
  rewrite lookup_fmap. destruct (applications net !! a) as [app|]; [|done].
  cbn [fmap option_fmap option_map mbind option_bind groups update_groups].
  apply lookup_fmap.
Qed.

(** What one operation does to a group and to the quick table. *)
Lemma run_op_level n a g o now s :
  is_configure o = false ->
  find_group n a g (run_op o now s) =
    (fun grp => match o with
                | SetLevel n' a' g' v =>
                    if this_group n a g n' a' g' then set_level (Z.max 0 (Z.min 255 v)) now grp
                    else grp
                | Reset => zero_level grp
                | _ => grp
                end) <$> find_group n a g s.
Proof.
  intros Ho. assert (forall h, find_group n a g s = (fun grp => grp) <$> find_group n a g s ->
    find_group n a g (with_history s h) = (fun grp => grp) <$> find_group n a g s) as Hh by done.
  assert (find_group n a g s = (fun grp => grp) <$> find_group n a g s) as Hid
    by by destruct (find_group n a g s).
  destruct o as [c|n' a' g' v| |cmd src|]; [done| | |by apply Hh|exact Hid]; cbn [run_op].
  - unfold set_group_level. destruct (find_group n' a' g' s) as [grp|] eqn:E; cbn [fst].
    + rewrite find_update_group. destruct (this_group n a g n' a' g'); [done|].
      by destruct (find_group n a g s).
    + change (find_group n a g (with_levels s (networks s) _)) with (find_group n a g s).
      destruct (this_group n a g n' a' g') eqn:Et; [|by destruct (find_group n a g s)].
      unfold this_group in Et. apply andb_true_iff in Et as [[->%Z.eqb_eq ->%Z.eqb_eq]%andb_true_iff
        ->%Z.eqb_eq]. by rewrite E.
  - apply find_reset.
Qed.

Lemma run_op_quick g o now s v :
  is_configure o = false -> light_states s !! g = Some v ->
  light_states (run_op o now s) !! g =
    Some (level_after (this_number g) v [(o, now)]).
Proof.
  intros Ho Hv. unfold level_after. cbn [foldl].
  destruct o as [c|n' a' g' w| |cmd src|]; [done| | |done|done]; cbn [run_op].
  - unfold set_group_level, this_number.
    assert (<[g' := Z.max 0 (Z.min 255 w)]> (light_states s) !! g =
      Some (if g' =? g then Z.max 0 (Z.min 255 w) else v)) as H.
    { destruct (Z.eqb_spec g' g) as [->|]; [by rewrite lookup_insert_eq|].
      by rewrite lookup_insert_ne. }
    by destruct (find_group n' a' g' s).
  - cbn [light_states reset with_levels with_status]. by rewrite lookup_fmap, Hv.
Qed.

(** A configured group has the level it was last given. After any settings,
    resets and log entries, the level of a group of the configuration is the
    last level set for exactly this network, application and group, clamped to a
    byte, or zero after a reset, or else the level it had; a group that is not
    configured is never found and reads as zero, whatever was set for it; the
    quick table has one entry per group number, the last level set for that
    number in any application. *)
Lemma run_ops_levels n a g ops s :
  Forall (fun '(o, _) => is_configure o = false) ops ->
  match find_group n a g s with
  | Some grp => get_group_level n a g (run_ops ops s) =
                  level_after (this_group n a g) (level grp) ops
  | None => find_group n a g (run_ops ops s) = None /\ get_group_level n a g (run_ops ops s) = 0
  end /\
  forall v, light_states s !! g = Some v ->
    light_states (run_ops ops s) !! g = Some (level_after (this_number g) v ops).
Proof.
  intros Hops. split.
  - assert (option_map level (find_group n a g (run_ops ops s)) =
      option_map (fun grp => level_after (this_group n a g) (level grp) ops) (find_group n a g s))
      as H.
    { revert s. induction Hops as [|[o t] ops Ho Hops IH]; intros s.
      { change (run_ops [] s) with s. by destruct (find_group n a g s). }
      cbn [run_ops foldl]. change (foldl _ ?s ops) with (run_ops ops s). rewrite IH.
      rewrite run_op_level by done. destruct (find_group n a g s) as [grp|]; [|done].
      cbn [fmap option_fmap option_map]. unfold level_after. cbn [foldl].
      destruct o; try done. by destruct (this_group _ _ _ _ _ _). }
    unfold get_group_level. destruct (find_group n a g s), (find_group n a g (run_ops ops s));
      cbn [option_map] in H; try done. by injection H.
  - revert s. induction Hops as [|[o t] ops Ho Hops IH]; intros s v Hv; [done|].
    cbn [run_ops foldl]. change (foldl _ ?s ops) with (run_ops ops s).
    erewrite IH; [|by apply run_op_quick]. done.
Qed.

Lemma run_ops_ok ops s :
  state_ok s -> Forall (fun '(o, _) => op_ok o) ops -> state_ok (run_ops ops s).
Proof.
  intros Hs Hops. apply (foldl_invariant state_ok (fun '(o, _) => op_ok o)); [|done|done].
  intros s' [o t] Hs' Ho. by apply run_op_ok.
Qed.

(** ** Consequences *)

(** A configuration without networks resets the whole object, the device
    information it has just set included. *)
Lemma device_forgotten c now s :
  c_networks c = None -> device_info (apply_configuration c now s) = default_device.
Proof.
  intros H. unfold apply_configuration. rewrite H.
  by destruct (c_units c), (c_simulation c).
Qed.

(** A group set in one application shows up in the levels of another. *)
Example levels_of_other_application :
  let s := (set_group_level 254 48 1 200 0 (sim_init 0)).1 in
  get_all_group_levels 254 56 s !! 1 = Some 200 /\ get_group_level 254 56 1 s = 0.
Proof. by vm_compute. Qed.
