(* ===== verification/SimParse.v ===== *)
(** * Text for binary: [preprocess_cbus_data] of [cbus-simulator/simulator/protocol.py]

    The converters from commands written as text with backslashes to the bytes
    they stand for. A text is its list of code points. The code distinguishes
    [bytes] from [bytearray] objects, so data are tagged with their class. *)

From S2P Require Import Prelude Common Hex Text.
From Stdlib Require Import String.
From stdpp Require Import list options.

Local Open Scope string_scope.
Local Open Scope list_scope.
Local Open Scope Z_scope.

(** ** Definitions *)

(** A [bytes] or a [bytearray] object. *)
Inductive py_data :=
| PyBytes (b : bytes)
| PyBytearray (b : bytes).

Definition contents (d : py_data) : bytes :=
  match d with PyBytes b | PyBytearray b => b end.

(** [str.isspace] of an ASCII character, which [int] ignores around digits. *)
Definition space_code (c : Z) : bool :=
  ((9 <=? c) && (c <=? 13)) || ((28 <=? c) && (c <=? 32)).

(** [int(s, 16)] of a text of two ASCII characters. *)
Definition int16 (a b : Z) : result Z :=
  match xdigit_value a, xdigit_value b with
  | Some h, Some l => Ok (16 * h + l)
  | Some h, None => if space_code b then Ok h else Raise ValueError
  | None, Some l =>
      if space_code a || (a =? 43) then Ok l
      else if a =? 45 then Ok (- l)
      else Raise ValueError
  | None, None => Raise ValueError
  end.

(** [bytearray.append(v)] *)
Definition append_byte (r : bytes) (v : Z) : result bytes :=
  if byte_okb v then Ok (r ++ [v]) else Raise ValueError.

Definition is_lower (c : Z) : bool := (97 <=? c) && (c <=? 122).
Definition is_upper (c : Z) : bool := (65 <=? c) && (c <=? 90).
Definition is_digit (c : Z) : bool := (48 <=? c) && (c <=? 57).

(** [str.isalpha] and [str.isalnum] of an ASCII character. *)
Definition is_alpha (c : Z) : bool := is_lower c || is_upper c.
Definition is_alnum (c : Z) : bool := is_alpha c || is_digit c.

(** An error of decoding gives the empty text. *)
Definition _clean_ascii_bytes (data : bytes) : bytes :=
  let s := List.filter (fun c => negb (c =? 10)) (List.filter (fun c => negb (c =? 13)) data) in
  if forallb (fun c => c <? 128) s then s else [].

(** Where the text goes on after a character that does not start a pair, or
    after a pair. *)
Fixpoint backslash_pairs (s : bytes) : bytes :=
  match s with
  | [] => []
  | c :: rest =>
      match rest with
      | a :: ((b :: rest') as tail) =>
          if c =? 92 then
            match (v ← int16 a b; append_byte [] v) with
            | Ok r => r ++ backslash_pairs rest'
            | Raise _ => backslash_pairs rest
            end
          else backslash_pairs rest
      | _ => backslash_pairs rest
      end
  end.

Definition _parse_backslash_pairs (hex_str : bytes) : option bytes :=
  match backslash_pairs hex_str with [] => None | r => Some r end.

(** The numbers of the pairs that are hexadecimal. *)
Fixpoint _hex_pairs (sub : bytes) : list Z :=
  match sub with
  | a :: b :: sub =>
      match int16 a b with
      | Ok v => v :: _hex_pairs sub
      | Raise _ => _hex_pairs sub
      end
  | _ => []
  end.

(** The index of the terminator letter, if any. *)
Definition payload_end (hex_str : bytes) : nat :=
  match last hex_str with
  | Some c =>
      if is_alpha c then length hex_str - 1
      else default (length hex_str) (find_sub [104] hex_str)
  | None => 0
  end.

Definition SLASH05 : bytes := [92; 48; 53].

Definition _parse_slash05_format (hex_str : bytes) : result (option bytes) :=
  if negb (startswith SLASH05 hex_str) then Ok None
  else
    match drop 3 hex_str with
    | a :: b :: _ =>
        match int16 a b with
        | Raise _ => Ok None
        | Ok cmd_byte =>
            r ← append_byte [0x05] cmd_byte;
            more ← mk_bytes (_hex_pairs (slice 5 (payload_end hex_str) hex_str));
            let r := r ++ more in
            Ok (if (2 <? length r)%nat then Some r else None)
        end
    | _ => Ok None
    end.

(** Any pairs of letters and digits. *)
Fixpoint alnum_pairs (s : bytes) : bytes :=
  match s with
  | a :: b :: s =>
      match (if is_alnum a && is_alnum b then v ← int16 a b; append_byte [] v
             else Raise ValueError) with
      | Ok r => r ++ alnum_pairs s
      | Raise _ => alnum_pairs s
      end
  | _ => []
  end.

Definition _parse_hex_pairs_no_backslash (hex_str : bytes) : option bytes :=
  let r := 0x05 :: alnum_pairs (if startswith [92] hex_str then drop 1 hex_str else hex_str) in
  if (1 <? length r)%nat then Some r else None.

(** Only [bytes] objects are looked at. *)
Definition preprocess_cbus_data (data : py_data) : py_data :=
  match data with
  | PyBytearray _ => data
  | PyBytes b =>
      if negb (byte_in 92 b) then data
      else
        match _clean_ascii_bytes b with
        | [] => data
        | hex_str =>
            match _parse_slash05_format hex_str with
            | Raise _ => data
            | Ok (Some r) => PyBytearray r
            | Ok None =>
                match _parse_backslash_pairs hex_str with
                | Some ((_ :: _ :: _ :: _) as r) => PyBytearray r
                | _ =>
                    match _parse_hex_pairs_no_backslash hex_str with
                    | Some r => PyBytearray r
                    | None => data
                    end
                end
            end
        end
  end.

(** ** Lemmas *)

Lemma int16_hex_byte b :
  byte_ok b -> int16 (hex_digit (Z.shiftr b 4)) (hex_digit (Z.land b 0xf)) = Ok b.
Proof.
  intros Hb. assert (match int16 (hex_digit (Z.shiftr b 4)) (hex_digit (Z.land b 0xf)) with
    | Ok v => v =? b | Raise _ => false end = true) as H.
  { revert b Hb. apply byte_forall. vm_compute. reflexivity. }
  destruct (int16 _ _) as [v|]; [|done]. by apply Z.eqb_eq in H as ->.
Qed.

Lemma hex_pairs_b16encode s : bytes_ok s -> _hex_pairs (b16encode s) = s.
Proof.
  induction 1 as [|b s Hb Hs IH]; [done|]. rewrite b16encode_cons. cbn [_hex_pairs].
  by rewrite int16_hex_byte, IH.
Qed.

Lemma filter_id_forall (f : Z -> bool) s : Forall (fun c => f c = true) s -> List.filter f s = s.
Proof. induction 1 as [|c s Hc Hs IH]; [done|]. cbn [List.filter]. by rewrite Hc, IH. Qed.

(** Printable text is not changed by cleaning. *)
Lemma clean_ascii_id s :
  Forall (fun c => 14 <= c < 128) s -> _clean_ascii_bytes s = s.
Proof.
  intros Hs. unfold _clean_ascii_bytes.
  rewrite (filter_id_forall (fun c => negb (c =? 13))), filter_id_forall.
  - assert (forallb (fun c => c <? 128) s = true) as ->; [|done].
    apply forallb_forall. intros c Hc%list_elem_of_In. rewrite Forall_forall in Hs.
    specialize (Hs c Hc). lia.
  - eapply Forall_impl; [exact Hs|]. simpl. intros c Hc. lia.
  - eapply Forall_impl; [exact Hs|]. simpl. intros c Hc. lia.
Qed.

(** The text of bytes that start with 0x05, with a code at its end. *)
Lemma slash05_wire cmd body k :
  byte_ok cmd -> bytes_ok body -> body <> [] -> is_alpha k = true ->
  _parse_slash05_format ([92] ++ b16encode (0x05 :: cmd :: body) ++ [k]) =
    Ok (Some (0x05 :: cmd :: body)).
Proof.
  intros Hc Hb Hne Hk. unfold _parse_slash05_format.
  set (line := [92] ++ _ ++ [k]).
  assert (line = ([92; 48; 53] ++ [hex_digit (Z.shiftr cmd 4); hex_digit (Z.land cmd 0xf)]) ++
    b16encode body ++ [k]) as El by done.
  change (startswith SLASH05 line) with true.
  change (drop 3 line) with
    (hex_digit (Z.shiftr cmd 4) :: hex_digit (Z.land cmd 0xf) :: b16encode body ++ [k]).
  cbn [negb]. cbn iota. rewrite int16_hex_byte by done. unfold append_byte.
  rewrite (proj2 (byte_okb_spec cmd)) by done. rewrite bind_Ok.
  assert (payload_end line = 5 + length (b16encode body))%nat as Ep.
  { unfold payload_end. rewrite El. rewrite app_assoc, last_snoc, Hk, length_app. simpl. lia. }
  assert (slice 5 (payload_end line) line = b16encode body) as ->.
  { rewrite Ep, El. unfold slice. rewrite drop_app_ge by done.
    replace (5 + length (b16encode body) - 5)%nat with (length (b16encode body)) by lia.
    apply take_app_length. }
  rewrite hex_pairs_b16encode, mk_bytes_ok, bind_Ok by done. cbn [app length].
  destruct body as [|x body]; [done|]. done.
Qed.

(** ** What the converter reads *)

(** The converter reads the commands of the library. From a [bytes] object
    with a command as the library writes it, a backslash, the hexadecimal text of
    a packet that starts with 0x05, and a letter as confirmation code, it makes
    exactly the bytes of the packet; a [bytearray] object is returned as it is. *)
Lemma preprocess_reads_commands cmd body k data :
  byte_ok cmd -> bytes_ok body -> body <> [] -> is_alpha k = true ->
  preprocess_cbus_data (PyBytes ([92] ++ b16encode (0x05 :: cmd :: body) ++ [k])) =
    PyBytearray (0x05 :: cmd :: body) /\
  preprocess_cbus_data (PyBytearray data) = PyBytearray data.
Proof.
  intros Hc Hb Hne Hk. split; [|done]. unfold preprocess_cbus_data.
  assert (bytes_ok (0x05 :: cmd :: body)) as Hall
    by (constructor; [unfold byte_ok; lia|by constructor]).
  rewrite clean_ascii_id; last first.
  { apply Forall_app. split; [by repeat constructor|]. apply Forall_app. split.
    - apply Forall_forall. intros c Hin%b16encode_elem; [lia|done].
    - constructor; [|constructor]. unfold is_alpha, is_lower, is_upper in Hk. lia. }
  change (byte_in 92 ([92] ++ b16encode (0x05 :: cmd :: body) ++ [k])) with true.
  pose proof (slash05_wire cmd body k Hc Hb Hne Hk) as Hw.
  cbn [negb app] in Hw |- *. cbn iota. by rewrite Hw.
Qed.

(** As [bytes], and as the [bytearray] the protocol passes. *)
Example preprocess_reads_commands_on :
  preprocess_cbus_data (PyBytes (txt "\053800790148h")) =
    PyBytearray [0x05; 0x38; 0x00; 0x79; 0x01; 0x48] /\
  preprocess_cbus_data (PyBytearray (txt "\053800790148h")) =
    PyBytearray (txt "\053800790148h").
Proof. by vm_compute. Qed.

(** Without a code the last hexadecimal letter of a command is taken for one. *)
Example last_digit_lost :
  preprocess_cbus_data (PyBytes (txt "\05380079034A")) =
    PyBytearray [0x05; 0x38; 0x00; 0x79; 0x03].
Proof. by vm_compute. Qed.
