(* ===== verification/Simulator.v ===== *)
(** * The stand-alone simulator: [cbus-simulator/simulator/protocol.py], [server.py]

    [PCISimulatorProtocol], one connection of a client: the lines it sends, the
    commands in them, written as text or as bytes, and what is written back. The
    state is shared by all connections ([SimState]). A handler is a method that
    may raise; the delay before a command, which is random, changes nothing it
    reads or writes, so that a command runs at one time, [now]. *)

From S2P Require Import Prelude Common Hex Text SimState SimParse.
From Stdlib Require Import String Ascii.
From stdpp Require Import strings gmap options.

Local Open Scope string_scope.
Local Open Scope list_scope.
Local Open Scope Z_scope.

(** ** Patterns *)

(** What the regular expressions of the file are made of: [(#)?], [(\d+)],
    [(\d{n})] and literals. *)
Inductive re_token :=
| OptHash
| Digits
| DigitsN (n : nat)
| Lit (s : string).

(** The length of the digits a text starts with. *)
Fixpoint digit_run (s : string) : nat :=
  match s with
  | String c s => match digit_value c with Some _ => S (digit_run s) | None => 0 end
  | EmptyString => 0
  end.

(** [re.match] of a pattern between [^] and [$]: the groups. Digits are taken
    greedily, and given back when the rest does not match. The texts matched are
    stripped, so that [$] stands for the end. *)
Fixpoint re_match (p : list re_token) (s : string) : option (list (option string)) :=
  match p with
  | [] => match s with EmptyString => Some [] | String _ _ => None end
  | OptHash :: p =>
      let without := cons None <$> re_match p s in
      match s with
      | String c s' =>
          if Ascii.eqb c "#" then
            match re_match p s' with
            | Some gs => Some (Some "#" :: gs)
            | None => without
            end
          else without
      | EmptyString => without
      end
  | Digits :: p =>
      (fix digits (k : nat) : option (list (option string)) :=
         match k with
         | O => None
         | S k' =>
             match re_match p (str_drop k s) with
             | Some gs => Some (Some (str_take k s) :: gs)
             | None => digits k'
             end
         end) (digit_run s)
  | DigitsN n :: p =>
      if (n <=? digit_run s)%nat
      then cons (Some (str_take n s)) <$> re_match p (str_drop n s) else None
  | Lit l :: p =>
      if String.prefix l s then re_match p (str_drop (String.length l) s) else None
  end.

Definition RESET_PATTERN : list re_token := [Lit "~~~"].
Definition BASIC_MODE_PATTERN : list re_token := [Lit "X"].
Definition SMART_MODE_PATTERN : list re_token := [Lit "Y"].

(** [^(#)?(\d+)//(\d+)A(\d+)...$] *)
Definition application_pattern (rest : list re_token) : list re_token :=
  [OptHash; Digits; Lit "//"; Digits; Lit "A"; Digits] ++ rest.

Definition LIGHTING_ON_PATTERN : list re_token := application_pattern [Lit "N"; Digits].
Definition LIGHTING_OFF_PATTERN : list re_token := application_pattern [Lit "F"; Digits].
Definition LIGHTING_RAMP_PATTERN : list re_token :=
  application_pattern [Lit "R"; Digits; Lit "D"; Digits].
Definition STATUS_REQUEST_PATTERN : list re_token := application_pattern [Lit "G"; Digits].
Definition CLOCK_UPDATE_PATTERN : list re_token :=
  [OptHash; Digits; Lit "//223A201T"; DigitsN 2; DigitsN 2; DigitsN 2; DigitsN 2; DigitsN 2;
   DigitsN 2; Lit "W"; DigitsN 1].
Definition IDENTIFY_PATTERN : list re_token :=
  [OptHash; Digits; Lit "//"; Digits; Lit "I"; Digits; Lit "A"; Digits].
Definition MMI_REQUEST_PATTERN : list re_token :=
  [OptHash; Digits; Lit "//"; Digits; Lit "MMI"; Digits].

(** ** Connections *)

Record protocol := {
  sp_buffer : bytes;
  sp_smart_mode : bool;
  sp_source_address : Z;
  sp_confirmation_index : nat;
  sp_client_id : string;
  sp_written : list bytes (* every [writer.write], oldest first *)
}.

Definition SIM_END_COMMAND : bytes := [13; 10].
Definition SIM_CONFIRMATION_CODES : bytes := txt "hijklmnopqrstuvwxyzg".
Definition BASIC_MODE_PROMPT : bytes := [62].
Definition SMART_MODE_NO_ECHO : bytes := [43].

(** [PCISimulatorProtocol.__init__] *)
Definition protocol_init (client_id : string) (s : SimulatorState) : protocol :=
  {| sp_buffer := []; sp_smart_mode := state_smart_mode s;
     sp_source_address := default_source_address (simulation_settings s);
     sp_confirmation_index := 0; sp_client_id := client_id; sp_written := [] |}.

(** A method of a connection, with the shared state. *)
Definition sim (A : Type) : Type :=
  protocol * SimulatorState -> (protocol * SimulatorState) * result A.

#[export] Instance sim_ret : MRet sim := fun A a w => (w, Ok a).
#[export] Instance sim_bind : MBind sim :=
  fun A B f x w =>
    match x w with
    | (w, Ok a) => f a w
    | (w, Raise e) => (w, Raise e)
    end.

Definition raising {A} (r : result A) : sim A := fun w => (w, r).

(** A change of the shared state, and a read of it. *)
Definition update {A} (f : SimulatorState -> SimulatorState * A) : sim A :=
  fun '(p, s) => let '(s, a) := f s in ((p, s), Ok a).
Definition asks {A} (f : protocol -> SimulatorState -> A) : sim A :=
  fun '(p, s) => ((p, s), Ok (f p s)).

Definition with_buffer (b : bytes) (p : protocol) : protocol :=
  {| sp_buffer := b; sp_smart_mode := sp_smart_mode p;
     sp_source_address := sp_source_address p;
     sp_confirmation_index := sp_confirmation_index p; sp_client_id := sp_client_id p;
     sp_written := sp_written p |}.

Definition with_smart_mode (m : bool) (p : protocol) : protocol :=
  {| sp_buffer := sp_buffer p; sp_smart_mode := m; sp_source_address := sp_source_address p;
     sp_confirmation_index := sp_confirmation_index p; sp_client_id := sp_client_id p;
     sp_written := sp_written p |}.

Definition with_index (i : nat) (p : protocol) : protocol :=
  {| sp_buffer := sp_buffer p; sp_smart_mode := sp_smart_mode p;
     sp_source_address := sp_source_address p; sp_confirmation_index := i;
     sp_client_id := sp_client_id p; sp_written := sp_written p |}.

Definition add_written (d : bytes) (p : protocol) : protocol :=
  {| sp_buffer := sp_buffer p; sp_smart_mode := sp_smart_mode p;
     sp_source_address := sp_source_address p;
     sp_confirmation_index := sp_confirmation_index p; sp_client_id := sp_client_id p;
     sp_written := sp_written p ++ [d] |}.

(** A change of the connection. *)
Definition modify (f : protocol -> protocol) : sim unit :=
  fun '(p, s) => ((f p, s), Ok tt).

(** ** Writing *)

Definition _write (data : bytes) : sim unit := modify (add_written data).

(** [self._write(text.encode('ascii'))] *)
Definition write_text (s : string) : sim unit :=
  b ← raising (encode_ascii (txt s)); _write b.

Definition prompt (smart : bool) : bytes :=
  if smart then SMART_MODE_NO_ECHO ++ SIM_END_COMMAND else BASIC_MODE_PROMPT.

Definition _send_prompt : sim unit :=
  smart ← asks (fun p _ => sp_smart_mode p); _write (prompt smart).

Definition _get_confirmation_code : sim Z :=
  i ← asks (fun p _ => sp_confirmation_index p);
  code ← raising (item SIM_CONFIRMATION_CODES i);
  _ ← modify (with_index ((i + 1) mod length SIM_CONFIRMATION_CODES)%nat);
  mret code.

Definition _send_confirmation (code : Z) (success : bool) : sim unit :=
  _ ← _write ([code] ++ [if success then 46 else 33] ++ SIM_END_COMMAND);
  _send_prompt.

Definition crlf : string := String "013" (String "010" "").

Definition _send_error (error_type cmd : string) : sim unit :=
  _ ← update (fun s => (count_error s, tt));
  _ ← write_text ("!" +:+ error_type +:+ ": " +:+ cmd +:+ crlf);
  _send_prompt.

Inductive event_type := EvOn | EvOff | EvRamp (l : Z).

(** [f"{source}//{network}"] *)
Definition route_text (source_addr network_id : Z) : string :=
  str_int source_addr +:+ "//" +:+ str_int network_id.

(** [f"{source}//{network}A{application}"] *)
Definition address_text (source_addr network_id application_id : Z) : string :=
  route_text source_addr network_id +:+ "A" +:+ str_int application_id.

Definition _broadcast_lighting_event (network_id application_id group_id : Z)
    (ev : event_type) (source_addr : Z) : sim unit :=
  write_text (address_text source_addr network_id application_id +:+
    match ev with
    | EvOn => "N" +:+ str_int group_id
    | EvOff => "F" +:+ str_int group_id
    | EvRamp l => "R" +:+ str_int group_id +:+ "L" +:+ str_int l
    end +:+ crlf).

Definition _send_status_response (network_id application_id group_id l : Z) : sim unit :=
  source_address ← asks (fun p _ => sp_source_address p);
  write_text (address_text source_address network_id application_id +:+
    (if l =? 0 then "F" +:+ str_int group_id
     else if l =? 255 then "N" +:+ str_int group_id
     else "L" +:+ str_int group_id +:+ "=" +:+ str_int l) +:+ crlf).

(** The answer to an identify request. *)
Definition identify_text (network_id attribute : Z) (s : SimulatorState) : string :=
  if attribute =? 0 then "5500CN"
  else if attribute =? 1 then firmware_version (device_info s)
  else if attribute =? 2 then
    match networks s !! network_id with
    | Some net => network_name net
    | None => "Default Network"
    end
  else "Unknown".

Definition quote : string := String "034" "".

Definition _send_identify_response (network_id unit_address attribute : Z) : sim unit :=
  source_address ← asks (fun p _ => sp_source_address p);
  text ← asks (fun _ s => identify_text network_id attribute s);
  write_text (route_text source_address network_id +:+ "IC" +:+ str_int unit_address +:+
    "A" +:+ str_int attribute +:+ "=" +:+ quote +:+ text +:+ quote +:+ crlf).

(** ** Text commands *)

(** [match.group(n)] and [int(match.group(n))] *)
Definition group (m : list (option string)) (n : nat) : option string :=
  default None (m !! (n - 1)%nat).

Definition int_group (m : list (option string)) (n : nat) : sim Z :=
  raising (match group m n with Some s => int_of_str s | None => Raise TypeError end).

(** [match.group(1) == "#"] *)
Definition confirm_flag (m : list (option string)) : bool :=
  bool_decide (group m 1 = Some "#").

(** The confirmation, if it is requested. *)
Definition confirm_if (flag success : bool) : sim unit :=
  if flag then code ← _get_confirmation_code; _send_confirmation code success
  else mret tt.

Definition _handle_reset (now : Z) : sim unit :=
  _ ← update (fun s => (reset now s, tt));
  _ ← _write (txt ("OK" +:+ crlf));
  _send_prompt.

Definition _handle_basic_mode : sim unit :=
  _ ← modify (with_smart_mode false);
  _ ← _write (txt ("OK" +:+ crlf));
  _send_prompt.

Definition _handle_smart_mode : sim unit :=
  _ ← modify (with_smart_mode true);
  _ ← _write (txt ("OK" +:+ crlf));
  _send_prompt.

(** The part the three lighting handlers share. *)
Definition handle_lighting (m : list (option string)) (l : Z) (ev : event_type)
    (source_addr network_id application_id group_id now : Z) : sim unit :=
  success ← update (set_group_level network_id application_id group_id l now);
  _ ← confirm_if (confirm_flag m) success;
  _broadcast_lighting_event network_id application_id group_id ev source_addr.

Definition _handle_lighting_on (m : list (option string)) (now : Z) : sim unit :=
  source_addr ← int_group m 2;
  network_id ← int_group m 3;
  application_id ← int_group m 4;
  group_id ← int_group m 5;
  handle_lighting m 255 EvOn source_addr network_id application_id group_id now.

Definition _handle_lighting_off (m : list (option string)) (now : Z) : sim unit :=
  source_addr ← int_group m 2;
  network_id ← int_group m 3;
  application_id ← int_group m 4;
  group_id ← int_group m 5;
  handle_lighting m 0 EvOff source_addr network_id application_id group_id now.

Definition _handle_lighting_ramp (m : list (option string)) (now : Z) : sim unit :=
  source_addr ← int_group m 2;
  network_id ← int_group m 3;
  application_id ← int_group m 4;
  group_id ← int_group m 5;
  duration ← int_group m 6;
  let level := 128 in
  handle_lighting m level (EvRamp level) source_addr network_id application_id group_id now.

Definition _handle_status_request (m : list (option string)) : sim unit :=
  source_addr ← int_group m 2;
  network_id ← int_group m 3;
  application_id ← int_group m 4;
  group_id ← int_group m 5;
  level ← asks (fun _ s => get_group_level network_id application_id group_id s);
  _ ← confirm_if (confirm_flag m) true;
  _send_status_response network_id application_id group_id level.

Definition _handle_clock_update (m : list (option string)) : sim unit :=
  source_addr ← int_group m 2;
  hours ← int_group m 3;
  minutes ← int_group m 4;
  seconds ← int_group m 5;
  day ← int_group m 6;
  month ← int_group m 7;
  year ← int_group m 8;
  day_of_week ← int_group m 9;
  confirm_if (confirm_flag m) true.

Definition _handle_identify (m : list (option string)) : sim unit :=
  source_addr ← int_group m 2;
  network_id ← int_group m 3;
  unit_address ← int_group m 4;
  attribute ← int_group m 5;
  _ ← confirm_if (confirm_flag m) true;
  _send_identify_response network_id unit_address attribute.

Definition _handle_mmi_request (m : list (option string)) : sim unit :=
  source_addr ← int_group m 2;
  network_id ← int_group m 3;
  application_id ← int_group m 4;
  confirm_if (confirm_flag m) true.

(** The patterns that are tried, in order, with their handlers. *)
Definition COMMANDS : list (list re_token * (list (option string) -> Z -> sim unit)) :=
  [(RESET_PATTERN, fun _ now => _handle_reset now);
   (BASIC_MODE_PATTERN, fun _ _ => _handle_basic_mode);
   (SMART_MODE_PATTERN, fun _ _ => _handle_smart_mode);
   (LIGHTING_ON_PATTERN, _handle_lighting_on);
   (LIGHTING_OFF_PATTERN, _handle_lighting_off);
   (LIGHTING_RAMP_PATTERN, _handle_lighting_ramp);
   (STATUS_REQUEST_PATTERN, fun m _ => _handle_status_request m);
   (CLOCK_UPDATE_PATTERN, fun m _ => _handle_clock_update m);
   (IDENTIFY_PATTERN, fun m _ => _handle_identify m);
   (MMI_REQUEST_PATTERN, fun m _ => _handle_mmi_request m)].

Fixpoint first_match (l : list (list re_token * (list (option string) -> Z -> sim unit)))
    (cmd : string) : option (Z -> sim unit) :=
  match l with
  | [] => None
  | (p, handler) :: l =>
      match re_match p cmd with
      | Some m => Some (handler m)
      | None => first_match l cmd
      end
  end.

Definition _process_command (cmd : string) (now : Z) : sim unit :=
  match first_match COMMANDS cmd with
  | Some handler => handler now
  | None => _send_error "Unknown command" cmd
  end.

(** ** Binary commands *)

(** The fixed replies. *)
Definition ACK : bytes := [0x05; 0x86; 0x00; 0x01; 0x00; 0x00; 0x00; 0x01; 0x00].
Definition INIT_ACK : bytes := [0x05; 0x86; 0x00; 0x02; 0x00; 0x00; 0x00; 0x00; 0x00].
Definition UNKNOWN_ACK : bytes := [0x05; 0x86; 0x00; 0x01; 0x00; 0x00; 0x00; 0x00; 0x00].
Definition CODE_ACK : bytes := [0x05; 0x86; 0x00; 0x01; 0x00; 0x00; 0x00; 0x01].

(** The number at two characters of a text, or the default. *)
Definition hex_at (s : bytes) (i : nat) (dflt : Z) : Z :=
  match drop i s with
  | a :: b :: _ => match int16 a b with Ok v => v | Raise _ => dflt end
  | _ => dflt
  end.

(** A lighting command found in the text: group and level are read at fixed
    distances from the command type. *)
Definition string_lighting (ascii_str data : bytes) (pos : nat) (now : Z) : sim bytes :=
  let group_addr := hex_at ascii_str (pos + 4) 1 in
  let level := hex_at ascii_str (pos + 6) 255 in
  _ ← update (set_group_level 254 56 group_addr level now);
  match last data with
  | Some c =>
      if byte_in c SIM_CONFIRMATION_CODES then
        _ ← _write ([c] ++ [46] ++ SIM_END_COMMAND);
        _ ← _send_prompt;
        mret []
      else mret ACK
  | None => mret ACK
  end.

(** The bytes of a command. The test for command type 0x38 that follows in the
    code looks at a variable that is still zero there. *)
Definition binary_message (data : bytes) (now : Z) : sim bytes :=
  match data with
  | [] => mret UNKNOWN_ACK
  | d0 :: _ =>
      if d0 =? 0x05 then
        let cmd_type := default 0 (data !! 1%nat) in
        if cmd_type =? 0xdf then mret INIT_ACK
        else
          _ ← (if (cmd_type =? 0xff) && (6 <=? length data)%nat &&
                  (default 0 (data !! 3%nat) =? 56) && (6 <? length data)%nat &&
                  (default 0 (data !! 4%nat) =? 0x38)
               then
                 _ ← update (set_group_level 254 (default 0 (data !! 3%nat))
                               (default 0 (data !! 5%nat)) (default 0 (data !! 6%nat)) now);
                 mret tt
               else mret tt);
          mret (CODE_ACK ++ drop (length data - 1) data)
      else mret UNKNOWN_ACK
  end.

Definition _handle_binary_command (data : py_data) (now : Z) : sim bytes :=
  let ascii_str := List.filter (fun c => c <? 128) (contents data) in
  match find_sub SLASH05 ascii_str with
  | Some p =>
      let data :=
        match contents (preprocess_cbus_data data) with
        | c :: _ => if c =? 0x05 then preprocess_cbus_data data else data
        | [] => data
        end in
      let cmd_type_pos := (p + 3)%nat in
      match drop cmd_type_pos ascii_str with
      | a :: b :: _ =>
          match int16 a b with
          | Ok cmd_type =>
              if (cmd_type =? 0x38) || (cmd_type =? 0xff)
              then string_lighting ascii_str (contents data) cmd_type_pos now
              else binary_message (contents data) now
          | Raise _ => binary_message (contents data) now
          end
      | _ => binary_message (contents data) now
      end
  | None => binary_message (contents data) now
  end.

(** ** The buffer of a connection *)

(** A command in text, up to the delay: it is logged. *)
Definition start_text (cmd_bytes : bytes) (now : Z) : sim string :=
  let cmd := str_strip (text_of (List.filter (fun c => c <? 128) cmd_bytes)) in
  client_id ← asks (fun p _ => sp_client_id p);
  _ ← update (fun s => (log_command cmd (Some client_id) now s, tt));
  mret cmd.

(** The rest of it, after the delay. *)
Definition finish_text (cmd : string) (now : Z) : sim unit :=
  smart ← asks (fun p _ => sp_smart_mode p);
  _ ← (if smart : bool then mret tt
       else b ← raising (encode_ascii (txt cmd)); _write (b ++ SIM_END_COMMAND));
  _process_command cmd now.

(** Where the next command ends, and the length of its end: a carriage return
    with a line feed anywhere in the buffer comes first. *)
Definition command_end (buf : bytes) : option (nat * nat) :=
  match find_sub SIM_END_COMMAND buf with
  | Some e => Some (e, length SIM_END_COMMAND)
  | None => match find_sub [13] buf with Some e => Some (e, 1%nat) | None => None end
  end.

(** [_process_buffer], up to the next delay: the text of the command that waits,
    or none when no complete command is left. The buffer holds [bytearray]s, and
    so do its slices. *)
Fixpoint process_lines (fuel : nat) (now : Z) : sim (option string) :=
  buf ← asks (fun p _ => sp_buffer p);
  match command_end buf with
  | None => mret None
  | Some (cmd_end, end_len) =>
      match fuel with
      | O => raising (Raise OutOfFuel)
      | S fuel =>
          _ ← modify (with_buffer (drop (cmd_end + end_len) buf));
          match take cmd_end buf with
          | [] => process_lines fuel now
          | cmd_bytes =>
              if startswith [92] cmd_bytes then
                response ← _handle_binary_command
                             (preprocess_cbus_data (PyBytearray cmd_bytes)) now;
                _ ← _write response;
                process_lines fuel now
              else
                cmd ← start_text cmd_bytes now;
                mret (Some cmd)
          end
      end
  end.

(** Every turn takes a byte off the buffer. *)
Definition _process_buffer (now : Z) : sim (option string) := fun w =>
  process_lines (length (sp_buffer w.1)) now w.

(** ** The server *)

(** A connection, with the command whose delay its task sleeps in. *)
Record sim_client := { sc_protocol : protocol; sc_waiting : option string }.

Record sim_server := {
  srv_state : SimulatorState;
  srv_clients : gmap nat sim_client
}.

(** [CBusSimulatorServer.__init__] and [load_configuration]: [None] stands for a
    file that is missing or not JSON. *)
Definition server_init (c : option config) (now : Z) : sim_server :=
  {| srv_state := match c with
                  | Some c => apply_configuration c now (sim_init now)
                  | None => sim_init now
                  end;
     srv_clients := ∅ |}.

(** A client connects; a read of its connection returns data; its delay is over. *)
Inductive server_event :=
| Connected (c : nat) (client_id : string)
| DataRead (c : nat) (data : bytes)
| DelayOver (c : nat).

(** Where the task of a connection stops again; an exception ends it. *)
Definition settle (c : nat) (sv : sim_server)
    (r : (protocol * SimulatorState) * result (option string)) : sim_server :=
  match r with
  | ((p, s), Ok waiting) =>
      {| srv_state := s;
         srv_clients := <[c := {| sc_protocol := p; sc_waiting := waiting |}]> (srv_clients sv) |}
  | ((p, s), Raise _) => {| srv_state := s; srv_clients := delete c (srv_clients sv) |}
  end.

(** [handle_client] and [process_client], from one wait to the next. A task waits
    either for data or for a delay; an event of the other kind does not happen. *)
Definition server_step (ev : server_event) (now : Z) (sv : sim_server) : sim_server :=
  match ev with
  | Connected c client_id =>
      settle c sv ((_ ← _send_prompt; mret None : sim (option string))
                     (protocol_init client_id (srv_state sv), srv_state sv))
  | DataRead c data =>
      match srv_clients sv !! c, data with
      | Some {| sc_protocol := p; sc_waiting := None |}, [] =>
          {| srv_state := srv_state sv; srv_clients := delete c (srv_clients sv) |}
      | Some {| sc_protocol := p; sc_waiting := None |}, _ :: _ =>
          settle c sv (_process_buffer now (with_buffer (sp_buffer p ++ data) p, srv_state sv))
      | _, _ => sv
      end
  | DelayOver c =>
      match srv_clients sv !! c with
      | Some {| sc_protocol := p; sc_waiting := Some cmd |} =>
          settle c sv ((_ ← finish_text cmd now; _process_buffer now) (p, srv_state sv))
      | _ => sv
      end
  end.

Definition server_run (evs : list (server_event * Z)) (sv : sim_server) : sim_server :=
  foldl (fun sv '(ev, now) => server_step ev now sv) sv evs.

(** ** The language of a pattern *)

Fixpoint all_digits (s : string) : bool :=
  match s with
  | String c s => (if digit_value c then true else false) && all_digits s
  | EmptyString => true
  end.

(** The texts a pattern describes, whatever way they are found. *)
Inductive matches : list re_token -> string -> Prop :=
| m_nil : matches [] ""
| m_no_hash p s : matches p s -> matches (OptHash :: p) s
| m_hash p s : matches p s -> matches (OptHash :: p) (String "#" s)
| m_digits p d s :
    all_digits d = true -> d <> "" -> matches p s -> matches (Digits :: p) (d +:+ s)
| m_digits_n p n d s :
    all_digits d = true -> String.length d = n -> matches p s -> matches (DigitsN n :: p) (d +:+ s)
| m_lit p l s : matches p s -> matches (Lit l :: p) (l +:+ s).

(** *** Lemmas *)

#[local] Arguments String.append !_ _ / : simpl nomatch.

Lemma str_take_drop n s : str_take n s +:+ str_drop n s = s.
Proof. revert s. induction n as [|n IH]; intros [|c s]; simpl; [done|done|done|]. by rewrite IH. Qed.

Lemma str_take_length n s : (n <= String.length s)%nat -> String.length (str_take n s) = n.
Proof.
  revert s. induction n as [|n IH]; intros [|c s]; simpl; intros H; [done|done|lia|].
  rewrite IH; lia.
Qed.

Lemma str_take_app_length a b : str_take (String.length a) (a +:+ b) = a.
Proof. induction a as [|c a IH]; simpl; [by destruct b|]. by rewrite IH. Qed.

Lemma digit_run_length s : (digit_run s <= String.length s)%nat.
Proof. induction s as [|c s IH]; simpl; [done|]. destruct (digit_value c); lia. Qed.

Lemma digit_run_take k s : (k <= digit_run s)%nat -> all_digits (str_take k s) = true.
Proof.
  revert s. induction k as [|k IH]; intros [|c s]; simpl; intros H; [done|done|done|].
  destruct (digit_value c); [|lia]. simpl. apply IH. lia.
Qed.

Lemma digit_run_app d s :
  all_digits d = true -> digit_run (d +:+ s) = (String.length d + digit_run s)%nat.
Proof.
  induction d as [|c d IH]; simpl; [done|]. destruct (digit_value c); [|done].
  intros H. by rewrite IH.
Qed.

Lemma str_prefix_inv a s : String.prefix a s = true -> s = a +:+ str_drop (String.length a) s.
Proof.
  revert s. induction a as [|x a IH]; intros [|y s]; simpl; intros H; [done|done|done|].
  destruct (ascii_dec x y) as [->|]; [|done]. f_equal. by apply IH.
Qed.

Lemma re_match_matches p s gs : re_match p s = Some gs -> matches p s.
Proof.
  revert s gs. induction p as [|[| |n|l] p IH]; intros s gs H; cbn [re_match] in H.
  - destruct s; [constructor|done].
  - assert (forall gs, cons None <$> re_match p s = Some gs -> matches (OptHash :: p) s) as Hw.
    { intros gs' (g & Hg & _)%fmap_Some. by eapply m_no_hash, IH. }
    destruct s as [|c s]; [by apply Hw in H|].
    destruct (Ascii.eqb_spec c "#") as [->|]; [|by apply Hw in H].
    destruct (re_match p s) as [g|] eqn:E; [by eapply m_hash, IH|by apply Hw in H].
  - assert (forall k, (k <= digit_run s)%nat ->
      (fix digits (k : nat) : option (list (option string)) :=
         match k with
         | O => None
         | S k' => match re_match p (str_drop k s) with
                   | Some gs => Some (Some (str_take k s) :: gs)
                   | None => digits k'
                   end
         end) k = Some gs -> matches (Digits :: p) s) as Hd; [|by apply Hd in H].
    induction k as [|k IHk]; intros Hk Hm; [done|]. cbn beta iota in Hm.
    destruct (re_match p (str_drop (S k) s)) as [g|] eqn:E; [|apply IHk; [lia|exact Hm]].
    rewrite <- (str_take_drop (S k) s). apply m_digits; [by apply digit_run_take| |by eapply IH].
    destruct s; [simpl in Hk; lia|done].
  - destruct (Nat.leb_spec n (digit_run s)) as [Hn|]; [|done].
    apply fmap_Some in H as (g & Hg & _). rewrite <- (str_take_drop n s).
    apply m_digits_n; [by apply digit_run_take| |by eapply IH].
    apply str_take_length. pose proof (digit_run_length s). lia.
  - destruct (String.prefix l s) eqn:E; [|done]. rewrite (str_prefix_inv l s E).
    by eapply m_lit, IH.
Qed.

Lemma matches_re_match p s : matches p s -> is_Some (re_match p s).
Proof.
  induction 1 as [|p s _ [g IH]|p s _ [g IH]|p d s Hd Hne _ [g IH]|p n d s Hd Hn _ [g IH]
                 |p l s _ [g IH]]; cbn [re_match].
  - by eexists.
  - rewrite IH. destruct s as [|c s]; [by eexists|]. destruct (Ascii.eqb c "#"); [|by eexists].
    destruct (re_match p s); by eexists.
  - rewrite IH. by eexists.
  - assert (forall k, (String.length d <= k)%nat -> is_Some
      ((fix digits (k : nat) : option (list (option string)) :=
         match k with
         | O => None
         | S k' => match re_match p (str_drop k (d +:+ s)) with
                   | Some gs => Some (Some (str_take k (d +:+ s)) :: gs)
                   | None => digits k'
                   end
         end) k)) as Hk; [|apply Hk; rewrite digit_run_app by done; lia].
    induction k as [|k IHk]; intros Hl; [destruct d; [done|simpl in Hl; lia]|].
    cbn beta iota. destruct (re_match p (str_drop (S k) (d +:+ s))) as [g'|] eqn:E; [by eexists|].
    apply IHk. destruct (decide (String.length d = S k)) as [Hdk|]; [|lia].
    by rewrite <- Hdk, str_drop_app, IH in E.
  - rewrite digit_run_app, Hn by done. rewrite (proj2 (Nat.leb_le _ _)) by lia.
    rewrite <- Hn, str_drop_app, IH. by eexists.
  - rewrite str_prefix_app, str_drop_app. by eexists.
Qed.

Lemma re_match_language p s : is_Some (re_match p s) <-> matches p s.
Proof. split; [intros [g H]; by eapply re_match_matches|apply matches_re_match]. Qed.

(** The language of the text commands. *)
Definition text_language (cmd : string) : Prop :=
  exists p, p ∈ map fst COMMANDS /\ matches p cmd.

Lemma first_match_language l cmd :
  is_Some (first_match l cmd) <-> exists p, p ∈ map fst l /\ matches p cmd.
Proof.
  induction l as [|[p h] l IH]; cbn [first_match map fst].
  - split; [by intros []|]. intros (p & H & _). by apply not_elem_of_nil in H.
  - destruct (re_match p cmd) as [m|] eqn:E.
    + split; [|by eexists]. intros _. exists p. split; [apply list_elem_of_here|].
      by eapply re_match_matches.
    + rewrite IH. split; intros (q & Hq & Hm); exists q; (split; [|done]).
      * by apply list_elem_of_further.
      * apply elem_of_cons in Hq as [->|Hq]; [|done].
        apply matches_re_match in Hm as [m Hm]. congruence.
Qed.

(** ** Methods *)

(** The index of the next code is one. *)
Definition protocol_ok (p : protocol) : Prop :=
  (sp_confirmation_index p < length SIM_CONFIRMATION_CODES)%nat.

Lemma sim_bind_ok {A B} (x : sim A) (f : A -> sim B) w w' a :
  x w = (w', Ok a) -> (x ≫= f) w = f a w'.
Proof. intros E. unfold mbind, sim_bind. by rewrite E. Qed.

(** The next step of a handler, by the lemma for it. *)
Ltac sim_step tac := erewrite sim_bind_ok; [|tac].
