(* ===== verification/SimText.v ===== *)
(** * Text commands of the stand-alone simulator

    The commands clients write ([Simulator]), as data: how they are written, what
    each one means for the shared state and for the connection that sent it, and
    that connections whose tasks interleave at their delays run them one at a
    time. *)

From S2P Require Import Prelude Common Hex Text SimState SimParse Simulator.
From Stdlib Require Import String Ascii.
From stdpp Require Import strings gmap options.

Local Open Scope string_scope.
Local Open Scope list_scope.
Local Open Scope Z_scope.

#[local] Arguments String.append !_ _ / : simpl nomatch.

(** ** Commands as clients write them *)

Inductive text_command :=
| TReset
| TBasic
| TSmart
| TOn (flag : bool) (source network application grp : Z)
| TOff (flag : bool) (source network application grp : Z)
| TRamp (flag : bool) (source network application grp duration : Z)
| TStatus (flag : bool) (source network application grp : Z)
| TClock (flag : bool) (source : Z) (fields : list string) (weekday : string)
| TIdentify (flag : bool) (source network unit attribute : Z)
| TMmi (flag : bool) (source network application : Z).

Definition hash (flag : bool) : string := if flag then "#" else "".

(** [[#]source//], and [[#]source//networkAapplication] *)
Definition from_text (flag : bool) (source : Z) (rest : string) : string :=
  hash flag +:+ str_int source +:+ "//" +:+ rest.

Definition application_text (flag : bool) (source network application : Z) (rest : string)
    : string :=
  from_text flag source (str_int network +:+ "A" +:+ str_int application +:+ rest).

Definition render (c : text_command) : string :=
  match c with
  | TReset => "~~~"
  | TBasic => "X"
  | TSmart => "Y"
  | TOn f s n a g => application_text f s n a ("N" +:+ str_int g)
  | TOff f s n a g => application_text f s n a ("F" +:+ str_int g)
  | TRamp f s n a g d => application_text f s n a ("R" +:+ str_int g +:+ "D" +:+ str_int d)
  | TStatus f s n a g => application_text f s n a ("G" +:+ str_int g)
  | TClock f s fields w =>
      from_text f s ("223A201T" +:+ foldr String.append "" fields +:+ "W" +:+ w)
  | TIdentify f s n u a => from_text f s (str_int n +:+ "I" +:+ str_int u +:+ "A" +:+ str_int a)
  | TMmi f s n a => from_text f s (str_int n +:+ "MMI" +:+ str_int a)
  end.

(** The numbers of a command. *)
Definition number_ok (n : Z) : Prop := 0 <= n < 2 ^ 64.

Definition field_ok (k : nat) (d : string) : Prop :=
  all_digits d = true /\ String.length d = k.

Definition command_ok (c : text_command) : Prop :=
  match c with
  | TReset | TBasic | TSmart => True
  | TOn _ s n a g | TOff _ s n a g | TStatus _ s n a g =>
      number_ok s /\ number_ok n /\ number_ok a /\ number_ok g
  | TRamp _ s n a g d =>
      number_ok s /\ number_ok n /\ number_ok a /\ number_ok g /\ number_ok d
  | TClock _ s fields w =>
      number_ok s /\ length fields = 6%nat /\ Forall (field_ok 2) fields /\ field_ok 1 w
  | TIdentify _ s n u a => number_ok s /\ number_ok n /\ number_ok u /\ number_ok a
  | TMmi _ s n a => number_ok s /\ number_ok n /\ number_ok a
  end.

(** *** Lemmas: matching rendered commands *)

Lemma digits_value_all acc s v : digits_value acc s = Some v -> all_digits s = true.
Proof.
  revert acc. induction s as [|c s IH]; intros acc H; [done|]. cbn [digits_value all_digits] in *.
  destruct (digit_value c); [|done]. by eapply IH.
Qed.

Lemma all_digits_value acc s : all_digits s = true -> exists v, digits_value acc s = Some v.
Proof.
  revert acc. induction s as [|c s IH]; intros acc H; [by eexists|].
  cbn [digits_value all_digits] in *. destruct (digit_value c); [|done]. by apply IH.
Qed.

Lemma number_text n :
  number_ok n -> all_digits (str_int n) = true /\ str_int n <> "" /\ int_of_str (str_int n) = Ok n.
Proof.
  intros Hn. unfold number_ok in Hn. split; [|split; [|apply int_of_str_int; lia]];
    unfold str_int; rewrite (proj2 (Z.ltb_ge _ _)) by lia.
  - apply (digits_value_all 0 _ n), str_nat_value. lia.
  - pose proof (str_nat_length n Hn) as [H _]. intros E. rewrite E in H. simpl in H. lia.
Qed.

(** A pattern that does not go on with a digit. *)
Definition no_digit (p : list re_token) : Prop :=
  forall c s, digit_value c <> None -> re_match p (String c s) = None.

Lemma re_digits p d rest :
  no_digit p -> all_digits d = true -> d <> "" -> digit_run rest = 0%nat ->
  re_match (Digits :: p) (d +:+ rest) = cons (Some d) <$> re_match p rest.
Proof.
  intros Hp Hd Hne Hr. cbn [re_match]. rewrite digit_run_app, Hr, Nat.add_0_r by done.
  assert (forall k, (k < String.length d)%nat ->
    (fix digits (k : nat) : option (list (option string)) :=
       match k with
       | O => None
       | S k' => match re_match p (str_drop k (d +:+ rest)) with
                 | Some gs => Some (Some (str_take k (d +:+ rest)) :: gs)
                 | None => digits k'
                 end
       end) k = None) as Hlt.
  { induction k as [|k IHk]; intros Hk; [done|]. cbn beta iota.
    assert (forall e k, all_digits e = true -> (k < String.length e)%nat ->
      exists c s, str_drop k (e +:+ rest) = String c s /\ digit_value c <> None) as Hdrop.
    { clear. induction e as [|c e IH]; intros k Hd Hk; [simpl in Hk; lia|].
      cbn [all_digits] in Hd. destruct (digit_value c) eqn:Ec; [|done].
      destruct k as [|k]; [eexists c, _; split; [done|congruence]|].
      simpl. apply IH; [done|]. simpl in Hk. lia. }
    destruct (Hdrop d (S k) Hd Hk) as (c & s & -> & Hc). rewrite Hp by done. apply IHk. lia. }
  destruct (String.length d) as [|k] eqn:El; [by destruct d|]. cbn beta iota.
  rewrite <- El, str_drop_app, str_take_app_length.
  destruct (re_match p rest); [done|]. apply Hlt. lia.
Qed.

Lemma no_digit_nil : no_digit [].
Proof. done. Qed.

Lemma no_digit_lit c l p : digit_value c = None -> no_digit (Lit (String c l) :: p).
Proof.
  intros Hc x s Hx. cbn [re_match]. simpl. destruct (ascii_dec c x) as [->|]; [done|done].
Qed.

Lemma digit_run_lit c s : digit_value c = None -> digit_run (String c s) = 0%nat.
Proof. intros H. simpl. by rewrite H. Qed.

Lemma re_lit l p s : re_match (Lit l :: p) (l +:+ s) = re_match p s.
Proof. cbn [re_match]. by rewrite str_prefix_app, str_drop_app. Qed.

Lemma re_lit_no c l p x s :
  c <> x -> re_match (Lit (String c l) :: p) (String x s) = None.
Proof. intros H. cbn [re_match]. simpl. by destruct (ascii_dec c x). Qed.

Lemma re_digits_n p d rest :
  all_digits d = true ->
  re_match (DigitsN (String.length d) :: p) (d +:+ rest) = cons (Some d) <$> re_match p rest.
Proof.
  intros Hd. cbn [re_match]. rewrite digit_run_app, (proj2 (Nat.leb_le _ _)) by (done || lia).
  by rewrite str_drop_app, str_take_app_length.
Qed.

Lemma re_hash p flag d rest :
  all_digits d = true -> d <> "" ->
  re_match (OptHash :: Digits :: p) (hash flag +:+ d +:+ rest) =
    cons (if flag then Some "#" else None) <$> re_match (Digits :: p) (d +:+ rest).
Proof.
  intros Hd Hne. destruct flag; cbn [hash].
  - assert (re_match (Digits :: p) (String "#" (d +:+ rest)) = None) as Hn by done.
    change ("#" +:+ d +:+ rest) with (String "#" (d +:+ rest)).
    set (q := Digits :: p) in *. cbn [re_match].
    change (Ascii.eqb "#" "#") with true. cbn iota. destruct (re_match q (d +:+ rest)); [done|].
    by rewrite Hn.
  - destruct d as [|c d]; [done|]. cbn [all_digits] in Hd.
    destruct (digit_value c) as [v|] eqn:Ec; [|done].
    change ("" +:+ String c d +:+ rest) with (String c (d +:+ rest)).
    change (String c d +:+ rest) with (String c (d +:+ rest)).
    set (q := Digits :: p) in *. cbn [re_match].
    destruct (Ascii.eqb_spec c "#") as [->|]; [discriminate Ec|done].
Qed.

(** What the patterns that start with the source do with a command. *)
Lemma re_from p flag source rest :
  number_ok source ->
  re_match (OptHash :: Digits :: Lit "//" :: p) (from_text flag source rest) =
    (fun gs => (if flag then Some "#" else None) :: Some (str_int source) :: gs)
      <$> re_match p rest.
Proof.
  intros Hs. destruct (number_text source Hs) as (Hd & Hne & _). unfold from_text.
  rewrite re_hash, re_digits; [|by apply no_digit_lit|done|done|by apply digit_run_lit|done|done].
  rewrite (re_lit "//"). by destruct (re_match p rest).
Qed.

(** A number before a letter. *)
Lemma re_number p n c rest :
  number_ok n -> digit_value c = None -> no_digit p ->
  re_match (Digits :: p) (str_int n +:+ String c rest) =
    cons (Some (str_int n)) <$> re_match p (String c rest).
Proof.
  intros Hn Hc Hp. destruct (number_text n Hn) as (Hd & Hne & _).
  apply re_digits; [done|done|done|by apply digit_run_lit].
Qed.

Lemma re_number_end n :
  number_ok n -> re_match [Digits] (str_int n) = Some [Some (str_int n)].
Proof.
  intros Hn. destruct (number_text n Hn) as (Hd & Hne & _).
  rewrite <- (str_app_nil (str_int n)) at 1. by rewrite re_digits.
Qed.

Lemma re_application rest flag source network application c tail :
  number_ok source -> number_ok network -> number_ok application -> digit_value c = None ->
  no_digit rest ->
  re_match (application_pattern rest)
    (application_text flag source network application (String c tail)) =
  (fun gs => [if flag then Some "#" else None; Some (str_int source); Some (str_int network);
              Some (str_int application)] ++ gs) <$> re_match rest (String c tail).
Proof.
  intros Hs Hn Ha Hc Hr. unfold application_pattern, application_text.
  cbn [app]. rewrite re_from by done.
  change ("A" +:+ str_int application +:+ String c tail)
    with (String "A" (str_int application +:+ String c tail)).
  rewrite re_number; [|done|done|by apply no_digit_lit].
  change (String "A" (str_int application +:+ String c tail))
    with ("A" +:+ (str_int application +:+ String c tail)).
  rewrite re_lit, re_number by done. by destruct (re_match rest (String c tail)).
Qed.

(** *** What is captured, and by which handler *)

Definition flag_group (flag : bool) : option string := if flag then Some "#" else None.

Definition captured (c : text_command) : list (option string) :=
  match c with
  | TReset | TBasic | TSmart => []
  | TOn f s n a g | TOff f s n a g | TStatus f s n a g =>
      [flag_group f; Some (str_int s); Some (str_int n); Some (str_int a); Some (str_int g)]
  | TRamp f s n a g d =>
      [flag_group f; Some (str_int s); Some (str_int n); Some (str_int a); Some (str_int g);
       Some (str_int d)]
  | TClock f s fields w => [flag_group f; Some (str_int s)] ++ map Some fields ++ [Some w]
  | TIdentify f s n u a =>
      [flag_group f; Some (str_int s); Some (str_int n); Some (str_int u); Some (str_int a)]
  | TMmi f s n a => [flag_group f; Some (str_int s); Some (str_int n); Some (str_int a)]
  end.

Definition handler_of (c : text_command) : Z -> sim unit :=
  match c with
  | TReset => _handle_reset
  | TBasic => fun _ => _handle_basic_mode
  | TSmart => fun _ => _handle_smart_mode
  | TOn _ _ _ _ _ => _handle_lighting_on (captured c)
  | TOff _ _ _ _ _ => _handle_lighting_off (captured c)
  | TRamp _ _ _ _ _ _ => _handle_lighting_ramp (captured c)
  | TStatus _ _ _ _ _ => fun _ => _handle_status_request (captured c)
  | TClock _ _ _ _ => fun _ => _handle_clock_update (captured c)
  | TIdentify _ _ _ _ _ => fun _ => _handle_identify (captured c)
  | TMmi _ _ _ _ => fun _ => _handle_mmi_request (captured c)
  end.

(** A text that starts with a source is not a mode command. *)
Lemma re_from_lit x l p flag source rest :
  number_ok source -> x <> "#"%char -> digit_value x = None ->
  re_match (Lit (String x l) :: p) (from_text flag source rest) = None.
Proof.
  intros Hs Hx Hd. destruct (number_text source Hs) as (Hall & Hne & _).
  unfold from_text. destruct flag; cbn [hash]; [by apply re_lit_no|].
  destruct (str_int source) as [|c d]; [done|]. apply re_lit_no. intros ->.
  cbn [all_digits] in Hall. by rewrite Hd in Hall.
Qed.

Ltac not_mode :=
  unfold COMMANDS, RESET_PATTERN, BASIC_MODE_PATTERN, SMART_MODE_PATTERN;
  cbn [first_match]; rewrite !re_from_lit by done.

(** Another letter after the application. *)
Lemma re_application_no flag source network application x l p c tail :
  number_ok source -> number_ok network -> number_ok application ->
  digit_value x = None -> digit_value c = None -> x <> c ->
  re_match (application_pattern (Lit (String x l) :: p))
    (application_text flag source network application (String c tail)) = None.
Proof.
  intros Hs Hn Ha Hx Hc Hne. rewrite re_application by (done || by apply no_digit_lit).
  by rewrite re_lit_no.
Qed.

(** The same letter, and the group. *)
Lemma re_application_group flag source network application c n :
  number_ok source -> number_ok network -> number_ok application -> number_ok n ->
  digit_value c = None ->
  re_match (application_pattern [Lit (String c ""); Digits])
    (application_text flag source network application (String c (str_int n))) =
  Some [flag_group flag; Some (str_int source); Some (str_int network);
        Some (str_int application); Some (str_int n)].
Proof.
  intros Hs Hn Ha Hg Hc. rewrite re_application by (done || by apply no_digit_lit).
  change (String c (str_int n)) with (String c "" +:+ str_int n).
  by rewrite re_lit, re_number_end.
Qed.

Lemma re_application_ramp flag source network application n d :
  number_ok source -> number_ok network -> number_ok application -> number_ok n ->
  number_ok d ->
  re_match LIGHTING_RAMP_PATTERN
    (application_text flag source network application
       ("R" +:+ str_int n +:+ "D" +:+ str_int d)) =
  Some [flag_group flag; Some (str_int source); Some (str_int network);
        Some (str_int application); Some (str_int n); Some (str_int d)].
Proof.
  intros Hs Hn Ha Hg Hd. unfold LIGHTING_RAMP_PATTERN.
  change ("R" +:+ str_int n +:+ "D" +:+ str_int d)
    with (String "R" (str_int n +:+ String "D" (str_int d))).
  rewrite re_application by (done || by apply no_digit_lit).
  change (String "R" (str_int n +:+ String "D" (str_int d)))
    with ("R" +:+ (str_int n +:+ String "D" (str_int d))).
  rewrite re_lit, re_number by (done || by apply no_digit_lit).
  change (String "D" (str_int d)) with ("D" +:+ str_int d).
  by rewrite re_lit, re_number_end.
Qed.

(** A literal of digits and a letter against a number and another letter. *)
Lemma prefix_number_no d c l n x rest :
  all_digits d = true -> digit_value c = None -> all_digits n = true ->
  digit_value x = None -> c <> x ->
  String.prefix (d +:+ String c l) (n +:+ String x rest) = false.
Proof.
  intros Hd Hc Hn Hx Hne. revert n Hn. induction d as [|y d IH]; intros n Hn.
  - destruct n as [|z n]; simpl.
    + by destruct (ascii_dec c x).
    + destruct (ascii_dec c z) as [->|]; [|done]. cbn [all_digits] in Hn. by rewrite Hc in Hn.
  - cbn [all_digits] in Hd. destruct (digit_value y) as [v|] eqn:Ey; [|done].
    destruct n as [|z n]; simpl.
    + destruct (ascii_dec y x) as [->|]; [congruence|done].
    + destruct (ascii_dec y z) as [->|]; [|done]. apply IH; [done|].
      cbn [all_digits] in Hn. by destruct (digit_value z).
Qed.

(** The pattern of a clock update against another route. *)
Lemma re_clock_no flag source n x rest :
  number_ok source -> number_ok n -> digit_value x = None -> x <> "A"%char ->
  re_match CLOCK_UPDATE_PATTERN (from_text flag source (str_int n +:+ String x rest)) = None.
Proof.
  intros Hs Hn Hx Hne. destruct (number_text source Hs) as (Hd & Hne' & _).
  destruct (number_text n Hn) as (Hdn & _ & _).
  unfold CLOCK_UPDATE_PATTERN, from_text.
  rewrite re_hash, re_digits; [|by apply no_digit_lit|done|done|by apply digit_run_lit|done|done].
  cbn [re_match].
  assert (String.prefix "//223A201T" ("//" +:+ (str_int n +:+ String x rest)) = false) as ->; [|done].
  change (String.prefix "//223A201T" ("//" +:+ (str_int n +:+ String x rest)))
    with (String.prefix ("223" +:+ String "A" "201T") (str_int n +:+ String x rest)).
  by apply prefix_number_no.
Qed.

Lemma re_clock flag source fields w :
  number_ok source -> length fields = 6%nat -> Forall (field_ok 2) fields -> field_ok 1 w ->
  re_match CLOCK_UPDATE_PATTERN (render (TClock flag source fields w)) =
    Some (captured (TClock flag source fields w)).
Proof.
  intros Hs Hl Hf [Hw Hwl]. destruct (number_text source Hs) as (Hd & Hne & _).
  unfold CLOCK_UPDATE_PATTERN, render, from_text.
  rewrite re_hash, re_digits; [|by apply no_digit_lit|done|done|by apply digit_run_lit|done|done].
  change ("//" +:+ "223A201T" +:+ foldr String.append "" fields +:+ "W" +:+ w)
    with ("//223A201T" +:+ (foldr String.append "" fields +:+ "W" +:+ w)).
  rewrite re_lit.
  do 6 (destruct fields as [|? fields]; [done|]). destruct fields; [|done].
  repeat match goal with H : Forall _ (_ :: _) |- _ =>
    apply Forall_cons in H as [[? ?] H] end.
  cbn [foldr]. rewrite !str_app_assoc.
  assert (forall p d rest, all_digits d = true -> String.length d = 2%nat ->
    re_match (DigitsN 2 :: p) (d +:+ rest) = cons (Some d) <$> re_match p rest) as Htwo.
  { intros p d rest Hd' <-. by apply re_digits_n. }
  rewrite !Htwo by done. change ("" +:+ "W" +:+ w) with ("W" +:+ w). rewrite re_lit.
  assert (re_match [DigitsN 1] w = Some [Some w]) as ->; [|done].
  rewrite <- (str_app_nil w) at 1. rewrite <- Hwl. by rewrite re_digits_n.
Qed.

(** A pattern of an application against a route that is not followed by one. *)
Lemma re_application_other p flag source network x rest :
  number_ok source -> number_ok network -> digit_value x = None -> x <> "A"%char ->
  re_match (application_pattern p)
    (from_text flag source (str_int network +:+ String x rest)) = None.
Proof.
  intros Hs Hn Hx Hne. unfold application_pattern. cbn [app].
  rewrite re_from, re_number by (done || by apply no_digit_lit).
  rewrite re_lit_no by congruence. done.
Qed.

(** None of the patterns before those of an identification and of a state accepts it. *)
Lemma dispatch_other flag source network x rest :
  number_ok source -> number_ok network -> digit_value x = None -> x <> "A"%char ->
  first_match COMMANDS (from_text flag source (str_int network +:+ String x rest)) =
  first_match (drop 8 COMMANDS) (from_text flag source (str_int network +:+ String x rest)).
Proof.
  intros Hs Hn Hx Hne. not_mode.
  unfold LIGHTING_ON_PATTERN, LIGHTING_OFF_PATTERN, LIGHTING_RAMP_PATTERN, STATUS_REQUEST_PATTERN.
  by rewrite !re_application_other, re_clock_no by done.
Qed.

Lemma dispatch_identify flag source network unit attribute :
  number_ok source -> number_ok network -> number_ok unit -> number_ok attribute ->
  first_match COMMANDS (render (TIdentify flag source network unit attribute)) =
  Some (handler_of (TIdentify flag source network unit attribute)).
Proof.
  intros Hs Hn Hu Ha. unfold render.
  change ("I" +:+ str_int unit +:+ "A" +:+ str_int attribute)
    with (String "I" (str_int unit +:+ String "A" (str_int attribute))).
  rewrite dispatch_other by done. cbn [drop COMMANDS first_match]. unfold IDENTIFY_PATTERN.
  rewrite re_from, re_number by (done || by apply no_digit_lit).
  change (String "I" (str_int unit +:+ String "A" (str_int attribute)))
    with ("I" +:+ (str_int unit +:+ String "A" (str_int attribute))).
  rewrite re_lit, re_number by (done || by apply no_digit_lit).
  change (String "A" (str_int attribute)) with ("A" +:+ str_int attribute).
  by rewrite re_lit, re_number_end.
Qed.

Lemma dispatch_mmi flag source network application :
  number_ok source -> number_ok network -> number_ok application ->
  first_match COMMANDS (render (TMmi flag source network application)) =
  Some (handler_of (TMmi flag source network application)).
Proof.
  intros Hs Hn Ha. unfold render.
  change ("MMI" +:+ str_int application) with (String "M" ("MI" +:+ str_int application)).
  rewrite dispatch_other by done. cbn [drop COMMANDS first_match].
  unfold IDENTIFY_PATTERN, MMI_REQUEST_PATTERN.
  rewrite !re_from, !re_number by (done || by apply no_digit_lit).
  rewrite re_lit_no by done.
  change (String "M" ("MI" +:+ str_int application)) with ("MMI" +:+ str_int application).
  by rewrite re_lit, re_number_end.
Qed.

Lemma dispatch c :
  command_ok c -> first_match COMMANDS (render c) = Some (handler_of c).
Proof.
  destruct c as [| | |f s n a g|f s n a g|f s n a g d|f s n a g|f s fields w|f s n u a|f s n a];
    cbn [command_ok]; intros Hok; [done|done|done| | | | | | |].
  - destruct Hok as (Hs & Hn & Ha & Hg). unfold render, application_text. not_mode.
    change (from_text f s _) with (application_text f s n a (String "N" (str_int g))).
    unfold LIGHTING_ON_PATTERN. by rewrite re_application_group.
  - destruct Hok as (Hs & Hn & Ha & Hg). unfold render, application_text. not_mode.
    change (from_text f s _) with (application_text f s n a (String "F" (str_int g))).
    unfold LIGHTING_ON_PATTERN, LIGHTING_OFF_PATTERN.
    by rewrite (re_application_no _ _ _ _ "N"), re_application_group.
  - destruct Hok as (Hs & Hn & Ha & Hg & Hd). unfold render, application_text. not_mode.
    change (from_text f s _)
      with (application_text f s n a (String "R" (str_int g +:+ "D" +:+ str_int d))).
    unfold LIGHTING_ON_PATTERN, LIGHTING_OFF_PATTERN.
    rewrite (re_application_no _ _ _ _ "N"), (re_application_no _ _ _ _ "F") by done.
    change (String "R" (str_int g +:+ "D" +:+ str_int d))
      with ("R" +:+ str_int g +:+ "D" +:+ str_int d).
    by rewrite re_application_ramp.
  - destruct Hok as (Hs & Hn & Ha & Hg). unfold render, application_text. not_mode.
    change (from_text f s _) with (application_text f s n a (String "G" (str_int g))).
    unfold LIGHTING_ON_PATTERN, LIGHTING_OFF_PATTERN, LIGHTING_RAMP_PATTERN, STATUS_REQUEST_PATTERN.
    by rewrite (re_application_no _ _ _ _ "N"), (re_application_no _ _ _ _ "F"),
      (re_application_no _ _ _ _ "R"), re_application_group.
  - destruct Hok as (Hs & Hl & Hf & Hw).
    set (t := foldr String.append "" fields +:+ "W" +:+ w).
    assert (render (TClock f s fields w) =
      application_text f s 223 201 (String "T" t)) as E by done.
    pose proof (re_clock f s fields w Hs Hl Hf Hw) as Hm. rewrite E in *.
    assert (number_ok 223 /\ number_ok 201) as [H1 H2] by by vm_compute.
    unfold application_text. not_mode.
    change (from_text f s _) with (application_text f s 223 201 (String "T" t)).
    unfold LIGHTING_ON_PATTERN, LIGHTING_OFF_PATTERN, LIGHTING_RAMP_PATTERN, STATUS_REQUEST_PATTERN.
    rewrite !re_application_no by done. by rewrite Hm.
  - destruct Hok as (Hs & Hn & Hu & Ha). by apply dispatch_identify.
  - destruct Hok as (Hs & Hn & Ha). by apply dispatch_mmi.
Qed.

(** ** What a command means *)

(** The operations on the shared state. *)
Definition effects (c : text_command) : list op :=
  match c with
  | TReset => [Reset]
  | TOn _ _ n a g => [SetLevel n a g 255]
  | TOff _ _ n a g => [SetLevel n a g 0]
  | TRamp _ _ n a g _ => [SetLevel n a g 128]
  | _ => []
  end.

Definition flag_of (c : text_command) : bool :=
  match c with
  | TReset | TBasic | TSmart => false
  | TOn f _ _ _ _ | TOff f _ _ _ _ | TRamp f _ _ _ _ _ | TStatus f _ _ _ _ | TClock f _ _ _
  | TIdentify f _ _ _ _ | TMmi f _ _ _ => f
  end.

Definition mode_after (c : text_command) (smart : bool) : bool :=
  match c with TBasic => false | TSmart => true | _ => smart end.

(** The lines about a light, of its status, and about a unit. *)
Definition light_line (source network application : Z) (tail : string) : bytes :=
  txt (application_text false source network application (tail +:+ crlf)).

Definition status_line (source network application grp l : Z) : bytes :=
  light_line source network application
    (if l =? 0 then "F" +:+ str_int grp
     else if l =? 255 then "N" +:+ str_int grp
     else "L" +:+ str_int grp +:+ "=" +:+ str_int l).

Definition identify_line (source network unit attribute : Z) (text : string) : bytes :=
  txt (from_text false source (str_int network +:+ "IC" +:+ str_int unit +:+ "A" +:+
    str_int attribute +:+ "=" +:+ quote +:+ text +:+ quote +:+ crlf)).

(** The answer after the confirmation; [source] is the simulator's own address. *)
Definition answer (c : text_command) (source : Z) (smart : bool) (s : SimulatorState)
    : list bytes :=
  match c with
  | TReset | TBasic | TSmart => [txt ("OK" +:+ crlf); prompt (mode_after c smart)]
  | TOn _ src n a g => [light_line src n a ("N" +:+ str_int g)]
  | TOff _ src n a g => [light_line src n a ("F" +:+ str_int g)]
  | TRamp _ src n a g _ => [light_line src n a ("R" +:+ str_int g +:+ "L" +:+ str_int 128)]
  | TStatus _ _ n a g => [status_line source n a g (get_group_level n a g s)]
  | TClock _ _ _ _ | TMmi _ _ _ _ => []
  | TIdentify _ _ n u attr => [identify_line source n u attr (identify_text n attr s)]
  end.

(** The confirmation: the next code of the connection's own sequence, a success,
    and the prompt. *)
Definition confirmation_lines (flag smart : bool) (index : nat) : list bytes :=
  if flag
  then [[default 0 (SIM_CONFIRMATION_CODES !! index); 46; 13; 10]; prompt smart] else [].

Definition next_index (flag : bool) (index : nat) : nat :=
  if flag then ((index + 1) mod length SIM_CONFIRMATION_CODES)%nat else index.

(** The connection after a command. *)
Definition after_text (c : text_command) (p : protocol) (s : SimulatorState) : protocol :=
  {| sp_buffer := sp_buffer p; sp_smart_mode := mode_after c (sp_smart_mode p);
     sp_source_address := sp_source_address p;
     sp_confirmation_index := next_index (flag_of c) (sp_confirmation_index p);
     sp_client_id := sp_client_id p;
     sp_written := sp_written p ++
       confirmation_lines (flag_of c) (sp_smart_mode p) (sp_confirmation_index p) ++
       answer c (sp_source_address p) (sp_smart_mode p) s |}.

(** Texts that can be written: everything but names with other characters. *)
Definition ascii_text (s : string) : bool :=
  forallb (fun c => (0 <=? c) && (c <? 128)) (txt s).

Definition answerable (c : text_command) (s : SimulatorState) : Prop :=
  match c with
  | TIdentify _ _ n _ attr => ascii_text (identify_text n attr s) = true
  | _ => True
  end.

(** *** Lemmas: handlers *)

Lemma ascii_text_app a b : ascii_text (a +:+ b) = ascii_text a && ascii_text b.
Proof. unfold ascii_text. by rewrite txt_app, forallb_app. Qed.

Lemma ascii_text_digits s : all_digits s = true -> ascii_text s = true.
Proof.
  unfold ascii_text. induction s as [|c s IH]; [done|]. cbn [all_digits].
  destruct (digit_value c) as [v|] eqn:E; [|done]. intros H.
  change (txt (String c s)) with (Z.of_nat (nat_of_ascii c) :: txt s). cbn [forallb].
  rewrite IH by done. unfold digit_value in E. cbv zeta in E. destruct ((48 <=? _) && _) eqn:E2; [|done]. lia.
Qed.

Lemma ascii_text_int n : ascii_text (str_int n) = true.
Proof.
  assert (forall n, 0 <= n -> ascii_text (str_nat n) = true) as Hnat.
  { intros k Hk. by eapply ascii_text_digits, (digits_value_all 0), str_nat_value. }
  unfold str_int. destruct (Z.ltb_spec n 0); [|by apply Hnat].
  rewrite ascii_text_app, Hnat by lia. done.
Qed.

Lemma write_text_ok s p st :
  ascii_text s = true -> write_text s (p, st) = ((add_written (txt s) p, st), Ok tt).
Proof.
  intros H. assert (encode_ascii (txt s) = Ok (txt s)) as E.
  { unfold encode_ascii. unfold ascii_text in H. by rewrite H. }
  unfold write_text, mbind, sim_bind, raising. by rewrite E.
Qed.

Lemma confirm_if_ok flag p s :
  protocol_ok p ->
  confirm_if flag true (p, s) =
    (({| sp_buffer := sp_buffer p; sp_smart_mode := sp_smart_mode p;
         sp_source_address := sp_source_address p;
         sp_confirmation_index := next_index flag (sp_confirmation_index p);
         sp_client_id := sp_client_id p;
         sp_written := sp_written p ++
           confirmation_lines flag (sp_smart_mode p) (sp_confirmation_index p) |}, s), Ok tt).
Proof.
  intros Hp. destruct p as [b m a i cid wr]. unfold protocol_ok in Hp. cbn [sp_confirmation_index] in Hp.
  destruct flag; cbn [confirm_if confirmation_lines next_index];
    [|by cbn [sp_buffer sp_smart_mode sp_source_address sp_confirmation_index sp_client_id sp_written];
      rewrite app_nil_r].
  destruct (lookup_lt_is_Some_2 SIM_CONFIRMATION_CODES i Hp) as [code Hcode].
  assert (item SIM_CONFIRMATION_CODES i = Ok code) as Hitem by by unfold item; rewrite Hcode.
  unfold _get_confirmation_code, _send_confirmation, _send_prompt, _write, mbind, sim_bind, mret,
    sim_ret, asks, raising, modify.
  cbn [sp_confirmation_index]. rewrite Hitem.
  unfold with_index, add_written.
  cbn [sp_buffer sp_smart_mode sp_source_address sp_confirmation_index sp_client_id sp_written].
  rewrite Hcode. by rewrite <- app_assoc.
Qed.

Lemma int_group_ok m k n w :
  m !! (k - 1)%nat = Some (Some (str_int n)) -> number_ok n -> int_group m k w = (w, Ok n).
Proof.
  intros Hm Hn. destruct (number_text n Hn) as (_ & _ & Hi). unfold int_group, group, raising.
  rewrite Hm. cbn [default from_option id]. by rewrite Hi.
Qed.

Lemma int_group_field m k j d w :
  m !! (k - 1)%nat = Some (Some d) -> field_ok (S j) d -> (j < 4)%nat ->
  exists n, int_group m k w = (w, Ok n).
Proof.
  intros Hm [Hd Hl] Hj. destruct (all_digits_value 0 d Hd) as [n Hn]. exists n.
  unfold int_group, group, raising. rewrite Hm. cbn [default from_option id]. f_equal.
  rewrite <- (int_of_str_digits false d n Hn); [done|]. unfold MAX_STR_DIGITS. lia.
Qed.

Lemma confirm_flag_group f m : confirm_flag (flag_group f :: m) = f.
Proof. by destruct f. Qed.

(** The answers are written as one text. *)
Lemma light_line_text source network application tail :
  ascii_text tail = true ->
  ascii_text (address_text source network application +:+ tail +:+ crlf) = true /\
  txt (address_text source network application +:+ tail +:+ crlf) =
    light_line source network application tail.
Proof.
  intros Ht. unfold address_text, route_text, light_line, application_text, from_text.
  rewrite !ascii_text_app, !ascii_text_int, Ht. split; [done|].
  cbn [hash String.append]. f_equal. rewrite !str_app_assoc. done.
Qed.

Lemma protocol_eta p :
  p = {| sp_buffer := sp_buffer p; sp_smart_mode := sp_smart_mode p;
         sp_source_address := sp_source_address p;
         sp_confirmation_index := sp_confirmation_index p; sp_client_id := sp_client_id p;
         sp_written := sp_written p |}.
Proof. by destruct p. Qed.

Lemma handle_lighting_ok f m l ev tail src n a g now p s :
  protocol_ok p -> ascii_text tail = true ->
  (match ev with
   | EvOn => "N" +:+ str_int g
   | EvOff => "F" +:+ str_int g
   | EvRamp l => "R" +:+ str_int g +:+ "L" +:+ str_int l
   end)%string = tail ->
  handle_lighting (flag_group f :: m) l ev src n a g now (p, s) =
    (({| sp_buffer := sp_buffer p; sp_smart_mode := sp_smart_mode p;
         sp_source_address := sp_source_address p;
         sp_confirmation_index := next_index f (sp_confirmation_index p);
         sp_client_id := sp_client_id p;
         sp_written := sp_written p ++
           confirmation_lines f (sp_smart_mode p) (sp_confirmation_index p) ++
           [light_line src n a tail] |}, (set_group_level n a g l now s).1), Ok tt).
Proof.
  intros Hp Ht Htail. unfold handle_lighting.
  assert (update (set_group_level n a g l now) (p, s) =
    ((p, (set_group_level n a g l now s).1), Ok true)) as Hu.
  { unfold update, set_group_level. by destruct (find_group n a g s). }
  sim_step ltac:(exact Hu). rewrite confirm_flag_group.
  sim_step ltac:(by apply confirm_if_ok).
  unfold _broadcast_lighting_event. rewrite Htail.
  destruct (light_line_text src n a tail Ht) as [Ha Hl].
  rewrite write_text_ok by done. unfold add_written.
  cbn [sp_buffer sp_smart_mode sp_source_address sp_confirmation_index sp_client_id sp_written].
  by rewrite Hl, app_assoc.
Qed.

Local Ltac cbn_meaning :=
  cbn [command_ok answerable handler_of effects map run_ops foldl flag_of mode_after answer
       run_op captured] in *.

Lemma status_meaning f src n a g now p s :
  let c := TStatus f src n a g in
  command_ok c -> answerable c s -> protocol_ok p ->
  handler_of c now (p, s) =
    ((after_text c p s, run_ops (map (fun o => (o, now)) (effects c)) s), Ok tt).
Proof.
  intros c Hok Ha Hp. unfold c, after_text in *. clear c. cbn_meaning.
  destruct Hok as (Hs & Hn & Hap & Hg). unfold _handle_status_request.
  do 4 sim_step ltac:(by apply int_group_ok). sim_step ltac:(reflexivity).
  rewrite confirm_flag_group. sim_step ltac:(by apply confirm_if_ok).
  unfold _send_status_response. sim_step ltac:(reflexivity). cbn [sp_source_address].
  set (tail := (if _ =? 0 then _ else _)).
  assert (ascii_text tail = true) as Htail.
  { unfold tail. destruct (_ =? 0); [|destruct (_ =? 255)];
      by rewrite !ascii_text_app, !ascii_text_int. }
  destruct (light_line_text (sp_source_address p) n a tail Htail) as [Hat Hl].
  unfold address_text, route_text in *. rewrite !str_app_assoc in *.
  rewrite write_text_ok by done. unfold add_written, status_line.
  cbn [sp_buffer sp_smart_mode sp_source_address sp_confirmation_index sp_client_id sp_written].
  by rewrite <- app_assoc, Hl.
Qed.

Lemma clock_meaning f src fields w now p s :
  let c := TClock f src fields w in
  command_ok c -> answerable c s -> protocol_ok p ->
  handler_of c now (p, s) =
    ((after_text c p s, run_ops (map (fun o => (o, now)) (effects c)) s), Ok tt).
Proof.
  intros c Hok Ha Hp. unfold c, after_text in *. clear c. cbn_meaning.
  destruct Hok as (Hs & Hl & Hf & Hw). unfold _handle_clock_update.
  do 6 (destruct fields as [|? fields]; [done|]). destruct fields; [|done].
  repeat match goal with H : Forall _ (_ :: _) |- _ => apply Forall_cons in H as [? H] end.
  sim_step ltac:(by apply int_group_ok).
  repeat (match goal with |- context [int_group ?m ?k] =>
    edestruct (int_group_field m k) as [? E];
      [reflexivity|eassumption|lia|sim_step ltac:(exact E)] end; clear E).
  cbn [app]. rewrite confirm_flag_group, confirm_if_ok by done. by rewrite app_nil_r.
Qed.

Lemma identify_meaning f src n u at_ now p s :
  let c := TIdentify f src n u at_ in
  command_ok c -> answerable c s -> protocol_ok p ->
  handler_of c now (p, s) =
    ((after_text c p s, run_ops (map (fun o => (o, now)) (effects c)) s), Ok tt).
Proof.
  intros c Hok Ha Hp. unfold c, after_text in *. clear c. cbn_meaning.
  destruct Hok as (Hs & Hn & Hu & Hat). unfold _handle_identify.
  do 4 sim_step ltac:(by apply int_group_ok).
  rewrite confirm_flag_group. sim_step ltac:(by apply confirm_if_ok).
  unfold _send_identify_response. do 2 sim_step ltac:(reflexivity). cbn [sp_source_address].
  unfold route_text. rewrite !str_app_assoc.
  rewrite write_text_ok; [|by rewrite !ascii_text_app, !ascii_text_int, Ha].
  unfold add_written.
  cbn [sp_buffer sp_smart_mode sp_source_address sp_confirmation_index sp_client_id sp_written].
  by rewrite <- app_assoc.
Qed.

Lemma handler_meaning c now p s :
  command_ok c -> answerable c s -> protocol_ok p ->
  handler_of c now (p, s) =
    ((after_text c p s, run_ops (map (fun o => (o, now)) (effects c)) s), Ok tt).
Proof.
  intros Hok Ha Hp. unfold after_text.
  destruct c as [| | |f src n a g|f src n a g|f src n a g d|f src n a g|f src fields w
                |f src n u at_|f src n a];
    cbn [command_ok answerable handler_of effects map run_ops foldl flag_of mode_after answer
         run_op captured] in *.
  1-3: unfold _handle_reset, _handle_basic_mode, _handle_smart_mode, _send_prompt, _write, mbind,
    sim_bind, update, asks, modify, with_smart_mode, add_written; cbn;
    by rewrite <- app_assoc.
  - destruct Hok as (Hs & Hn & Hap & Hg). unfold _handle_lighting_on.
    do 4 sim_step ltac:(by apply int_group_ok).
    apply handle_lighting_ok; [done| |done]. by rewrite ascii_text_app, ascii_text_int.
  - destruct Hok as (Hs & Hn & Hap & Hg). unfold _handle_lighting_off.
    do 4 sim_step ltac:(by apply int_group_ok).
    apply handle_lighting_ok; [done| |done]. by rewrite ascii_text_app, ascii_text_int.
  - destruct Hok as (Hs & Hn & Hap & Hg & Hd). unfold _handle_lighting_ramp.
    do 5 sim_step ltac:(by apply int_group_ok).
    apply handle_lighting_ok; [done| |done]. by rewrite !ascii_text_app, !ascii_text_int.
  - by apply (status_meaning f src n a g now).
  - by apply (clock_meaning f src fields w now).
  - by apply (identify_meaning f src n u at_ now).
  - destruct Hok as (Hs & Hn & Hap). unfold _handle_mmi_request.
    do 3 sim_step ltac:(by apply int_group_ok).
    rewrite confirm_flag_group, confirm_if_ok by done. by rewrite app_nil_r.
Qed.

(** ** Lines *)

(** Characters that are neither blank nor a backslash. *)
Definition plain_code (c : Z) : bool := (33 <=? c) && (c <? 127) && negb (c =? 92).
Definition plain (s : string) : bool := forallb plain_code (txt s).

Lemma plain_app a b : plain (a +:+ b) = plain a && plain b.
Proof. unfold plain. by rewrite txt_app, forallb_app. Qed.

Lemma plain_digits s : all_digits s = true -> plain s = true.
Proof.
  unfold plain. induction s as [|c s IH]; [done|]. cbn [all_digits].
  destruct (digit_value c) as [v|] eqn:E; [|done]. intros H.
  change (txt (String c s)) with (Z.of_nat (nat_of_ascii c) :: txt s). cbn [forallb].
  rewrite IH by done. unfold digit_value in E. cbv zeta in E. unfold plain_code.
  destruct ((48 <=? _) && _) eqn:E2; [|done]. lia.
Qed.

Lemma plain_int n : number_ok n -> plain (str_int n) = true.
Proof. intros Hn. by apply plain_digits, number_text. Qed.

Lemma plain_fields fields :
  Forall (field_ok 2) fields -> plain (foldr String.append "" fields) = true.
Proof.
  induction 1 as [|d fields [Hd _] _ IH]; [done|]. cbn [foldr].
  change (plain (d +:+ foldr String.append "" fields) = true).
  by rewrite plain_app, plain_digits, IH.
Qed.

Lemma render_plain c : command_ok c -> plain (render c) = true.
Proof.
  destruct c as [| | |f src n a g|f src n a g|f src n a g d|f src n a g|f src fields w
                |f src n u at_|f src n a]; cbn [command_ok render]; intros Hok; try done;
    unfold application_text, from_text; rewrite !plain_app;
    repeat match goal with H : _ /\ _ |- _ => destruct H end;
    rewrite ?plain_int by done; try (by destruct f).
  rewrite plain_fields by done.
  rewrite (plain_digits w) by (by match goal with H : field_ok 1 w |- _ => apply H end).
  by destruct f.
Qed.

Lemma plain_code_elem s c : plain s = true -> c ∈ txt s -> plain_code c = true.
Proof.
  unfold plain. rewrite forallb_forall. intros H Hc. by apply H, list_elem_of_In.
Qed.

Lemma str_in_txt c s : str_in c s = true -> Z.of_nat (nat_of_ascii c) ∈ txt s.
Proof.
  induction s as [|x s IH]; [done|]. cbn [str_in].
  change (txt (String x s)) with (Z.of_nat (nat_of_ascii x) :: txt s).
  rewrite elem_of_cons. intros [->%Ascii.eqb_eq|H]%orb_true_iff; [by left|right; by apply IH].
Qed.

Lemma plain_strip s : plain s = true -> str_strip s = s.
Proof.
  intros Hs. apply str_strip_id. intros c Hc.
  apply str_in_txt, (plain_code_elem s) in Hc; [|done].
  unfold plain_code in Hc. unfold is_space. cbv zeta. lia.
Qed.

(** The line of a command as the code reads it. *)
Lemma plain_line s :
  plain s = true -> s <> "" ->
  startswith [92] (txt s) = false /\
  str_strip (text_of (List.filter (fun c => c <? 128) (txt s))) = s /\
  encode_ascii (txt s) = Ok (txt s) /\ 13 ∉ txt s.
Proof.
  intros Hs Hne.
  assert (Forall (fun c => plain_code c = true) (txt s)) as Hf
    by (apply Forall_forall; intros c; by apply plain_code_elem).
  split; [|split; [|split]].
  - destruct s as [|c s]; [done|]. change (txt (String c s)) with (Z.of_nat (nat_of_ascii c) :: txt s) in *.
    apply Forall_cons in Hf as [Hc _]. unfold plain_code in Hc. cbn [startswith]. lia.
  - rewrite filter_id_forall.
    + rewrite text_of_txt. by apply plain_strip.
    + eapply Forall_impl; [exact Hf|]. unfold plain_code. intros c Hc. simpl in Hc. lia.
  - unfold encode_ascii. assert (forallb (fun c => (0 <=? c) && (c <? 128)) (txt s) = true) as ->; [|done].
    apply forallb_forall. intros c Hc%list_elem_of_In. rewrite Forall_forall in Hf.
    specialize (Hf c Hc). unfold plain_code in Hf. lia.
  - intros Hc. rewrite Forall_forall in Hf. discriminate (Hf 13 Hc).
Qed.

Lemma render_nonempty c : command_ok c -> render c <> "".
Proof.
  assert (forall f s rest, number_ok s -> from_text f s rest <> "") as Hf.
  { intros f s rest Hs. destruct (number_text s Hs) as (_ & Hne & _). unfold from_text.
    destruct f; [done|]. cbn [hash String.append]. by destruct (str_int s). }
  destruct c; cbn [command_ok render]; intros Hok; try done; unfold application_text;
    apply Hf; tauto.
Qed.

Lemma plain_ascii s : plain s = true -> ascii_text s = true.
Proof.
  unfold plain, ascii_text. rewrite !forallb_forall. intros H c Hc%H.
  unfold plain_code in Hc. lia.
Qed.

(** The echo of basic mode. *)
Definition echo_lines (c : text_command) (p : protocol) : list bytes :=
  if sp_smart_mode p then [] else [txt (render c) ++ SIM_END_COMMAND].

Definition echoed (c : text_command) (p : protocol) : protocol :=
  if sp_smart_mode p then p else add_written (txt (render c) ++ SIM_END_COMMAND) p.

(** The connection at the end of a command, echoed in basic mode. *)
Definition finished (c : text_command) (p : protocol) (s : SimulatorState) : protocol :=
  after_text c (echoed c p) s.

Lemma start_text_plain cmd now p s :
  plain cmd = true -> cmd <> "" ->
  start_text (txt cmd) now (p, s) =
    ((p, log_command cmd (Some (sp_client_id p)) now s), Ok cmd).
Proof.
  intros Hp Hne. destruct (plain_line cmd Hp Hne) as (_ & Hstrip & _).
  unfold start_text. rewrite Hstrip. by do 2 sim_step ltac:(reflexivity).
Qed.

(** The rest of a command, with its echo. *)
Lemma finish_text_plain cmd now p s :
  plain cmd = true -> cmd <> "" ->
  finish_text cmd now (p, s) =
    _process_command cmd now
      (if sp_smart_mode p then p else add_written (txt cmd ++ SIM_END_COMMAND) p, s).
Proof.
  intros Hp Hne. destruct (plain_line cmd Hp Hne) as (_ & _ & Henc & _).
  unfold finish_text. sim_step ltac:(reflexivity). destruct (sp_smart_mode p); [done|].
  unfold mbind, sim_bind, raising. rewrite Henc. reflexivity.
Qed.

Lemma finish_text_render c now p s :
  command_ok c -> answerable c s -> protocol_ok p ->
  finish_text (render c) now (p, s) =
    ((finished c p s, run_ops (map (fun o => (o, now)) (effects c)) s), Ok tt).
Proof.
  intros Hok Ha Hp.
  rewrite finish_text_plain by (by apply render_plain || by apply render_nonempty).
  unfold _process_command. rewrite dispatch by done.
  change (if sp_smart_mode p then p else _) with (echoed c p).
  rewrite handler_meaning; [done|done|done|].
  unfold echoed, protocol_ok in *. by destruct (sp_smart_mode p).
Qed.

(** A text with no command in it. *)
Lemma finish_text_unknown cmd now p s :
  plain cmd = true -> cmd <> "" -> ~ text_language cmd ->
  finish_text cmd now (p, s) =
    ((add_written (prompt (sp_smart_mode p))
        (add_written (txt ("!Unknown command: " +:+ cmd +:+ crlf))
           (if sp_smart_mode p then p else add_written (txt cmd ++ SIM_END_COMMAND) p)),
      count_error s), Ok tt).
Proof.
  intros Hp Hne Hno. rewrite finish_text_plain by done.
  set (p1 := if sp_smart_mode p then p else _).
  assert (sp_smart_mode p1 = sp_smart_mode p) as Em by by unfold p1; destruct (sp_smart_mode p) eqn:E.
  unfold _process_command. destruct (first_match COMMANDS cmd) eqn:E.
  { exfalso. by apply Hno, first_match_language; rewrite E. }
  unfold _send_error. sim_step ltac:(reflexivity).
  assert (ascii_text ("!" +:+ "Unknown command" +:+ ": " +:+ cmd +:+ crlf) = true) as Ha.
  { rewrite !ascii_text_app. rewrite (plain_ascii cmd) by done. done. }
  sim_step ltac:(by apply write_text_ok). unfold _send_prompt. sim_step ltac:(reflexivity).
  cbn [sp_smart_mode add_written]. rewrite Em. reflexivity.
Qed.

(** A line as it is sent. *)
Definition text_line (c : text_command) : bytes := txt (render c) ++ SIM_END_COMMAND.

Lemma finished_ok c p s : protocol_ok p -> protocol_ok (finished c p s).
Proof.
  unfold protocol_ok. cbn [finished after_text sp_confirmation_index].
  assert (sp_confirmation_index (echoed c p) = sp_confirmation_index p) as ->
    by by unfold echoed; destruct (sp_smart_mode p).
  unfold next_index. intros H. destruct (flag_of c); [|done]. by apply Nat.mod_upper_bound.
Qed.

Lemma finished_with_buffer b c p s :
  finished c (with_buffer b p) s = with_buffer b (finished c p s).
Proof. destruct p as [? [] ? ? ? ?]; by destruct c. Qed.

Lemma with_buffer_twice b b' p : with_buffer b (with_buffer b' p) = with_buffer b p.
Proof. done. Qed.

(** What a task does with the lines in its buffer: it starts the first one. *)
Definition begin (cs : list text_command) (now : Z) (client_id : string) : list (op * Z) :=
  match cs with [] => [] | c :: _ => [(LogCommand (render c) (Some client_id), now)] end.

(** A line of printable text, whatever follows it. *)
Lemma process_buffer_plain cmd rest now p s :
  plain cmd = true -> cmd <> "" ->
  _process_buffer now (with_buffer ((txt cmd ++ SIM_END_COMMAND) ++ rest) p, s) =
    ((with_buffer rest p, log_command cmd (Some (sp_client_id p)) now s), Ok (Some cmd)).
Proof.
  intros Hp Hne. destruct (plain_line cmd Hp Hne) as (Hb & _ & _ & H13).
  set (line := txt cmd ++ SIM_END_COMMAND).
  assert (length (txt cmd) + 2 = length line)%nat as El by by unfold line; rewrite length_app.
  assert (command_end (line ++ rest) = Some (length (txt cmd), 2%nat)) as Ec.
  { unfold command_end, line, SIM_END_COMMAND. rewrite <- app_assoc. cbn [app].
    by rewrite find_sub_end2. }
  assert (take (length (txt cmd)) (line ++ rest) = txt cmd) as Et
    by (unfold line; by rewrite <- app_assoc, take_app_length).
  unfold _process_buffer. cbn [fst sp_buffer with_buffer].
  destruct (length (line ++ rest)) as [|fuel] eqn:Ef; [rewrite length_app in Ef; lia|].
  cbn [process_lines]. sim_step ltac:(reflexivity). cbn [sp_buffer with_buffer].
  rewrite Ec, El, drop_app_length, Et. sim_step ltac:(reflexivity).
  destruct (txt cmd) as [|x l] eqn:Ex; [by destruct cmd|].
  rewrite Hb, <- Ex. sim_step ltac:(by apply start_text_plain). done.
Qed.

Lemma process_buffer_text cs now p s :
  Forall command_ok cs ->
  _process_buffer now (with_buffer (concat (map text_line cs)) p, s) =
    ((with_buffer (concat (map text_line (tail cs))) p,
      run_ops (begin cs now (sp_client_id p)) s), Ok (render <$> head cs)).
Proof.
  intros Hok. destruct Hok as [|c cs Hc Hok]; [done|]. cbn [map concat tail].
  apply process_buffer_plain; [by apply render_plain|by apply render_nonempty].
Qed.

(** The texts of the state that an answer may hold. *)
Definition texts_ascii (s : SimulatorState) : Prop :=
  forall n attr, ascii_text (identify_text n attr s) = true.

(** Names and the device do not change while commands run. *)
Lemma identify_text_op n attr o now s :
  is_configure o = false -> identify_text n attr (run_op o now s) = identify_text n attr s.
Proof.
  destruct o as [c'|n' a' g' v| |cmd src|]; [done|intros _..]; cbn [run_op]; [| |done|done].
  - unfold identify_text. destruct (attr =? 0); [done|].
    assert (device_info (set_group_level n' a' g' v now s).1 = device_info s) as ->
      by by unfold set_group_level; destruct (find_group _ _ _ _).
    destruct (attr =? 1); [done|]. destruct (attr =? 2); [|done].
    unfold set_group_level. destruct (find_group n' a' g' s); [|done].
    cbn [networks with_levels fst]. unfold update_group. destruct (decide (n' = n)) as [->|Hne].
    + rewrite lookup_alter_eq. by destruct (networks s !! n).
    + by rewrite lookup_alter_ne.
  - unfold identify_text. cbn [networks device_info reset with_levels with_status].
    rewrite lookup_fmap. by destruct (networks s !! n).
Qed.

Lemma texts_ascii_ops ops s :
  Forall (fun '(o, _) => is_configure o = false) ops -> texts_ascii s -> texts_ascii (run_ops ops s).
Proof.
  intros Ho. revert s. induction Ho as [|[o t] ops Ho _ IH]; intros s Hs; [done|].
  apply (IH (run_op o t s)). intros n attr. by rewrite identify_text_op.
Qed.

Lemma texts_ascii_answerable c s : texts_ascii s -> answerable c s.
Proof. intros H. by destruct c; cbn [answerable]. Qed.
