(* ===== verification/SimServer.v ===== *)
(** * Text clients sharing one stand-alone simulator

    What the simulator promises to clients that write text commands, as an
    abstract server: a client has commands it has sent, the first of which is in
    its delay, and a command acts on the shared state when its delay is over,
    whatever the order of the delays. The server of [Simulator], with its
    buffers, patterns and handlers, refines it. *)

From S2P Require Import Prelude Common Hex Text SimState SimParse Simulator SimText.
From Stdlib Require Import String Ascii.
From stdpp Require Import strings gmap options.

Local Open Scope string_scope.
Local Open Scope list_scope.
Local Open Scope Z_scope.

(** ** The abstract server *)

(** A connection, and the commands of its that are not finished. *)
Record text_client := { tc_protocol : protocol; tc_pending : list text_command }.

Record text_server := {
  ts_state : SimulatorState;
  ts_clients : gmap nat text_client
}.

Inductive text_event :=
| TConnect (c : nat) (client_id : string)
| TSend (c : nat) (cs : list text_command)
| TFinish (c : nat).

(** The operations of an event on the shared state. *)
Definition event_ops (ev : text_event) (now : Z) (ts : text_server) : list (op * Z) :=
  match ev with
  | TConnect _ _ => []
  | TSend c cs =>
      match ts_clients ts !! c with
      | Some {| tc_protocol := p; tc_pending := [] |} => begin cs now (sp_client_id p)
      | _ => []
      end
  | TFinish c =>
      match ts_clients ts !! c with
      | Some {| tc_protocol := p; tc_pending := cmd :: cs |} =>
          map (fun o => (o, now)) (effects cmd) ++ begin cs now (sp_client_id p)
      | _ => []
      end
  end.

(** What a new client is told. *)
Definition greeted (client_id : string) (s : SimulatorState) : protocol :=
  add_written (prompt (state_smart_mode s)) (protocol_init client_id s).

(** The client of an event, afterwards. *)
Definition event_client (ev : text_event) (ts : text_server) : option (nat * text_client) :=
  match ev with
  | TConnect c client_id =>
      Some (c, {| tc_protocol := greeted client_id (ts_state ts); tc_pending := [] |})
  | TSend c cs =>
      match ts_clients ts !! c with
      | Some {| tc_protocol := p; tc_pending := [] |} =>
          Some (c, {| tc_protocol := p; tc_pending := cs |})
      | _ => None
      end
  | TFinish c =>
      match ts_clients ts !! c with
      | Some {| tc_protocol := p; tc_pending := cmd :: cs |} =>
          Some (c, {| tc_protocol := finished cmd p (ts_state ts); tc_pending := cs |})
      | _ => None
      end
  end.

Definition text_server_step (ev : text_event) (now : Z) (ts : text_server) : text_server :=
  {| ts_state := run_ops (event_ops ev now ts) (ts_state ts);
     ts_clients := match event_client ev ts with
                   | Some (c, cl) => <[c := cl]> (ts_clients ts)
                   | None => ts_clients ts
                   end |}.

Fixpoint text_server_run (evs : list (text_event * Z)) (ts : text_server) : text_server :=
  match evs with
  | [] => ts
  | (ev, now) :: evs => text_server_run evs (text_server_step ev now ts)
  end.

(** The operations of a run, in their order. *)
Fixpoint run_trace (evs : list (text_event * Z)) (ts : text_server) : list (op * Z) :=
  match evs with
  | [] => []
  | (ev, now) :: evs => event_ops ev now ts ++ run_trace evs (text_server_step ev now ts)
  end.

(** *** The events and states of the simulator they stand for *)

Definition sim_event (ev : text_event) : server_event :=
  match ev with
  | TConnect c client_id => Connected c client_id
  | TSend c cs => DataRead c (concat (map text_line cs))
  | TFinish c => DelayOver c
  end.

Definition sim_client_of (tc : text_client) : sim_client :=
  {| sc_protocol := with_buffer (concat (map text_line (tail (tc_pending tc)))) (tc_protocol tc);
     sc_waiting := render <$> head (tc_pending tc) |}.

Definition sim_server_of (ts : text_server) : sim_server :=
  {| srv_state := ts_state ts; srv_clients := sim_client_of <$> ts_clients ts |}.

Definition event_ok (ev : text_event) : Prop :=
  match ev with TSend _ cs => cs <> [] /\ Forall command_ok cs | _ => True end.

Definition text_client_ok (tc : text_client) : Prop :=
  protocol_ok (tc_protocol tc) /\ Forall command_ok (tc_pending tc).

Definition text_server_ok (ts : text_server) : Prop :=
  texts_ascii (ts_state ts) /\ map_Forall (fun _ tc => text_client_ok tc) (ts_clients ts).

(** *** Lemmas *)

Lemma begin_no_config cs now cid :
  Forall (fun '(o, _) => is_configure o = false) (begin cs now cid).
Proof. destruct cs; by repeat constructor. Qed.

Lemma effects_no_config c (now : Z) :
  Forall (fun '(o, _) => is_configure o = false) (map (fun o => (o, now)) (effects c)).
Proof. destruct c; by repeat constructor. Qed.

Lemma event_ops_no_config ev now ts :
  Forall (fun '(o, _) => is_configure o = false) (event_ops ev now ts).
Proof.
  destruct ev as [c cid|c cs|c]; cbn [event_ops]; [constructor| |];
    (destruct (ts_clients ts !! c) as [[p [|cmd pending]]|]; try by constructor).
  - apply begin_no_config.
  - apply Forall_app. split; [apply effects_no_config|apply begin_no_config].
Qed.

Lemma run_trace_no_config evs ts :
  Forall (fun '(o, _) => is_configure o = false) (run_trace evs ts).
Proof.
  revert ts. induction evs as [|[ev now] evs IH]; intros ts; [constructor|].
  apply Forall_app. split; [apply event_ops_no_config|apply IH].
Qed.

Lemma run_ops_app a b s : run_ops (a ++ b) s = run_ops b (run_ops a s).
Proof. apply foldl_app. Qed.

Lemma run_trace_state evs ts :
  ts_state (text_server_run evs ts) = run_ops (run_trace evs ts) (ts_state ts).
Proof.
  revert ts. induction evs as [|[ev now] evs IH]; intros ts; [done|].
  cbn [text_server_run run_trace]. by rewrite IH, run_ops_app.
Qed.

Lemma concat_lines_nonempty cs :
  cs <> [] -> exists x l, concat (map text_line cs) = x :: l.
Proof.
  destruct cs as [|c cs]; [done|]. intros _. cbn [map concat]. unfold text_line.
  destruct (txt (render c)); eexists _, _; done.
Qed.

Lemma sim_client_idle p :
  sim_client_of {| tc_protocol := p; tc_pending := [] |} =
    {| sc_protocol := with_buffer [] p; sc_waiting := None |}.
Proof. done. Qed.

Lemma with_buffer_buffer p b : sp_buffer (with_buffer b p) = b.
Proof. done. Qed.

Lemma step_refines ev now ts :
  event_ok ev -> text_server_ok ts ->
  server_step (sim_event ev) now (sim_server_of ts) = sim_server_of (text_server_step ev now ts).
Proof.
  intros He [Hs Hc]. unfold sim_server_of at 1.
  destruct ev as [c cid|c cs|c]; cbn [sim_event server_step srv_clients srv_state].
  - unfold sim_server_of, text_server_step. cbn [event_ops event_client ts_state ts_clients].
    rewrite fmap_insert. done.
  - destruct He as [Hne Hok]. destruct (concat_lines_nonempty cs Hne) as (x & l & Ex).
    rewrite lookup_fmap. unfold sim_server_of, text_server_step.
    cbn [event_ops event_client ts_state ts_clients].
    destruct (ts_clients ts !! c) as [[p [|cmd pending]]|]; cbn [fmap option_fmap option_map]; [|done..].
    rewrite sim_client_idle, Ex. cbn beta iota. rewrite with_buffer_buffer, <- Ex.
    cbn [Datatypes.app]. rewrite with_buffer_twice, process_buffer_text by done.
    cbn [settle]. by rewrite fmap_insert.
  - rewrite lookup_fmap. unfold sim_server_of, text_server_step.
    cbn [event_ops event_client ts_state ts_clients].
    destruct (ts_clients ts !! c) as [[p [|cmd pending]]|] eqn:Ec;
      cbn [fmap option_fmap option_map]; [done| |done].
    destruct (Hc c _ Ec) as [Hp Hok]. cbn [tc_protocol tc_pending] in Hp, Hok.
    apply Forall_cons in Hok as [Hcmd Hok].
    cbn [sim_client_of tc_pending tc_protocol head tail fmap option_fmap option_map].
    sim_step ltac:(apply finish_text_render; [done|by apply texts_ascii_answerable|exact Hp]).
    rewrite finished_with_buffer, process_buffer_text by done. cbn [settle].
    rewrite fmap_insert, run_ops_app.
    assert (sp_client_id (finished cmd p (ts_state ts)) = sp_client_id p) as ->; [|done].
    destruct p as [? [] ? ? ? ?]; done.
Qed.

Lemma text_server_step_ok ev now ts :
  event_ok ev -> text_server_ok ts -> text_server_ok (text_server_step ev now ts).
Proof.
  intros He [Hs Hc]. split.
  - apply texts_ascii_ops; [apply event_ops_no_config|done].
  - cbn [text_server_step ts_clients]. destruct ev as [c cid|c cs|c]; cbn [event_client].
    + apply map_Forall_insert_2; [|done]. split; [|constructor]. unfold protocol_ok. simpl. lia.
    + destruct He as [_ Hok]. destruct (ts_clients ts !! c) as [[p [|cmd pending]]|] eqn:Ec; [|done..].
      apply map_Forall_insert_2; [|done]. by split; [apply (Hc c _ Ec)|].
    + destruct (ts_clients ts !! c) as [[p [|cmd pending]]|] eqn:Ec; [done| |done].
      destruct (Hc c _ Ec) as [Hp Hok]. apply Forall_cons in Hok as [_ Hok].
      apply map_Forall_insert_2; [|done]. by split; [apply finished_ok|].
Qed.

Lemma run_refines evs ts :
  Forall (fun '(ev, _) => event_ok ev) evs -> text_server_ok ts ->
  server_run (map (fun '(ev, now) => (sim_event ev, now)) evs) (sim_server_of ts) =
    sim_server_of (text_server_run evs ts) /\ text_server_ok (text_server_run evs ts).
Proof.
  intros He. revert ts. induction He as [|[ev now] evs Hev He IH]; intros ts Hts; [done|].
  cbn [map text_server_run server_run foldl]. rewrite step_refines by done.
  apply IH. by apply text_server_step_ok.
Qed.

(** ** Levels *)

(** The level of a group after operations on a state: a group of the
    configuration has the level it was last given, any other none. *)
Definition known_level (n a g : Z) (s : SimulatorState) (ops : list (op * Z)) : Z :=
  match find_group n a g s with
  | Some grp => level_after (this_group n a g) (level grp) ops
  | None => 0
  end.

Lemma known_level_run n a g s ops :
  Forall (fun '(o, _) => is_configure o = false) ops ->
  get_group_level n a g (run_ops ops s) = known_level n a g s ops.
Proof.
  intros Ho. destruct (run_ops_levels n a g ops s Ho) as [H _]. unfold known_level.
  destruct (find_group n a g s); [done|apply H].
Qed.

(** A server with no clients. *)
Definition idle_server (s : SimulatorState) : text_server := {| ts_state := s; ts_clients := ∅ |}.

Lemma idle_server_ok s : texts_ascii s -> text_server_ok (idle_server s).
Proof. intros Hs. split; [done|apply map_Forall_empty]. Qed.

Lemma sim_server_of_idle s :
  sim_server_of (idle_server s) = {| srv_state := s; srv_clients := ∅ |}.
Proof. unfold sim_server_of, idle_server. cbn [ts_clients ts_state]. by rewrite fmap_empty. Qed.

(** The events as the simulator sees them. *)
Definition sim_events (evs : list (text_event * Z)) : list (server_event * Z) :=
  map (fun '(ev, now) => (sim_event ev, now)) evs.

Lemma text_server_run_app a b ts :
  text_server_run (a ++ b) ts = text_server_run b (text_server_run a ts).
Proof. revert ts. induction a as [|[ev now] a IH]; intros ts; [done|apply IH]. Qed.

Lemma clients_stay evs ts c :
  is_Some (ts_clients ts !! c) -> is_Some (ts_clients (text_server_run evs ts) !! c).
Proof.
  revert ts. induction evs as [|[ev now] evs IH]; intros ts Hc; [done|].
  apply (IH (text_server_step ev now ts)). cbn [text_server_step ts_clients].
  destruct (event_client ev ts) as [[c' cl]|]; [|done]. by apply lookup_insert_is_Some'; right.
Qed.

(** A connection with other writes. *)
Definition with_written (w : list bytes) (p : protocol) : protocol :=
  {| sp_buffer := sp_buffer p; sp_smart_mode := sp_smart_mode p;
     sp_source_address := sp_source_address p;
     sp_confirmation_index := sp_confirmation_index p; sp_client_id := sp_client_id p;
     sp_written := w |}.

(** C12. The simulator runs the text commands of its clients one at a time,
    whatever the interleaving. From a server whose names are ASCII, let any
    clients connect, send any well-formed commands (several in one read, too) and
    let their delays end in any order: the server, with its buffers, patterns,
    handlers and confirmations, is exactly the abstract one, in which each
    command is logged when it starts and acts on the shared state, once and as a
    whole, when its delay is over; no connection is lost; and the shared state is
    the one the operations make, in the order of the delays. *)
Theorem text_clients_refined evs ts :
  Forall (fun '(ev, _) => event_ok ev) evs -> text_server_ok ts ->
  server_run (sim_events evs) (sim_server_of ts) = sim_server_of (text_server_run evs ts) /\
  srv_state (server_run (sim_events evs) (sim_server_of ts)) =
    run_ops (run_trace evs ts) (ts_state ts) /\
  (forall c, is_Some (ts_clients ts !! c) ->
     is_Some (srv_clients (server_run (sim_events evs) (sim_server_of ts)) !! c)).
Proof.
  intros He Hts. destruct (run_refines evs ts He Hts) as [E _]. unfold sim_events. rewrite E.
  split; [done|]. split; [apply run_trace_state|].
  intros c Hc. cbn [sim_server_of srv_clients]. rewrite lookup_fmap, fmap_is_Some.
  by apply clients_stay.
Qed.

(** C13. A status request for a group of the configuration is answered with the
    level it was last given; for any other group it is answered with off, whatever
    level it was given. Let clients that share the simulator send text commands, and
    no binary ones, and let their delays end in any order, from a configured state
    with ASCII names and no clients. When the delay of a client's status request is
    over, what it is sent is the echo of its command in basic mode, its confirmation
    with the connection's next code and the prompt if it asked for one, and one line
    about the group, which says off, on or the level. Of a group in the configuration
    this is the last level that any client set for this network, application and
    group before, clamped to a byte, or zero after a later reset, or its initial
    level when there was neither; of a group that is not in the configuration it is
    zero. *)
Theorem status_tells_last_level s evs c f src n a g cs p now :
  texts_ascii s -> Forall (fun '(ev, _) => event_ok ev) evs ->
  ts_clients (text_server_run evs (idle_server s)) !! c =
    Some {| tc_protocol := p; tc_pending := TStatus f src n a g :: cs |} ->
  exists p',
    sc_protocol <$>
      srv_clients (server_run (sim_events (evs ++ [(TFinish c, now)]))
                     {| srv_state := s; srv_clients := ∅ |}) !! c = Some p' /\
    sp_written p' = sp_written p ++ echo_lines (TStatus f src n a g) p ++
      confirmation_lines f (sp_smart_mode p) (sp_confirmation_index p) ++
      [status_line (sp_source_address p) n a g
         (known_level n a g s (run_trace evs (idle_server s)))].
Proof.
  intros Hs He Hc. rewrite <- sim_server_of_idle.
  assert (Forall (fun '(ev, _) => event_ok ev) (evs ++ [(TFinish c, now)])) as He'
    by (apply Forall_app; split; [done|by repeat constructor]).
  destruct (run_refines _ _ He' (idle_server_ok s Hs)) as [E _].
  unfold sim_events. rewrite E, text_server_run_app.
  cbn [text_server_run sim_server_of srv_clients text_server_step ts_clients event_client].
  rewrite Hc, lookup_fmap, lookup_insert_eq.
  eexists. split; [done|].
  rewrite run_trace_state. cbn [sim_client_of sc_protocol tc_protocol tc_pending with_buffer sp_written].
  unfold finished, after_text. cbn [sp_written flag_of answer].
  rewrite known_level_run by apply run_trace_no_config.
  unfold echo_lines, echoed. destruct p as [b [] src' i cid wr]; [done|].
  unfold add_written. cbn [sp_smart_mode sp_written sp_source_address sp_confirmation_index].
  by rewrite <- app_assoc.
Qed.

(** A text that is none of the commands is refused. Whatever a client that is
    connected, and has nothing waiting, sends as a line of printable characters
    that does not start a binary command and is not in the language of the text
    commands: it is logged, echoed in basic mode, counted as an error and
    answered with one line that says so, and the prompt; no level, no other
    client and no confirmation code changes, and the connection stays. *)
Theorem unknown_text_refused sv c p cmd now later :
  srv_clients sv !! c = Some {| sc_protocol := p; sc_waiting := None |} ->
  sp_buffer p = [] -> plain cmd = true -> cmd <> "" -> ~ text_language cmd ->
  server_run [(DataRead c (txt cmd ++ SIM_END_COMMAND), now); (DelayOver c, later)] sv =
  {| srv_state := count_error (log_command cmd (Some (sp_client_id p)) now (srv_state sv));
     srv_clients := <[c := {| sc_protocol :=
       with_written (sp_written p ++
         (if sp_smart_mode p then [] else [txt cmd ++ SIM_END_COMMAND]) ++
         [txt ("!Unknown command: " +:+ cmd +:+ crlf); prompt (sp_smart_mode p)]) p;
       sc_waiting := None |}]> (srv_clients sv) |}.
Proof.
  intros Hc Hb Hplain Hne Hno. cbn [server_run foldl server_step]. rewrite Hc.
  assert (exists x l, txt cmd ++ SIM_END_COMMAND = x :: l) as (x & l & Ed)
    by (destruct (txt cmd); eexists _, _; done).
  rewrite Ed, <- Ed, Hb. cbn [Datatypes.app].
  rewrite <- (app_nil_r (txt cmd ++ SIM_END_COMMAND)), process_buffer_plain by done.
  cbn [settle srv_clients srv_state]. rewrite lookup_insert_eq.
  sim_step ltac:(apply finish_text_unknown; [done|done|done]).
  destruct p as [b m src i cid wr]. cbn [sp_buffer] in Hb. subst b.
  set (err := txt ("!Unknown command: " +:+ cmd +:+ crlf)).
  assert (forall p s, sp_buffer p = [] -> _process_buffer later (p, s) = ((p, s), Ok None)) as He.
  { intros p s E. unfold _process_buffer. cbn [fst]. rewrite E. cbn [length process_lines].
    sim_step ltac:(reflexivity). by rewrite E. }
  rewrite He by by destruct m.
  cbn [settle srv_clients]. rewrite insert_insert_eq, app_nil_r. unfold with_written, with_buffer, add_written.
  destruct m; cbn [sp_smart_mode with_buffer add_written sp_buffer sp_source_address
    sp_confirmation_index sp_client_id sp_written Datatypes.app]; by rewrite <- ?app_assoc.
Qed.

(** *** Witnesses *)

(** A state with one group, at a level of its own. *)
Definition sample_group : group_config :=
  {| gc_id := Some 7; gc_name := Some "Hall"; gc_initial_level := Some 40 |}.

Definition sample_config : config :=
  {| c_device := None;
     c_networks := Some [{| nc_id := None; nc_name := None; nc_applications :=
       [{| ac_id := Some 56; ac_name := None; ac_groups := [sample_group] |}] |}];
     c_units := None; c_simulation := None |}.

Definition sample_state : SimulatorState := apply_configuration sample_config 0 (sim_init 0).

Lemma sample_texts : texts_ascii sample_state.
Proof.
  intros n attr. unfold identify_text. destruct (attr =? 0); [done|].
  destruct (attr =? 1); [by vm_compute|]. destruct (attr =? 2); [|by vm_compute].
  unfold sample_state. destruct (decide (n = 254)) as [->|Hne]; [by vm_compute|].
  assert (networks (apply_configuration sample_config 0 (sim_init 0)) !! n = None) as ->;
    [|by vm_compute].
  assert (exists net, networks (apply_configuration sample_config 0 (sim_init 0)) = {[254 := net]})
    as [net ->] by (eexists; vm_compute; reflexivity).
  by apply lookup_singleton_ne.
Qed.

(** Two clients: the second sends while the first waits, and finishes first. *)
Definition sample_run : list (text_event * Z) :=
  [(TConnect 1 "10.0.0.1:4001", 1); (TConnect 2 "10.0.0.2:4002", 2);
   (TSend 1 [TStatus true 5 254 56 7; TBasic], 3); (TSend 2 [TRamp false 5 254 56 7 12], 4);
   (TFinish 2, 5)].

Lemma sample_run_ok : Forall (fun '(ev, _) => event_ok ev) sample_run.
Proof.
  repeat (apply Forall_cons; split; [try done|]); [..|constructor]; (split; [done|]);
    repeat (apply Forall_cons; split; [by vm_compute|]); constructor.
Qed.

Example text_clients_refined_witness :
  text_server_ok (idle_server sample_state) /\
  srv_state (server_run (sim_events sample_run) (sim_server_of (idle_server sample_state))) =
    run_ops (run_trace sample_run (idle_server sample_state)) sample_state.
Proof.
  split; [apply idle_server_ok, sample_texts|].
  exact (proj1 (proj2 (text_clients_refined sample_run (idle_server sample_state)
    sample_run_ok (idle_server_ok _ sample_texts)))).
Defined.

(** The first client, whose request is older than the other's ramp. *)
Definition sample_client : protocol :=
  match ts_clients (text_server_run sample_run (idle_server sample_state)) !! 1%nat with
  | Some tc => tc_protocol tc
  | None => protocol_init "" sample_state
  end.

Example status_tells_last_level_witness :
  known_level 254 56 7 sample_state (run_trace sample_run (idle_server sample_state)) = 128 /\
  exists p',
    sc_protocol <$>
      srv_clients (server_run (sim_events (sample_run ++ [(TFinish 1, 6)]))
                     {| srv_state := sample_state; srv_clients := ∅ |}) !! 1%nat = Some p' /\
    sp_written p' = sp_written sample_client ++ echo_lines (TStatus true 5 254 56 7) sample_client ++
      confirmation_lines true (sp_smart_mode sample_client) (sp_confirmation_index sample_client) ++
      [status_line (sp_source_address sample_client) 254 56 7
         (known_level 254 56 7 sample_state (run_trace sample_run (idle_server sample_state)))].
Proof.
  split; [by vm_compute|].
  apply (status_tells_last_level sample_state sample_run 1 true 5 254 56 7 [TBasic] sample_client 6);
    [exact sample_texts|exact sample_run_ok|by vm_compute].
Defined.

(** The reference documentation's command to end a ramp is not in the language. *)
Lemma terminate_ramp_unknown : ~ text_language "#3//254A56T1".
Proof. intros H%first_match_language. by vm_compute in H; destruct H. Qed.

Example unknown_text_refused_witness :
  plain "#3//254A56T1" = true /\
  server_run [(DataRead 1 (txt "#3//254A56T1" ++ SIM_END_COMMAND), 1); (DelayOver 1, 2)]
    (sim_server_of (text_server_run [(TConnect 1 "a:1", 0)] (idle_server sample_state))) =
  {| srv_state := count_error (log_command "#3//254A56T1" (Some "a:1") 1 sample_state);
     srv_clients := <[1%nat := {| sc_protocol :=
       with_written (sp_written (greeted "a:1" sample_state) ++ [] ++
         [txt ("!Unknown command: #3//254A56T1" +:+ crlf); prompt true])
         (greeted "a:1" sample_state);
       sc_waiting := None |}]>
       (srv_clients (sim_server_of (text_server_run [(TConnect 1 "a:1", 0)] (idle_server sample_state)))) |}.
Proof.
  split; [done|].
  exact (unknown_text_refused
    (sim_server_of (text_server_run [(TConnect 1 "a:1", 0)] (idle_server sample_state)))
    1 (greeted "a:1" sample_state) "#3//254A56T1" 1 2
    eq_refl eq_refl eq_refl ltac:(discriminate) terminate_ramp_unknown).
Defined.

(** The clock command of the documentation is refused as well. *)
Example documented_clock_unknown : ~ text_language "#3//254A223T102030150322W1".
Proof. intros H%first_match_language. by vm_compute in H; destruct H. Qed.
