(* ===== verification/SimRobust.v ===== *)
(** * The stand-alone simulator on any input

    What holds of the server ([Simulator]) after any events, whatever bytes the
    clients send: the shared state and every connection stay well-formed. *)

From S2P Require Import Prelude Common Hex Text SimState SimParse Simulator.
From Stdlib Require Import String Ascii.
From stdpp Require Import strings gmap options.

Local Open Scope string_scope.
Local Open Scope list_scope.
Local Open Scope Z_scope.

#[local] Arguments String.append !_ _ / : simpl nomatch.

(** ** Any input *)

#[local] Typeclasses Opaque mret mbind raising update asks modify _write write_text
  _send_prompt _get_confirmation_code confirm_if _send_confirmation _send_error int_group
  handle_lighting set_group_level run_op encode_ascii.

(** A method that keeps the buffer and the invariants, and whose exceptions are
    python's. *)
Class Benign {A} (m : sim A) : Prop := benign p s :
  protocol_ok p -> state_ok s ->
  sp_buffer (m (p, s)).1.1 = sp_buffer p /\ protocol_ok (m (p, s)).1.1 /\
  state_ok (m (p, s)).1.2 /\ (m (p, s)).2 <> Raise OutOfFuel.

#[local] Instance benign_ret {A} (a : A) : Benign (mret a).
Proof. by intros p s Hp Hs. Qed.

#[local] Instance benign_bind {A B} (x : sim A) (f : A -> sim B) :
  Benign x -> (forall a, Benign (f a)) -> Benign (x ≫= f).
Proof.
  intros Hx Hf p s Hp Hs. destruct (Hx p s Hp Hs) as (Hb & Hp' & Hs' & Hr).
  unfold mbind, sim_bind. destruct (x (p, s)) as [[p1 s1] [a|e]]; cbn [fst snd] in *.
  - destruct (Hf a p1 s1 Hp' Hs') as (Hb2 & H). by rewrite Hb2.
  - split; [done|]. split; [done|]. split; [done|]. congruence.
Qed.

Lemma benign_raising {A} (r : result A) : r <> Raise OutOfFuel -> Benign (raising r).
Proof. by intros H p s Hp Hs. Qed.

#[local] Instance benign_asks {A} (f : protocol -> SimulatorState -> A) : Benign (asks f).
Proof. by intros p s Hp Hs. Qed.

Lemma benign_update {A} (f : SimulatorState -> SimulatorState * A) :
  (forall s, state_ok s -> state_ok (f s).1) -> Benign (update f).
Proof.
  intros H p s Hp Hs. specialize (H s Hs). unfold update. by destruct (f s).
Qed.

#[local] Instance benign_set_level n a g v now : Benign (update (set_group_level n a g v now)).
Proof. apply benign_update. intros s Hs. by apply set_group_level_ok. Qed.

#[local] Instance benign_op o now : op_ok o -> Benign (update (fun s => (run_op o now s, tt))).
Proof. intros Ho. apply benign_update. intros s Hs. by apply run_op_ok. Qed.

#[local] Instance benign_write data : Benign (_write data).
Proof. by intros p s Hp Hs. Qed.

#[local] Instance benign_mode m : Benign (modify (with_smart_mode m)).
Proof. by intros p s Hp Hs. Qed.

Lemma encode_ascii_raise s e : encode_ascii s = Raise e -> e = UnicodeError.
Proof. unfold encode_ascii. destruct (forallb _ s); [done|]. by intros [= <-]. Qed.

Lemma int_of_str_raise s e : int_of_str s = Raise e -> e = ValueError.
Proof.
  unfold int_of_str. destruct (take_sign _) as [neg t]. destruct t; [by intros [= <-]|].
  destruct (_ <? _)%nat; [by intros [= <-]|]. destruct (digits_value _ _); by intros [= <-].
Qed.

#[local] Instance benign_encode s : Benign (raising (encode_ascii s)).
Proof. apply benign_raising. intros E. by apply encode_ascii_raise in E. Qed.

#[local] Instance benign_int_group m n : Benign (int_group m n).
Proof.
  apply benign_raising. destruct (group m n); [|done]. intros E. by apply int_of_str_raise in E.
Qed.

#[local] Instance benign_write_text s : Benign (write_text s).
Proof. unfold write_text. apply _. Qed.

#[local] Instance benign_prompt : Benign _send_prompt.
Proof. unfold _send_prompt. apply _. Qed.

#[local] Instance benign_code : Benign _get_confirmation_code.
Proof.
  intros p s Hp Hs. unfold _get_confirmation_code, mbind, sim_bind, asks, raising, modify.
  destruct (lookup_lt_is_Some_2 SIM_CONFIRMATION_CODES (sp_confirmation_index p) Hp) as [c Hc].
  unfold item. rewrite Hc. cbn [or_raise]. unfold mret, sim_ret. cbn [fst snd].
  split; [done|]. split; [|done]. unfold protocol_ok. cbn [sp_confirmation_index with_index].
  by apply Nat.mod_upper_bound.
Qed.

#[local] Instance benign_confirm flag success : Benign (confirm_if flag success).
Proof. unfold confirm_if, _send_confirmation. destruct flag; apply _. Qed.

#[local] Instance benign_error t cmd : Benign (_send_error t cmd).
Proof.
  unfold _send_error. apply benign_bind; [|apply _].
  change (fun s => (count_error s, tt)) with (fun s => (run_op CountError 0 s, tt)).
  by apply benign_op.
Qed.

#[local] Instance benign_lighting m l ev s n a g now : Benign (handle_lighting m l ev s n a g now).
Proof. unfold handle_lighting, _broadcast_lighting_event. apply _. Qed.

#[local] Instance benign_reset now : Benign (_handle_reset now).
Proof.
  unfold _handle_reset. apply benign_bind; [|apply _]. by apply (benign_op Reset).
Qed.

#[local] Instance benign_basic : Benign _handle_basic_mode.
Proof. unfold _handle_basic_mode. apply _. Qed.

#[local] Instance benign_smart : Benign _handle_smart_mode.
Proof. unfold _handle_smart_mode. apply _. Qed.

#[local] Instance benign_on m now : Benign (_handle_lighting_on m now).
Proof. unfold _handle_lighting_on. apply _. Qed.

#[local] Instance benign_off m now : Benign (_handle_lighting_off m now).
Proof. unfold _handle_lighting_off. apply _. Qed.

#[local] Instance benign_ramp m now : Benign (_handle_lighting_ramp m now).
Proof. unfold _handle_lighting_ramp. apply _. Qed.

#[local] Instance benign_status m : Benign (_handle_status_request m).
Proof. unfold _handle_status_request, _send_status_response. apply _. Qed.

#[local] Instance benign_clock m : Benign (_handle_clock_update m).
Proof. unfold _handle_clock_update. apply _. Qed.

#[local] Instance benign_identify m : Benign (_handle_identify m).
Proof. unfold _handle_identify, _send_identify_response. apply _. Qed.

#[local] Instance benign_mmi m : Benign (_handle_mmi_request m).
Proof. unfold _handle_mmi_request. apply _. Qed.

Lemma benign_handlers : Forall (fun '(_, h) => forall m now, Benign (h m now)) COMMANDS.
Proof. unfold COMMANDS. repeat (apply Forall_cons; split; [intros m now; apply _|]). constructor. Qed.

Lemma first_match_elem l cmd h :
  first_match l cmd = Some h -> exists p f m, (p, f) ∈ l /\ h = f m.
Proof.
  induction l as [|[p f] l IH]; [done|]. cbn [first_match].
  destruct (re_match p cmd) as [m|].
  - intros [= <-]. exists p, f, m. split; [apply list_elem_of_here|done].
  - intros (q & f' & m & Hin & ->)%IH. exists q, f', m. split; [by apply list_elem_of_further|done].
Qed.

#[local] Instance benign_command cmd now : Benign (_process_command cmd now).
Proof.
  unfold _process_command. destruct (first_match COMMANDS cmd) as [h|] eqn:E; [|apply _].
  apply first_match_elem in E as (p & f & m & Hin & ->).
  pose proof (proj1 (Forall_forall _ _) benign_handlers _ Hin) as H. apply H.
Qed.

#[local] Instance benign_binary data now : Benign (_handle_binary_command data now).
Proof.
  assert (forall d, Benign (binary_message d now)) as Hb.
  { intros d. unfold binary_message. destruct d as [|c d]; [apply _|].
    destruct (c =? 5); [|apply _]. cbv zeta. destruct (_ =? 0xdf); [apply _|].
    destruct (_ && _); apply _. }
  unfold _handle_binary_command. destruct (find_sub _ _); [|apply Hb]. cbv zeta.
  destruct (drop _ _) as [|a [|b l]]; [apply Hb|apply Hb|].
  destruct (int16 a b); [|apply Hb]. destruct (_ || _); [|apply Hb].
  unfold string_lighting. cbv zeta. apply benign_bind; [apply _|]. intros _.
  destruct (last _); [|apply _]. destruct (byte_in _ _); apply _.
Qed.

#[local] Instance benign_log cmd src now :
  Benign (update (fun s => (log_command cmd src now s, tt))).
Proof. by apply (benign_op (LogCommand cmd src)). Qed.

#[local] Instance benign_start line now : Benign (start_text line now).
Proof. unfold start_text. apply _. Qed.

#[local] Instance benign_finish cmd now : Benign (finish_text cmd now).
Proof.
  unfold finish_text. apply benign_bind; [apply _|]. intros smart.
  apply benign_bind; [destruct smart; apply _|]. intros _. apply _.
Qed.

Lemma command_end_size buf e l :
  command_end buf = Some (e, l) -> (1 <= e + l /\ 1 <= length buf)%nat.
Proof.
  unfold command_end. destruct (find_sub SIM_END_COMMAND buf) as [k|] eqn:E1.
  - intros [= <- <-]. apply find_sub_Some in E1 as [_ E1]. simpl in *. lia.
  - destruct (find_sub [13] buf) as [k|] eqn:E2; [|done]. intros [= <- <-].
    apply find_sub_Some in E2 as [_ E2]. simpl in *. lia.
Qed.

Lemma command_end_None buf : command_end buf = None -> 13 ∉ buf.
Proof.
  unfold command_end. destruct (find_sub SIM_END_COMMAND buf); [done|].
  destruct (find_sub [13] buf) eqn:E; [done|]. intros _. by apply find_sub_None.
Qed.

Lemma get_group_level_byte n a g s : state_ok s -> byte_ok (get_group_level n a g s).
Proof.
  intros (Hn & _). unfold get_group_level, find_group.
  destruct (networks s !! n) as [net|] eqn:En; [|by vm_compute].
  destruct (Hn n net En) as [_ Ha]. cbn [mbind option_bind].
  destruct (applications net !! a) as [ap|] eqn:Ea; [|by vm_compute].
  destruct (Ha a ap Ea) as [_ Hg]. cbn [mbind option_bind].
  destruct (groups ap !! g) as [grp|] eqn:Eg; [|by vm_compute]. apply (Hg g grp Eg).
Qed.

(** Processing ends at a command to wait for, or with no complete line in the
    buffer, or in an exception. *)
Lemma process_lines_any now fuel p s :
  protocol_ok p -> state_ok s -> (length (sp_buffer p) <= fuel)%nat ->
  let '((p', s'), r) := process_lines fuel now (p, s) in
  protocol_ok p' /\ state_ok s' /\ r <> Raise OutOfFuel /\
  (r = Ok None -> command_end (sp_buffer p') = None).
Proof.
  revert p s. induction fuel as [|fuel IH]; intros p s Hp Hs Hf; cbn [process_lines];
    (sim_step ltac:(reflexivity)); destruct (command_end (sp_buffer p)) as [[e l]|] eqn:E; try done.
  - apply command_end_size in E. lia.
  - sim_step ltac:(reflexivity).
    set (p1 := with_buffer (drop (e + l) (sp_buffer p)) p).
    assert (protocol_ok p1) as Hp1 by done.
    assert (length (sp_buffer p1) <= fuel)%nat as Hf1.
    { unfold p1. cbn [sp_buffer with_buffer]. rewrite length_drop.
      apply command_end_size in E. lia. }
    clearbody p1. destruct (take e (sp_buffer p)) as [|x line]; [by apply IH|].
    destruct (startswith [92] (x :: line)).
    + set (m := _handle_binary_command _ now).
      assert (Benign (m ≫= _write)) as Hm by apply _.
      destruct (Hm p1 s Hp1 Hs) as (Hb & Hp2 & Hs2 & Hr).
      unfold mbind, sim_bind in *. destruct (m (p1, s)) as [[p2 s2] [b|ex]]; cbn [fst snd] in *;
        [|by repeat (split; [done|]); split; [congruence|]].
      change (_write b (p2, s2)) with ((add_written b p2, s2), @Ok unit tt) in *.
      cbn [fst snd] in *. apply IH; [done|done|]. rewrite Hb. done.
    + assert (Benign (start_text (x :: line) now)) as Hm by apply _.
      destruct (Hm p1 s Hp1 Hs) as (Hb & Hp2 & Hs2 & Hr).
      unfold mbind, sim_bind. destruct (start_text _ now (p1, s)) as [[p2 s2] [b|ex]];
        cbn [fst snd] in *; [done|]. repeat (split; [done|]). split; [congruence|done].
Qed.

(** What holds of a connection whose task waits. *)
Definition client_ok (cl : sim_client) : Prop :=
  protocol_ok (sc_protocol cl) /\
  (sc_waiting cl = None -> command_end (sp_buffer (sc_protocol cl)) = None).

Definition server_ok (sv : sim_server) : Prop :=
  state_ok (srv_state sv) /\ map_Forall (fun _ cl => client_ok cl) (srv_clients sv).

Lemma settle_ok c sv p s r :
  server_ok sv -> protocol_ok p -> state_ok s ->
  (r = Ok None -> command_end (sp_buffer p) = None) ->
  server_ok (settle c sv ((p, s), r)).
Proof.
  intros [_ Hc] Hp Hs Hr. destruct r as [w|e]; cbn [settle]; split; try done;
    cbn [srv_clients]; [|by apply map_Forall_delete].
  apply map_Forall_insert_2; [|done]. split; [done|]. cbn [sc_waiting]. intros ->. by apply Hr.
Qed.

Lemma process_buffer_settles c sv now p s :
  server_ok sv -> protocol_ok p -> state_ok s ->
  server_ok (settle c sv (_process_buffer now (p, s))).
Proof.
  intros Hsv Hp Hs. unfold _process_buffer. cbn [fst].
  pose proof (process_lines_any now (length (sp_buffer p)) p s Hp Hs (le_n _)) as H.
  destruct (process_lines _ now (p, s)) as [[p2 s2] r]. destruct H as (Hp2 & Hs2 & _ & Hend).
  by apply settle_ok.
Qed.

Lemma server_step_ok ev now sv : server_ok sv -> server_ok (server_step ev now sv).
Proof.
  intros Hsv. pose proof Hsv as [Hs Hc]. destruct ev as [c cid|c data|c]; cbn [server_step].
  - apply settle_ok; [done| |done|done]. unfold protocol_ok. simpl. lia.
  - destruct (srv_clients sv !! c) as [[p [w|]]|] eqn:Ep; [done| |done].
    destruct (Hc c _ Ep) as [Hp Hend]. destruct data as [|x data].
    { split; [done|]. by apply map_Forall_delete. }
    by apply process_buffer_settles.
  - destruct (srv_clients sv !! c) as [[p [w|]]|] eqn:Ep; [|done..].
    destruct (Hc c _ Ep) as [Hp Hend].
    destruct (benign_finish w now p (srv_state sv) Hp Hs) as (Hb & Hp2 & Hs2 & Hr).
    unfold mbind, sim_bind. destruct (finish_text w now (p, srv_state sv)) as [[p2 s2] [[]|e]];
      cbn [fst snd] in *; [by apply process_buffer_settles|]. by apply settle_ok.
Qed.

Lemma server_run_ok evs sv : server_ok sv -> server_ok (server_run evs sv).
Proof.
  revert sv. induction evs as [|[ev now] evs IH]; intros sv H; [done|].
  by apply (IH (server_step ev now sv)), server_step_ok.
Qed.

(** C25. Any input leaves the simulator well-formed. From a configuration whose
    initial levels are bytes, after any connections, any bytes sent on them and
    any delays, in any order: every group has its own key and a level that is a
    byte, in its application and in the quick table, every application, network
    and unit is under its own key, the history holds at most a hundred commands
    and the count of errors is not negative; the next confirmation code of every
    connection exists, so that a confirmation never fails; a connection that
    waits for data holds no complete command; and a level that is asked for is a
    byte. *)
Theorem any_input_well_formed c now evs :
  match c with Some c => config_ok c | None => True end ->
  let sv := server_run evs (server_init c now) in
  server_ok sv /\
  (forall k cl, srv_clients sv !! k = Some cl ->
     (exists code, SIM_CONFIRMATION_CODES !! sp_confirmation_index (sc_protocol cl) = Some code) /\
     (sc_waiting cl = None ->
        13 ∉ sp_buffer (sc_protocol cl))) /\
  forall n a g, byte_ok (get_group_level n a g (srv_state sv)).
Proof.
  intros Hc sv.
  assert (server_ok sv) as Hok.
  { apply server_run_ok. split; [|apply map_Forall_empty]. cbn [server_init srv_state].
    destruct c; [apply apply_configuration_ok; [done|]|]; apply sim_init_ok. }
  split; [done|]. destruct Hok as [Hs Hcl]. split.
  - intros k cl Hk. destruct (Hcl k cl Hk) as [Hp Hw]. split.
    + by apply lookup_lt_is_Some_2 in Hp.
    + intros H%Hw. by apply command_end_None.
  - intros n a g. by apply get_group_level_byte.
Qed.

Example any_input_well_formed_witness :
  config_ok {| c_device := None; c_networks := None; c_units := None; c_simulation := None |} /\
  server_ok (server_run [(Connected 0 "a:1", 0); (DataRead 0 [92; 48; 53; 255; 13; 10; 88; 13], 1);
                         (DelayOver 0, 2)]
    (server_init (Some {| c_device := None; c_networks := None; c_units := None;
                          c_simulation := None |}) 0)).
Proof.
  split; [constructor|].
  exact (proj1 (any_input_well_formed
    (Some {| c_device := None; c_networks := None; c_units := None; c_simulation := None |}) 0
    [(Connected 0 "a:1", 0); (DataRead 0 [92; 48; 53; 255; 13; 10; 88; 13], 1); (DelayOver 0, 2)]
    (Forall_nil_2 _))).
Defined.
