(* ===== verification/SimClient.v ===== *)
(** * The client library against the stand-alone simulator

    What the simulator ([Simulator]) does with the lighting commands that
    [PCIProtocol] ([Pci]) prepares. *)

From S2P Require Import Prelude Common Hex Report Cal Lighting Application Packet.
From S2P Require Import PyDict Confirm Pci Text SimState SimParse Simulator.
From S2P Require Import Emulator EmulatorClient.
From Stdlib Require Import String.
From stdpp Require Import gmap options.

Local Open Scope list_scope.
Local Open Scope Z_scope.

(** The command byte of a message, and its group. *)
Definition sal_code (l : LightingSAL) : Z :=
  match l with
  | LightingOnSAL _ _ => value LightCommand.ON
  | LightingOffSAL _ _ => value LightCommand.OFF
  | LightingRampSAL _ _ d _ => value (duration_to_ramp_rate d)
  | LightingTerminateRampSAL _ _ => value LightCommand.TERMINATE_RAMP
  end.

Definition sal_group (l : LightingSAL) : Z :=
  match l with
  | LightingOnSAL g _ | LightingOffSAL g _ | LightingRampSAL g _ _ _
  | LightingTerminateRampSAL g _ => g
  end.

(** A connection after a confirmation by the code of the command itself. *)
Definition told (k : Z) (p : Simulator.protocol) : Simulator.protocol :=
  add_written [] (add_written (prompt (sp_smart_mode p))
    (add_written ([k] ++ [46] ++ SIM_END_COMMAND) p)).

(** ** Lemmas *)

Lemma lighting_encode_shape l b :
  lighting_encode l = Ok b -> exists rest, b = sal_code l :: sal_group l :: rest.
Proof.
  destruct l as [g a d lev|g a|g a|g a]; unfold lighting_encode; cbn [sal_code sal_group].
  - destruct (_ || _); [done|]. intros (u & _ & Hb)%result_bind_Ok. exists [lev].
    unfold mk_bytes in Hb. by destruct (forallb _ _); [injection Hb as <-|].
  - intros (u & _ & Hb)%result_bind_Ok. exists [].
    unfold mk_bytes in Hb. by destruct (forallb _ _); [injection Hb as <-|].
  - intros (u & _ & Hb)%result_bind_Ok. exists [].
    unfold mk_bytes in Hb. by destruct (forallb _ _); [injection Hb as <-|].
  - intros (u & _ & Hb)%result_bind_Ok. exists [].
    unfold mk_bytes in Hb. by destruct (forallb _ _); [injection Hb as <-|].
Qed.

(** The text of a lighting command, read by the simulator. *)
Lemma handle_lighting_text cc gg rest k now p s :
  byte_ok cc -> byte_ok gg -> bytes_ok rest -> k ∈ CONFIRMATION_CODES ->
  _handle_binary_command
    (PyBytearray ([92] ++ b16encode (0x05 :: 0x38 :: 0x00 :: cc :: gg :: rest) ++ [k])) now (p, s) =
  ((add_written (prompt (sp_smart_mode p)) (add_written ([k] ++ [46] ++ SIM_END_COMMAND) p),
    (SimState.set_group_level 254 56 cc gg now s).1), Ok []).
Proof.
  intros Hc Hg Hr Hk. set (line := [92] ++ _ ++ [k]).
  assert (bytes_ok (0x05 :: 0x38 :: 0x00 :: cc :: gg :: rest)) as Hb by (simpl; solve_bytes).
  assert (k < 128) as Hk128.
  { revert Hk. unfold CONFIRMATION_CODES. rewrite !elem_of_cons, elem_of_nil. intros H. lia. }
  assert (List.filter (fun c => c <? 128) line = line) as Hf.
  { apply filter_id_forall. unfold line.
    apply Forall_app; split; [by repeat constructor|]. apply Forall_app; split.
    - apply Forall_forall. intros c Hin%b16encode_elem; [lia|done].
    - constructor; [lia|constructor]. }
  assert (line = [92; 48; 53; 51; 56; 48; 48] ++
    [hex_digit (Z.shiftr cc 4); hex_digit (Z.land cc 0xf);
     hex_digit (Z.shiftr gg 4); hex_digit (Z.land gg 0xf)] ++ b16encode rest ++ [k]) as El by done.
  assert (hex_at line 7 1 = cc) as Hcc.
  { unfold hex_at. rewrite El. cbn [Datatypes.app drop]. by rewrite int16_hex_byte. }
  assert (hex_at line 9 255 = gg) as Hgg.
  { unfold hex_at. rewrite El. cbn [Datatypes.app drop]. by rewrite int16_hex_byte. }
  assert (last line = Some k) as Hlast by (unfold line; rewrite app_assoc; apply last_snoc).
  assert (byte_in k SIM_CONFIRMATION_CODES = true) as Hin.
  { revert Hk. unfold CONFIRMATION_CODES. rewrite !elem_of_cons, elem_of_nil.
    intros H. by repeat destruct H as [->|H]. }
  assert (find_sub SLASH05 line = Some 0%nat) as Hfind by by rewrite El.
  assert (drop 3 line = 51 :: 56 :: drop 5 line) as Hdrop by by rewrite El.
  unfold _handle_binary_command. cbn [contents preprocess_cbus_data]. rewrite Hf, Hfind.
  assert (match line with c :: _ => if c =? 0x05 then PyBytearray line else PyBytearray line
          | [] => PyBytearray line end = PyBytearray line) as -> by by rewrite El.
  cbn [Nat.add contents]. rewrite Hdrop. change (int16 51 56) with (Ok 0x38).
  cbn iota. change ((0x38 =? 0x38) || (0x38 =? 0xff)) with true. cbn iota.
  unfold string_lighting. cbv zeta. cbn [Nat.add]. rewrite Hcc, Hgg, Hlast, Hin.
  assert (update (SimState.set_group_level 254 56 cc gg now) (p, s) =
    ((p, (SimState.set_group_level 254 56 cc gg now s).1), Ok true)) as Hu.
  { unfold update, SimState.set_group_level. by destruct (SimState.find_group _ _ _ s). }
  sim_step ltac:(exact Hu). sim_step ltac:(reflexivity). unfold _send_prompt.
  sim_step ltac:(reflexivity). done.
Qed.

Lemma line_no_crlf l : 13 ∉ l -> find_sub [13; 10] (l ++ [13]) = None.
Proof.
  induction l as [|x l IH]; intros H; [done|]. apply not_elem_of_cons in H as [Hx Hl].
  cbn [Datatypes.app find_sub startswith]. rewrite (proj2 (Z.eqb_neq 13 x)) by done.
  cbn [andb]. by rewrite IH.
Qed.

(** A read of one line that starts a binary command. *)
Lemma server_read_text sv c p text k now p2 s2 response :
  srv_clients sv !! c = Some {| sc_protocol := p; sc_waiting := None |} -> sp_buffer p = [] ->
  bytes_ok text -> k <> 13 ->
  _handle_binary_command (PyBytearray ([92] ++ b16encode text ++ [k])) now (p, srv_state sv) =
    ((p2, s2), Ok response) ->
  sp_buffer p2 = [] ->
  server_step (DataRead c ([92] ++ b16encode text ++ [k] ++ END_COMMAND)) now sv =
    {| srv_state := s2;
       srv_clients := <[c := {| sc_protocol := add_written response p2; sc_waiting := None |}]>
                        (srv_clients sv) |}.
Proof.
  intros Hc Hb Ht Hk Hcmd Hb2. set (line := [92] ++ b16encode text ++ [k]).
  assert ([92] ++ b16encode text ++ [k] ++ END_COMMAND = line ++ [13]) as ->
    by (unfold line, END_COMMAND; by rewrite <- !app_assoc).
  assert (13 ∉ line) as H13.
  { unfold line. rewrite !elem_of_app, !list_elem_of_singleton. intros [H|[H|H]]; [done| |congruence].
    apply b16encode_elem in H; [lia|done]. }
  assert (command_end (line ++ [13]) = Some (length line, 1%nat)) as Hend.
  { unfold command_end, SIM_END_COMMAND. rewrite line_no_crlf by done. by rewrite find_sub_end1. }
  cbn [server_step]. rewrite Hc.
  assert (exists x l, line ++ [13] = x :: l) as (x & l & Ex) by (eexists _, _; done).
  rewrite Ex, <- Ex, Hb. cbn [Datatypes.app]. unfold _process_buffer. cbn [fst sp_buffer with_buffer].
  assert (length (line ++ [13]) = S (length line)) as -> by (rewrite length_app; simpl; lia).
  cbn [process_lines]. sim_step ltac:(reflexivity). cbn [sp_buffer with_buffer].
  rewrite Hend. sim_step ltac:(reflexivity). rewrite take_app_length.
  assert (drop (length line + 1) (line ++ [13]) = []) as ->
    by (apply drop_ge; rewrite length_app; simpl; lia).
  assert (with_buffer [] (with_buffer (line ++ [13]) p) = p) as -> by (destruct p; cbn in Hb; by subst).
  assert (exists y m, line = y :: m /\ startswith [92] (y :: m) = true) as (y & m & Ey & Hs)
    by (eexists _, _; done).
  rewrite Ey, Hs, <- Ey. sim_step ltac:(exact Hcmd). sim_step ltac:(reflexivity).
  destruct (length line); cbn [process_lines]; (sim_step ltac:(reflexivity));
    cbn [sp_buffer add_written]; by rewrite Hb2.
Qed.

(** Setting one group leaves the others. *)
Lemma set_level_other n a g n' a' g' v now s :
  this_group n a g n' a' g' = false ->
  SimState.get_group_level n a g (SimState.set_group_level n' a' g' v now s).1 = SimState.get_group_level n a g s.
Proof.
  intros Hne. pose proof (run_op_level n a g (SetLevel n' a' g' v) now s eq_refl) as H.
  cbn [run_op] in H. unfold SimState.get_group_level. rewrite H, Hne. by destruct (SimState.find_group n a g s).
Qed.

(** ** Property *)

(** The simulator confirms the library's lighting commands and acts on
    another group. For any valid lighting command that [PCIProtocol] prepares for
    the lighting application 56, written on a connection that waits with nothing
    in its buffer: the simulator answers with exactly the confirmation of its
    code, so that the client takes it for done, but it sets the level of the
    group whose number is the command's code (121 for on, 1 for off, the code of
    the rate for a ramp, 9 to end one) to the group address of the command; the
    other messages of the command and the level of a ramp are not looked at, and
    every other group keeps its level. *)
Theorem simulator_misreads_lighting l more t now st sv c p :
  confirmations_inv st ->
  let cmd := PointToMultipointPacket command_header (Some 0x38) (map SLighting (l :: more)) in
  packet_valid cmd ->
  srv_clients sv !! c = Some {| sc_protocol := p; sc_waiting := None |} -> sp_buffer p = [] ->
  exists st' data k,
    _prepare_packet {| cmd := cmd; want_confirmation := true; basic_mode := false |} t now st =
      Ok (st', data, Some k) /\
    server_step (DataRead c data) t sv =
      {| srv_state := (SimState.set_group_level 254 56 (sal_code l) (sal_group l) t
                         (srv_state sv)).1;
         srv_clients := <[c := {| sc_protocol := told k p; sc_waiting := None |}]>
                          (srv_clients sv) |} /\
    forall n a g, this_group n a g 254 56 (sal_code l) = false ->
      SimState.get_group_level n a g (srv_state (server_step (DataRead c data) t sv)) =
        SimState.get_group_level n a g (srv_state sv).
Proof.
  intros Hi cmd Hv Hc Hb. destruct (command_bytes _ _ Hv) as (o & Ho & Hob & He).
  destruct (prepared_text cmd _ t now st Hi eq_refl eq_refl He) as (st' & k & Hp & Hk).
  exists st', ([92] ++ b16encode (add_cbus_checksum ([0x05; 0x38; 0x00] ++ o)) ++ [k] ++ END_COMMAND), k.
  split; [exact Hp|].
  cbn [map] in Ho. apply encode_items_cons in Ho as (b & rest & Hl & _ & ->).
  apply lighting_encode_shape in Hl as [tl ->].
  assert (exists rest', add_cbus_checksum ([0x05; 0x38; 0x00] ++
    (sal_code l :: sal_group l :: tl) ++ rest) =
    0x05 :: 0x38 :: 0x00 :: sal_code l :: sal_group l :: rest') as [rest' Ew]
    by (eexists; unfold add_cbus_checksum; reflexivity).
  rewrite Ew in *. clear Ew Hp He.
  assert (server_step (DataRead c ([92] ++ b16encode
    (0x05 :: 0x38 :: 0x00 :: sal_code l :: sal_group l :: rest') ++ [k] ++ END_COMMAND)) t sv =
    {| srv_state := (SimState.set_group_level 254 56 (sal_code l) (sal_group l) t (srv_state sv)).1;
       srv_clients := <[c := {| sc_protocol := told k p; sc_waiting := None |}]>
                          (srv_clients sv) |}) as ->.
  { unfold told. pose proof Hob as Hob'.
    do 3 (apply Forall_cons in Hob' as [_ Hob']). apply Forall_cons in Hob' as [Hcc Hob'].
    apply Forall_cons in Hob' as [Hgg Hob'].
    eapply server_read_text; [exact Hc|exact Hb|exact Hob| |by apply handle_lighting_text|exact Hb].
    intros ->. revert Hk. unfold CONFIRMATION_CODES. rewrite !elem_of_cons, elem_of_nil. lia. }
  split; [done|]. intros n a g Hne. cbn [srv_state].
  by apply set_level_other.
Qed.

Example simulator_misreads_lighting_witness :
  let sv := server_step (Connected 1 "a:1"%string) 0 (server_init None 0) in
  let p := add_written (prompt true) (protocol_init "a:1"%string (sim_init 0)) in
  exists st' data k,
    _prepare_packet
      {| cmd := PointToMultipointPacket command_header (Some 0x38)
           (map SLighting [LightingOnSAL 2 0x38]);
         want_confirmation := true; basic_mode := false |} 0 0 no_confirmations =
      Ok (st', data, Some k) /\
    server_step (DataRead 1 data) 0 sv =
      {| srv_state := (SimState.set_group_level 254 56 0x79 2 0 (sim_init 0)).1;
         srv_clients := <[1%nat := {| sc_protocol := told k p; sc_waiting := None |}]>
                          (srv_clients sv) |} /\
    forall n a g, this_group n a g 254 56 0x79 = false ->
      SimState.get_group_level n a g (srv_state (server_step (DataRead 1 data) 0 sv)) =
        SimState.get_group_level n a g (srv_state sv).
Proof.
  refine (simulator_misreads_lighting (LightingOnSAL 2 0x38) [] 0 0 no_confirmations
    (server_step (Connected 1 "a:1"%string) 0 (server_init None 0)) 1
    (add_written (prompt true) (protocol_init "a:1"%string (sim_init 0)))
    no_confirmations_inv _ eq_refl eq_refl).
  repeat split; repeat constructor; simpl; unfold byte_ok; lia.
Defined.
