(* ===== verification/Proxy.v ===== *)
(** * The protocol analyser and proxy: [cbus-proxy/proxy.py]

    [PacketAnalyzer], as far as it keeps state: how many packets and errors it
    has seen and which command waits under which confirmation code; what it
    prints is only kept as the facts it prints. [CBusProxy]: clients, the one
    connection to the interface (a CNI), and the lines it carries both ways. *)

From S2P Require Import Prelude Common Hex Report Cal Lighting StatusRequest Application.
From S2P Require Import Packet Decode PyDict.
From Stdlib Require Import String.
From stdpp Require Import strings gmap options.

Local Open Scope string_scope.
Local Open Scope list_scope.
Local Open Scope Z_scope.

(** ** The analyser *)

Inductive Direction := FROM_CLIENT | FROM_CNI.

(** The description of a command that waits for its confirmation. *)
Inductive description :=
| LightOn (grp : Z)
| LightOff (grp : Z)
| LightRamp (grp level : Z)
| StatusRequest (app_val group_start group_count : Z).

(** When it was sent, what it was, and the client it came from. *)
Definition waiting_command : Type := Z * description * option string.

Record PacketAnalyzer := {
  packet_count : Z;
  error_count : Z;
  confirmation_map : list (Z * waiting_command)
}.

Definition analyzer_init : PacketAnalyzer :=
  {| packet_count := 0; error_count := 0; confirmation_map := [] |}.

Definition count_packet (a : PacketAnalyzer) : PacketAnalyzer :=
  {| packet_count := packet_count a + 1; error_count := error_count a;
     confirmation_map := confirmation_map a |}.

Definition count_error (a : PacketAnalyzer) : PacketAnalyzer :=
  {| packet_count := packet_count a; error_count := error_count a + 1;
     confirmation_map := confirmation_map a |}.

Definition with_confirmations (m : list (Z * waiting_command)) (a : PacketAnalyzer)
    : PacketAnalyzer :=
  {| packet_count := packet_count a; error_count := error_count a; confirmation_map := m |}.

(** The facts in an analysis. *)
Inductive analysis :=
| AFailed (* no packet *)
| ADecoded (d : decoded) (confirms : option waiting_command)
| AException (e : exn).

(** [ord(b)] *)
Definition ord (b : bytes) : result Z :=
  match b with [c] => Ok c | _ => Raise TypeError end.

(** The description that [_analyze_sal] keeps. A [StatusRequestSAL] has an
    [application], its own, and no [group_start] and [group_count]. *)
Definition describe (sal : SAL) : option description :=
  match sal with
  | SLighting (LightingOnSAL g _) => Some (LightOn g)
  | SLighting (LightingOffSAL g _) => Some (LightOff g)
  | SLighting (LightingRampSAL g _ _ level) => Some (LightRamp g level)
  | SStatusRequest _ => Some (StatusRequest (sal_application sal) 0 0)
  | _ => None
  end.

Definition _analyze_sal (confirmation : option bytes) (client : option string) (now : Z)
    (a : PacketAnalyzer) (sal : SAL) : result PacketAnalyzer :=
  match describe sal, confirmation with
  | Some desc, Some c =>
      code_int ← ord c;
      Ok (with_confirmations (dict_set (confirmation_map a) code_int (now, desc, client)) a)
  | _, _ => Ok a
  end.

Fixpoint analyze_sals (confirmation : option bytes) (client : option string) (now : Z)
    (a : PacketAnalyzer) (sals : list SAL) : result PacketAnalyzer :=
  match sals with
  | [] => Ok a
  | sal :: sals =>
      a ← _analyze_sal confirmation client now a sal;
      analyze_sals confirmation client now a sals
  end.

Definition analyze_decoded (d : decoded) (client : option string) (now : Z)
    (a : PacketAnalyzer) : result (PacketAnalyzer * option waiting_command) :=
  match d with
  | DPacket (ConfirmationPacket code _) =>
      code_int ← ord code;
      match dict_get (confirmation_map a) code_int with
      | Some w => Ok (with_confirmations (dict_pop (confirmation_map a) code_int) a, Some w)
      | None => Ok (a, None)
      end
  | DPacket PCIErrorPacket => Ok (count_error a, None)
  | DPacket (PointToMultipointPacket h _ sals) =>
      a ← analyze_sals (confirmation h) client now a sals; Ok (a, None)
  | DPacket (InvalidPacket _ _) => Ok (count_error a, None)
  | _ => Ok (a, None)
  end.

Definition analyze_packet (raw_data : bytes) (direction : Direction) (client : option string)
    (now : Z) (a : PacketAnalyzer) : PacketAnalyzer * analysis :=
  let a := count_packet a in
  let from_pci := match direction with FROM_CNI => true | FROM_CLIENT => false end in
  match decode_packet raw_data true true from_pci with
  | Raise e => (count_error a, AException e)
  | Ok (None, _) => (a, AFailed)
  | Ok (Some d, _) =>
      match analyze_decoded d client now a with
      | Ok (a, confirms) => (a, ADecoded d confirms)
      | Raise e => (count_error a, AException e)
      end
  end.

(** ** Framing *)

(** One packet from the interface: a confirmation, a line, or a lone mark. *)
Definition cni_packet (buffer : bytes) : option (bytes * bytes) :=
  match buffer with
  | c :: _ :: _ =>
      if byte_in c CONFIRMATION_CODES then Some (take 2 buffer, drop 2 buffer)
      else
        match find_sub END_RESPONSE buffer with
        | Some end_pos =>
            Some (take (end_pos + length END_RESPONSE) buffer,
                  drop (end_pos + length END_RESPONSE) buffer)
        | None =>
            if startswith [43] buffer || startswith [33] buffer
            then Some (take 1 buffer, drop 1 buffer) else None
        end
  | _ =>
      if startswith [43] buffer || startswith [33] buffer
      then Some (take 1 buffer, drop 1 buffer) else None
  end.

(** One command of a client. *)
Definition client_packet (buffer : bytes) : option (bytes * bytes) :=
  match find_sub END_COMMAND buffer with
  | Some end_pos =>
      Some (take (end_pos + length END_COMMAND) buffer, drop (end_pos + length END_COMMAND) buffer)
  | None => None
  end.

(** The packets of a buffer, and what is left; a packet is never empty, so that
    the length of the buffer is enough fuel. *)
Fixpoint packets_of (next : bytes -> option (bytes * bytes)) (fuel : nat) (buffer : bytes)
    : list bytes * bytes :=
  match fuel with
  | O => ([], buffer)
  | S fuel =>
      match next buffer with
      | None => ([], buffer)
      | Some (packet_data, buffer) =>
          let '(packets, rest) := packets_of next fuel buffer in (packet_data :: packets, rest)
      end
  end.

Definition split_packets (next : bytes -> option (bytes * bytes)) (buffer : bytes)
    : list bytes * bytes :=
  packets_of next (length buffer) buffer.

(** ** The proxy *)

(** A client's connection: whether it is in [self.clients], the count of its
    [ClientInfo], the buffer of its task, and what is written to it. *)
Record client := {
  registered : bool;
  client_packets : Z;
  client_buffer : bytes;
  client_written : list bytes
}.

(** [self.cni_task]: none, waiting in a read of one connection to the interface,
    or at its end. *)
Inductive reader_task :=
| NoTask
| Reading (connection : nat) (buffer : bytes)
| Ended.

Record proxy := {
  px_running : bool;
  px_connected : bool; (* [cni_connected] *)
  px_writer : option nat; (* the connection of [cni_reader] and [cni_writer] *)
  px_links : gmap nat (list bytes); (* what was written to each connection made *)
  px_task : reader_task;
  px_analyzer : PacketAnalyzer;
  px_clients : gmap string client
}.

Definition proxy_init : proxy :=
  {| px_running := false; px_connected := false; px_writer := None; px_links := ∅;
     px_task := NoTask; px_analyzer := analyzer_init; px_clients := ∅ |}.

Definition with_link (connected : bool) (writer : option nat) (links : gmap nat (list bytes))
    (px : proxy) : proxy :=
  {| px_running := px_running px; px_connected := connected; px_writer := writer;
     px_links := links; px_task := px_task px; px_analyzer := px_analyzer px;
     px_clients := px_clients px |}.

Definition with_task (t : reader_task) (px : proxy) : proxy :=
  {| px_running := px_running px; px_connected := px_connected px; px_writer := px_writer px;
     px_links := px_links px; px_task := t; px_analyzer := px_analyzer px;
     px_clients := px_clients px |}.

Definition with_analyzer (a : PacketAnalyzer) (px : proxy) : proxy :=
  {| px_running := px_running px; px_connected := px_connected px; px_writer := px_writer px;
     px_links := px_links px; px_task := px_task px; px_analyzer := a;
     px_clients := px_clients px |}.

Definition with_clients (cs : gmap string client) (px : proxy) : proxy :=
  {| px_running := px_running px; px_connected := px_connected px; px_writer := px_writer px;
     px_links := px_links px; px_task := px_task px; px_analyzer := px_analyzer px;
     px_clients := cs |}.

Definition set_running (r : bool) (px : proxy) : proxy :=
  {| px_running := r; px_connected := px_connected px; px_writer := px_writer px;
     px_links := px_links px; px_task := px_task px; px_analyzer := px_analyzer px;
     px_clients := px_clients px |}.

(** [connect_to_cni]: the attempt succeeds with a connection not used before, or
    fails. *)
Definition connect_to_cni (attempt : option nat) (px : proxy) : proxy :=
  match attempt with
  | Some n => with_link true (Some n) (<[n := []]> (px_links px)) px
  | None => with_link false (px_writer px) (px_links px) px
  end.

(** [cni_writer.write(data)] *)
Definition cni_write (data : bytes) (px : proxy) : proxy :=
  match px_writer px with
  | Some n => with_link (px_connected px) (px_writer px)
                (alter (fun w => w ++ [data]) n (px_links px)) px
  | None => px
  end.

(** The commands of [initialize_cni]. *)
Definition init_packets : list packet :=
  [SmartConnectShortcutPacket;
   dm_new false PriorityClass.CLASS_2 0x21 0xff;
   dm_new false PriorityClass.CLASS_2 0x22 0xff;
   dm_new false PriorityClass.CLASS_2 0x42 0x0e;
   dm_new false PriorityClass.CLASS_2 0x30 0x79].

Definition init_commands : result (list bytes) :=
  cmds ← mapM_result encode_packet init_packets;
  Ok (map (fun cmd => cmd ++ END_COMMAND) ([126] :: cmds)).

(** The writes, spaced in time, are one step here. *)
Definition initialize_cni (px : proxy) : result proxy :=
  if negb (px_connected px) then Ok px
  else
    match px_writer px with
    | None => Ok px
    | Some _ => cmds ← init_commands; Ok (foldl (fun px cmd => cni_write cmd px) px cmds)
    end.

(** [create_task(self.cni_reader_task())]: it gets as far as its first read. *)
Definition start_reader (px : proxy) : proxy :=
  match px_writer px with
  | Some n => with_task (Reading n []) px
  | None => px
  end.

(** [start], up to serving clients. *)
Definition start (attempt : option nat) (px : proxy) : proxy :=
  let px := connect_to_cni attempt (set_running true px) in
  if px_connected px then
    match initialize_cni px with Ok px => start_reader px | Raise _ => px end
  else px.

(** [broadcast_to_clients]: clients whose connection fails leave the registry. *)
Definition broadcast_to_clients (failing : list string) (data : bytes) (px : proxy) : proxy :=
  with_clients (map_imap (fun id c =>
    Some (if registered c then
            if bool_decide (id ∈ failing)
            then {| registered := false; client_packets := client_packets c;
                    client_buffer := client_buffer c; client_written := client_written c |}
            else {| registered := true; client_packets := client_packets c;
                    client_buffer := client_buffer c;
                    client_written := client_written c ++ [data] |}
          else c)) (px_clients px)) px.

Definition cni_relay (failing : list string) (now : Z) (px : proxy) (packet_data : bytes)
    : proxy :=
  let '(a, _) := analyze_packet packet_data FROM_CNI None now (px_analyzer px) in
  broadcast_to_clients failing packet_data (with_analyzer a px).

(** The [finally] of [cni_reader_task]: it closes the writer of the moment. *)
Definition end_reader (px : proxy) : proxy :=
  with_task Ended (with_link false (px_writer px) (px_links px) px).

(** A read of the task returns: nothing, at the end of the connection. *)
Definition cni_read (connection : nat) (data : bytes) (failing : list string) (now : Z)
    (px : proxy) : proxy :=
  match px_task px with
  | Reading n buffer =>
      if bool_decide (n = connection) then
        match data with
        | [] => end_reader px
        | _ :: _ =>
            let '(packets, rest) := split_packets cni_packet (buffer ++ data) in
            let px := foldl (cni_relay failing now) px packets in
            match px_writer px with
            | Some m =>
                if px_running px && px_connected px then with_task (Reading m rest) px
                else end_reader px
            | None => end_reader px
            end
        end
      else px
  | _ => px
  end.

(** [handle_client], up to its first read. *)
Definition client_connected (id : string) (attempt : option nat) (px : proxy) : proxy :=
  let px := with_clients (<[id := {| registered := true; client_packets := 0;
                                     client_buffer := []; client_written := [] |}]>
                            (px_clients px)) px in
  if px_connected px then px
  else
    let px := connect_to_cni attempt px in
    if px_connected px then
      match initialize_cni px with
      | Ok px => match px_task px with NoTask => start_reader px | _ => px end
      | Raise _ => with_clients (delete id (px_clients px)) px
      end
    else px.

(** One command of a client; [cni_ok] says whether the interface takes it. *)
Definition forward (id : string) (cni_ok : bool) (now : Z) (px : proxy) (packet_data : bytes)
    : proxy :=
  let px := with_clients (alter (fun c =>
    {| registered := registered c; client_packets := client_packets c + 1;
       client_buffer := client_buffer c; client_written := client_written c |}) id
    (px_clients px)) px in
  let '(a, _) := analyze_packet packet_data FROM_CLIENT (Some id) now (px_analyzer px) in
  let px := with_analyzer a px in
  if px_connected px then
    if cni_ok then cni_write packet_data px
    else with_link false (px_writer px) (px_links px) px
  else px.

(** [forward_client_to_cni]: a read of the client's connection returns; at its end
    the client is gone. *)
Definition client_read (id : string) (data : bytes) (cni_ok : bool) (now : Z) (px : proxy)
    : proxy :=
  match px_clients px !! id, data with
  | None, _ => px
  | Some _, [] => with_clients (delete id (px_clients px)) px
  | Some c, _ :: _ =>
      let '(packets, rest) := split_packets client_packet (client_buffer c ++ data) in
      let px := with_clients (alter (fun c =>
        {| registered := registered c; client_packets := client_packets c;
           client_buffer := rest; client_written := client_written c |}) id (px_clients px)) px in
      foldl (forward id cni_ok now) px packets
  end.

(** [shutdown], when nothing is left to read from the clients. *)
Definition shutdown (px : proxy) : proxy :=
  let px := set_running false px in
  let px := match px_task px with Reading _ _ => end_reader px | _ => px end in
  with_clients ∅ px.

(** ** Executions *)

Inductive proxy_event :=
| EClient (id : string) (attempt : option nat)
| EClientData (id : string) (data : bytes) (cni_ok : bool)
| ECniData (connection : nat) (data : bytes) (failing : list string)
| EShutdown.

Definition proxy_step (ev : proxy_event) (now : Z) (px : proxy) : proxy :=
  match ev with
  | EClient id attempt => client_connected id attempt px
  | EClientData id data cni_ok => client_read id data cni_ok now px
  | ECniData n data failing => cni_read n data failing now px
  | EShutdown => shutdown px
  end.

Fixpoint proxy_run (evs : list (proxy_event * Z)) (px : proxy) : proxy :=
  match evs with
  | [] => px
  | (ev, now) :: evs => proxy_run evs (proxy_step ev now px)
  end.

(** ** Lemmas: framing *)

(** A cut of a buffer. *)
Definition cuts (next : bytes -> option (bytes * bytes)) : Prop :=
  forall buffer p rest, next buffer = Some (p, rest) -> buffer = p ++ rest /\ p <> [].

Lemma cni_packet_cuts : cuts cni_packet.
Proof.
  assert (forall n (b : bytes), (0 < n)%nat -> b <> [] ->
    b = take n b ++ drop n b /\ take n b <> []) as Hcut.
  { intros n b Hn Hb. rewrite take_drop. split; [done|]. destruct n; [lia|]. by destruct b. }
  assert (forall n (b p rest : bytes), (0 < n)%nat -> b <> [] ->
    Some (take n b, drop n b) = Some (p, rest) -> b = p ++ rest /\ p <> []) as Hcut'
    by (intros n b p rest Hn Hb [= <- <-]; by apply Hcut).
  intros buffer p rest. unfold cni_packet. destruct buffer as [|c b]; [done|].
  destruct b as [|d b].
  - destruct (_ || _); [|done]. by apply Hcut'; [lia|].
  - destruct (byte_in c _); [by apply Hcut'; [lia|]|].
    destruct (find_sub _ _); [by apply Hcut'; [simpl; lia|]|].
    destruct (_ || _); [|done]. by apply Hcut'; [lia|].
Qed.

Lemma client_packet_cuts : cuts client_packet.
Proof.
  intros buffer p rest. unfold client_packet. destruct (find_sub _ _) as [n|] eqn:E; [|done].
  intros [= <- <-]. rewrite take_drop. split; [done|].
  apply find_sub_Some in E as [_ E]. intros H%(f_equal length). rewrite length_take in H.
  simpl in *. lia.
Qed.

Lemma packets_of_concat next fuel buffer :
  cuts next -> concat (packets_of next fuel buffer).1 ++ (packets_of next fuel buffer).2 = buffer.
Proof.
  intros Hn. revert buffer. induction fuel as [|fuel IH]; intros buffer; [done|].
  cbn [packets_of]. destruct (next buffer) as [[p b]|] eqn:E; [|done].
  specialize (IH b). destruct (packets_of next fuel b) as [ps rest]. cbn [fst snd concat] in *.
  apply Hn in E as [-> _]. by rewrite <- app_assoc, IH.
Qed.

(** Nothing is cut from what is left. *)
Lemma packets_of_rest next fuel buffer :
  cuts next -> next [] = None -> (length buffer <= fuel)%nat ->
  next (packets_of next fuel buffer).2 = None.
Proof.
  intros Hn H0. revert buffer. induction fuel as [|fuel IH]; intros buffer Hf.
  { by destruct buffer; [|simpl in Hf; lia]. }
  cbn [packets_of]. destruct (next buffer) as [[p b]|] eqn:E; [|done].
  specialize (IH b). destruct (packets_of next fuel b) as [ps rest]. apply IH.
  apply Hn in E as [-> Hp]. rewrite length_app in Hf. destruct p; [done|]. simpl in Hf. lia.
Qed.

Lemma split_concat next buffer ps rest :
  cuts next -> split_packets next buffer = (ps, rest) -> concat ps ++ rest = buffer.
Proof.
  intros Hn E. rewrite <- (packets_of_concat next (length buffer) buffer Hn).
  unfold split_packets in E. by rewrite E.
Qed.

(** A command is a line: it holds one carriage return, its last byte. *)
(** *** The reference: what the interface sends as one *)

(** No end of a line. *)
Definition open_line (b : bytes) : Prop := forall x y, b <> x ++ [13; 10] ++ y.

(** A confirmation, a line up to its first end, or a lone mark: [+] or [!]. *)
Inductive interface_unit : bytes -> Prop :=
| UnitConfirmation c d : c ∈ CONFIRMATION_CODES -> interface_unit [c; d]
| UnitLine l : open_line (l ++ [13]) ->
    (forall c, head (l ++ [13]) = Some c -> c ∉ CONFIRMATION_CODES) ->
    interface_unit (l ++ [13; 10])
| UnitMark m : m = 43 \/ m = 33 -> interface_unit [m].

(** Bytes that are the beginning of one at most. *)
Definition unit_begins (b : bytes) : Prop :=
  open_line b /\
  match b with
  | [] => True
  | c :: rest => c <> 43 /\ c <> 33 /\ (c ∈ CONFIRMATION_CODES -> rest = [])
  end.

Lemma find_sub_None_starts p l k : find_sub p l = None -> startswith p (drop k l) = false.
Proof.
  revert k. induction l as [|y l IH]; intros k; simpl.
  - rewrite drop_nil. by destruct (startswith p []).
  - destruct (startswith p (y :: l)) eqn:E; [done|].
    destruct (find_sub p l) eqn:En; [done|]. intros _. destruct k as [|k]; [done|]. by apply IH.
Qed.

Lemma find_sub_least p l n k :
  find_sub p l = Some n -> (k < n)%nat -> startswith p (drop k l) = false.
Proof.
  revert n k. induction l as [|y l IH]; intros n k; simpl.
  - destruct (startswith p []); [|done]. intros [= <-]. lia.
  - destruct (startswith p (y :: l)) eqn:E; [intros [= <-]; lia|].
    destruct (find_sub p l) as [m|] eqn:En; [|done]. intros [= <-] Hk.
    destruct k as [|k]; [done|]. apply (IH m); [done|lia].
Qed.

Lemma open_line_None b : find_sub END_RESPONSE b = None -> open_line b.
Proof.
  intros H x y ->. apply (find_sub_None_starts _ _ (length x)) in H.
  by rewrite drop_app_length in H.
Qed.

Lemma cni_packet_unit b p rest : cni_packet b = Some (p, rest) -> interface_unit p.
Proof.
  assert (forall b p rest, (if startswith [43] b || startswith [33] b
    then Some (take 1 b, drop 1 b) else None) = Some (p, rest) -> interface_unit p) as Hmark.
  { intros [|c l] p' rest'; [done|]. cbn [startswith]. rewrite !andb_true_r.
    destruct (Z.eqb_spec 43 c) as [<-|]; [intros [= <- _]; constructor; by left|].
    destruct (Z.eqb_spec 33 c) as [<-|]; [intros [= <- _]; constructor; by right|done]. }
  unfold cni_packet. destruct b as [|c [|d b]]; [apply Hmark..|].
  destruct (byte_in c CONFIRMATION_CODES) eqn:Ec.
  { intros [= <- _]. constructor. by apply byte_in_spec. }
  destruct (find_sub END_RESPONSE (c :: d :: b)) as [n|] eqn:En; [|apply Hmark].
  intros [= <- _]. pose proof (find_sub_Some _ _ _ En) as [Hs Hn].
  apply startswith_split in Hs. change END_RESPONSE with [13; 10] in *.
  set (l := c :: d :: b) in *. set (r := drop (length [13; 10]) (drop n l)) in *.
  assert (l = take n l ++ [13; 10] ++ r) as El by by rewrite <- Hs, take_drop.
  assert (length (take n l) = n) as Ea by (rewrite length_take; change (length [13; 10]) with 2%nat in Hn; lia).
  revert El Ea. generalize (take n l). intros a El Ea.
  assert (take (n + 2) l = a ++ [13; 10]) as ->.
  { rewrite El, app_assoc. apply take_app_length'. rewrite length_app, Ea. done. }
  apply UnitLine.
  - intros x y E. pose proof (f_equal length E) as Ex. rewrite !length_app in Ex. simpl in Ex.
    pose proof (find_sub_least _ _ _ (length x) En ltac:(lia)) as Hno.
    change (a ++ [13; 10] ++ r) with (a ++ [13] ++ 10 :: r) in El.
    rewrite El, app_assoc, E, <- app_assoc, drop_app_length in Hno. done.
  - intros k Hk. assert (k = c \/ k = 13) as [-> | ->].
    { destruct a as [|z a]; [right; by injection Hk as <-|left].
      injection El as <- _. by injection Hk as <-. }
    + intros H%byte_in_spec. congruence.
    + apply (bool_decide_unpack _). exact I.
Qed.

Lemma cni_packet_begins b : cni_packet b = None -> unit_begins b.
Proof.
  assert (forall c l, (if startswith [43] (c :: l) || startswith [33] (c :: l)
    then Some (take 1 (c :: l), drop 1 (c :: l)) else None) = None -> c <> 43 /\ c <> 33) as Hmark.
  { intros c l. cbn [startswith]. rewrite !andb_true_r.
    destruct (Z.eqb_spec 43 c) as [<-|]; [done|]. by destruct (Z.eqb_spec 33 c) as [<-|]. }
  unfold cni_packet. destruct b as [|c [|d b]].
  - intros _. split; [|done]. by intros [|? [|]] y.
  - intros H%Hmark. split; [by intros [|? [|]] y|]. by destruct H.
  - destruct (byte_in c CONFIRMATION_CODES) eqn:Ec; [done|].
    destruct (find_sub END_RESPONSE (c :: d :: b)) as [n|] eqn:En; [done|].
    intros [H1 H2]%Hmark. split; [by apply open_line_None|]. split; [done|]. split; [done|].
    intros H%byte_in_spec. congruence.
Qed.

Lemma split_units b :
  let '(packets, rest) := split_packets cni_packet b in
  Forall interface_unit packets /\ unit_begins rest.
Proof.
  unfold split_packets. assert (length b <= length b)%nat as Hl by lia. revert Hl.
  generalize (length b) at 2 3. intros fuel. revert b.
  induction fuel as [|fuel IH]; intros b Hl; cbn [packets_of].
  { split; [constructor|]. destruct b; [|simpl in Hl; lia]. by apply cni_packet_begins. }
  destruct (cni_packet b) as [[p b']|] eqn:E; [|split; [constructor|by apply cni_packet_begins]].
  destruct (cni_packet_cuts _ _ _ E) as [-> Hp].
  specialize (IH b'). destruct (packets_of cni_packet fuel b') as [ps rest].
  destruct IH as [H1 H2]; [rewrite length_app in Hl; destruct p; [done|simpl in Hl; lia]|].
  split; [|done]. constructor; [by eapply cni_packet_unit|done].
Qed.

Definition is_command (l : bytes) : Prop := exists t, l = t ++ END_COMMAND /\ 13 ∉ t.

Lemma client_packet_command buffer p rest :
  client_packet buffer = Some (p, rest) -> is_command p.
Proof.
  unfold client_packet. destruct (find_sub END_COMMAND buffer) as [n|] eqn:E; [|done].
  intros [= <- _]. change (length END_COMMAND) with 1%nat.
  destruct (find_sub_first 13 buffer n E) as (t & r & -> & <- & Ht).
  exists t. split; [|done].
  change (t ++ 13 :: r) with (t ++ END_COMMAND ++ r). rewrite app_assoc.
  assert (length t + 1 = length (t ++ END_COMMAND))%nat as -> by by rewrite length_app.
  apply take_app_length.
Qed.

Lemma split_commands buffer :
  Forall is_command (split_packets client_packet buffer).1.
Proof.
  unfold split_packets. generalize (length buffer). intros fuel. revert buffer.
  induction fuel as [|fuel IH]; intros buffer; [constructor|]. cbn [packets_of].
  destruct (client_packet buffer) as [[p b]|] eqn:E; [|constructor].
  specialize (IH b). destruct (packets_of client_packet fuel b) as [ps rest].
  constructor; [by eapply client_packet_command|done].
Qed.

(** ** Lemmas: what the parts change *)

Lemma cni_write_fields data px :
  px_running (cni_write data px) = px_running px /\
  px_connected (cni_write data px) = px_connected px /\
  px_writer (cni_write data px) = px_writer px /\
  px_task (cni_write data px) = px_task px /\
  px_analyzer (cni_write data px) = px_analyzer px /\
  px_clients (cni_write data px) = px_clients px.
Proof. unfold cni_write. by destruct (px_writer px) eqn:E. Qed.

Lemma initialize_fields px px' :
  initialize_cni px = Ok px' ->
  px_running px' = px_running px /\ px_connected px' = px_connected px /\
  px_writer px' = px_writer px /\ px_task px' = px_task px /\
  px_analyzer px' = px_analyzer px /\ px_clients px' = px_clients px.
Proof.
  unfold initialize_cni. destruct (negb _); [by intros [= <-]|].
  destruct (px_writer px) eqn:Ew; [|by intros [= <-]].
  intros (cmds & _ & E)%result_bind_Ok. injection E as <-. rewrite <- Ew. clear Ew.
  revert px. induction cmds as [|cmd cmds IH]; intros px; [done|].
  cbn [foldl]. destruct (IH (cni_write cmd px)) as (-> & -> & -> & -> & -> & ->).
  apply cni_write_fields.
Qed.

Lemma init_commands_ok : exists cmds, init_commands = Ok cmds.
Proof. eexists. by vm_compute. Qed.

Lemma initialize_ok px : exists px', initialize_cni px = Ok px'.
Proof.
  unfold initialize_cni. destruct (negb _); [by eexists|].
  destruct (px_writer px); [|by eexists]. destruct init_commands_ok as [cmds ->]. by eexists.
Qed.

Lemma forward_fields id ok now px d :
  px_running (forward id ok now px d) = px_running px /\
  px_writer (forward id ok now px d) = px_writer px /\
  px_task (forward id ok now px d) = px_task px /\
  (ok = true -> px_connected (forward id ok now px d) = px_connected px).
Proof.
  unfold forward. destruct (analyze_packet _ _ _ _ _) as [a an].
  cbn [px_connected with_analyzer with_clients]. destruct (px_connected px) eqn:E; [|done].
  destruct ok; [|done].
  match goal with |- context [cni_write d ?q] =>
    destruct (cni_write_fields d q) as (-> & -> & -> & -> & _ & _) end. by rewrite <- E.
Qed.

Lemma forward_clients id ok now px d :
  px_clients (forward id ok now px d) =
    alter (fun c =>
      {| registered := registered c; client_packets := client_packets c + 1;
         client_buffer := client_buffer c; client_written := client_written c |}) id (px_clients px).
Proof.
  unfold forward. destruct (analyze_packet _ _ _ _ _) as [a an].
  cbn [px_connected with_analyzer with_clients]. destruct (px_connected px); [|done].
  destruct ok; [|done].
  match goal with |- context [cni_write d ?q] =>
    destruct (cni_write_fields d q) as (_ & _ & _ & _ & _ & ->) end. done.
Qed.

(** What a client has received, and what its task still holds. *)
Lemma forward_client id ok now px d k :
  option_map (fun c => (registered c, client_buffer c, client_written c))
    (px_clients (forward id ok now px d) !! k) =
  option_map (fun c => (registered c, client_buffer c, client_written c)) (px_clients px !! k).
Proof.
  rewrite forward_clients. destruct (decide (k = id)) as [->|]; [|by rewrite lookup_alter_ne].
  rewrite lookup_alter_eq. by destruct (px_clients px !! id).
Qed.

Lemma forward_all_fields id ok now ds px :
  let px' := foldl (forward id ok now) px ds in
  px_running px' = px_running px /\ px_writer px' = px_writer px /\
  px_task px' = px_task px /\ (ok = true -> px_connected px' = px_connected px) /\
  forall k, option_map (fun c => (registered c, client_buffer c, client_written c))
      (px_clients px' !! k) =
    option_map (fun c => (registered c, client_buffer c, client_written c)) (px_clients px !! k).
Proof.
  cbv zeta. revert px. induction ds as [|d ds IH]; intros px; [done|]. cbn [foldl].
  destruct (IH (forward id ok now px d)) as (-> & -> & -> & H1 & H2).
  destruct (forward_fields id ok now px d) as (-> & -> & -> & H3).
  repeat (split; [done|]). split; [intros Hok; by rewrite H1, H3|].
  intros k. by rewrite H2, forward_client.
Qed.

Lemma relay_fields failing now ds px :
  let px' := foldl (cni_relay failing now) px ds in
  px_running px' = px_running px /\ px_connected px' = px_connected px /\
  px_writer px' = px_writer px /\ px_links px' = px_links px.
Proof.
  cbv zeta. revert px. induction ds as [|d ds IH]; intros px; [done|]. cbn [foldl].
  destruct (IH (cni_relay failing now px d)) as (-> & -> & -> & ->).
  unfold cni_relay. by destruct (analyze_packet _ _ _ _ _).
Qed.

(** A client that is reached gets every packet, whole and in order. *)
Lemma relay_client failing now ds px id c :
  px_clients px !! id = Some c -> registered c = true -> id ∉ failing ->
  exists c', px_clients (foldl (cni_relay failing now) px ds) !! id = Some c' /\
    registered c' = true /\ client_buffer c' = client_buffer c /\
    client_written c' = client_written c ++ ds.
Proof.
  intros Hc Hr Hf. revert px c Hc Hr. induction ds as [|d ds IH]; intros px c Hc Hr.
  { exists c. by rewrite app_nil_r. }
  cbn [foldl]. edestruct (IH (cni_relay failing now px d)) as (c' & H1 & H2 & H3 & H4).
  - unfold cni_relay. destruct (analyze_packet _ _ _ _ _) as [a an].
    cbn [px_clients broadcast_to_clients with_clients with_analyzer].
    rewrite map_lookup_imap, Hc. cbn [mbind option_bind]. rewrite Hr, bool_decide_false by done.
    reflexivity.
  - done.
  - exists c'. split; [exact H1|]. split; [exact H2|]. split; [exact H3|].
    rewrite H4. cbn [client_written]. by rewrite <- app_assoc.
Qed.

(** Relaying does not touch the buffers. *)
Lemma relay_buffer failing now ds px id :
  option_map client_buffer (px_clients (foldl (cni_relay failing now) px ds) !! id) =
    option_map client_buffer (px_clients px !! id).
Proof.
  revert px. induction ds as [|d ds IH]; intros px; [done|]. cbn [foldl]. rewrite IH.
  unfold cni_relay. destruct (analyze_packet _ _ _ _ _) as [a an].
  cbn [px_clients broadcast_to_clients with_clients with_analyzer].
  rewrite map_lookup_imap. destruct (px_clients px !! id) as [c|]; [|done].
  cbn [mbind option_bind option_map]. f_equal.
  destruct (registered c); [|done]. by destruct (bool_decide _).
Qed.

(** ** From the interface to the clients *)

Definition task_buffer (t : reader_task) : bytes :=
  match t with Reading _ b => b | _ => [] end.

(** The bytes of the interface that the reader task takes in a run. *)
Definition event_taken (ev : proxy_event) (px : proxy) : bytes :=
  match ev, px_task px with
  | ECniData n data _, Reading m _ => if bool_decide (m = n) then data else []
  | _, _ => []
  end.

Fixpoint taken (evs : list (proxy_event * Z)) (px : proxy) : bytes :=
  match evs with
  | [] => []
  | (ev, now) :: evs => event_taken ev px ++ taken evs (proxy_step ev now px)
  end.

(** Events that leave a client attached: its connection neither ends nor fails,
    nor is its address used again, and the proxy goes on. *)
Definition keeps (id : string) (ev : proxy_event) : Prop :=
  match ev with
  | EClient id' _ => id' <> id
  | EClientData id' data _ => id' = id -> data <> []
  | ECniData _ _ failing => id ∉ failing
  | EShutdown => False
  end.

(** A client in the registry that has been written [w]. *)
Definition attached (id : string) (w : list bytes) (px : proxy) : Prop :=
  exists c, px_clients px !! id = Some c /\ registered c = true /\ client_written c = w.

Lemma attached_same id w px px' :
  option_map (fun c => (registered c, client_buffer c, client_written c)) (px_clients px' !! id) =
  option_map (fun c => (registered c, client_buffer c, client_written c)) (px_clients px !! id) ->
  attached id w px -> attached id w px'.
Proof.
  intros E (c & Hc & Hr & Hw). rewrite Hc in E. cbn [option_map] in E.
  destruct (px_clients px' !! id) as [c'|] eqn:Hc'; [|done]. injection E as E1 E2 E3.
  exists c'. split; [done|]. by rewrite E1, E3.
Qed.

Lemma attached_reader id w px : attached id w px -> attached id w (start_reader px).
Proof. unfold start_reader. by destruct (px_writer px). Qed.

Lemma attached_connect id w attempt px :
  attached id w px -> attached id w (connect_to_cni attempt px).
Proof. by destruct attempt. Qed.

(** What one event sends to an attached client: the packets of the buffer and of
    what was taken, whole; what is left is the buffer of the task, if it reads on. *)
Definition relays (id : string) (w : list bytes) (b0 b : bytes) (px' : proxy) : Prop :=
  exists packets rest,
    attached id (w ++ packets) px' /\ concat packets ++ rest = b /\
    (forall n b', px_task px' = Reading n b' -> b' = rest) /\
    (px_task px' = NoTask -> rest = []) /\
    Forall interface_unit packets /\ (unit_begins b0 -> unit_begins rest).

Lemma relays_none id w b px' :
  attached id w px' -> (forall n b', px_task px' = Reading n b' -> b' = b) ->
  (px_task px' = NoTask -> b = []) -> relays id w b b px'.
Proof.
  intros Ha H1 H2. exists [], b. rewrite app_nil_r. by repeat (split; [done|]).
Qed.

Lemma reader_relays id w px :
  attached id w px -> px_task px = NoTask -> relays id w [] [] (start_reader px).
Proof.
  intros Ha Ht. apply relays_none; [by apply attached_reader| |done].
  intros n b'. unfold start_reader. destruct (px_writer px); [|by rewrite Ht].
  by intros [= _ <-].
Qed.

Lemma idle_relays id w px px' :
  attached id w px' -> px_task px' = px_task px -> relays id w (task_buffer (px_task px)) (task_buffer (px_task px)) px'.
Proof.
  intros Ha Ht. apply relays_none; [done| |]; rewrite Ht; [by intros n b' ->|by intros ->].
Qed.

Lemma connected_relays id w id' attempt px :
  id' <> id -> attached id w px ->
  relays id w (task_buffer (px_task px)) (task_buffer (px_task px)) (client_connected id' attempt px).
Proof.
  intros Hne Ha. unfold client_connected. set (px1 := with_clients _ px).
  assert (attached id w px1) as H1.
  { destruct Ha as (c & Hc & H). exists c. split; [|done].
    cbn [px1 px_clients with_clients]. by rewrite lookup_insert_ne. }
  assert (px_task px1 = px_task px) as Ht by done. clearbody px1.
  destruct (px_connected px1); [by apply idle_relays|].
  set (px2 := connect_to_cni attempt px1).
  assert (px_task px2 = px_task px) as Ht2 by by unfold px2; destruct attempt.
  assert (attached id w px2) as H2 by by apply attached_connect.
  clearbody px2. destruct (px_connected px2); [|by apply idle_relays].
  destruct (initialize_ok px2) as [px3 E3]. rewrite E3.
  apply initialize_fields in E3 as (_ & _ & _ & Ht3 & _ & Hc3).
  assert (attached id w px3) as H3 by by unfold attached; rewrite Hc3.
  destruct (px_task px3) eqn:E.
  - assert (task_buffer (px_task px) = []) as -> by by rewrite <- Ht2, <- Ht3.
    by apply reader_relays.
  - apply idle_relays; [done|congruence].
  - apply idle_relays; [done|congruence].
Qed.

Lemma client_read_relays id w id' data ok now px :
  (id' = id -> data <> []) -> attached id w px ->
  relays id w (task_buffer (px_task px)) (task_buffer (px_task px)) (client_read id' data ok now px).
Proof.
  intros Hne Ha. unfold client_read.
  destruct (px_clients px !! id') as [c|] eqn:Ec; [|by apply idle_relays].
  destruct data as [|x data].
  { apply idle_relays; [|done]. destruct Ha as (c' & Hc' & H). exists c'. split; [|done].
    cbn [px_clients with_clients]. rewrite lookup_delete_ne; [done|]. intros ->. by apply Hne. }
  destruct (split_packets _ _) as [packets rest]. set (px1 := with_clients _ px).
  assert (attached id w px1) as H1.
  { destruct Ha as (c' & Hc' & Hr & Hw).
    destruct (decide (id = id')) as [->|Hd].
    - eexists. split; [unfold px1; cbn [px_clients with_clients]; by rewrite lookup_alter_eq, Hc'|].
      by split.
    - exists c'. unfold px1. cbn [px_clients with_clients]. by rewrite lookup_alter_ne. }
  assert (px_task px1 = px_task px) as Ht by done. clearbody px1.
  destruct (forward_all_fields id' ok now packets px1) as (_ & _ & Ht' & _ & Hc).
  apply idle_relays; [|congruence].
  apply (attached_same id w px1); [apply Hc|done].
Qed.

Lemma cni_read_relays id w n data failing now px :
  id ∉ failing -> attached id w px ->
  relays id w (task_buffer (px_task px)) (task_buffer (px_task px) ++ event_taken (ECniData n data failing) px)
    (cni_read n data failing now px).
Proof.
  intros Hf Ha. unfold cni_read, event_taken.
  assert (relays id w (task_buffer (px_task px)) (task_buffer (px_task px) ++ []) px) as Hidle
    by (rewrite app_nil_r; by apply idle_relays).
  destruct (px_task px) as [|m buffer|] eqn:Et; [done| |done].
  - cbn [task_buffer]. destruct (bool_decide_reflect (m = n)) as [->|Hmn]; [|done].
    destruct data as [|x data].
    { rewrite app_nil_r. by apply relays_none. }
    destruct (split_packets cni_packet (buffer ++ x :: data)) as [packets rest] eqn:Es.
    pose proof (split_units (buffer ++ x :: data)) as Hu. rewrite Es in Hu. destruct Hu as [Hu1 Hu2].
    apply split_concat in Es; [|apply cni_packet_cuts].
    destruct (relay_fields failing now packets px) as (_ & _ & _ & _).
    set (px1 := foldl _ px packets).
    assert (attached id (w ++ packets) px1) as H1.
    { destruct Ha as (c & Hc & Hr & <-).
      destruct (relay_client failing now packets px id c Hc Hr Hf) as (c' & H1 & H2 & _ & H4).
      by exists c'. }
    clearbody px1. exists packets, rest.
    destruct (px_writer px1) as [k|]; [destruct (_ && _)|]; (split; [exact H1|]);
      (split; [done|]); (split; [|split; [done|split; [done|by intros _]]]);
      intros ? ?; [by intros [= _ <-]|done|done].
Qed.

Lemma step_relays ev now id w px :
  keeps id ev -> attached id w px ->
  relays id w (task_buffer (px_task px)) (task_buffer (px_task px) ++ event_taken ev px) (proxy_step ev now px).
Proof.
  intros Hk Ha. destruct ev as [id' attempt|id' data ok|n data failing|]; cbn [keeps] in Hk;
    cbn [proxy_step]; [| |by apply cni_read_relays|done];
    cbn [event_taken]; rewrite app_nil_r; [by apply connected_relays|by apply client_read_relays].
Qed.

(** A task that has ended takes nothing more. *)
Lemma step_ended ev now px :
  px_task px = Ended -> px_task (proxy_step ev now px) = Ended.
Proof.
  intros Ht. destruct ev as [id' attempt|id' data ok|n data failing|]; cbn [proxy_step].
  - unfold client_connected. set (px1 := with_clients _ px).
    assert (px_task px1 = Ended) as H1 by done. clearbody px1.
    destruct (px_connected px1); [done|]. set (px2 := connect_to_cni attempt px1).
    assert (px_task px2 = Ended) as H2 by by unfold px2; destruct attempt. clearbody px2.
    destruct (px_connected px2); [|done]. destruct (initialize_ok px2) as [px3 E3]. rewrite E3.
    apply initialize_fields in E3 as (_ & _ & _ & Ht3 & _ & _). rewrite Ht3, H2. congruence.
  - unfold client_read. destruct (px_clients px !! id'); [|done]. destruct data; [done|].
    destruct (split_packets _ _) as [packets rest].
    by rewrite (proj1 (proj2 (proj2 (forward_all_fields id' ok now packets _)))).
  - unfold cni_read. by rewrite Ht.
  - unfold shutdown. cbn [px_task set_running]. by rewrite Ht.
Qed.

Lemma ended_taken evs px : px_task px = Ended -> taken evs px = [].
Proof.
  revert px. induction evs as [|[ev now] evs IH]; intros px Ht; [done|]. cbn [taken].
  rewrite IH by by apply step_ended. unfold event_taken. rewrite Ht. by destruct ev.
Qed.

Lemma run_ended evs px : px_task px = Ended -> px_task (proxy_run evs px) = Ended.
Proof.
  revert px. induction evs as [|[ev now] evs IH]; intros px Ht; [done|].
  by apply IH, step_ended.
Qed.

Lemma run_relays evs id w px :
  Forall (fun '(ev, _) => keeps id ev) evs -> attached id w px ->
  relays id w (task_buffer (px_task px)) (task_buffer (px_task px) ++ taken evs px) (proxy_run evs px).
Proof.
  intros Hk. revert w px. induction Hk as [|[ev now] evs Hev Hk IH]; intros w px Ha.
  { cbn [taken proxy_run]. rewrite app_nil_r. by apply idle_relays. }
  destruct (step_relays ev now id w px Hev Ha) as (p1 & r1 & Ha1 & E1 & Hr1 & Hn1 & Hu1 & Hw1).
  destruct (IH _ _ Ha1) as (p2 & r2 & Ha2 & E2 & Hr2 & Hn2 & Hu2 & Hw2).
  cbn [taken proxy_run]. rewrite app_assoc, <- E1.
  assert (Forall interface_unit (p1 ++ p2)) as Hu by by apply Forall_app.
  destruct (px_task (proxy_step ev now px)) as [|n b|] eqn:Et; cbn [task_buffer] in E2, Hw2.
  - rewrite (Hn1 eq_refl), app_nil_r. exists (p1 ++ p2), r2. rewrite app_assoc, concat_app.
    split; [done|]. split; [by rewrite <- app_assoc, E2|]. repeat (split; [done|]).
    intros _. by apply Hw2, cni_packet_begins.
  - rewrite (Hr1 n b eq_refl) in E2, Hw2. exists (p1 ++ p2), r2. rewrite app_assoc, concat_app.
    split; [done|]. split; [by rewrite <- !app_assoc, E2|]. repeat (split; [done|]). auto.
  - rewrite ended_taken in E2 |- * by done. apply app_nil in E2 as [E2 E2'].
    exists (p1 ++ p2), r1. rewrite app_assoc, concat_app, E2. split; [done|].
    split; [by rewrite !app_nil_r|]. by rewrite run_ended by done.
Qed.

(** ** From the clients to the interface *)

(** The lines that an event carries to the interface, with their clients. *)
Definition event_lines (ev : proxy_event) (px : proxy) : list (string * bytes) :=
  match ev with
  | EClientData id data _ =>
      match px_clients px !! id, data with
      | Some c, _ :: _ => map (fun l => (id, l)) (split_packets client_packet (client_buffer c ++ data)).1
      | _, _ => []
      end
  | _ => []
  end.

Fixpoint lines (evs : list (proxy_event * Z)) (px : proxy) : list (string * bytes) :=
  match evs with
  | [] => []
  | (ev, now) :: evs => event_lines ev px ++ lines evs (proxy_step ev now px)
  end.

Definition lines_of (id : string) (ls : list (string * bytes)) : list bytes :=
  map snd (filter (fun l => l.1 = id) ls).

(** The bytes a client sends in a run. *)
Definition event_sent (id : string) (ev : proxy_event) : bytes :=
  match ev with
  | EClientData id' data _ => if bool_decide (id' = id) then data else []
  | _ => []
  end.

Definition sent (id : string) (evs : list (proxy_event * Z)) : bytes :=
  concat (map (fun '(ev, _) => event_sent id ev) evs).

(** Events that leave the connection to the interface up. *)
Definition steady (ev : proxy_event) : Prop :=
  match ev with
  | EClient _ _ => True
  | EClientData _ _ cni_ok => cni_ok = true
  | ECniData _ data _ => data <> []
  | EShutdown => False
  end.

(** Events that leave a client's connection open. *)
Definition stays (id : string) (ev : proxy_event) : Prop :=
  match ev with
  | EClient id' _ => id' <> id
  | EClientData id' data _ => id' = id -> data <> []
  | ECniData _ _ _ => True
  | EShutdown => False
  end.

Definition linked (n : nat) (w : list bytes) (px : proxy) : Prop :=
  px_running px = true /\ px_connected px = true /\ px_writer px = Some n /\
  px_links px !! n = Some w.

(** A client whose task holds [b]. *)
Definition holds (id : string) (b : bytes) (px : proxy) : Prop :=
  option_map client_buffer (px_clients px !! id) = Some b.

Lemma forward_all_linked id now ds n w px :
  linked n w px -> linked n (w ++ ds) (foldl (forward id true now) px ds).
Proof.
  revert w px. induction ds as [|d ds IH]; intros w px Hl; [by rewrite app_nil_r|].
  cbn [foldl]. change (d :: ds) with ([d] ++ ds). rewrite app_assoc. apply IH.
  destruct Hl as (Hr & Hc & Hw & Hlk). unfold forward. destruct (analyze_packet _ _ _ _ _) as [a an].
  cbn [px_connected with_analyzer with_clients]. rewrite Hc. unfold cni_write.
  cbn [px_writer with_analyzer with_clients]. rewrite Hw.
  split; [done|]. split; [done|]. split; [done|].
  cbn [px_links with_link with_analyzer with_clients]. by rewrite lookup_alter_eq, Hlk.
Qed.

Lemma step_linked ev now n w px :
  steady ev -> linked n w px ->
  linked n (w ++ map snd (event_lines ev px)) (proxy_step ev now px).
Proof.
  intros Hs Hl. pose proof Hl as (Hr & Hc & Hw & Hlk).
  destruct ev as [id' attempt|id' data ok|m data failing|]; cbn [steady] in Hs;
    cbn [proxy_step event_lines map]; rewrite ?app_nil_r.
  - unfold client_connected. cbn [px_connected with_clients]. rewrite Hc. exact Hl.
  - subst ok. unfold client_read.
    destruct (px_clients px !! id') as [c|]; [|by rewrite app_nil_r].
    destruct data as [|x data]; [by rewrite app_nil_r|].
    destruct (split_packets _ _) as [packets rest]. cbn [fst].
    rewrite map_map, map_id. by apply forward_all_linked.
  - unfold cni_read. destruct (px_task px) as [|k buffer|]; [done| |done].
    destruct (bool_decide _); [|done]. destruct data as [|x data]; [done|].
    destruct (split_packets _ _) as [packets rest].
    destruct (relay_fields failing now packets px) as (E1 & E2 & E3 & E4).
    rewrite E3, Hw, E1, Hr, E2, Hc. cbn [andb]. unfold linked.
    cbn [px_running px_connected px_writer px_links with_task]. by rewrite E1, E2, E3, E4.
  - done.
Qed.

Lemma lines_of_app id a b : lines_of id (a ++ b) = lines_of id a ++ lines_of id b.
Proof. unfold lines_of. by rewrite filter_app, map_app. Qed.

Lemma lines_of_tagged id id' ls :
  lines_of id (map (fun l => (id', l)) ls) = if bool_decide (id' = id) then ls else [].
Proof.
  unfold lines_of. induction ls as [|l ls IH]; cbn [map]; [by case_bool_decide|].
  rewrite filter_cons. cbn [fst]. case_bool_decide as Hd.
  - rewrite decide_True by done. cbn [map snd]. by rewrite IH.
  - rewrite decide_False by done. exact IH.
Qed.

(** A client that comes changes no other client's buffer. *)
Lemma connected_holds id' attempt id b px :
  id' <> id -> holds id b px -> holds id b (client_connected id' attempt px).
Proof.
  intros Hs Hb. unfold holds, client_connected in *.
  set (px1 := with_clients _ px).
  assert (option_map client_buffer (px_clients px1 !! id) = Some b) as H1.
  { unfold px1. cbn [px_clients with_clients]. by rewrite lookup_insert_ne. }
  clearbody px1. destruct (px_connected px1); [done|].
  set (px2 := connect_to_cni attempt px1).
  assert (px_clients px2 = px_clients px1) as H2 by by unfold px2; destruct attempt.
  rewrite <- H2 in H1. clear H2. clearbody px2. destruct (px_connected px2); [|done].
  destruct (initialize_ok px2) as [px3 E3]. rewrite E3.
  apply initialize_fields in E3 as (_ & _ & _ & _ & _ & Hc3). rewrite <- Hc3 in H1.
  destruct (px_task px3); [|done|done]. unfold start_reader. by destruct (px_writer px3).
Qed.

Lemma split_no_end buffer : 13 ∉ (split_packets client_packet buffer).2.
Proof.
  unfold split_packets. assert (length buffer <= length buffer)%nat as Hl by lia. revert Hl.
  generalize (length buffer) at 2 3. intros fuel. revert buffer.
  induction fuel as [|fuel IH]; intros buffer Hl; cbn [packets_of].
  { destruct buffer; [apply not_elem_of_nil|simpl in Hl; lia]. }
  destruct (client_packet buffer) as [[p b]|] eqn:E.
  - destruct (client_packet_cuts _ _ _ E) as [-> Hp]. specialize (IH b).
    destruct (packets_of client_packet fuel b) as [ps rest].
    apply IH. rewrite length_app in Hl. destruct p; [done|simpl in Hl; lia].
  - apply find_sub_None. unfold client_packet in E. change END_COMMAND with [13] in E. cbn [snd].
    by destruct (find_sub [13] buffer).
Qed.

Lemma step_lines ev now id b px :
  stays id ev -> holds id b px ->
  exists b', holds id b' (proxy_step ev now px) /\
    concat (lines_of id (event_lines ev px)) ++ b' = b ++ event_sent id ev /\
    (13 ∉ b -> 13 ∉ b').
Proof.
  intros Hs Hb. unfold holds in *.
  destruct ev as [id' attempt|id' data ok|m data failing|]; cbn [stays] in Hs;
    cbn [proxy_step event_lines event_sent]; [| | |done].
  - exists b. split; [by apply connected_holds|by rewrite app_nil_r].
  - unfold client_read. destruct (px_clients px !! id') as [c|] eqn:Ec; last first.
    { exists b. rewrite bool_decide_false by (intros ->; by rewrite Ec in Hb).
      split; [done|]. by rewrite app_nil_r. }
    destruct data as [|x data].
    { assert (id' <> id) as Hne by (intros E; by apply Hs).
      exists b. rewrite bool_decide_false by done. cbn [px_clients with_clients].
      rewrite lookup_delete_ne by done. split; [done|]. by rewrite app_nil_r. }
    destruct (split_packets client_packet (client_buffer c ++ x :: data)) as [packets rest] eqn:Es.
    pose proof (split_no_end (client_buffer c ++ x :: data)) as Hno. rewrite Es in Hno. cbn [snd] in Hno.
    apply split_concat in Es; [|apply client_packet_cuts]. cbn [fst]. rewrite lines_of_tagged.
    set (px1 := with_clients _ px).
    destruct (forward_all_fields id' ok now packets px1) as (_ & _ & _ & _ & Hc).
    exists (if bool_decide (id' = id) then rest else b). split; [|split; [|by case_bool_decide]].
    + assert (forall o o' : option client,
        option_map (fun c => (registered c, client_buffer c, client_written c)) o =
        option_map (fun c => (registered c, client_buffer c, client_written c)) o' ->
        option_map client_buffer o = option_map client_buffer o') as Hproj
        by (intros [c1|] [c2|]; [by intros [= _ E _]; cbn; rewrite E|done|done|done]).
      rewrite (Hproj _ _ (Hc id)). unfold px1. cbn [px_clients with_clients].
      case_bool_decide as Hd; [subst id'; by rewrite lookup_alter_eq, Ec|].
      by rewrite lookup_alter_ne.
    + case_bool_decide as Hd; [|by rewrite app_nil_r]. subst id'.
      rewrite Ec in Hb. injection Hb as <-. exact Es.
  - exists b. split; [|by rewrite app_nil_r]. unfold cni_read.
    destruct (px_task px) as [|k buffer|]; [done| |done].
    destruct (bool_decide _); [|done]. destruct data as [|x data]; [done|].
    destruct (split_packets _ _) as [packets rest].
    pose proof (relay_buffer failing now packets px id) as E. rewrite Hb in E.
    destruct (px_writer _); [|done]. by destruct (_ && _).
Qed.

Lemma event_lines_commands ev px : Forall (fun '(_, l) => is_command l) (event_lines ev px).
Proof.
  destruct ev as [| id data ok | |]; [constructor| |constructor|constructor]. cbn [event_lines].
  destruct (px_clients px !! id) as [c|]; [|constructor]. destruct data; [constructor|].
  apply Forall_map. apply split_commands.
Qed.

Lemma run_lines evs px :
  (forall n w, Forall (fun '(ev, _) => steady ev) evs -> linked n w px ->
     linked n (w ++ map snd (lines evs px)) (proxy_run evs px)) /\
  (forall id b, Forall (fun '(ev, _) => stays id ev) evs -> holds id b px ->
     exists b', holds id b' (proxy_run evs px) /\
       concat (lines_of id (lines evs px)) ++ b' = b ++ sent id evs /\ (13 ∉ b -> 13 ∉ b')) /\
  Forall (fun '(_, l) => is_command l) (lines evs px).
Proof.
  revert px. induction evs as [|[ev now] evs IH]; intros px.
  { split; [|split; [|constructor]].
    - intros n w _ H. by rewrite app_nil_r.
    - intros id b _ H. exists b. by rewrite app_nil_r. }
  destruct (IH (proxy_step ev now px)) as (IH1 & IH2 & IH3). cbn [lines proxy_run].
  split; [|split].
  - intros n w [Hev Hs]%Forall_cons Hl. rewrite map_app, app_assoc.
    apply IH1; [done|]. by apply step_linked.
  - intros id b [Hev Hs]%Forall_cons Hb.
    destruct (step_lines ev now id b px Hev Hb) as (b1 & Hb1 & E1 & Hn1).
    destruct (IH2 id b1 Hs Hb1) as (b2 & Hb2 & E2 & Hn2). exists b2. split; [done|].
    split; [|by auto]. rewrite lines_of_app, concat_app, <- app_assoc, E2, app_assoc, E1.
    unfold sent. cbn [map concat]. by rewrite <- app_assoc.
  - apply Forall_app. split; [apply event_lines_commands|done].
Qed.

Lemma ended_step_written ev now px id c :
  px_task px = Ended -> px_clients (proxy_step ev now px) !! id = Some c ->
  client_written c = [] \/
  exists c0, px_clients px !! id = Some c0 /\ client_written c = client_written c0.
Proof.
  intros Ht. destruct ev as [id' attempt|id' data ok|n data failing|]; cbn [proxy_step].
  - unfold client_connected. set (px1 := with_clients _ px). intros Hc.
    assert (px_clients px1 !! id = Some c) as Hc1.
    { assert (px_task px1 = Ended) as H1 by done. clearbody px1.
      destruct (px_connected px1); [done|]. set (px2 := connect_to_cni attempt px1) in Hc.
      assert (px_clients px2 = px_clients px1 /\ px_task px2 = Ended) as [<- H2]
        by by unfold px2; destruct attempt. clearbody px2.
      destruct (px_connected px2); [|done]. destruct (initialize_ok px2) as [px3 E3].
      rewrite E3 in Hc. apply initialize_fields in E3 as (_ & _ & _ & Ht3 & _ & <-).
      by rewrite Ht3, H2 in Hc. }
    unfold px1 in Hc1. cbn [px_clients with_clients] in Hc1.
    destruct (decide (id = id')) as [->|Hne].
    + rewrite lookup_insert_eq in Hc1. injection Hc1 as <-. by left.
    + rewrite lookup_insert_ne in Hc1 by done. right. by exists c.
  - unfold client_read. destruct (px_clients px !! id') as [c'|] eqn:Ec; [|right; by exists c].
    destruct data as [|x data].
    { cbn [px_clients with_clients]. intros [_ Hc]%lookup_delete_Some. right. by exists c. }
    destruct (split_packets _ _) as [packets rest]. set (px1 := with_clients _ px). intros Hc.
    destruct (forward_all_fields id' ok now packets px1) as (_ & _ & _ & _ & Hall).
    specialize (Hall id). rewrite Hc in Hall. cbn [option_map] in Hall. right.
    unfold px1 in Hall. cbn [px_clients with_clients] in Hall.
    destruct (decide (id = id')) as [->|Hne].
    + rewrite lookup_alter_eq, Ec in Hall. cbn [option_map fmap option_fmap] in Hall. exists c'.
      split; [done|]. by injection Hall as _ _ ->.
    + rewrite lookup_alter_ne in Hall by done. destruct (px_clients px !! id) as [c0|]; [|done].
      exists c0. split; [done|]. by injection Hall as _ _ ->.
  - unfold cni_read. rewrite Ht. right. by exists c.
  - unfold shutdown. cbn [px_clients with_clients]. by rewrite lookup_empty.
Qed.

(** *** The analyser *)

(** The confirmation code of a command is one the decoder knows. *)
Definition code_ok (c : option bytes) : Prop :=
  c = None \/ exists k, c = Some [k] /\ k ∈ CONFIRMATION_CODES.

Definition packet_code (p : packet) : option bytes :=
  match p with
  | PointToMultipointPacket h _ _ | PointToPointPacket h _ _ _ _
  | DeviceManagementPacket h _ _ => confirmation h
  | _ => None
  end.

Definition decoded_code_ok (o : option decoded) : Prop :=
  match o with Some (DPacket p) => code_ok (packet_code p) | _ => True end.

(** The decoders set no code. *)
Ltac peel H :=
  repeat match type of H with
  | (_ ≫= _) = Ok _ => apply result_bind_Ok in H as (? & _ & H); cbn beta in H
  | (let '(_, _) := ?x in _) = Ok _ => destruct x
  | (if ?x then _ else _) = Ok _ => destruct x; try discriminate H
  | match ?x with _ => _ end = Ok _ => destruct x; try discriminate H
  end.

Lemma payload_code dp type data cs prio p :
  (if dp : bool then dm_decode data cs prio else decode_by_type type data cs prio) = Ok p ->
  packet_code p = None.
Proof.
  unfold dm_decode, decode_by_type, pm_decode, pp_decode, pm_new, pp_new. intros H.
  peel H; by injection H as <-.
Qed.

Lemma attempt_code {A} data consumed (r : result A) k :
  (forall a, r = Ok a -> decoded_code_ok (k a).1) ->
  decoded_code_ok (attempt data consumed r k).1.
Proof. intros H. destruct r as [a|e]; [by apply H|by left]. Qed.

Lemma route_code from_pci conf src p :
  code_ok conf -> packet_code p = None -> code_ok (packet_code (route from_pci conf src p)).
Proof.
  intros Hc Hp. unfold route. destruct from_pci; cbn [negb].
  - destruct src as [s|]; [destruct (s =? 0)|]; left; [done|by destruct p|done].
  - destruct p; solve [by left|done].
Qed.

Lemma decode_flags_code flags data cs from_pci dm conf consumed :
  code_ok conf -> decoded_code_ok (decode_flags flags data cs from_pci dm conf consumed).1.
Proof.
  intros Hc. unfold decode_flags. apply attempt_code. intros ty _.
  apply attempt_code. intros prio _. destruct (_ && direct_cal _ _).
  - apply attempt_code. intros p H. left. unfold pp_new in H. peel H; by injection H as <-.
  - apply attempt_code. intros src _. destruct (_ && _).
    + apply attempt_code. by intros [cal n] _.
    + apply attempt_code. intros p H. apply route_code; [done|by eapply payload_code].
Qed.

Lemma decode_text_code data cs strict from_pci dm conf consumed o n :
  code_ok conf -> decode_text data cs strict from_pci dm conf consumed = Ok (o, n) ->
  decoded_code_ok o.
Proof.
  intros Hc. unfold decode_text. destruct (negb (forallb _ _)); [by intros [= <- _]; left|].
  intros (d & _ & H)%result_bind_Ok. apply result_bind_Ok in H as (valid & _ & H).
  destruct (negb valid && strict); [by injection H as <- _; left|].
  apply result_bind_Ok in H as (fl & _ & H).
  match type of H with Ok ?x = _ => pose proof (decode_flags_code fl
    (if cs then but_last d else d) cs from_pci dm conf consumed Hc) as Hd end.
  injection H as H. by rewrite H in Hd.
Qed.

Lemma decode_packet_code data from_pci o n :
  decode_packet data true true from_pci = Ok (o, n) -> decoded_code_ok o.
Proof.
  assert (code_ok None) as Hnone by by left.
  unfold decode_packet. destruct data as [|x data]; [by intros [= <- _]|].
  assert (forall t (l : bytes), decode_line l t true true from_pci = Ok (o, n) ->
    decoded_code_ok o) as Hline.
  { intros t l. unfold decode_line. destruct (find_sub t l) as [e|]; [|by intros [= <- _]].
    cbv zeta. destruct (take e l) as [|y l']; [by intros [= <- _]|].
    destruct from_pci; [by apply decode_text_code|]. unfold decode_command.
    destruct (if startswith [64] (y :: l') then _ else _) as [[d cs] dm].
    intros (c & _ & H)%result_bind_Ok.
    destruct (byte_in c HEX_CHARS); [by eapply decode_text_code|].
    destruct (byte_in c CONFIRMATION_CODES) eqn:Ec; cbn [negb andb] in H;
      [|by injection H as <- _; left].
    eapply decode_text_code; [|exact H]. right. exists c. split; [done|by apply byte_in_spec]. }
  destruct from_pci.
  - unfold decode_from_pci. destruct (startswith _ _); [by intros [= <- _]; left|].
    destruct (startswith _ _); [by intros [= <- _]; left|].
    destruct (_ <? _); [by intros [= <- _]|]. intros (d0 & _ & H)%result_bind_Ok.
    destruct (byte_in d0 _); [|by eapply Hline].
    apply result_bind_Ok in H as (d1 & _ & H). apply result_bind_Ok in H as (p & Hp & H).
    injection H as <- _. left. unfold confirmation_new in Hp.
    destruct (find_sub _ _); [by injection Hp as <-|done].
  - unfold decode_to_pci. destruct (startswith _ _); [by intros [= <- _]; left|].
    destruct (startswith _ _); [by intros [= <- _]|].
    destruct (_ || _); [destruct (find_sub _ _); by intros [= <- _]; left|].
    destruct (cancel_position _); [by intros [= <- _]|]. apply Hline.
Qed.

(** What the analyser keeps. *)
Definition map_ok (m : list (Z * waiting_command)) : Prop :=
  NoDup (keys m) /\ forall k, k ∈ keys m -> k ∈ CONFIRMATION_CODES.

Lemma analyze_sals_ok conf client now sals a a' :
  code_ok conf -> map_ok (confirmation_map a) ->
  analyze_sals conf client now a sals = Ok a' ->
  packet_count a' = packet_count a /\ error_count a' = error_count a /\
  map_ok (confirmation_map a').
Proof.
  intros Hc. revert a. induction sals as [|sal sals IH]; intros a Hm.
  { cbn [analyze_sals]. by intros [= <-]. }
  cbn [analyze_sals]. intros (a1 & H1 & H)%result_bind_Ok.
  assert (packet_count a1 = packet_count a /\ error_count a1 = error_count a /\
    map_ok (confirmation_map a1)) as (<- & <- & Hm1); [|by apply IH].
  unfold _analyze_sal in H1. destruct (describe sal) as [d|]; [|by injection H1 as <-].
  destruct conf as [c|]; [|by injection H1 as <-].
  destruct Hc as [|(k & [= ->] & Hk)]; [done|]. cbn [ord] in H1. rewrite bind_Ok in H1.
  injection H1 as <-. split; [done|]. split; [done|]. destruct Hm as [Hnd Hin].
  cbn [confirmation_map with_confirmations]. split.
  - by apply NoDup_keys_set.
  - intros x [->|Hx]%elem_of_keys_set; [done|by apply Hin].
Qed.

Lemma analyze_packet_ok raw d c now a :
  map_ok (confirmation_map a) -> 0 <= error_count a <= packet_count a ->
  let a' := (analyze_packet raw d c now a).1 in
  packet_count a' = packet_count a + 1 /\ 0 <= error_count a' <= packet_count a' /\
  map_ok (confirmation_map a').
Proof.
  intros Hm He. cbv zeta. unfold analyze_packet.
  set (a0 := count_packet a).
  assert (packet_count a0 = packet_count a + 1) as H0 by done.
  assert (error_count a0 = error_count a) as H1 by done.
  assert (map_ok (confirmation_map a0)) as H2 by done. clearbody a0.
  assert (packet_count a0 = packet_count a + 1 /\ 0 <= error_count a0 <= packet_count a0 /\
    map_ok (confirmation_map a0)) as Hsame by (split; [done|split; [lia|done]]).
  assert (packet_count (count_error a0) = packet_count a + 1 /\
    0 <= error_count (count_error a0) <= packet_count (count_error a0) /\
    map_ok (confirmation_map (count_error a0))) as Herr by (split; [done|split; [cbn; lia|done]]).
  destruct (decode_packet _ _ _ _) as [[[dec|] n]|e] eqn:Ed; [|done|done].
  apply decode_packet_code in Ed. destruct (analyze_decoded dec c now a0) as [[a1 w]|e] eqn:Ea;
    [|done]. cbn [fst]. destruct dec as [p|cal]; [|by injection Ea as <- _].
  destruct p; cbn [analyze_decoded] in Ea; try by injection Ea as <- _.
  - apply result_bind_Ok in Ea as (k & _ & Ea).
    destruct (dict_get _ _); injection Ea as <- _; [|done]. split; [done|]. split; [cbn; lia|].
    destruct H2 as [Hnd Hin]. cbn [confirmation_map with_confirmations]. split.
    + by apply NoDup_keys_pop.
    + intros x Hx. apply Hin. by apply elem_of_keys_pop in Hx as [Hx _].
  - apply result_bind_Ok in Ea as (a2 & Ea2 & Ea). injection Ea as <- _.
    apply analyze_sals_ok in Ea2 as (E1 & E2 & E3); [|done|done].
    split; [congruence|]. split; [lia|done].
Qed.

Lemma analyzer_run_ok (l : list (bytes * Direction * option string * Z)) :
  let a := foldl (fun a '(raw, d, c, now) => (analyze_packet raw d c now a).1) analyzer_init l in
  packet_count a = len l /\ 0 <= error_count a <= packet_count a /\ map_ok (confirmation_map a).
Proof.
  cbv zeta. induction l as [|[[[raw d] c] now] l IH] using rev_ind.
  { split; [done|]. split; [done|]. split; [constructor|]. intros k Hk. by apply not_elem_of_nil in Hk. }
  rewrite foldl_app. cbn [foldl]. destruct IH as (H1 & H2 & H3).
  destruct (analyze_packet_ok raw d c now _ H3 H2) as (H4 & H5 & H6).
  split; [rewrite H4, H1; unfold len; rewrite length_app; simpl; lia|]. by split.
Qed.

(** ** Properties *)

(** C15. The proxy passes the interface's bytes on to every client, all of them, in
    order and cut only between packets. For a client in the registry, and any
    events that leave it attached (other clients come, send and go, their writes
    fail, the connection to the interface is lost and made again), what the client is
    written is a sequence of whole packets, each one a confirmation, a line up to its
    first end, or a lone power-on or error mark; together with what the proxy still
    holds they are the bytes that the reader task has taken; and what it holds is the
    beginning of one packet at most: no line end is in it, and it starts with no mark
    and with no confirmation of which both bytes are there. *)
Theorem interface_stream_relayed evs id w px :
  Forall (fun '(ev, _) => keeps id ev) evs -> attached id w px ->
  unit_begins (task_buffer (px_task px)) ->
  exists packets rest,
    attached id (w ++ packets) (proxy_run evs px) /\
    Forall interface_unit packets /\ unit_begins rest /\
    concat packets ++ rest = task_buffer (px_task px) ++ taken evs px /\
    forall n b, px_task (proxy_run evs px) = Reading n b -> b = rest.
Proof.
  intros Hk Ha Hi.
  destruct (run_relays evs id w px Hk Ha) as (packets & rest & H1 & H2 & H3 & _ & H4 & H5).
  exists packets, rest. by auto.
Qed.

(** C16. Clients share the interface line by line. While the connection to the
    interface is up, what is written to it after the initialisation is a sequence
    of whole commands, each ending in its only carriage return, and the commands
    of any client that stays, with what its task still holds, are exactly the
    bytes it has sent, in their order: no line is lost, repeated, reordered or
    mixed with another client's; and what is still held has no carriage return, so
    that every command that was sent whole has been forwarded. *)
Theorem commands_multiplexed evs n w px :
  Forall (fun '(ev, _) => steady ev) evs -> linked n w px ->
  exists ls,
    linked n (w ++ map snd ls) (proxy_run evs px) /\
    Forall (fun '(_, l) => is_command l) ls /\
    forall id b, Forall (fun '(ev, _) => stays id ev) evs -> holds id b px ->
      exists b', holds id b' (proxy_run evs px) /\
        concat (lines_of id ls) ++ b' = b ++ sent id evs /\ (13 ∉ b -> 13 ∉ b').
Proof.
  intros Hs Hl. destruct (run_lines evs px) as (H1 & H2 & H3).
  exists (lines evs px). split; [by apply H1|]. by split.
Qed.

(** The reader is not started again. Once the connection to the interface has
    ended, or was lost while the task handled a read, no client is ever written
    anything again: not those attached, and not those that connect later, even
    when their coming makes a new connection to the interface, on which commands
    are forwarded. *)
Theorem reader_not_restarted evs px :
  px_task px = Ended ->
  px_task (proxy_run evs px) = Ended /\
  forall id c, px_clients (proxy_run evs px) !! id = Some c ->
    client_written c = [] \/
    exists c0, px_clients px !! id = Some c0 /\ client_written c = client_written c0.
Proof.
  intros Ht. split; [by apply run_ended|]. revert px Ht.
  induction evs as [|[ev now] evs IH]; intros px Ht id c Hc; [right; by eexists|].
  destruct (IH _ (step_ended ev now px Ht) id c Hc) as [H|(c1 & Hc1 & ->)]; [by left|].
  by eapply ended_step_written.
Qed.

(** What the analyser keeps stays within bounds: after any bytes of any
    clients and of the interface, it has counted every packet once and no more
    errors than packets, and the commands it holds as unconfirmed are under
    different codes, all of them confirmation codes, so that there are never more
    than twenty. *)
Theorem analyzer_bounded (l : list (bytes * Direction * option string * Z)) :
  let a := foldl (fun a '(raw, d, c, now) => (analyze_packet raw d c now a).1) analyzer_init l in
  packet_count a = len l /\ 0 <= error_count a <= packet_count a /\
  NoDup (keys (confirmation_map a)) /\
  (forall k, k ∈ keys (confirmation_map a) -> k ∈ CONFIRMATION_CODES) /\
  (length (confirmation_map a) <= 20)%nat.
Proof.
  cbv zeta. destruct (analyzer_run_ok l) as (H1 & H2 & H3 & H4). split; [done|].
  split; [done|]. split; [done|]. split; [done|].
  rewrite <- (length_map fst). change 20%nat with (length CONFIRMATION_CODES).
  apply submseteq_length, NoDup_submseteq; done.
Qed.

(** *** Witnesses *)

(** A proxy that has reached the interface, with two clients. *)
Definition sample_proxy : proxy :=
  proxy_run [(EClient "10.0.0.2:1" None, 1); (EClient "10.0.0.3:2" None, 2)]
    (start (Some 0%nat) proxy_init).

(** A confirmation and a line in three reads, between which the second client
    fails and a third one comes. *)
Definition sample_reads : list (proxy_event * Z) :=
  [(ECniData 0 [103; 46; 48] [], 3); (ECniData 0 [53; 13] ["10.0.0.3:2"], 4);
   (EClient "10.0.0.4:3" None, 5); (ECniData 0 [10; 48; 56] [], 6)].

Lemma sample_attached : attached "10.0.0.2:1" [] sample_proxy.
Proof. eexists. split; [by vm_compute|]. by split. Qed.

Example interface_stream_relayed_witness :
  taken sample_reads sample_proxy = [103; 46; 48; 53; 13; 10; 48; 56] /\
  exists packets rest,
    attached "10.0.0.2:1" ([] ++ packets) (proxy_run sample_reads sample_proxy) /\
    Forall interface_unit packets /\ unit_begins rest /\
    concat packets ++ rest = task_buffer (px_task sample_proxy) ++ taken sample_reads sample_proxy /\
    forall n b, px_task (proxy_run sample_reads sample_proxy) = Reading n b -> b = rest.
Proof.
  split; [by vm_compute|].
  apply (interface_stream_relayed sample_reads "10.0.0.2:1" [] sample_proxy);
    [|exact sample_attached|by apply cni_packet_begins].
  repeat (apply Forall_cons; split; [|]); [..|constructor]; cbn [keeps].
  - apply not_elem_of_nil.
  - intros [H|H%elem_of_nil]%elem_of_cons; [discriminate H|done].
  - discriminate.
  - apply not_elem_of_nil.
Defined.

(** Two clients whose lines come in pieces. *)
Definition sample_commands : list (proxy_event * Z) :=
  [(EClientData "10.0.0.2:1" [92; 48] true, 3); (EClientData "10.0.0.3:2" [126; 13] true, 4);
   (EClientData "10.0.0.2:1" [53; 104; 13; 92] true, 5)].

Example commands_multiplexed_witness :
  exists ls,
    linked 0 (default [] (px_links sample_proxy !! 0%nat) ++ map snd ls)
      (proxy_run sample_commands sample_proxy) /\
    Forall (fun '(_, l) => is_command l) ls /\
    forall id b, Forall (fun '(ev, _) => stays id ev) sample_commands -> holds id b sample_proxy ->
      exists b', holds id b' (proxy_run sample_commands sample_proxy) /\
        concat (lines_of id ls) ++ b' = b ++ sent id sample_commands /\ (13 ∉ b -> 13 ∉ b').
Proof.
  apply (commands_multiplexed sample_commands 0 _ sample_proxy); [|by vm_compute].
  repeat (apply Forall_cons; split; [reflexivity|]). constructor.
Defined.

(** The interface closes, a client comes, and the proxy connects again; what the
    interface then says is read by nobody. *)
Definition sample_loss : proxy :=
  proxy_run [(ECniData 0 [] [], 3)] sample_proxy.

Example reader_not_restarted_witness :
  let evs := [(EClient "10.0.0.4:3" (Some 1%nat), 4); (ECniData 1 [43] [], 5)] in
  px_connected (proxy_run evs sample_loss) = true /\
  px_task (proxy_run evs sample_loss) = Ended /\
  forall id c, px_clients (proxy_run evs sample_loss) !! id = Some c ->
    client_written c = [] \/
    exists c0, px_clients sample_loss !! id = Some c0 /\ client_written c = client_written c0.
Proof.
  split; [by vm_compute|].
  apply (reader_not_restarted
    [(EClient "10.0.0.4:3" (Some 1%nat), 4); (ECniData 1 [43] [], 5)] sample_loss).
  reflexivity.
Defined.

(** Two clients use the same code, as each counts its own: the first confirmation
    is taken for the second client's command, and the second for none. *)
Example confirmation_of_another :
  let send := fun id text now a => (analyze_packet text FROM_CLIENT (Some id) now a).1 in
  let on := fun grp => [92] ++ b16encode (add_cbus_checksum [0x05; 0x38; 0x00; 0x79; grp]) ++
                       [104] ++ END_COMMAND in
  let a := send "10.0.0.3:2" (on 2) 1 (send "10.0.0.2:1" (on 1) 0 analyzer_init) in
  let '(a, first) := analyze_packet [104; 46] FROM_CNI None 2 a in
  let '(a, second) := analyze_packet [104; 46] FROM_CNI None 3 a in
  first = ADecoded (DPacket (ConfirmationPacket [104] true))
            (Some (1, LightOn 2, Some "10.0.0.3:2")) /\
  second = ADecoded (DPacket (ConfirmationPacket [104] true)) None.
Proof. by vm_compute. Qed.

(** A request for the levels of groups 32 to 63 of application 56 is described as
    one for application 255, from group 0, of no groups. *)
Example status_request_described :
  forall block app, describe (SStatusRequest {| sr_level_request := true;
      sr_group_address := block; sr_child_application := app |}) =
    Some (StatusRequest 0xff 0 0).
Proof. done. Qed.
