(* ===== verification/Relay.v ===== *)
(** * A client behind the proxy

    The library's client ([Pci], over [Buffered]) connected to the proxy of [Proxy]
    instead of the interface. *)

From S2P Require Import Prelude Packet Decode Buffered PyDict Confirm Pci Proxy.
From Stdlib Require Import String.
From stdpp Require Import strings gmap options.

Local Open Scope Z_scope.

(** ** Definitions *)

(** The handler of the client's buffer: what [pci_received] decodes with. *)
Definition client_handler : pci -> bytes -> pci * result Z :=
  handle_data false (fun _ => true) handle_cbus_packet (fun st _ => st).

(** Chunks that a connection brings to a client, which takes all of them. *)
Definition brings (chunks : list bytes) (stream : bytes) (p : @buffered pci) : Prop :=
  concat chunks = stream /\ accepts_all client_handler p chunks.

(** ** Properties *)

(** C24. A client cannot tell the proxy from the interface. Let a client connect to
    the proxy, and the reader task take any bytes of the interface, while other
    clients come, send, fail and go. The proxy has written it whole packets of the
    interface, in order, and holds back the beginning of one more at most. Whatever
    cuts the network makes of what the proxy wrote, as long as the client takes all of
    them (they fit its buffer and no packet makes a handler raise), it is in the same
    state as a client of the interface itself that has received as many packets in any
    other cuts: its buffer, every handler called with the same arguments in the same
    order, the tasks and confirmations. And once the bytes held back have come as well,
    it is in the state of a client that received the whole stream. *)
Theorem client_behind_proxy evs id px st :
  Forall (fun '(ev, _) => keeps id ev) evs -> attached id [] px -> task_buffer (px_task px) = [] ->
  exists packets rest,
    attached id packets (proxy_run evs px) /\
    Forall interface_unit packets /\ unit_begins rest /\
    concat packets ++ rest = taken evs px /\
    (forall n b, px_task (proxy_run evs px) = Reading n b -> b = rest) /\
    let p := cbus_init st in
    (forall relayed direct, brings relayed (concat packets) p -> brings direct (concat packets) p ->
       foldl pci_received p relayed = foldl pci_received p direct) /\
    forall relayed direct,
      brings (relayed ++ [rest]) (concat packets ++ rest) p -> brings direct (taken evs px) p ->
      pci_received (foldl pci_received p relayed) rest = foldl pci_received p direct.
Proof.
  intros Hk Ha Hb.
  destruct (run_relays evs id [] px Hk Ha) as (packets & rest & H1 & H2 & H3 & _ & H4 & H5).
  rewrite Hb in H2, H5. cbn [app] in H1, H2. exists packets, rest. split; [done|]. split; [done|].
  split; [by apply H5, cni_packet_begins|]. split; [done|]. split; [done|]. split.
  - intros relayed direct [Hr1 Hr2] [Hd1 Hd2].
    apply (received_same client_handler (cbus_init st)); [done|done|done|]. by rewrite Hr1, Hd1.
  - intros relayed direct [Hr1 Hr2] [Hd1 Hd2].
    pose proof (received_same client_handler (cbus_init st) (relayed ++ [rest]) direct) as Hs.
    rewrite foldl_app in Hs. apply Hs; [done|done|done|]. by rewrite Hr1, Hd1.
Qed.

(** The run of [Proxy] in which a confirmation and a line come in three reads. *)
Definition sample_direct : list bytes := [[103]; [46; 48; 53; 13]; [10; 48; 56]].

Example client_behind_proxy_witness :
  exists packets rest,
    attached "10.0.0.2:1" packets (proxy_run sample_reads sample_proxy) /\
    packets = [[103; 46]; [48; 53; 13; 10]] /\ rest = [48; 56] /\
    foldl pci_received (cbus_init pci_init) [[103; 46; 48]; [53; 13; 10]] =
      foldl pci_received (cbus_init pci_init) [[103]; [46; 48; 53; 13]; [10]] /\
    pci_received (foldl pci_received (cbus_init pci_init) [[103; 46; 48]; [53; 13; 10]]) rest =
      foldl pci_received (cbus_init pci_init) sample_direct.
Proof.
  destruct (client_behind_proxy sample_reads "10.0.0.2:1" sample_proxy pci_init)
    as (packets & rest & Ha & _ & _ & _ & Hr & Hwhole & Hall).
  - repeat (apply Forall_cons; split; [|]); [..|constructor]; cbn [keeps].
    + apply not_elem_of_nil.
    + intros [E|E%elem_of_nil]%elem_of_cons; [discriminate E|done].
    + discriminate.
    + apply not_elem_of_nil.
  - exact sample_attached.
  - reflexivity.
  - assert (rest = [48; 56]) as -> by (symmetry; apply (Hr 0%nat); vm_compute; reflexivity).
    assert (packets = [[103; 46]; [48; 53; 13; 10]]) as ->.
    { destruct Ha as (c & Hc & _ & <-). vm_compute in Hc. injection Hc as <-. reflexivity. }
    exists [[103; 46]; [48; 53; 13; 10]], [48; 56]. split; [exact Ha|]. split; [reflexivity|].
    split; [reflexivity|]. split; [apply Hwhole|apply Hall];
      (split; [vm_compute; reflexivity|repeat split; vm_compute; congruence]).
Defined.
