(* ===== verification/HaDiscovery.v ===== *)
(** * Home Assistant discovery for the bridge: [cbus/esp32/ha_discovery.py]

    The discovery messages published for the configured groups behind an ESP32
    bridge, and the topics that are cleared, against those of the daemon
    ([Topics], [Gateway]). A message is the object it is the text of. *)

From S2P Require Import Prelude Text Common Lighting Topics Gateway.
From Stdlib Require Import String Ascii.
From stdpp Require Import strings gmap options.

Local Open Scope string_scope.
Local Open Scope list_scope.
Local Open Scope Z_scope.

(** ** Definitions *)

Definition DEFAULT_LIGHTING_APP : Z := value Application.LIGHTING.

Record GroupConfig := { group_addr : Z; app_addr : Z; label : string }.

(** The address in the names of another application. *)
Definition app_group (g : GroupConfig) : string :=
  str_int (app_addr g) +:+ "_" +:+ fmt03d (group_addr g).

Definition topic_id (g : GroupConfig) : string :=
  if app_addr g =? DEFAULT_LIGHTING_APP then "cbus_" +:+ str_int (group_addr g)
  else "cbus_" +:+ app_group g.

Definition unique_id (g : GroupConfig) : string :=
  if app_addr g =? DEFAULT_LIGHTING_APP then "cbus_light_" +:+ str_int (group_addr g)
  else "cbus_light_" +:+ app_group g.

Definition sensor_unique_id (g : GroupConfig) : string :=
  if app_addr g =? DEFAULT_LIGHTING_APP then "cbus_bin_sensor_" +:+ str_int (group_addr g)
  else "cbus_bin_sensor_" +:+ app_group g.

(** A section of the label file; either key may be missing. *)
Record section := {
  application_address : option Z;
  section_groups : option (list (string * string))
}.

(** [load_group_labels], of the values of the file's object. *)
Fixpoint section_labels (app : Z) (items : list (string * string)) : result (list GroupConfig) :=
  match items with
  | [] => Ok []
  | (ga_str, l) :: items =>
      ga ← int_of_str ga_str;
      more ← section_labels app items;
      Ok ({| group_addr := ga; app_addr := app; label := l |} :: more)
  end.

Fixpoint load_group_labels (data : list section) : result (list GroupConfig) :=
  match data with
  | [] => Ok []
  | s :: data =>
      app ← or_raise KeyError (application_address s);
      items ← or_raise KeyError (section_groups s);
      here ← section_labels app items;
      more ← load_group_labels data;
      Ok (here ++ more)
  end.

(** [s.removeprefix(p)] *)
Definition removeprefix (p s : string) : string :=
  if String.prefix p s then str_drop (String.length p) s else s.

Definition dev_name (g : GroupConfig) : string :=
  if app_addr g =? DEFAULT_LIGHTING_APP then "C-Bus Light " +:+ fmt03d (group_addr g)
  else "C-Bus Light " +:+ app_group g.

Definition build_light_discovery (g : GroupConfig) : string * json :=
  let id := removeprefix "cbus_" (topic_id g) in
  let cmd_t := _LIGHT_TOPIC_PREFIX +:+ id +:+ "/set" in
  let stat_t := _LIGHT_TOPIC_PREFIX +:+ id +:+ "/state" in
  let conf_t := _LIGHT_TOPIC_PREFIX +:+ id +:+ "/config" in
  (conf_t, JObject
    [("name", JString (label g)); ("unique_id", JString (unique_id g));
     ("cmd_t", JString cmd_t); ("stat_t", JString stat_t); ("schema", JString "json");
     ("brightness", JBool true);
     ("device", JObject
        [("identifiers", JArray [JString (unique_id g)]);
         ("connections", JArray
            [JArray [JString "cbus_group_address"; JString (str_int (group_addr g))];
             JArray [JString "cbus_application_address"; JString (str_int (app_addr g))]]);
         ("sw_version", JString "cbus-esp32 https://github.com/mitchell-johnson/cbus");
         ("name", JString (dev_name g)); ("manufacturer", JString "Clipsal");
         ("model", JString "C-Bus Lighting Application"); ("via_device", JString "cmqttd")])]).

Definition build_binary_sensor_discovery (g : GroupConfig) : string * json :=
  let id := removeprefix "cbus_" (topic_id g) in
  let stat_t := _BINSENSOR_TOPIC_PREFIX +:+ id +:+ "/state" in
  let conf_t := _BINSENSOR_TOPIC_PREFIX +:+ id +:+ "/config" in
  (conf_t, JObject
    [("name", JString (label g +:+ " (as binary sensor)"));
     ("unique_id", JString (sensor_unique_id g)); ("stat_t", JString stat_t);
     ("device", JObject
        [("identifiers", JArray [JString (sensor_unique_id g)]);
         ("sw_version", JString "cbus-esp32"); ("name", JString (dev_name g));
         ("manufacturer", JString "Clipsal"); ("model", JString "C-Bus Lighting Application");
         ("via_device", JString "cmqttd")])]).

Definition generate_all_discovery (gs : list GroupConfig) : list (string * json) :=
  concat (map (fun g => [build_light_discovery g; build_binary_sensor_discovery g]) gs).

Definition generate_removal_topics (gs : list GroupConfig) (max_group : Z) : list string :=
  let configured_gas :=
    map group_addr (List.filter (fun g => app_addr g =? DEFAULT_LIGHTING_APP) gs) in
  concat (map (fun ga =>
    if bool_decide (ga ∈ configured_gas) then []
    else [_LIGHT_TOPIC_PREFIX +:+ str_int ga +:+ "/config";
          _BINSENSOR_TOPIC_PREFIX +:+ str_int ga +:+ "/config"]) (seqZ 0 max_group)).

(** ** Lemmas *)

(** What follows the prefix in the topics. *)
Definition topic_suffix (g : GroupConfig) : string :=
  if app_addr g =? DEFAULT_LIGHTING_APP then str_int (group_addr g) else app_group g.

Lemma topic_id_suffix g : removeprefix "cbus_" (topic_id g) = topic_suffix g.
Proof.
  assert (topic_id g = "cbus_" +:+ topic_suffix g) as ->
    by by unfold topic_id, topic_suffix; destruct (_ =? _).
  unfold removeprefix. by rewrite str_prefix_app, str_drop_app.
Qed.

(** Facts of the numbers with two digits, by trying them all. *)
Lemma two_digit_forall (f : Z -> bool) :
  forallb f (seqZ 10 90) = true -> forall a, 10 <= a < 100 -> f a = true.
Proof.
  rewrite forallb_forall. intros H a Ha. apply H, list_elem_of_In, elem_of_seqZ. lia.
Qed.

(** A lighting application in the two notations. *)
Lemma two_digits a : 10 <= a < 100 -> fmt03d a = "0" +:+ str_int a.
Proof.
  intros Ha. apply String.eqb_eq. revert a Ha.
  apply (two_digit_forall (fun a => String.eqb (fmt03d a) ("0" +:+ str_int a))). by vm_compute.
Qed.

Lemma str_int_first a : 10 <= a < 100 -> exists c s, str_int a = String c s /\ c <> "0"%char.
Proof.
  intros Ha. assert ((match str_int a with
    | String c _ => negb (Ascii.eqb c "0") | _ => false end) = true) as H.
  { revert a Ha. apply (two_digit_forall (fun a => match str_int a with
    | String c _ => negb (Ascii.eqb c "0") | _ => false end)). by vm_compute. }
  destruct (str_int a) as [|c s]; [done|]. exists c, s. split; [done|]. by intros ->.
Qed.

Lemma lighting_two_digits a : byte_in a lighting_applications = true -> 10 <= a < 100.
Proof.
  assert (forallb (fun a => (10 <=? a) && (a <? 100)) lighting_applications = true) as H
    by by vm_compute.
  rewrite forallb_forall in H. intros Ha%byte_in_spec%list_elem_of_In%H. lia.
Qed.

(** The daemon reads it all the same. *)
Lemma other_command_read g :
  byte_in (app_addr g) lighting_applications = true -> app_addr g <> DEFAULT_LIGHTING_APP ->
  byte_ok (group_addr g) ->
  get_topic_group_address (_LIGHT_TOPIC_PREFIX +:+ topic_suffix g +:+ "/set") =
    Ok (group_addr g, app_addr g).
Proof.
  intros Ha Hne Hg. apply lighting_two_digits in Ha.
  assert (address_ok (app_addr g)) as Hadr by (unfold address_ok; lia).
  pose proof (byte_address _ Hg) as Hgo. unfold topic_suffix.
  rewrite (proj2 (Z.eqb_neq _ _)) by done.
  destruct (number_free "/" (app_addr g)) as [Hs1 _]; [done|done|done|].
  destruct (number_free "/" (group_addr g)) as [_ Hs2]; [done|done|done|].
  destruct (number_free "_" (app_addr g)) as [Hu1 _]; [done|done|done|].
  destruct (number_free "_" (group_addr g)) as [_ Hu2]; [done|done|done|].
  unfold get_topic_group_address. rewrite str_prefix_app, str_drop_app.
  change ("/set") with (String "/" "set"). rewrite str_until_app; last first.
  { unfold app_group. rewrite !str_in_app, Hs1, Hs2. done. }
  unfold split_address, app_group.
  change (str_int (app_addr g) +:+ "_" +:+ fmt03d (group_addr g))
    with (str_int (app_addr g) +:+ String "_" (fmt03d (group_addr g))).
  rewrite str_split_app, str_split_none by done. cbn [fst snd].
  rewrite int_of_str_int, int_of_fmt03d, !bind_Ok by done. by rewrite check_ga_ok.
Qed.

(** The daemon's name of a light of another application starts with a zero. *)
Lemma other_name_differs g x :
  byte_in (app_addr g) lighting_applications = true -> app_addr g <> DEFAULT_LIGHTING_APP ->
  byte_ok (group_addr g) ->
  forall g' a', byte_ok g' -> byte_in a' lighting_applications = true ->
    topic_suffix g +:+ String "/" x <> ga_string g' a' false +:+ String "/" x.
Proof.
  intros Ha Hne Hg g' a' Hg' Ha' E. apply lighting_two_digits in Ha, Ha'.
  unfold topic_suffix, app_group, ga_string in E. rewrite (proj2 (Z.eqb_neq _ _)) in E by done.
  destruct (str_int_first (app_addr g) Ha) as (c & s & Ec & Hc).
  destruct (a' =? value Application.LIGHTING).
  - assert (str_in "_" (str_int g') = false) as Hu
      by by apply number_free; [| |apply byte_address].
    apply (f_equal (fun s => str_in "_" (str_until "/" s))) in E.
    rewrite (str_until_app "/" (str_int g')) in E
      by by apply number_free; [| |apply byte_address].
    rewrite Hu in E. rewrite str_until_app in E.
    + rewrite !str_in_app in E. cbn in E. by rewrite orb_true_r in E.
    + rewrite !str_in_app.
      assert (address_ok (app_addr g)) as Hadr by (unfold address_ok; lia).
      rewrite (proj1 (number_free "/" (app_addr g) ltac:(done) ltac:(done) Hadr)).
      by rewrite (proj2 (number_free "/" (group_addr g) ltac:(done) ltac:(done)
        (byte_address _ Hg))).
  - rewrite (two_digits a' Ha'), Ec in E. rewrite !str_app_assoc in E.
    change ("0" +:+ ?y) with (String "0" y) in E. injection E as E _. done.
Qed.

(** Discovery topics of groups of the default application. *)
Lemma default_topic_inj ga ga' t :
  0 <= ga < 256 -> 0 <= ga' < 256 ->
  t = conf_topic ga DEFAULT_LIGHTING_APP \/ t = bin_sensor_conf_topic ga DEFAULT_LIGHTING_APP ->
  t = conf_topic ga' DEFAULT_LIGHTING_APP \/ t = bin_sensor_conf_topic ga' DEFAULT_LIGHTING_APP ->
  ga = ga'.
Proof.
  intros Hga Hga' H H'.
  assert (address_ok ga /\ address_ok ga' /\ address_ok DEFAULT_LIGHTING_APP) as (H1 & H2 & H3)
    by (unfold address_ok; change DEFAULT_LIGHTING_APP with 56; lia).
  assert (exists r, t = topic_of r ga DEFAULT_LIGHTING_APP) as [r Er]
    by (destruct H as [-> | ->]; [by exists ConfTopic|by exists SensorConfTopic]).
  assert (exists r, t = topic_of r ga' DEFAULT_LIGHTING_APP) as [r' Er']
    by (destruct H' as [-> | ->]; [by exists ConfTopic|by exists SensorConfTopic]).
  rewrite Er in Er'. by apply topic_inj in Er' as (_ & -> & _).
Qed.

Lemma published_default g ga t :
  byte_ok (group_addr g) -> byte_in (app_addr g) lighting_applications = true -> 0 <= ga < 256 ->
  t = (build_light_discovery g).1 \/ t = (build_binary_sensor_discovery g).1 ->
  t = conf_topic ga DEFAULT_LIGHTING_APP \/ t = bin_sensor_conf_topic ga DEFAULT_LIGHTING_APP ->
  app_addr g = DEFAULT_LIGHTING_APP /\ group_addr g = ga.
Proof.
  intros Hg Ha Hga Ht Ht'. unfold build_light_discovery, build_binary_sensor_discovery in Ht.
  cbn [fst] in Ht. rewrite topic_id_suffix in Ht.
  destruct (decide (app_addr g = DEFAULT_LIGHTING_APP)) as [E|Hne].
  - split; [done|]. unfold byte_ok in Hg. eapply default_topic_inj; [|done| |exact Ht']; [lia|].
    unfold topic_suffix in Ht. by rewrite E, Z.eqb_refl in Ht.
  - exfalso. assert (forall p q, p = _LIGHT_TOPIC_PREFIX \/ p = _BINSENSOR_TOPIC_PREFIX ->
      q = _LIGHT_TOPIC_PREFIX \/ q = _BINSENSOR_TOPIC_PREFIX ->
      p +:+ topic_suffix g +:+ "/config" <> q +:+ ga_string ga DEFAULT_LIGHTING_APP false +:+ "/config")
      as Hd.
    { intros p q Hp Hq E.
      assert (p = q) as <- by (destruct Hp as [-> | ->], Hq as [-> | ->]; (done || discriminate E)).
      apply (f_equal (str_drop (String.length p))) in E. rewrite !str_drop_app in E.
      apply (other_name_differs g "config" Ha Hne Hg ga DEFAULT_LIGHTING_APP); [|done|exact E].
      unfold byte_ok. lia. }
    destruct Ht as [-> | ->], Ht' as [E|E]; eapply Hd in E; eauto.
Qed.

(** The topics that are published. *)
Lemma published_topic gs t :
  t ∈ map fst (generate_all_discovery gs) <->
  exists g, g ∈ gs /\ (t = (build_light_discovery g).1 \/ t = (build_binary_sensor_discovery g).1).
Proof.
  unfold generate_all_discovery. induction gs as [|g gs IH]; cbn [map concat].
  - split; [by intros ?%not_elem_of_nil|]. by intros (g & ?%not_elem_of_nil & _).
  - cbn [Datatypes.app map]. rewrite !elem_of_cons, IH. split.
    + intros [->|[->|(g' & Hg' & H)]]; [exists g..|exists g']; rewrite elem_of_cons; auto.
    + intros (g' & [->|Hg']%elem_of_cons & H); [tauto|]. right; right. by exists g'.
Qed.

Lemma removed_topic gs n t :
  t ∈ generate_removal_topics gs n <->
  exists ga, 0 <= ga < n /\ (forall g, g ∈ gs -> app_addr g = DEFAULT_LIGHTING_APP -> group_addr g <> ga) /\
    (t = conf_topic ga DEFAULT_LIGHTING_APP \/ t = bin_sensor_conf_topic ga DEFAULT_LIGHTING_APP).
Proof.
  unfold generate_removal_topics. set (gas := map group_addr _).
  assert (forall ga, ga ∉ gas <->
    forall g, g ∈ gs -> app_addr g = DEFAULT_LIGHTING_APP -> group_addr g <> ga) as Hgas.
  { intros ga. unfold gas. rewrite list_elem_of_fmap. split.
    - intros H g Hg Ea E. apply H. exists g. split; [done|].
      apply list_elem_of_In, List.filter_In. split; [by apply list_elem_of_In|]. lia.
    - intros H (g & -> & [Hg Ea]%list_elem_of_In%List.filter_In).
      apply (H g); [by apply list_elem_of_In|lia|done]. }
  rewrite list_elem_of_In, List.in_concat. setoid_rewrite in_map_iff. split.
  - intros (l & (ga & <- & Hin) & Ht). exists ga.
    apply list_elem_of_In, elem_of_seqZ in Hin. split; [lia|].
    case_bool_decide as Hd; [done|]. split; [by apply Hgas|].
    destruct Ht as [<-|[<-|[]]]; [by left|by right].
  - intros (ga & Hr & Hn%Hgas & Ht). eexists. split.
    + exists ga. split; [done|]. apply list_elem_of_In, elem_of_seqZ. lia.
    + rewrite bool_decide_false by done. destruct Ht as [-> | ->]; [by left|by right; left].
Qed.

(** ** Properties *)

(** The fields of an object that are the same in another. *)
Definition same_fields (keys : list string) (j j' : json) : Prop :=
  match j, j' with
  | JObject f, JObject f' => Forall (fun k => field k f = field k f') keys
  | _, _ => False
  end.

Definition device_of (j : json) : json :=
  match j with JObject f => default JNull (field "device" f) | _ => JNull end.

(** The bridge's discovery messages replace the daemon's for the default
    lighting application, and no others. For any group of application 56 the
    messages go to the daemon's discovery topics, with the same identifiers, the
    same topics for commands and state and the same names, all but the version.
    For a group of any other lighting application the daemon still takes the
    command topic for this very light, but neither the discovery topics nor the
    state topics are ones the daemon uses for any light: the entity obeys and
    never learns its state. *)
Theorem discovery_against_daemon g :
  byte_ok (group_addr g) -> byte_in (app_addr g) lighting_applications = true ->
  let '(light_topic, light) := build_light_discovery g in
  let '(sensor_topic, sensor) := build_binary_sensor_discovery g in
  (app_addr g = DEFAULT_LIGHTING_APP ->
     light_topic = conf_topic (group_addr g) (app_addr g) /\
     sensor_topic = bin_sensor_conf_topic (group_addr g) (app_addr g) /\
     same_fields ["name"; "unique_id"; "cmd_t"; "stat_t"; "schema"; "brightness"] light
       (light_conf (label g) (group_addr g) (app_addr g)) /\
     same_fields ["name"; "unique_id"; "stat_t"] sensor
       (sensor_conf (label g) (group_addr g) (app_addr g)) /\
     same_fields ["identifiers"; "connections"; "name"; "manufacturer"; "model"; "via_device"]
       (device_of light) (device_of (light_conf (label g) (group_addr g) (app_addr g))) /\
     same_fields ["identifiers"; "name"; "manufacturer"; "model"; "via_device"]
       (device_of sensor) (device_of (sensor_conf (label g) (group_addr g) (app_addr g)))) /\
  (app_addr g <> DEFAULT_LIGHTING_APP ->
     get_topic_group_address (_LIGHT_TOPIC_PREFIX +:+ topic_suffix g +:+ "/set") =
       Ok (group_addr g, app_addr g) /\
     (match light with JObject f => field "cmd_t" f | _ => None end) =
       Some (JString (_LIGHT_TOPIC_PREFIX +:+ topic_suffix g +:+ "/set")) /\
     forall g' a', byte_ok g' -> byte_in a' lighting_applications = true ->
       light_topic <> conf_topic g' a' /\ sensor_topic <> bin_sensor_conf_topic g' a' /\
       (match light with JObject f => field "stat_t" f | _ => None end) <>
         Some (JString (state_topic g' a')) /\
       (match sensor with JObject f => field "stat_t" f | _ => None end) <>
         Some (JString (bin_sensor_state_topic g' a'))).
Proof.
  intros Hg Ha. unfold build_light_discovery, build_binary_sensor_discovery.
  rewrite topic_id_suffix. split.
  - intros E. destruct g as [ga aa l]. cbn [group_addr app_addr label] in *. subst aa.
    unfold topic_suffix, unique_id, sensor_unique_id, dev_name. cbn [group_addr app_addr label].
    rewrite Z.eqb_refl.
    repeat (split; [done|]). repeat split; repeat constructor.
  - intros Hne. split; [by apply other_command_read|]. split; [done|].
    intros g' a' Hg' Ha'.
    assert (forall p x, p +:+ topic_suffix g +:+ String "/" x <>
      p +:+ ga_string g' a' false +:+ String "/" x) as Hd.
    { intros p x E. apply (f_equal (str_drop (String.length p))) in E.
      rewrite !str_drop_app in E. by eapply other_name_differs. }
    split; [apply Hd|]. split; [apply Hd|].
    split; intros E; injection E as E; by eapply Hd.
Qed.

Example discovery_against_daemon_witness :
  fst (build_light_discovery {| group_addr := 7; app_addr := 0x30; label := "Hall" |}) =
    "homeassistant/light/cbus_48_007/config" /\
  get_topic_group_address (_LIGHT_TOPIC_PREFIX +:+
    topic_suffix {| group_addr := 7; app_addr := 0x30; label := "Hall" |} +:+ "/set") =
    Ok (7, 0x30).
Proof.
  split; [reflexivity|].
  exact (proj1 (proj2 (discovery_against_daemon
    {| group_addr := 7; app_addr := 0x30; label := "Hall" |}
    (conj (Zle_0_pos 7) eq_refl : byte_ok 7) eq_refl) ltac:(discriminate))).
Defined.

(** What is cleared is what is not configured. The topics cleared are exactly
    the discovery topics of the groups below the bound of application 56 that are
    not configured there; none of them is one of the topics published for the
    configured groups, of this application or another; and every group of
    application 56 below the bound has its topics either cleared or published. *)
Theorem removal_exact gs n :
  Forall (fun g => byte_ok (group_addr g) /\ byte_in (app_addr g) lighting_applications = true) gs ->
  n <= 256 ->
  (forall t, t ∈ generate_removal_topics gs n -> t ∉ map fst (generate_all_discovery gs)) /\
  forall ga, 0 <= ga < n ->
    let configured := exists g, g ∈ gs /\ app_addr g = DEFAULT_LIGHTING_APP /\ group_addr g = ga in
    forall t, t = conf_topic ga DEFAULT_LIGHTING_APP \/
              t = bin_sensor_conf_topic ga DEFAULT_LIGHTING_APP ->
      (t ∈ generate_removal_topics gs n <-> ~ configured) /\
      (t ∈ map fst (generate_all_discovery gs) <-> configured).
Proof.
  intros Hgs Hn. rewrite Forall_forall in Hgs.
  assert (byte_in DEFAULT_LIGHTING_APP lighting_applications = true) as H56 by done.
  assert (address_ok DEFAULT_LIGHTING_APP) as Hadr by (unfold address_ok; change DEFAULT_LIGHTING_APP with 56; lia).
  assert (forall ga t, 0 <= ga < n -> t = conf_topic ga DEFAULT_LIGHTING_APP \/
      t = bin_sensor_conf_topic ga DEFAULT_LIGHTING_APP ->
    t ∈ map fst (generate_all_discovery gs) <->
    exists g, g ∈ gs /\ app_addr g = DEFAULT_LIGHTING_APP /\ group_addr g = ga) as Hpub.
  { intros ga t Hga Ht. rewrite published_topic. split.
    - intros (g & Hg & Hgt). exists g. split; [done|]. destruct (Hgs g Hg) as [Hgb Hga'].
      apply (published_default g ga t Hgb Hga'); [lia|done|done].
    - intros (g & Hg & Ea & <-). exists g. split; [done|].
      unfold build_light_discovery, build_binary_sensor_discovery. cbn [fst].
      rewrite topic_id_suffix. unfold topic_suffix. rewrite Ea, Z.eqb_refl. exact Ht. }
  assert (forall ga ga' t, 0 <= ga < n -> 0 <= ga' < n ->
    t = conf_topic ga DEFAULT_LIGHTING_APP \/ t = bin_sensor_conf_topic ga DEFAULT_LIGHTING_APP ->
    t = conf_topic ga' DEFAULT_LIGHTING_APP \/ t = bin_sensor_conf_topic ga' DEFAULT_LIGHTING_APP ->
    ga = ga') as Hinj by (intros ga ga' t Hga Hga'; apply default_topic_inj; lia).
  split.
  - intros t (ga & Hga & Hnone & Ht)%removed_topic Hp. apply (Hpub ga t Hga Ht) in Hp.
    destruct Hp as (g & Hg & Ea & Eg). by eapply Hnone.
  - intros ga Hga configured t Ht. split; [|by apply Hpub]. rewrite removed_topic. split.
    + intros (ga' & Hga' & Hnone & Ht') (g & Hg & Ea & Eg).
      apply (Hnone g Hg Ea). by rewrite Eg, (Hinj ga ga' t).
    + intros Hno. exists ga. split; [done|]. split; [|done]. intros g Hg Ea Eg. apply Hno. by exists g.
Qed.

Example removal_exact_witness :
  let gs := [{| group_addr := 7; app_addr := 56; label := "Hall" |};
             {| group_addr := 8; app_addr := 0x30; label := "Porch" |}] in
  forall t, t ∈ generate_removal_topics gs 256 -> t ∉ map fst (generate_all_discovery gs).
Proof.
  refine (proj1 (removal_exact
    [{| group_addr := 7; app_addr := 56; label := "Hall" |};
     {| group_addr := 8; app_addr := 0x30; label := "Porch" |}] 256 _ _)).
  - repeat constructor; simpl; unfold byte_ok; lia.
  - lia.
Defined.
