(* ===== verification/SimLighting.v ===== *)
(** * The simulator's lighting handler

    [LightingApplication] of [cbus-simulator/simulator/applications/lighting.py], a
    second set of handlers over the shared state of [SimState], beside those of
    [Simulator]. The source address of a command is only logged. *)

From S2P Require Import Prelude Text SimState.
From stdpp Require Import strings gmap options.

Local Open Scope Z_scope.

(** ** Handlers *)

Definition APPLICATION_ID : Z := 56.

(** A handler: the network, the group, the time, the state; whether it succeeded. *)
Definition handle_on (network group source now : Z) (s : SimulatorState) : SimulatorState * bool :=
  set_group_level network APPLICATION_ID group 255 now s.

Definition handle_off (network group source now : Z) (s : SimulatorState) : SimulatorState * bool :=
  set_group_level network APPLICATION_ID group 0 now s.

Definition handle_ramp (network group duration level source now : Z) (s : SimulatorState)
    : SimulatorState * bool :=
  set_group_level network APPLICATION_ID group level now s.

Definition handle_terminate_ramp (network group source now : Z) (s : SimulatorState)
    : SimulatorState * bool :=
  set_group_level network APPLICATION_ID group (get_group_level network APPLICATION_ID group s) now s.

Definition get_status (network group : Z) (s : SimulatorState) : Z :=
  get_group_level network APPLICATION_ID group s.

Definition get_all_groups (network : Z) (s : SimulatorState) : gmap Z Z :=
  get_all_group_levels network APPLICATION_ID s.

(** ** Lemmas *)

(** The level of a group after a level was set. *)
Lemma level_set n a g v now s n' a' g' :
  get_group_level n' a' g' (set_group_level n a g v now s).1 =
    if this_group n' a' g' n a g then
      match find_group n a g s with Some _ => Z.max 0 (Z.min 255 v) | None => 0 end
    else get_group_level n' a' g' s.
Proof.
  unfold get_group_level, set_group_level. destruct (find_group n a g s) as [grp|] eqn:E; cbn [fst].
  - rewrite find_update_group. destruct (this_group n' a' g' n a g) eqn:Et; [|done].
    unfold this_group in Et. apply andb_true_iff in Et as [[H1 H2]%andb_true_iff H3].
    apply Z.eqb_eq in H1, H2, H3. subst. by rewrite E.
  - change (find_group n' a' g' (with_levels s (networks s) _)) with (find_group n' a' g' s).
    destruct (this_group n' a' g' n a g) eqn:Et; [|done].
    unfold this_group in Et. apply andb_true_iff in Et as [[H1 H2]%andb_true_iff H3].
    apply Z.eqb_eq in H1, H2, H3. subst. by rewrite E.
Qed.

Lemma this_group_refl n a g : this_group n a g n a g = true.
Proof. unfold this_group. by rewrite !Z.eqb_refl. Qed.

Lemma known_level_byte n a g s grp : state_ok s -> find_group n a g s = Some grp -> byte_ok (level grp).
Proof.
  intros (Hn & _) H. unfold find_group in H.
  destruct (networks s !! n) as [net|] eqn:E1; [|done].
  destruct (Hn n net E1) as [_ Ha]. cbn in H.
  destruct (applications net !! a) as [app|] eqn:E2; [|done].
  destruct (Ha a app E2) as [_ Hg]. cbn in H. by destruct (Hg g grp H).
Qed.

(** ** Properties *)

(** A handler of a configured group sets its level, within a byte, and the level of
    no other group; the end of a ramp leaves every level as it was. *)
Theorem handlers_set_levels n g duration v source now s grp :
  state_ok s -> find_group n APPLICATION_ID g s = Some grp ->
  let after s' n' a' g' w :=
    get_group_level n' a' g' s' =
      if this_group n' a' g' n APPLICATION_ID g then w else get_group_level n' a' g' s in
  forall n' a' g',
    after (handle_on n g source now s).1 n' a' g' 255 /\
    after (handle_off n g source now s).1 n' a' g' 0 /\
    after (handle_ramp n g duration v source now s).1 n' a' g' (Z.max 0 (Z.min 255 v)) /\
    get_group_level n' a' g' (handle_terminate_ramp n g source now s).1 = get_group_level n' a' g' s.
Proof.
  intros Hok Hg after n' a' g'. unfold after, handle_on, handle_off, handle_ramp, handle_terminate_ramp.
  rewrite !level_set, Hg. do 3 (split; [done|]).
  destruct (this_group n' a' g' n APPLICATION_ID g) eqn:Et; [|done].
  unfold this_group in Et. apply andb_true_iff in Et as [[H1 H2]%andb_true_iff H3].
  apply Z.eqb_eq in H1, H2, H3. subst. unfold get_group_level. rewrite Hg.
  pose proof (known_level_byte _ _ _ _ _ Hok Hg) as H. unfold byte_ok in H. lia.
Qed.

(** A group that is not configured keeps its level in the quick table alone: the end
    of a ramp, which is to keep the level, sets it to zero, and reports success. *)
Theorem unknown_group_reset n g v source now s :
  find_group n APPLICATION_ID g s = None ->
  let s' := (handle_ramp n g 0 v source now s).1 in
  light_states s' !! g = Some (Z.max 0 (Z.min 255 v)) /\ get_status n g s' = 0 /\
  (handle_terminate_ramp n g source now s').2 = true /\
  light_states (handle_terminate_ramp n g source now s').1 !! g = Some 0.
Proof.
  intros Hg s'. assert (s' = with_levels s (networks s) (<[g := Z.max 0 (Z.min 255 v)]> (light_states s))) as ->.
  { unfold s', handle_ramp, set_group_level. by rewrite Hg. }
  assert (forall ls, find_group n APPLICATION_ID g (with_levels s (networks s) ls) = None) as Hf by done.
  unfold get_status, handle_terminate_ramp, set_group_level, get_group_level. rewrite !Hf.
  cbn. by rewrite !lookup_insert_eq.
Qed.
