(* ===== verification/Discovery.v ===== *)
(** * Bridges on the network: [esp32/discovery.py]

    The devices that [ESP32Discovery] makes of the services that the library zeroconf
    finds, and [/api/discover] of [web/server.py]. What zeroconf reports, and what it
    answers when it is asked about a service, are inputs. A text is its UTF-8. *)

From S2P Require Import Prelude Text Gateway.
From Stdlib Require Import String Ascii.
From stdpp Require Import strings options.

Local Open Scope string_scope.
Local Open Scope list_scope.
Local Open Scope Z_scope.

(** ** Devices *)

Definition CBUS_MDNS_SERVICE_TYPE : string := "_cbus._tcp.local.".

Record DiscoveredDevice := {
  device_name : string;
  device_host : string;
  device_port : Z;
  properties : list (string * string)
}.

(** [DiscoveredDevice.manual], [str(device)] *)
Definition manual (host : string) (port : Z) : DiscoveredDevice :=
  {| device_name := "manual-" +:+ host; device_host := host; device_port := port; properties := [] |}.

Definition device_str (d : DiscoveredDevice) : string :=
  device_name d +:+ " @ " +:+ device_host d +:+ ":" +:+ str_int (device_port d).

(** ** What zeroconf reports *)

Inductive state_change := Added | Removed | Updated.

(** A service as zeroconf knows it. A property may have no value. *)
Record service_info := {
  parsed_addresses : list string;
  info_port : option Z;
  info_properties : list (bytes * option bytes)
}.

(** A call of the handler, with the answer of [get_service_info]. *)
Record service_event := {
  service_name : string;
  change : state_change;
  info : result (option service_info)
}.

(** ** Discovery *)

(** [b.decode('utf-8', errors='replace')] *)
Definition text_replace (b : bytes) : string := text_of (decode_replace b).

(** [d[k] = v] *)
Fixpoint set_property (k v : string) (d : list (string * string)) : list (string * string) :=
  match d with
  | [] => [(k, v)]
  | (k', v') :: d => if String.eqb k' k then (k, v) :: d else (k', v') :: set_property k v d
  end.

(** The comprehension: a property without a value has nothing to decode. *)
Fixpoint decode_properties (l : list (bytes * option bytes)) (d : list (string * string))
    : result (list (string * string)) :=
  match l with
  | [] => Ok d
  | (k, Some v) :: l => decode_properties l (set_property (text_replace k) (text_replace v) d)
  | (_, None) :: _ => Raise AttributeError
  end.

(** [info.port or 10001] *)
Definition port_of (p : option Z) : Z :=
  match p with Some p => if p =? 0 then 10001 else p | None => 10001 end.

Definition _on_service_state_change (e : service_event) (devices : list DiscoveredDevice)
    : result (list DiscoveredDevice) :=
  match change e with
  | Added =>
      found ← info e;
      match found with
      | None => Ok devices
      | Some i =>
          match parsed_addresses i with
          | [] => Ok devices
          | host :: _ =>
              props ← decode_properties (info_properties i) [];
              Ok (devices ++
                  [{| device_name := str_remove ("." +:+ CBUS_MDNS_SERVICE_TYPE) 0 (service_name e);
                      device_host := host; device_port := port_of (info_port i); properties := props |}])
          end
      end
  | Removed | Updated => Ok devices
  end.

(** [discover]: an exception leaves the handler for zeroconf, which goes on. Without
    zeroconf there is nothing. *)
Definition discover (available : bool) (heard : list service_event) : list DiscoveredDevice :=
  if available then
    foldl (fun ds e => match _on_service_state_change e ds with Ok ds => ds | Raise _ => ds end) [] heard
  else [].

(** [_handle_discover] of the configuration server, for what [discover] returns. *)
Definition device_json (d : DiscoveredDevice) : json :=
  JObject [("name", JString (device_name d)); ("host", JString (device_host d));
           ("port", JInt (device_port d));
           ("properties", JObject (map (fun '(k, v) => (k, JString v)) (properties d)))].

Definition _handle_discover (devices : list DiscoveredDevice) : json := JArray (map device_json devices).

(** ** The reference: each report on its own *)

Definition announced (e : service_event) : option DiscoveredDevice :=
  match change e, info e with
  | Added, Ok (Some i) =>
      match parsed_addresses i, decode_properties (info_properties i) [] with
      | host :: _, Ok props =>
          Some {| device_name := str_remove ("." +:+ CBUS_MDNS_SERVICE_TYPE) 0 (service_name e);
                  device_host := host; device_port := port_of (info_port i); properties := props |}
      | _, _ => None
      end
  | _, _ => None
  end.

(** ** Lemmas *)

Lemma change_announced e ds :
  match _on_service_state_change e ds with Ok ds => ds | Raise _ => ds end =
  ds ++ option_list (announced e).
Proof.
  unfold _on_service_state_change, announced.
  destruct (change e); cbn [option_list]; rewrite ?app_nil_r; try done.
  destruct (info e) as [[i|]|x]; cbn; rewrite ?app_nil_r; try done.
  destruct (parsed_addresses i); cbn; rewrite ?app_nil_r; [done|].
  destruct (decode_properties _ _); cbn; by rewrite ?app_nil_r.
Qed.

Lemma discover_announced heard : discover true heard = omap announced heard.
Proof.
  unfold discover.
  assert (forall ds, foldl (fun ds e => match _on_service_state_change e ds with Ok ds => ds | Raise _ => ds end)
    ds heard = ds ++ omap announced heard) as Hall; [|apply Hall].
  induction heard as [|e heard IH]; intros ds; [by rewrite app_nil_r|].
  cbn [foldl]. rewrite change_announced, IH, <- app_assoc. f_equal.
  cbn [omap list_omap]. by destruct (announced e).
Qed.

(** A name of an instance, without a dot, is what is left of the name of the service. *)
Lemma str_remove_no_dot s t :
  str_in "." s = false -> str_remove (String "." t) 0 (s +:+ String "." t) = s.
Proof.
  induction s as [|c s IH]; intros H.
  - change ("" +:+ String "." t) with (String "." t). cbn [str_remove].
    pose proof (str_prefix_app (String "." t) "") as Hp. rewrite str_app_nil in Hp. rewrite Hp.
    cbn [String.length]. replace (S (String.length t) - 1)%nat with (String.length t) by lia.
    generalize (String "." t). intros p. clear. induction t as [|c t IH]; [done|exact IH].
  - cbn [str_in] in H. apply orb_false_iff in H as [Hc Hs].
    change (String c s +:+ String "." t) with (String c (s +:+ String "." t)).
    cbn [str_remove String.prefix].
    destruct (ascii_dec "." c) as [<-|]; [by rewrite Ascii.eqb_refl in Hc|].
    by rewrite IH.
Qed.

(** Properties whose keys differ, in UTF-8. *)
Definition utf8_properties (l : list (string * string)) : Prop :=
  Forall (fun '(k, v) => utf8 (txt k) = true /\ utf8 (txt v) = true) l /\ NoDup (map fst l).

Lemma set_property_new k v d : k ∉ map fst d -> set_property k v d = d ++ [(k, v)].
Proof.
  induction d as [|[k' v'] d IH]; [done|]. cbn [map fst set_property]. intros [Hk Hd]%not_elem_of_cons.
  destruct (String.eqb_spec k' k); [by subst|]. cbn. by rewrite IH.
Qed.

Lemma properties_decoded l d :
  Forall (fun '(k, v) => utf8 (txt k) = true /\ utf8 (txt v) = true) l -> NoDup (map fst (d ++ l)) ->
  decode_properties (map (fun '(k, v) => (txt k, Some (txt v))) l) d = Ok (d ++ l).
Proof.
  intros H. revert d. induction H as [|[k v] l [Hk Hv] _ IH]; intros d Hd; [by rewrite app_nil_r|].
  cbn [map decode_properties]. unfold text_replace.
  rewrite !decode_replace_id, !text_of_txt by done.
  assert (k ∉ map fst d) as Hn.
  { rewrite map_app in Hd. apply NoDup_app in Hd as (_ & Hd & _). intros Hi. apply (Hd k Hi).
    cbn. by left. }
  rewrite set_property_new by done. rewrite IH; [by rewrite <- app_assoc|].
  by rewrite <- app_assoc.
Qed.

(** ** Properties *)

(** A bridge that announces itself is found as it is: with the name of its instance,
    its first address, its port and its properties, whatever else is announced before
    and after. *)
Theorem announced_bridge_found before after name host others port props :
  str_in "." name = false -> 0 < port -> utf8_properties props ->
  discover true (before ++
      {| service_name := name +:+ "." +:+ CBUS_MDNS_SERVICE_TYPE; change := Added;
         info := Ok (Some {| parsed_addresses := host :: others; info_port := Some port;
                             info_properties := map (fun '(k, v) => (txt k, Some (txt v))) props |}) |}
      :: after) =
  discover true before ++
  {| device_name := name; device_host := host; device_port := port; properties := props |} ::
  discover true after.
Proof.
  intros Hn Hp [Hu Hd]. rewrite !discover_announced, omap_app. f_equal. cbn [omap list_omap].
  unfold announced at 1. cbn [change info parsed_addresses info_properties info_port service_name].
  rewrite (properties_decoded props []) by done. cbn [app port_of].
  destruct (Z.eqb_spec port 0); [lia|]. change ("." +:+ CBUS_MDNS_SERVICE_TYPE) with (String "." CBUS_MDNS_SERVICE_TYPE).
  by rewrite str_remove_no_dot.
Qed.

Lemma announced_bridge_found_witness :
  discover true [{| service_name := "hall._cbus._tcp.local."; change := Added;
    info := Ok (Some {| parsed_addresses := ["10.0.0.7"; "fe80::7"]; info_port := Some 10001;
      info_properties := [(txt "fw", Some (txt "1.2"))] |}) |}] =
  [{| device_name := "hall"; device_host := "10.0.0.7"; device_port := 10001;
      properties := [("fw", "1.2")] |}].
Proof.
  apply (announced_bridge_found [] [] "hall" "10.0.0.7" ["fe80::7"] 10001 [("fw", "1.2")]).
  - reflexivity.
  - reflexivity.
  - split; [|apply NoDup_singleton]. repeat constructor.
Defined.

(** A bridge with a property that has no value, which DNS-SD allows, is not found:
    the handler raises. *)
Theorem valueless_property_hides name i k l1 l2 before after :
  info_properties i = l1 ++ (k, None) :: l2 ->
  discover true (before ++ {| service_name := name; change := Added; info := Ok (Some i) |} :: after) =
  discover true before ++ discover true after.
Proof.
  intros Hi. rewrite !discover_announced, omap_app. f_equal. cbn [omap list_omap].
  unfold announced at 1. cbn [change info].
  assert (forall d, decode_properties (info_properties i) d = Raise AttributeError) as Hr.
  { rewrite Hi. clear. induction l1 as [|[k' [v|]] l1 IH]; intros d; [done|apply IH|done]. }
  rewrite Hr. by destruct (parsed_addresses i).
Qed.

Lemma valueless_property_hides_witness :
  discover true [{| service_name := "hall._cbus._tcp.local."; change := Added;
    info := Ok (Some {| parsed_addresses := ["10.0.0.7"]; info_port := Some 10001;
      info_properties := [(txt "pm", None)] |}) |}] = [].
Proof.
  apply (valueless_property_hides "hall._cbus._tcp.local."
    {| parsed_addresses := ["10.0.0.7"]; info_port := Some 10001; info_properties := [(txt "pm", None)] |}
    (txt "pm") [] [] [] []). reflexivity.
Defined.
