(* ===== verification/Esp32.v ===== *)
(** * Connections to a bridge: [cbus/esp32/connection.py]

    [ESP32Connection] over a transport ([transport/tcp.py], [transport/serial.py],
    see [Transport]), the protocols that connections create, and the loop of
    [daemon/cmqttd.py] that waits for a lost connection to come back. Protocols and
    futures are numbered in the order in which they are created: a connection, a
    transport and the daemon refer to them by number, as objects do. *)

From S2P Require Import Prelude Text PyDict Confirm Pci Gateway Transport.
From Stdlib Require Import String Ascii QArith.
From stdpp Require Import strings options.

Local Open Scope string_scope.
Local Open Scope list_scope.
Local Open Scope Z_scope.

(** ** Configurations

    The values come from options or from JSON, whose types nothing enforces. *)

Inductive ESP32ConnectionMode := WIFI | SERIAL.

(** The settings that both kinds of connection share. *)
Record settings := {
  reconnect : json;
  reconnect_interval : json;
  max_reconnect_attempts : json;
  connect_timeout : json;
  timesync_frequency : json;
  handle_clock_requests : json
}.

Record ESP32Config := {
  mode : ESP32ConnectionMode;
  host : json;
  port : json;
  device : json;
  baudrate : json;
  common : settings
}.

(** [ESP32Config.wifi], [ESP32Config.serial] *)
Definition wifi (host port : json) (s : settings) : ESP32Config :=
  {| mode := WIFI; host := host; port := port; device := JString ""; baudrate := JInt 9600;
     common := s |}.

Definition serial (device baudrate : json) (s : settings) : ESP32Config :=
  {| mode := SERIAL; host := JString "127.0.0.1"; port := JInt 10001; device := device;
     baudrate := baudrate; common := s |}.

(** [address.rsplit(':', 1)], when there is a colon. *)
Fixpoint rsplit_colon (s : string) : option (string * string) :=
  match s with
  | EmptyString => None
  | String c s' =>
      match rsplit_colon s' with
      | Some (a, b) => Some (String c a, b)
      | None => if Ascii.eqb c ":" then Some (EmptyString, s') else None
      end
  end.

(** [TCPTransportConfig.from_address], and the address of [--esp32-wifi]. *)
Definition from_address (address : string) : result (string * Z) :=
  match rsplit_colon address with
  | Some (h, p) => n ← int_of_str p; Ok (h, n)
  | None => Ok (address, 10001)
  end.

(** ** Protocols and futures *)

(** A [PCIProtocol] and the future that it resolves when its connection is lost. *)
Record instance := { client : pci; lost_future : nat }.

Record world := { instances : list instance; futures : list bool (* done *) }.

(** [loop.create_future()] *)
Definition create_future (w : world) : world * nat :=
  ({| instances := instances w; futures := futures w ++ [false] |}, length (futures w)).

(** The protocol factory: [_create_protocol] makes a new future, the one of the
    daemon takes the future it holds. *)
Definition create_protocol (fut : option nat) (w : world) : world * nat :=
  let '(w, f) := match fut with Some f => (w, f) | None => create_future w end in
  ({| instances := instances w ++ [{| client := pci_init; lost_future := f |}];
      futures := futures w |}, length (instances w)).

(** A change of protocol [i]. *)
Definition at_instance (i : nat) (f : instance -> instance) (w : world) : world :=
  {| instances := alter f i (instances w); futures := futures w |}.

Definition with_client (st : pci) (p : instance) : instance :=
  {| client := st; lost_future := lost_future p |}.

(** The connection of protocol [i] ends, once: [connection_lost], which resolves
    the future unless it is done. *)
Definition connection_lost (i : nat) (w : world) : world :=
  match instances w !! i with
  | Some p =>
      match _transport (client p) with
      | Some _ =>
          {| instances := <[i := with_client (pci_connection_lost (client p)) p]> (instances w);
             futures := <[lost_future p := true]> (futures w) |}
      | None => w
      end
  | None => w
  end.

(** ** [ESP32Connection] *)

Record esp32 := {
  _config : ESP32Config;
  ip_address : json;
  _protocol : option nat;
  link : transport;
  link_protocol : option nat (* [CBusTransport._protocol] *)
}.

Definition esp32_init (cfg : ESP32Config) : esp32 :=
  {| _config := cfg; ip_address := JString ""; _protocol := None; link := transport_init;
     link_protocol := None |}.

Definition with_transport (t : transport) (c : esp32) : esp32 :=
  {| _config := _config c; ip_address := ip_address c; _protocol := _protocol c; link := t;
     link_protocol := link_protocol c |}.

(** [connect] up to its wait; nothing when it is connected. *)
Definition esp32_connect_starts (c : esp32) : esp32 :=
  if is_connected (link c) then c else with_transport (connect_starts (link c)) c.

(** [connect] after its wait. The connection's own factory ([fut] is [None])
    remembers the protocol; the daemon has replaced it by its own. An attempt that
    fails makes no protocol. *)
Definition esp32_connect_ends (fut : option nat) (o : connect_outcome) (c : esp32) (w : world)
    : esp32 * world * ending :=
  let '(t, r) := connect_ends o (link c) in
  match o with
  | Established =>
      let '(w, i) := create_protocol fut w in
      ({| _config := _config c;
          ip_address := match mode (_config c) with WIFI => host (_config c) | SERIAL => ip_address c end;
          _protocol := match fut with None => Some i | Some _ => _protocol c end;
          link := t; link_protocol := Some i |},
       at_instance i (fun p => with_client (connection_made i (client p)) p) w, r)
  | _ => (with_transport t c, w, r)
  end.

(** [disconnect]. Closing the transport ends the protocol's connection, in a
    callback that runs next. *)
Definition esp32_disconnect (c : esp32) (w : world) : esp32 * world :=
  if bool_decide (_state (link c) = DISCONNECTED) then
    ({| _config := _config c; ip_address := ip_address c; _protocol := None; link := link c;
        link_protocol := link_protocol c |}, w)
  else
    let w :=
      match link_protocol c with
      | Some i => if _asyncio_transport (link c) then connection_lost i w else w
      | None => w
      end in
    ({| _config := _config c; ip_address := ip_address c; _protocol := None;
        link := disconnect (link c); link_protocol := None |}, w).

(** [transport_type], and [connection_info] with the mode added. *)
Definition transport_type (c : esp32) : string :=
  match mode (_config c) with WIFI => "tcp" | SERIAL => "serial" end.

Definition connection_info (c : esp32) : list (string * json) :=
  match mode (_config c) with
  | WIFI => [("type", JString "tcp"); ("host", host (_config c)); ("port", port (_config c));
             ("esp32_mode", JString "wifi")]
  | SERIAL => [("type", JString "serial"); ("device", device (_config c));
               ("baudrate", baudrate (_config c)); ("esp32_mode", JString "serial")]
  end.

(** ** The daemon *)

(** Where [_main] is: it awaits the future it holds, sleeps with [turns] turns of its
    loop after this one, or has left the loop. *)
Inductive phase := AwaitLost | Sleeping (turns : nat) | Stopped.

Record daemon := {
  conn : esp32;
  heap : world;
  future_holder : nat;
  userdata : option nat (* the protocol that the MQTT client and it are bound to *);
  where_ : phase
}.

(** [max_reconnect_attempts or 999] turns; the option is an integer. *)
Definition max_wait (c : esp32) : nat :=
  match max_reconnect_attempts (common (_config c)) with
  | JInt n => Z.to_nat (if n =? 0 then 999 else n)
  | _ => 0
  end.

(** The head of the inner loop, with [n] turns left. *)
Definition next_turn (n : nat) : phase := match n with O => Stopped | S n => Sleeping n end.

Definition with_where (ph : phase) (d : daemon) : daemon :=
  {| conn := conn d; heap := heap d; future_holder := future_holder d; userdata := userdata d;
     where_ := ph |}.

(** [await future_holder[0]] returns when the future is done. *)
Definition await_lost (d : daemon) : daemon :=
  match where_ d with
  | AwaitLost =>
      if default false (futures (heap d) !! future_holder d) then
        if truthy (reconnect (common (_config (conn d))))
        then with_where (next_turn (max_wait (conn d))) d
        else with_where Stopped d
      else d
  | _ => d
  end.

(** The sleep of the inner loop ends: what it does when the transport is connected
    is to hold a new future, and to bind the transport's protocol. *)
Definition sleep_ends (d : daemon) : daemon :=
  match where_ d with
  | Sleeping turns =>
      if is_connected (link (conn d)) then
        let '(w, f) := create_future (heap d) in
        let w :=
          match link_protocol (conn d) with
          | Some i => at_instance i (fun p => {| client := client p; lost_future := f |}) w
          | None => w
          end in
        await_lost {| conn := conn d; heap := w; future_holder := f;
                      userdata := link_protocol (conn d); where_ := AwaitLost |}
      else with_where (next_turn turns) d
  | _ => d
  end.

(** What can happen: a connection is lost, and then the future is looked at, or a
    sleep ends. *)
Inductive daemon_event := ConnectionLost (i : nat) | SleepEnds.

Definition daemon_step (d : daemon) (e : daemon_event) : daemon :=
  match e with
  | ConnectionLost i =>
      await_lost {| conn := conn d; heap := connection_lost i (heap d);
                    future_holder := future_holder d; userdata := userdata d; where_ := where_ d |}
  | SleepEnds => sleep_ends d
  end.

Definition run (events : list daemon_event) (d : daemon) : daemon := foldl daemon_step d events.

(** [_main], when the connection is established and the MQTT client entered. *)
Definition daemon_started (cfg : ESP32Config) : daemon :=
  let '(w, f) := create_future {| instances := []; futures := [] |} in
  let '(c, w, _) := esp32_connect_ends (Some f) Established (esp32_connect_starts (esp32_init cfg)) w in
  {| conn := c; heap := w; future_holder := f; userdata := link_protocol c; where_ := AwaitLost |}.

(** ** Lemmas *)

(** A protocol without a transport sends nothing: [_send] raises. *)
Lemma dead_client_silent calls t now st :
  _transport st = None ->
  let st' := start_send calls t now st in
  _transport st' = None /\ sends st' = sends st /\ written st' = written st.
Proof.
  intros H. unfold start_send. destruct calls as [|c rest]; [done|].
  destruct (_prepare_packet c t now (confs st)) as [[[confs' data] code]|]; [|done].
  change (_transport (with_confs st confs')) with (_transport st). by rewrite H.
Qed.

(** The daemon over the life of its only protocol: connected, lost and asleep, or
    bound to it again with a future that nobody resolves. *)
Record daemon_inv (d : daemon) : Prop := {
  inv_link : is_connected (link (conn d)) = true;
  inv_reconnect : truthy (reconnect (common (_config (conn d)))) = true;
  inv_turns : (0 < max_wait (conn d))%nat;
  inv_protocol : link_protocol (conn d) = Some 0%nat;
  inv_bound : userdata d = Some 0%nat;
  inv_states : exists p, instances (heap d) = [p] /\
    match where_ d with
    | AwaitLost => futures (heap d) !! future_holder d = Some false /\
                   (_transport (client p) <> None -> lost_future p = future_holder d)
    | Sleeping _ => _transport (client p) = None
    | Stopped => False
    end
}.

(** The connection is lost, and the daemon has bound its protocol again. *)
Definition stuck (d : daemon) : Prop :=
  where_ d = AwaitLost /\ futures (heap d) !! future_holder d = Some false /\
  exists p, instances (heap d) = [p] /\ _transport (client p) = None.

Lemma await_sleeps d :
  where_ d = AwaitLost -> futures (heap d) !! future_holder d = Some true ->
  truthy (reconnect (common (_config (conn d)))) = true -> (0 < max_wait (conn d))%nat ->
  exists n, await_lost d = with_where (Sleeping n) d.
Proof.
  intros Hw Hf Hr Hm. unfold await_lost. rewrite Hw, Hf, Hr. cbn [default from_option id].
  destruct (max_wait (conn d)) as [|n]; [lia|]. by exists n.
Qed.

Lemma await_waits d : futures (heap d) !! future_holder d = Some false -> await_lost d = d.
Proof. intros Hf. unfold await_lost. rewrite Hf. by destruct (where_ d). Qed.

Lemma await_elsewhere d : where_ d <> AwaitLost -> await_lost d = d.
Proof. unfold await_lost. by destruct (where_ d). Qed.

Definition dead (d : daemon) : Prop :=
  exists p, instances (heap d) = [p] /\ _transport (client p) = None.

(** A loss that changes nothing: of no protocol, or of one already lost. *)
Lemma connection_lost_none i p w :
  instances w = [p] -> i <> 0%nat \/ _transport (client p) = None -> connection_lost i w = w.
Proof.
  intros Hw H. unfold connection_lost. rewrite Hw. destruct i as [|i]; [|done].
  destruct H as [H|H]; [done|]. cbn. by rewrite H.
Qed.

Lemma connection_lost_first p w tr :
  instances w = [p] -> _transport (client p) = Some tr ->
  connection_lost 0 w =
    {| instances := [with_client (pci_connection_lost (client p)) p];
       futures := <[lost_future p := true]> (futures w) |}.
Proof. intros Hw Ht. unfold connection_lost. rewrite Hw. cbn. by rewrite Ht. Qed.

Lemma lost_step d i : daemon_inv d ->
  let d' := daemon_step d (ConnectionLost i) in
  daemon_inv d' /\ (i = 0%nat \/ dead d -> dead d').
Proof.
  intros [Hl Hr Hm Hp Hu (p & Hi & Hw)]. cbv zeta. cbn [daemon_step].
  set (d0 := {| conn := conn d; heap := connection_lost i (heap d); future_holder := future_holder d;
                userdata := userdata d; where_ := where_ d |}).
  destruct (decide (i <> 0%nat \/ _transport (client p) = None)) as [Hn|Hn].
  - assert (d0 = d) as ->.
    { unfold d0. rewrite (connection_lost_none i p) by done. by destruct d. }
    assert (await_lost d = d) as ->.
    { unfold await_lost. destruct (where_ d); [|done|done]. by destruct Hw as [-> _]. }
    split; [split; try done; by exists p|]. intros [->|?]; [|done].
    exists p. split; [done|]. by destruct Hn.
  - assert (i = 0%nat) as -> by (destruct (decide (i = 0%nat)); [done|tauto]).
    destruct (_transport (client p)) as [tr|] eqn:Ht; [|tauto].
    destruct (where_ d) as [|n|] eqn:Ew; [|done|done]. destruct Hw as [Hf Hlf].
    specialize (Hlf ltac:(done)).
    assert (futures (heap d0) !! future_holder d0 = Some true) as Hdone.
    { unfold d0. cbn [heap future_holder]. rewrite (connection_lost_first p _ tr) by done.
      cbn [futures]. rewrite Hlf. apply list_lookup_insert_eq. by apply lookup_lt_Some in Hf. }
    assert (instances (heap d0) = [with_client (pci_connection_lost (client p)) p]) as Hi0.
    { unfold d0. cbn [heap]. by rewrite (connection_lost_first p _ tr). }
    destruct (await_sleeps d0) as [n ->]; [done..|].
    split; [split; try done; by eexists|]. intros _. by eexists.
Qed.

Lemma sleep_step d : daemon_inv d ->
  daemon_inv (daemon_step d SleepEnds) /\ (dead d -> stuck (daemon_step d SleepEnds)).
Proof.
  intros [Hl Hr Hm Hp Hu (p & Hi & Hw)]. cbn [daemon_step]. unfold sleep_ends.
  destruct (where_ d) as [|n|] eqn:Ew; [| |done].
  - split; [split; try done; exists p; by rewrite Ew|]. intros Hd. by destruct Hw.
  - rewrite Hl, Hp. unfold create_future.
    rewrite await_waits by (cbn; by apply list_lookup_middle).
    unfold at_instance. cbn [instances futures]. rewrite Hi. cbn [alter list_alter].
    split.
    + split; try done. eexists. split; [reflexivity|]. split; [|done]. by apply list_lookup_middle.
    + intros _. split; [done|]. split; [by apply list_lookup_middle|]. by eexists.
Qed.

Lemma stuck_step d e : daemon_inv d -> stuck d -> daemon_step d e = d.
Proof.
  intros _ (Hw & Hf & p & Hi & Ht). destruct e as [i|]; cbn [daemon_step].
  - rewrite (connection_lost_none i p) by (try done; by right). rewrite await_waits by done.
    by destruct d.
  - unfold sleep_ends. by rewrite Hw.
Qed.

Lemma run_inv events d : daemon_inv d -> daemon_inv (run events d) /\ (dead d -> dead (run events d)).
Proof.
  revert d. induction events as [|e events IH]; intros d Hd; [done|]. cbn [run foldl].
  destruct e as [i|].
  - destruct (lost_step d i Hd) as [Hd' Hk]. destruct (IH _ Hd') as [? Hk']. split; [done|]. tauto.
  - destruct (sleep_step d Hd) as [Hd' Hk]. destruct (IH _ Hd') as [? Hk']. split; [done|].
    intros (_ & _ & Hs)%Hk. by apply Hk'.
Qed.

Lemma run_stuck events d : daemon_inv d -> stuck d -> run events d = d.
Proof.
  intros Hd Hs. unfold run. induction events as [|e events IH]; [done|]. cbn [foldl].
  by rewrite stuck_step.
Qed.

Lemma started_inv cfg :
  truthy (reconnect (common cfg)) = true -> (0 < max_wait (esp32_init cfg))%nat ->
  daemon_inv (daemon_started cfg).
Proof.
  intros Hr Hm. split; try done. eexists. split; [reflexivity|]. by split.
Qed.

(** ** Properties *)

(** C32. The daemon never recovers a lost connection to a bridge. With reconnection
    on, let the only connection be lost at some point, and let one sleep of the
    loop that waits for it end later, with anything before, between and after.
    Then the daemon awaits a future that nothing resolves, its MQTT client is bound
    to the protocol that lost its transport, no other protocol was ever created,
    and the transport still counts as connected; this is final, and whatever the
    MQTT client makes the protocol send is not sent. *)
Theorem lost_connection_final cfg before between after :
  truthy (reconnect (common cfg)) = true -> (0 < max_wait (esp32_init cfg))%nat ->
  let d := run (before ++ [ConnectionLost 0] ++ between ++ [SleepEnds]) (daemon_started cfg) in
  where_ d = AwaitLost /\ futures (heap d) !! future_holder d = Some false /\
  is_connected (link (conn d)) = true /\ run after d = d /\
  exists p, instances (heap d) = [p] /\ userdata d = Some 0%nat /\
    forall calls t now,
      let st := start_send calls t now (client p) in
      _transport st = None /\ sends st = sends (client p) /\ written st = written (client p).
Proof.
  intros Hr Hm d.
  assert (daemon_inv d /\ stuck d) as [Hd Hs].
  { unfold d, run. rewrite !foldl_app. cbn [foldl].
    pose proof (started_inv cfg Hr Hm) as H0.
    destruct (run_inv before _ H0) as [H1 _]. destruct (lost_step _ 0 H1) as [H2 K2].
    destruct (run_inv between _ H2) as [H3 K3]. destruct (sleep_step _ H3) as [H4 K4].
    split; [exact H4|]. apply K4, K3, K2. by left. }
  destruct (Hs) as (Hw & Hf & p & Hi & Ht). split; [done|]. split; [done|].
  split; [apply Hd|]. split; [by apply run_stuck|]. exists p. split; [done|].
  split; [apply Hd|]. intros calls t now. by apply dead_client_silent.
Qed.

Definition sample_settings : settings :=
  {| reconnect := JBool true; reconnect_interval := JInt 5; max_reconnect_attempts := JInt 0;
     connect_timeout := JInt 10; timesync_frequency := JInt 300; handle_clock_requests := JBool true |}.

Definition sample_config : ESP32Config := wifi (JString "10.0.0.1") (JInt 10001) sample_settings.

(** The connection is lost, and a sleep ends. *)
Example lost_connection_final_witness :
  let d := run ([] ++ [ConnectionLost 0] ++ [] ++ [SleepEnds]) (daemon_started sample_config) in
  where_ d = AwaitLost /\ futures (heap d) = [true; false] /\ is_connected (link (conn d)) = true /\
  run [SleepEnds; ConnectionLost 0] d = d.
Proof.
  assert (0 < max_wait (esp32_init sample_config))%nat as Hm by (apply Nat.ltb_lt; reflexivity).
  destruct (lost_connection_final sample_config [] [] [SleepEnds; ConnectionLost 0] eq_refl Hm)
    as (Hw & _ & Hc & Hr & _).
  split; [exact Hw|]. split; [reflexivity|]. split; [exact Hc|exact Hr].
Defined.

(** An address is read back: the port is what follows the last colon. *)
Lemma rsplit_colon_last h p :
  str_in ":" p = false -> rsplit_colon (h +:+ ":" +:+ p) = Some (h, p).
Proof.
  intros Hp. assert (rsplit_colon p = None) as Hn.
  { clear h. induction p as [|c p IH]; [done|]. cbn [str_in] in Hp.
    apply orb_false_iff in Hp as [Hc Hp]. cbn [rsplit_colon].
    rewrite (IH Hp), Ascii.eqb_sym. by rewrite Hc. }
  induction h as [|c h IH].
  - change (("" : string) +:+ ":" +:+ p) with (String ":" p). cbn [rsplit_colon]. by rewrite Hn.
  - change (String c h +:+ ":" +:+ p) with (String c (h +:+ ":" +:+ p)). cbn [rsplit_colon].
    by rewrite IH.
Qed.

Lemma from_address_port h p :
  str_in ":" p = false -> from_address (h +:+ ":" +:+ p) = (n ← int_of_str p; Ok (h, n)).
Proof. intros Hp. unfold from_address. by rewrite rsplit_colon_last. Qed.
