(* ===== verification/Startup.v ===== *)
(** * The daemon from its start to its end: [_main] of [daemon/cmqttd.py]

    What [_main] does with the options that [daemon/cli.py] parsed: the labels, the
    connection of its choice, the MQTT client, the wait, and the clean-up. Protocols,
    futures and the wait for a bridge are those of [Esp32]; the outcomes of what it
    awaits are inputs. *)

From S2P Require Import Prelude Text PyDict Confirm Pci Gateway Transport Esp32 Discovery.
From Stdlib Require Import String Ascii.
From stdpp Require Import strings options.

Local Open Scope string_scope.
Local Open Scope list_scope.
Local Open Scope Z_scope.

(** ** Options *)

(** The attributes of the namespace that [_main] reads, logging aside. *)
Record arguments := {
  opt_tcp : option string;
  opt_esp32_wifi : option string;
  opt_esp32_serial : option string;
  opt_esp32_discover : bool;
  opt_esp32_baudrate : Z;
  opt_esp32_reconnect_interval : Z;
  opt_esp32_max_reconnect : Z;
  opt_timesync : Z;
  opt_no_clock : bool;
  opt_project_file : bool;
  opt_broker_address : string;
  opt_broker_port : Z;
  opt_broker_keepalive : Z;
  opt_broker_disable_tls : bool;
  opt_broker_ca : option string;
  opt_broker_client_cert : option string;
  opt_broker_client_key : option string
}.

(** [if option.x:] of a text *)
Definition given (o : option string) : option string :=
  match o with Some s => if String.eqb s "" then None else Some s | None => None end.

(** [addr_host, addr_port = option.tcp.split(':', 1)] and [int(addr_port)] *)
Fixpoint split_once (s : string) : option (string * string) :=
  match s with
  | EmptyString => None
  | String c s' =>
      if Ascii.eqb c ":" then Some (EmptyString, s')
      else '(a, b) ← split_once s'; Some (String c a, b)
  end.

Definition tcp_address (address : string) : result (string * Z) :=
  '(h, p) ← or_raise ValueError (split_once address); n ← int_of_str p; Ok (h, n).

(** [common_kwargs], with the defaults of the other fields *)
Definition common_kwargs (o : arguments) : settings :=
  {| reconnect := JBool true; reconnect_interval := JInt (opt_esp32_reconnect_interval o);
     max_reconnect_attempts := JInt (opt_esp32_max_reconnect o); connect_timeout := JInt 10;
     timesync_frequency := JInt (opt_timesync o);
     handle_clock_requests := JBool (negb (opt_no_clock o)) |}.

(** ** How calls end *)

Inductive failure :=
| SystemExit (message : string)
| Interrupted (* KeyboardInterrupt or CancelledError *)
| Exception (e : exn)
| TransportError
| UnboundLocalError.

(** An awaited call of a library. *)
Inductive answer := Done | WasInterrupted | Failed (e : exn).

Record outcomes := {
  backup : result labels (* of [read_cbz_labels] *);
  devices : list DiscoveredDevice (* of [discover] *);
  tcp_outcome : answer (* of [create_connection] *);
  bridge_outcome : connect_outcome (* of the transport's attempt *);
  tls_outcome : result unit (* of making the context *);
  mqtt_outcome : answer (* of entering the library's client, which connects *);
  service : list daemon_event (* while it waits *);
  service_ends : option exn (* what ends the wait after these; [None]: it is interrupted *)
}.

(** ** The state of the coroutine *)

(** What the MQTT client is given: address, port, keep-alive, and the files of the
    context for TLS. *)
Record broker_call := {
  broker_address : string;
  broker_port : Z;
  keepalive : Z;
  tls : option (option string * option (string * option string))
}.

Record main_state := {
  heap : world;
  holder : nat (* the future of [future_holder] *);
  esp32_conn : option (option esp32) (* [None]: not assigned yet *);
  protocol : option nat;
  handler_labels : option labels;
  mqtt_client : option broker_call;
  broker_open : bool (* the library's client was entered and not left *);
  throttler_cleaned : bool;
  tasks_cancelled : bool
}.

Definition task (A : Type) : Type := main_state -> main_state * (failure + A).

#[export] Instance task_ret : MRet task := fun A a s => (s, inr a).
#[export] Instance task_bind : MBind task := fun A B f m s =>
  match m s with (s, inr a) => f a s | (s, inl e) => (s, inl e) end.

Definition raise {A} (e : failure) : task A := fun s => (s, inl e).
Definition of_result {A} (r : result A) : task A :=
  match r with Ok a => mret a | Raise e => raise (Exception e) end.
Definition of_answer (a : answer) : task unit :=
  match a with Done => mret tt | WasInterrupted => raise Interrupted | Failed e => raise (Exception e) end.
Definition modify (f : main_state -> main_state) : task unit := fun s => (f s, inr tt).
Definition gets {A} (f : main_state -> A) : task A := fun s => (s, inr (f s)).

Definition with_heap (w : world) (s : main_state) : main_state :=
  {| heap := w; holder := holder s; esp32_conn := esp32_conn s; protocol := protocol s;
     handler_labels := handler_labels s; mqtt_client := mqtt_client s; broker_open := broker_open s;
     throttler_cleaned := throttler_cleaned s; tasks_cancelled := tasks_cancelled s |}.

Definition with_conn (c : option esp32) (p : option nat) (s : main_state) : main_state :=
  {| heap := heap s; holder := holder s; esp32_conn := Some c; protocol := p;
     handler_labels := handler_labels s; mqtt_client := mqtt_client s; broker_open := broker_open s;
     throttler_cleaned := throttler_cleaned s; tasks_cancelled := tasks_cancelled s |}.

Definition with_labels (ls : option labels) (s : main_state) : main_state :=
  {| heap := heap s; holder := holder s; esp32_conn := esp32_conn s; protocol := protocol s;
     handler_labels := ls; mqtt_client := mqtt_client s; broker_open := broker_open s;
     throttler_cleaned := throttler_cleaned s; tasks_cancelled := tasks_cancelled s |}.

Definition with_broker (b : broker_call) (s : main_state) : main_state :=
  {| heap := heap s; holder := holder s; esp32_conn := esp32_conn s; protocol := protocol s;
     handler_labels := handler_labels s; mqtt_client := Some b; broker_open := broker_open s;
     throttler_cleaned := throttler_cleaned s; tasks_cancelled := tasks_cancelled s |}.

Definition with_broker_open (b : bool) (s : main_state) : main_state :=
  {| heap := heap s; holder := holder s; esp32_conn := esp32_conn s; protocol := protocol s;
     handler_labels := handler_labels s; mqtt_client := mqtt_client s; broker_open := b;
     throttler_cleaned := throttler_cleaned s; tasks_cancelled := tasks_cancelled s |}.

(** What the daemon of [Esp32] leaves. *)
Definition with_daemon (d : daemon) (s : main_state) : main_state :=
  {| heap := Esp32.heap d; holder := future_holder d; esp32_conn := Some (Some (conn d));
     protocol := userdata d; handler_labels := handler_labels s; mqtt_client := mqtt_client s; broker_open := broker_open s;
     throttler_cleaned := throttler_cleaned s; tasks_cancelled := tasks_cancelled s |}.

Definition with_cleaned (s : main_state) : main_state :=
  {| heap := heap s; holder := holder s; esp32_conn := esp32_conn s; protocol := protocol s;
     handler_labels := handler_labels s; mqtt_client := mqtt_client s; broker_open := broker_open s;
     throttler_cleaned := true; tasks_cancelled := true |}.

(** ** The steps of [_main] *)

Definition CERT_MESSAGE : string :=
  "To use client certificates, both --broker-client-cert (-k) and --broker-client-key (-K) must be specified.".
Definition NO_DEVICES : string := "No ESP32 C-Bus bridge devices found on the network".

Definition is_given (o : option string) : bool := match given o with Some _ => true | None => false end.

(** Up to the assignment of [esp32_conn]. *)
Definition read_options (o : arguments) (a : outcomes) : task unit :=
  ls ← (if opt_project_file o then ls ← of_result (backup a); mret (Some ls) else mret None);
  _ ← modify (with_labels ls);
  if bool_decide (is_given (opt_broker_client_cert o) = is_given (opt_broker_client_key o))
  then modify (with_conn None None) else raise (SystemExit CERT_MESSAGE).

(** A connection over TCP: the factory makes the protocol when it is established. *)
Definition connect_tcp (address : string) (a : outcomes) : task unit :=
  _ ← of_result (tcp_address address);
  _ ← of_answer (tcp_outcome a);
  s ← gets id;
  let '(w, i) := create_protocol (Some (holder s)) (heap s) in
  _ ← modify (with_heap (at_instance i (fun p => with_client (connection_made i (client p)) p) w));
  modify (with_conn None (Some i)).

(** The configuration of a bridge. *)
Definition bridge_config (o : arguments) (a : outcomes) : task ESP32Config :=
  if opt_esp32_discover o then
    match devices a with
    | [] => raise (SystemExit NO_DEVICES)
    | d :: _ => mret (wifi (JString (device_host d)) (JInt (device_port d)) (common_kwargs o))
    end
  else
    match given (opt_esp32_wifi o) with
    | Some address =>
        '(h, p) ← of_result (from_address address);
        mret (wifi (JString h) (JInt p) (common_kwargs o))
    | None =>
        mret (serial (JString (default "" (opt_esp32_serial o))) (JInt (opt_esp32_baudrate o))
                (common_kwargs o))
    end.

Definition connect_bridge (cfg : ESP32Config) (a : outcomes) : task unit :=
  s ← gets id;
  let '(c, w, r) :=
    esp32_connect_ends (Some (holder s)) (bridge_outcome a) (esp32_connect_starts (esp32_init cfg)) (heap s) in
  _ ← modify (fun s => with_conn (Some c) None (with_heap w s));
  match r with
  | Returned => modify (with_conn (Some c) (link_protocol c))
  | RaisedCancelled => raise Interrupted
  | RaisedTransportError => raise TransportError
  end.

Definition connect_network (o : arguments) (a : outcomes) : task unit :=
  match given (opt_tcp o) with
  | Some address => connect_tcp address a
  | None =>
      if is_given (opt_esp32_wifi o) || is_given (opt_esp32_serial o) || opt_esp32_discover o then
        cfg ← bridge_config o a; connect_bridge cfg a
      else mret tt
  end.

(** [option.broker_port or default] *)
Definition port_or (d p : Z) : Z := if p =? 0 then d else p.

Definition tls_options (o : arguments) (a : outcomes) : task broker_call :=
  if opt_broker_disable_tls o then
    mret {| broker_address := opt_broker_address o; broker_port := port_or 1883 (opt_broker_port o);
            keepalive := opt_broker_keepalive o; tls := None |}
  else
    _ ← of_result (tls_outcome a);
    mret {| broker_address := opt_broker_address o; broker_port := port_or 8883 (opt_broker_port o);
            keepalive := opt_broker_keepalive o;
            tls := Some (given (opt_broker_ca o),
                         (fun c => (c, opt_broker_client_key o)) <$> given (opt_broker_client_cert o)) |}.

Definition wait_ends (a : outcomes) : failure :=
  match service_ends a with Some e => Exception e | None => Interrupted end.

(** The wait: for the future, or the loop for a bridge that reconnects. *)
Definition lose (w : world) (e : daemon_event) : world :=
  match e with ConnectionLost i => Esp32.connection_lost i w | SleepEnds => w end.

Definition serve (a : outcomes) : task unit :=
  s ← gets id;
  match esp32_conn s with
  | Some (Some c) =>
      let d := run (service a) (await_lost {| conn := c; Esp32.heap := heap s; future_holder := holder s;
                                              userdata := protocol s; where_ := AwaitLost |}) in
      _ ← modify (with_daemon d);
      match where_ d with Stopped => mret tt | _ => raise (wait_ends a) end
  | _ =>
      let w := foldl lose (heap s) (service a) in
      _ ← modify (with_heap w);
      if default false (futures w !! holder s) then mret tt else raise (wait_ends a)
  end.

(** [MqttClient.__aenter__]: the library's client connects, the handler is bound, which
    fails when there is none, and the lights are published. When it fails the client
    is not left. *)
Definition enter_broker (a : outcomes) : task unit :=
  _ ← of_answer (mqtt_outcome a);
  _ ← modify (with_broker_open true);
  s ← gets id;
  match protocol s with
  | None => raise (Exception AttributeError)
  | Some _ => of_result (aenter (gateway_init (handler_labels s))).2
  end.

(** [async with mqtt_client]: [__aexit__] leaves the library's client, however the wait
    ended. *)
Definition in_broker (body : task unit) : task unit := fun s =>
  let '(s, r) := body s in (with_broker_open false s, r).

(** The body of the [try]. *)
Definition main_body (o : arguments) (a : outcomes) : task unit :=
  _ ← read_options o a;
  _ ← connect_network o a;
  b ← tls_options o a;
  _ ← modify (with_broker b);
  _ ← enter_broker a;
  in_broker (serve a).

(** The [finally]: it looks at [esp32_conn] first. Closing a transport ends its
    protocol's connection, in a callback that runs next. *)
Definition clean_up : task unit :=
  s ← gets id;
  match esp32_conn s with
  | None => raise UnboundLocalError
  | Some (Some c) =>
      let '(c, w) := esp32_disconnect c (heap s) in
      modify (fun s => with_cleaned (with_conn (Some c) (protocol s) (with_heap w s)))
  | Some None =>
      match protocol s with
      | Some i => modify (fun s => with_cleaned (with_heap (Esp32.connection_lost i (heap s)) s))
      | None => modify with_cleaned
      end
  end.

(** The [except] clauses. *)
Definition handled (r : failure + unit) : failure + unit :=
  match r with inl Interrupted | inl (Exception _) | inl TransportError => inr tt | _ => r end.

Definition main_init : main_state :=
  let '(w, f) := create_future {| instances := []; futures := [] |} in
  {| heap := w; holder := f; esp32_conn := None; protocol := None; handler_labels := None;
     mqtt_client := None; broker_open := false; throttler_cleaned := false; tasks_cancelled := false |}.

Definition _main (o : arguments) (a : outcomes) : main_state * (failure + unit) :=
  let '(s, r) := main_body o a main_init in
  match clean_up s with
  | (s, inr _) => (s, handled r)
  | (s, inl e) => (s, inl e)
  end.

(** ** Lemmas *)

(** *** Addresses *)

Lemma split_once_colon h p : str_in ":" h = false -> split_once (h +:+ ":" +:+ p) = Some (h, p).
Proof.
  induction h as [|c h IH]; intros H; [done|]. cbn [str_in] in H. apply orb_false_iff in H as [Hc Hh].
  change (String c h +:+ ":" +:+ p) with (String c (h +:+ ":" +:+ p)). cbn [split_once].
  assert (Ascii.eqb c ":" = false) as ->.
  { apply Ascii.eqb_neq. intros ->. by rewrite Ascii.eqb_refl in Hc. }
  by rewrite IH.
Qed.

(** What follows the first colon has the other colons. *)
Lemma split_once_first s a b : split_once s = Some (a, b) -> s = a +:+ ":" +:+ b.
Proof.
  revert a. induction s as [|c s IH]; intros a H; [done|]. cbn [split_once] in H.
  destruct (Ascii.eqb_spec c ":") as [->|]; [by injection H as <- <-|].
  destruct (split_once s) as [[a' b']|]; [|done]. injection H as <- <-.
  by rewrite (IH a').
Qed.

Lemma colon_split h p a b :
  split_once (h +:+ ":" +:+ p) = Some (a, b) -> str_in ":" h = true -> str_in ":" b = true.
Proof.
  revert a. induction h as [|c h IH]; intros a H Hc; [done|].
  change (String c h +:+ ":" +:+ p) with (String c (h +:+ ":" +:+ p)) in H.
  cbn [split_once str_in] in *. destruct (Ascii.eqb_spec c ":") as [->|Hn].
  - injection H as _ <-. rewrite str_in_app. change (":" +:+ p) with (String ":" p).
    cbn [str_in]. by rewrite Ascii.eqb_refl, orb_true_r.
  - destruct (split_once _) as [[a' b']|] eqn:E; [|done]. injection H as _ <-.
    apply (IH a'); [done|]. destruct (Ascii.eqb_spec ":" c); [congruence|done].
Qed.

Lemma str_lstrip_in c s : is_space c = false -> str_in c (str_lstrip s) = str_in c s.
Proof.
  intros Hc. induction s as [|x s IH]; [done|]. cbn [str_lstrip]. destruct (is_space x) eqn:Ex; [|done].
  rewrite IH. cbn [str_in]. destruct (Ascii.eqb_spec c x); [congruence|done].
Qed.

Lemma str_strip_in c s : is_space c = false -> str_in c (str_strip s) = str_in c s.
Proof.
  intros Hc. unfold str_strip.
  by rewrite !str_rev_in, str_lstrip_in, str_rev_in, str_lstrip_in, !orb_false_r by done.
Qed.

(** [int] refuses a text with a colon. *)
Lemma int_of_colon s : str_in ":" s = true -> int_of_str s = Raise ValueError.
Proof.
  intros H. rewrite <- (str_strip_in ":") in H by done. unfold int_of_str.
  destruct (take_sign (str_strip s)) as [negative rest] eqn:E.
  assert (str_in ":" rest = true) as Hr.
  { unfold take_sign in E. destruct (str_strip s) as [|c t]; [done|].
    cbn [str_in] in H. destruct (Ascii.eqb_spec c "-") as [->|]; [by injection E as _ <-|].
    destruct (Ascii.eqb_spec c "+") as [->|]; by injection E as _ <-. }
  destruct rest as [|c rest]; [done|].
  destruct (_ <? _)%nat; [done|]. destruct (digits_value 0 (String c rest)) as [v|] eqn:Ev; [|done].
  by rewrite (digits_free ":" _ _ _ Ev) in Hr.
Qed.

(** *** Pre- and postconditions of tasks *)

Definition triple {A} (P : main_state -> Prop) (m : task A) (Q : A -> main_state -> Prop)
    (E : failure -> main_state -> Prop) : Prop :=
  forall s, P s -> match m s with (s', inr x) => Q x s' | (s', inl e) => E e s' end.

Lemma triple_bind {A B} P (m : task A) Q (f : A -> task B) R E :
  triple P m Q E -> (forall x, triple (Q x) (f x) R E) -> triple P (m ≫= f) R E.
Proof.
  intros Hm Hf s Hs. specialize (Hm s Hs). unfold mbind, task_bind.
  destruct (m s) as [s' [e|x]]; [done|]. exact (Hf x s' Hm).
Qed.

Lemma triple_of_result {A} P (r : result A) E :
  (forall e s, P s -> r = Raise e -> E (Exception e) s) ->
  triple P (of_result r) (fun x s => P s /\ r = Ok x) E.
Proof. intros H s Hs. destruct r as [x|e]; [done|]. by apply H. Qed.

Lemma triple_of_answer P x E :
  (forall s, P s -> E Interrupted s) -> (forall e s, P s -> E (Exception e) s) ->
  triple P (of_answer x) (fun _ s => P s) E.
Proof. intros Hi He s Hs. destruct x; [done|by apply Hi|by apply He]. Qed.

(** *** The connections of a state *)

Definition closed (w : world) : Prop := Forall (fun p => _transport (client p) = None) (instances w).

(** At most one protocol, which what the clean-up will close holds, if it is open. *)
Definition held_by (w : world) (bridge : option esp32) (i : option nat) : Prop :=
  instances w = [] \/
  exists p, instances w = [p] /\
    match bridge with
    | None => i = Some 0%nat
    | Some c => link_protocol c = Some 0%nat /\ is_connected (link c) = true /\
                _asyncio_transport (link c) = true
    end.

Definition connections_held (s : main_state) : Prop :=
  match esp32_conn s with
  | None => instances (heap s) = []
  | Some bridge => held_by (heap s) bridge (protocol s)
  end.

Lemma closed_lost w p : instances w = [p] -> closed (Esp32.connection_lost 0 w).
Proof.
  intros Hw. unfold closed, Esp32.connection_lost. rewrite Hw. cbn.
  destruct (_transport (client p)) eqn:Et; cbn; [|rewrite Hw]; by repeat constructor.
Qed.

(** The loss of a connection, and any event of the wait, leave one protocol. *)
Lemma one_lost w p i :
  instances w = [p] -> exists p', instances (Esp32.connection_lost i w) = [p'].
Proof.
  intros Hw. unfold Esp32.connection_lost. rewrite Hw. destruct i as [|i]; [|by exists p].
  cbn. destruct (_transport (client p)); [by eexists|by exists p].
Qed.

Lemma none_lost w i : instances w = [] -> Esp32.connection_lost i w = w.
Proof. intros Hw. unfold Esp32.connection_lost. by rewrite Hw. Qed.

Lemma held_lose w b i e : held_by w b i -> held_by (lose w e) b i.
Proof.
  destruct e as [k|]; [|done]. intros [Hw|(p & Hw & H)]; cbn [lose].
  - left. by rewrite none_lost.
  - right. destruct (one_lost w p k Hw) as (p' & Hp'). by exists p'.
Qed.

Lemma await_same d : let d' := await_lost d in conn d' = conn d /\ Esp32.heap d' = Esp32.heap d.
Proof. unfold await_lost. by repeat case_match. Qed.

Lemma held_daemon d e i :
  held_by (Esp32.heap d) (Some (conn d)) i ->
  let d' := daemon_step d e in held_by (Esp32.heap d') (Some (conn d')) i.
Proof.
  intros H. destruct e as [k|]; cbn [daemon_step].
  - destruct (await_same {| conn := conn d; Esp32.heap := Esp32.connection_lost k (Esp32.heap d);
      future_holder := future_holder d; userdata := userdata d; where_ := where_ d |}) as [-> ->].
    exact (held_lose _ _ _ (ConnectionLost k) H).
  - unfold sleep_ends. destruct (where_ d); [exact H| |exact H].
    destruct (is_connected (link (conn d))); [|exact H]. cbn [create_future].
    set (w := match link_protocol (conn d) with Some _ => _ | None => _ end).
    destruct (await_same {| conn := conn d; Esp32.heap := w; future_holder := length (futures (Esp32.heap d));
      userdata := link_protocol (conn d); where_ := AwaitLost |}) as [-> ->]. cbn [conn Esp32.heap].
    destruct H as [Hw|(p & Hw & H)].
    + left. unfold w. destruct (link_protocol (conn d)); cbn; by rewrite Hw.
    + right. unfold w. destruct (link_protocol (conn d)) as [[|k]|]; cbn; rewrite Hw; eauto.
Qed.

Lemma held_run es d i :
  held_by (Esp32.heap d) (Some (conn d)) i ->
  held_by (Esp32.heap (run es d)) (Some (conn (run es d))) i.
Proof.
  revert d. induction es as [|e es IH]; intros d H; [done|]. apply (IH (daemon_step d e)).
  by apply held_daemon.
Qed.

(** *** The body *)

(** What keeps the body from assigning [esp32_conn]. *)
Definition bad_start (o : arguments) (a : outcomes) : Prop :=
  (opt_project_file o = true /\ exists e, backup a = Raise e) \/
  is_given (opt_broker_client_cert o) <> is_given (opt_broker_client_key o).

Definition no_devices (o : arguments) (a : outcomes) : Prop :=
  opt_esp32_discover o = true /\ devices a = [].

(** No connection to the network was asked for. *)
Definition no_network (o : arguments) : Prop :=
  given (opt_tcp o) = None /\
  is_given (opt_esp32_wifi o) || is_given (opt_esp32_serial o) || opt_esp32_discover o = false.

(** Past the options. *)
Definition running (o : arguments) (a : outcomes) (s : main_state) : Prop :=
  connections_held s /\ esp32_conn s <> None /\ throttler_cleaned s = false /\
  broker_open s = false.

(** The network is not connected yet. *)
Definition unconnected (o : arguments) (a : outcomes) (s : main_state) : Prop :=
  running o a s /\ esp32_conn s = Some None /\ instances (heap s) = [].

(** It is, if it was asked for. *)
Definition connected (o : arguments) (a : outcomes) (s : main_state) : Prop :=
  running o a s /\ (protocol s = None -> no_network o).

Definition body_fails (o : arguments) (a : outcomes) (e : failure) (s : main_state) : Prop :=
  throttler_cleaned s = false /\ connections_held s /\ e <> UnboundLocalError /\
  (esp32_conn s = None <-> bad_start o a) /\
  (esp32_conn s <> None -> forall m, e = SystemExit m -> no_devices o a /\ m = NO_DEVICES) /\
  (broker_open s = true -> no_network o).

Section body.
Context (o : arguments) (a : outcomes).

Lemma read_options_triple :
  triple (fun s => s = main_init) (read_options o a)
    (fun _ s => (unconnected o a s /\ protocol s = None) /\ ~ bad_start o a) (body_fails o a).
Proof.
  intros s ->. unfold read_options, mbind, task_bind, of_result, unconnected, running.
  destruct (opt_project_file o) eqn:Ep; [destruct (backup a) as [ls|x] eqn:Eb|]; cbn [mret task_ret raise modify].
  2: { repeat split; try done. by left; split; [|exists x]. }
  all: case_bool_decide as Hk; cbn.
  1, 3: split; [repeat split; try done; by left|];
    intros [(H1 & x & H2)|H1]; [congruence|done].
  all: repeat split; try done; intros _; by right.
Qed.

Hypothesis good : ~ bad_start o a.

Lemma running_fails e s :
  running o a s -> e <> UnboundLocalError ->
  (forall m, e = SystemExit m -> no_devices o a /\ m = NO_DEVICES) -> body_fails o a e s.
Proof using good.
  intros (Hh & Hc & Ht & Hb) He Hm. split; [done|]. split; [done|]. split; [done|].
  split; [by split; [intros H|intros H]|]. split; [intros _; exact Hm|]. by rewrite Hb.
Qed.

Lemma connect_tcp_triple address :
  triple (unconnected o a) (connect_tcp address a) (fun _ => connected o a) (body_fails o a).
Proof using good.
  eapply triple_bind.
  { apply triple_of_result. intros e s [H _] _. by apply running_fails. }
  intros x. eapply triple_bind.
  { apply triple_of_answer; [intros s [[H _] _]|intros e s [[H _] _]]; by apply running_fails. }
  intros _ s [(Hr & Hc & Hi) _].
  destruct Hr as (_ & _ & Ht). unfold mbind, task_bind, gets, modify, create_protocol. cbn. rewrite Hi. cbn.
  split; [|done]. split; [|done]. right. by eexists.
Qed.

Lemma bridge_config_triple :
  triple (unconnected o a) (bridge_config o a) (fun _ => unconnected o a) (body_fails o a).
Proof using good.
  unfold bridge_config. destruct (opt_esp32_discover o) eqn:Ed.
  { destruct (devices a) eqn:Ea; intros s Hs; [|done]. apply running_fails; [apply Hs|done|].
    intros m [= <-]. done. }
  destruct (given (opt_esp32_wifi o)) as [address|]; [|by intros s Hs].
  eapply triple_bind.
  { apply triple_of_result. intros e s [H _] _. by apply running_fails. }
  intros [h p] s [Hs _]. exact Hs.
Qed.

Lemma connect_bridge_triple cfg :
  triple (unconnected o a) (connect_bridge cfg a) (fun _ => connected o a) (body_fails o a).
Proof using good.
  intros s ((_ & _ & Ht) & Hc & Hi).
  unfold connect_bridge, mbind, task_bind, gets, modify, esp32_connect_ends, create_protocol. cbn.
  destruct (bridge_outcome a); cbn.
  - rewrite Hi. split; [|done]. split; [|done]. right. by eexists.
  - apply running_fails; [|done|done]. split; [by left|done].
  - apply running_fails; [|done|done]. split; [by left|done].
  - apply running_fails; [|done|done]. split; [by left|done].
Qed.

Lemma connect_network_triple :
  triple (fun s => unconnected o a s /\ protocol s = None) (connect_network o a)
    (fun _ => connected o a) (body_fails o a).
Proof using good.
  unfold connect_network. destruct (given (opt_tcp o)) as [address|] eqn:Et.
  { intros s [Hs _]. exact (connect_tcp_triple address s Hs). }
  destruct (_ || _) eqn:E; [|by intros s [[Hs _] _]; split].
  eapply triple_bind; [by intros s [Hs _]; exact (bridge_config_triple s Hs)|].
  intros cfg. apply connect_bridge_triple.
Qed.

Lemma tls_options_triple :
  triple (connected o a) (tls_options o a) (fun _ => connected o a) (body_fails o a).
Proof using good.
  unfold tls_options. destruct (opt_broker_disable_tls o); [by intros s Hs|].
  eapply triple_bind.
  { apply triple_of_result. intros e s [H _] _. by apply running_fails. }
  by intros [] s [Hs _].
Qed.

(** Entering fails with the broker's connection open only when there is no handler. *)
Lemma enter_broker_triple :
  triple (connected o a) (enter_broker a)
    (fun _ s => connections_held s /\ esp32_conn s <> None /\ throttler_cleaned s = false)
    (body_fails o a).
Proof using good.
  intros s [(Hh & Hc & Ht & Hb) Hn]. unfold enter_broker, mbind, task_bind.
  destruct (mqtt_outcome a); cbn [of_answer mret task_ret raise]; [|by apply running_fails..].
  unfold modify, gets. cbn [id protocol handler_labels with_broker_open].
  destruct (protocol s); [by rewrite aenter_works|].
  do 3 (split; [done|]). split; [by split; [intros H|intros H]|]. split; [done|]. intros _. by apply Hn.
Qed.

Lemma held_lost es w b i : held_by w b i -> held_by (foldl lose w es) b i.
Proof.
  revert w. induction es as [|e es IH]; intros w H; [done|]. cbn [foldl].
  by apply IH, held_lose.
Qed.

Definition serving (s : main_state) : Prop :=
  connections_held s /\ esp32_conn s <> None /\ throttler_cleaned s = false.

Lemma wait_ends_fails s : serving s -> body_fails o a (wait_ends a) (with_broker_open false s).
Proof using good.
  intros (Hh & Hc & Ht). split; [done|]. split; [done|].
  split; [by unfold wait_ends; destruct (service_ends a)|].
  split; [by split; [intros H|intros H]|]. split; [|done].
  intros _ m. unfold wait_ends. by destruct (service_ends a).
Qed.

Lemma serve_triple : triple serving (serve a) (fun _ => serving) (fun e s => serving s /\ e = wait_ends a).
Proof using Type.
  intros s (Hh & Hc & Ht). unfold serve, mbind, task_bind, gets, modify, connections_held in *. cbn [id].
  destruct (esp32_conn s) as [[c|]|] eqn:Ec; [| |done].
  - match goal with |- context [await_lost ?x] => set (d0 := x) end.
    set (d := run (service a) (await_lost d0)).
    assert (serving (with_daemon d s)) as Hd.
    { split; [|done]. apply (held_run (service a) (await_lost d0)).
      destruct (await_same d0) as [-> ->]. destruct Hh as [Hh|(p & Hp & H)]; [by left|by right; exists p]. }
    cbn. by destruct (where_ d).
  - assert (serving (with_heap (foldl lose (heap s) (service a)) s)) as Hd.
    { split; [|by rewrite <- Ec in Hc]. unfold connections_held. cbn. rewrite Ec. by apply held_lost. }
    cbn. by destruct (default _ _).
Qed.

Lemma in_broker_triple :
  triple serving (in_broker (serve a)) (fun _ s => serving s /\ broker_open s = false) (body_fails o a).
Proof using good.
  intros s Hs. unfold in_broker. pose proof (serve_triple s Hs) as H.
  destruct (serve a s) as [s' [e|x]]; [|by split]. destruct H as [H ->]. by apply wait_ends_fails.
Qed.
End body.

Lemma triple_pure {A} (phi : Prop) P (m : task A) Q E :
  (phi -> triple P m Q E) -> triple (fun s => P s /\ phi) m Q E.
Proof. intros H s [Hs Hp]. by apply H. Qed.

Lemma main_body_triple o a :
  triple (fun s => s = main_init) (main_body o a)
    (fun _ s => serving s /\ broker_open s = false /\ ~ bad_start o a) (body_fails o a).
Proof.
  unfold main_body. eapply triple_bind; [apply read_options_triple|]. intros u. cbv beta.
  apply triple_pure. intros good. eapply triple_bind; [by apply connect_network_triple|]. intros u1.
  eapply triple_bind; [by apply tls_options_triple|]. intros b.
  eapply (triple_bind _ _ (fun _ => connected o a)); [by intros s Hs|]. intros u2.
  eapply triple_bind; [by apply enter_broker_triple|]. intros u3 s Hs.
  pose proof (in_broker_triple o a good s Hs) as H.
  destruct (in_broker (serve a) s) as [s' [e|x]]; [exact H|]. destruct H. by split.
Qed.

(** *** A daemon that reaches its bridge *)

Lemma bridge_config_pure o a s : bridge_config o a s = (s, (bridge_config o a main_init).2).
Proof.
  unfold bridge_config, mbind, task_bind, of_result. destruct (opt_esp32_discover o).
  { by destruct (devices a). }
  destruct (given (opt_esp32_wifi o)); [|done]. by destruct (from_address s0) as [[h p]|e].
Qed.

Lemma bridge_config_common o a s s' cfg : bridge_config o a s = (s', inr cfg) -> common cfg = common_kwargs o.
Proof.
  unfold bridge_config, mbind, task_bind, of_result. destruct (opt_esp32_discover o).
  { destruct (devices a); [done|]. by intros [= _ <-]. }
  destruct (given (opt_esp32_wifi o)); [|by intros [= _ <-]].
  destruct (from_address s0) as [[h p]|e]; [|done]. by intros [= _ <-].
Qed.

Lemma bind_done {A B} (m : task A) (f : A -> task B) s s' v :
  m s = (s', inr v) -> (m ≫= f) s = f v s'.
Proof. intros H. unfold mbind, task_bind. by rewrite H. Qed.

(** It waits with the daemon of [Esp32]. *)
Definition waits_as (d : daemon) (s : main_state) : Prop :=
  esp32_conn s = Some (Some (conn d)) /\ heap s = Esp32.heap d /\ holder s = future_holder d /\
  protocol s = userdata d.

Lemma connect_established cfg a s :
  heap s = heap main_init -> holder s = holder main_init -> bridge_outcome a = Established ->
  exists s', connect_bridge cfg a s = (s', inr tt) /\ waits_as (daemon_started cfg) s'.
Proof.
  intros Hh Hf Ho. unfold connect_bridge, mbind, task_bind, gets, modify. cbn [id].
  rewrite Ho, Hh, Hf. by eexists.
Qed.

Lemma bridge_serves cfg o a s :
  waits_as (daemon_started cfg) s -> common cfg = common_kwargs o -> 0 <= opt_esp32_max_reconnect o ->
  exists s', serve a s = (s', inl (wait_ends a)).
Proof.
  intros (Hs & Hh & Hf & Hp) Hc Hm. unfold serve, mbind, task_bind, gets, modify. cbn [id].
  rewrite Hs, Hh, Hf, Hp.
  change (await_lost {| conn := conn (daemon_started cfg); Esp32.heap := _; future_holder := _;
    userdata := _; where_ := AwaitLost |}) with (daemon_started cfg).
  assert (daemon_inv (daemon_started cfg)) as Hd.
  { apply started_inv; [by rewrite Hc|]. unfold max_wait. cbn. rewrite Hc. cbn.
    destruct (Z.eqb_spec (opt_esp32_max_reconnect o) 0); lia. }
  destruct (run_inv (service a) _ Hd) as [[_ _ _ _ _ (p & _ & Hw)] _].
  destruct (where_ (run (service a) (daemon_started cfg))); [by eexists|by eexists|done].
Qed.

Lemma read_options_done o a :
  ~ bad_start o a ->
  exists s, read_options o a main_init = (s, inr tt) /\ heap s = heap main_init /\
    protocol s = None /\ esp32_conn s = Some None /\ holder s = holder main_init.
Proof.
  intros Hg. unfold read_options, mbind, task_bind, of_result.
  assert (is_given (opt_broker_client_cert o) = is_given (opt_broker_client_key o)) as Hk.
  { destruct (decide (is_given (opt_broker_client_cert o) = is_given (opt_broker_client_key o))); [done|].
    exfalso. apply Hg. by right. }
  rewrite (bool_decide_true _ Hk). destruct (opt_project_file o) eqn:Ep; [|by eexists].
  destruct (backup a) eqn:Eb; [by eexists|]. exfalso. apply Hg. left. by split; [|eexists].
Qed.

(** *** The clean-up *)

Lemma clean_up_closes s :
  connections_held s -> esp32_conn s <> None ->
  let s' := (clean_up s).1 in
  (clean_up s).2 = inr tt /\ closed (heap s') /\ throttler_cleaned s' = true /\ tasks_cancelled s' = true /\
  broker_open s' = broker_open s.
Proof.
  intros Hh Hc. unfold clean_up, mbind, task_bind, gets, modify, connections_held in *. cbn [id].
  destruct (esp32_conn s) as [[c|]|] eqn:Ec; [| |done].
  - destruct Hh as [Hw|(p & Hw & Hl & Hs & Hb)].
    + unfold esp32_disconnect. case_bool_decide; cbn; repeat split; unfold closed; try by rewrite Hw.
      destruct (link_protocol c); [|by rewrite Hw]. destruct (_asyncio_transport (link c)); [|by rewrite Hw].
      by rewrite none_lost, Hw.
    + unfold esp32_disconnect. rewrite bool_decide_false.
      2: { intros H. unfold is_connected in Hs. rewrite H in Hs. done. }
      rewrite Hl, Hb. cbn. repeat split. by apply (closed_lost _ p).
  - destruct Hh as [Hw|(p & Hw & Hp)].
    + destruct (protocol s); cbn; repeat split; unfold closed; [by rewrite none_lost, Hw|by rewrite Hw].
    + rewrite Hp. cbn. repeat split. by apply (closed_lost _ p).
Qed.

Lemma clean_up_unbound s : esp32_conn s = None -> clean_up s = (s, inl UnboundLocalError).
Proof. intros H. unfold clean_up, mbind, task_bind, gets. cbn [id]. by rewrite H. Qed.

(** ** Properties *)

(** Without a connection to the network the client of the broker is entered for no
    handler, which fails once the broker is connected: [_main] ends as if nothing had
    happened, and that connection is left open. *)
Lemma broker_left_open o a :
  ~ bad_start o a -> no_network o -> tls_outcome a = Ok tt -> mqtt_outcome a = Done ->
  let '(s, r) := _main o a in broker_open s = true /\ r = inr tt.
Proof.
  intros Hg [Ht Hb] Hs Hq. destruct (read_options_done o a Hg) as (s & E1 & Hh & Hp & Hc & _).
  assert (connect_network o a s = (s, inr tt)) as E2.
  { unfold connect_network. by rewrite Ht, Hb. }
  assert (exists b, tls_options o a s = (s, inr b)) as (b & E3).
  { unfold tls_options. destruct (opt_broker_disable_tls o); [by eexists|]. rewrite Hs. by eexists. }
  unfold _main, main_body. rewrite (bind_done _ _ _ _ _ E1), (bind_done _ _ _ _ _ E2), (bind_done _ _ _ _ _ E3).
  unfold enter_broker, modify, gets, mbind, task_bind. rewrite Hq.
  cbn [of_answer mret task_ret]. change (protocol (id _)) with (protocol s). rewrite Hp.
  cbn [raise]. unfold clean_up, mbind, task_bind, gets, modify.
  change (esp32_conn (id _)) with (esp32_conn s). change (protocol (id _)) with (protocol s).
  by rewrite Hc, Hp.
Qed.

(** C33. However the daemon goes, every protocol of a connection to the network is
    closed when [_main] ends, and the one to the broker too, unless no network was given:
    then entering the client of the broker fails after it connected. When the labels cannot
    be read or only one file of a client certificate is given, [_main] ends with the
    exception of its clean-up, which looks at a variable not assigned yet, and the
    throttler is not cleaned up. Otherwise the throttler is cleaned up, the tasks are
    cancelled and it ends without an exception, whatever failed, but for a discovery
    that found nothing, whose message it ends with. *)
Theorem main_ends o a :
  let '(s, r) := _main o a in
  closed (heap s) /\
  (broker_open s = true -> no_network o) /\
  (bad_start o a -> r = inl UnboundLocalError /\ throttler_cleaned s = false) /\
  (~ bad_start o a ->
    throttler_cleaned s = true /\ tasks_cancelled s = true /\
    (r = inr tt \/ (r = inl (SystemExit NO_DEVICES) /\ no_devices o a))).
Proof.
  unfold _main. pose proof (main_body_triple o a main_init eq_refl) as H.
  destruct (main_body o a main_init) as [s [e|[]]].
  - destruct H as (Ht & Hh & Hu & Hb & Hm & Ho). destruct (esp32_conn s) as [b|] eqn:Ec.
    + assert (~ bad_start o a) as Hn by (intros Hn%Hb; done).
      assert (esp32_conn s <> None) as Hc by congruence.
      pose proof (clean_up_closes s Hh Hc) as (Hr & Hcl & Hth & Hta & Hbr).
      destruct (clean_up s) as [s' r]. cbn in *. subst r. rewrite Hbr.
      split; [exact Hcl|]. split; [done|]. split; [done|]. intros _.
      split; [done|]. split; [done|]. destruct e; try (by left).
      right. destruct (Hm ltac:(done) _ eq_refl) as [Hd ->]. done.
    + assert (bad_start o a) as Hn by tauto. rewrite clean_up_unbound by done.
      split; [|by split; [|split; [|intros []]]]. unfold connections_held in Hh. rewrite Ec in Hh.
      unfold closed. by rewrite Hh.
  - destruct H as ((Hh & Hc & Ht) & Ho & Hn).
    pose proof (clean_up_closes s Hh Hc) as (Hr & Hcl & Hth & Hta & Hbr).
    destruct (clean_up s) as [s' r]. cbn in *. subst r. rewrite Hbr, Ho.
    split; [exact Hcl|]. split; [done|]. split; [done|]. intros _. split; [done|]. split; [done|]. by left.
Qed.

(** The address of [--tcp] is split at its first colon and that of [--esp32-wifi] at
    its last: both read the address and the port of a host without colons, and the
    first refuses an IPv6 address, which the second takes. *)
Theorem addresses_split h p :
  0 <= p < 2 ^ 64 ->
  from_address (h +:+ ":" +:+ str_int p) = Ok (h, p) /\
  tcp_address (h +:+ ":" +:+ str_int p) = (if str_in ":" h then Raise ValueError else Ok (h, p)).
Proof.
  intros Hp. assert (str_in ":" (str_int p) = false) as Hc.
  { unfold str_int. replace (p <? 0) with false by lia.
    apply (digits_free ":" 0 _ p); [|done]. apply str_nat_value. lia. }
  assert (int_of_str (str_int p) = Ok p) as Hi by (apply int_of_str_int; lia).
  split.
  - rewrite from_address_port, Hi by done. done.
  - unfold tcp_address. destruct (str_in ":" h) eqn:Hh.
    + destruct (split_once (h +:+ ":" +:+ str_int p)) as [[b c]|] eqn:E; [|done].
      cbn. rewrite int_of_colon; [done|]. by apply (colon_split h (str_int p) b).
    + rewrite split_once_colon by done. cbn. by rewrite Hi.
Qed.

Lemma addresses_split_witness :
  tcp_address "10.0.0.7:10001" = Ok ("10.0.0.7", 10001) /\ tcp_address "::1:10001" = Raise ValueError.
Proof.
  split.
  - exact (proj2 (addresses_split "10.0.0.7" 10001 ltac:(lia))).
  - exact (proj2 (addresses_split "::1" 10001 ltac:(lia))).
Defined.

(** A daemon that reached its bridge, and the broker does not end by itself: whatever its
    connection does, it waits until it is interrupted, and then it cleans up. *)
Theorem bridge_daemon_waits o a cfg :
  ~ bad_start o a -> given (opt_tcp o) = None ->
  is_given (opt_esp32_wifi o) || is_given (opt_esp32_serial o) || opt_esp32_discover o = true ->
  (bridge_config o a main_init).2 = inr cfg -> bridge_outcome a = Established ->
  tls_outcome a = Ok tt -> mqtt_outcome a = Done -> 0 <= opt_esp32_max_reconnect o ->
  (main_body o a main_init).2 = inl (wait_ends a) /\ (_main o a).2 = inr tt.
Proof.
  intros Hg Ht Hb Hc Ho Hs Hq Hm.
  assert ((main_body o a main_init).2 = inl (wait_ends a)) as E.
  { destruct (read_options_done o a Hg) as (s & E1 & Hh & Hf). unfold main_body.
    destruct Hf as (_ & _ & Hf).
    rewrite (bind_done _ _ _ _ _ E1). pose proof (bridge_config_pure o a s) as E2. rewrite Hc in E2.
    destruct (connect_established cfg a s Hh Hf Ho) as (s2 & E3 & Hw).
    assert (connect_network o a s = (s2, inr tt)) as E4.
    { unfold connect_network. by rewrite Ht, Hb, (bind_done _ _ _ _ _ E2). }
    rewrite (bind_done _ _ _ _ _ E4).
    assert (exists b, tls_options o a s2 = (s2, inr b)) as (b & E5).
    { unfold tls_options. destruct (opt_broker_disable_tls o); [by eexists|]. rewrite Hs. by eexists. }
    rewrite (bind_done _ _ _ _ _ E5), (bind_done (modify (with_broker b)) _ _ (with_broker b s2) tt) by done.
    set (s3 := with_broker_open true (with_broker b s2)).
    assert (enter_broker a (with_broker b s2) = (s3, inr tt)) as E6.
    { unfold enter_broker, modify, gets, mbind, task_bind. rewrite Hq. cbn [of_answer mret task_ret].
      fold s3. change (protocol (id s3)) with (protocol s2). destruct Hw as (_ & _ & _ & ->).
      cbn [userdata daemon_started]. by rewrite aenter_works. }
    rewrite (bind_done _ _ _ _ _ E6).
    pose proof (bridge_config_common _ _ _ _ _ E2) as Hk. unfold in_broker.
    by destruct (bridge_serves cfg o a s3 Hw Hk Hm) as (s4 & ->). }
  split; [exact E|]. pose proof (main_body_triple o a main_init eq_refl) as H. unfold _main.
  destruct (main_body o a main_init) as [s r]. cbn in E. subst r.
  destruct H as (_ & Hh & _ & Hn & _).
  destruct (clean_up_closes s Hh) as [Hr _]; [by intros Hx%Hn|].
  destruct (clean_up s) as [s' r]. cbn in Hr. subst r. cbn. unfold wait_ends.
  by destruct (service_ends a).
Qed.

Definition sample_arguments : arguments :=
  {| opt_tcp := None; opt_esp32_wifi := Some "10.0.0.7"; opt_esp32_serial := None;
     opt_esp32_discover := false; opt_esp32_baudrate := 9600; opt_esp32_reconnect_interval := 5;
     opt_esp32_max_reconnect := 0; opt_timesync := 300; opt_no_clock := false;
     opt_project_file := false; opt_broker_address := "broker"; opt_broker_port := 0;
     opt_broker_keepalive := 60; opt_broker_disable_tls := false; opt_broker_ca := None;
     opt_broker_client_cert := None; opt_broker_client_key := None |}.

Definition sample_outcomes : outcomes :=
  {| backup := Ok []; devices := []; tcp_outcome := Done; bridge_outcome := Established;
     tls_outcome := Ok tt; mqtt_outcome := Done; service := [ConnectionLost 0; SleepEnds];
     service_ends := None |}.

Lemma bridge_daemon_waits_witness :
  (_main sample_arguments sample_outcomes).2 = inr tt /\
  broker_port <$> mqtt_client (_main sample_arguments sample_outcomes).1 = Some 8883.
Proof.
  split; [|reflexivity].
  apply (bridge_daemon_waits sample_arguments sample_outcomes
    (wifi (JString "10.0.0.7") (JInt 10001) (common_kwargs sample_arguments))); try reflexivity.
  intros [[H _]|H]; [discriminate H|by apply H].
Defined.
