(* ===== verification/Toolkit.v ===== *)
(** * Backups of Toolkit: [cbus/toolkit/cbz.py]

    The classes of a backup and the reading of their objects from XML
    ([_Element.from_element]), the labels that the daemon takes from a backup
    ([read_cbz_labels] of [daemon/cmqttd.py]), and the summary of
    [toolkit/dump_labels.py]. The parsers of ZIP and XML are the standard library's
    and their results are inputs: the names of the files of an archive, and a tree
    of elements. *)

From S2P Require Import Prelude Text Clock Gateway.
From Stdlib Require Import String Ascii.
From stdpp Require Import strings options.

Local Open Scope string_scope.
Local Open Scope list_scope.
Local Open Scope Z_scope.

(** ** Texts *)

(** [s.lower()] below 256 *)
Definition lower_char (c : ascii) : ascii :=
  let n := Z.of_nat (nat_of_ascii c) in
  if ((65 <=? n) && (n <=? 90)) || ((0xc0 <=? n) && (n <=? 0xde) && negb (n =? 0xd7))
  then ascii_of_nat (Z.to_nat (n + 32)) else c.

Fixpoint str_lower (s : string) : string :=
  match s with EmptyString => EmptyString | String c s => String (lower_char c) (str_lower s) end.

(** [s.replace(c, '')] of one character *)
Fixpoint str_without (c : ascii) (s : string) : string :=
  match s with
  | EmptyString => EmptyString
  | String x s => if Ascii.eqb x c then str_without c s else String x (str_without c s)
  end.

Fixpoint lstrip_if (f : ascii -> bool) (s : string) : string :=
  match s with
  | String c s' => if f c then lstrip_if f s' else s
  | EmptyString => EmptyString
  end.

Definition rstrip_if (f : ascii -> bool) (s : string) : string :=
  str_rev (lstrip_if f (str_rev s "")) "".

(** [_Element._normalise_name] *)
Definition _normalise_name (name : string) : string :=
  rstrip_if (Ascii.eqb "s") (str_without "_" (str_lower name)).

(** ** Values of the standard library's types *)

Definition is_brace (c : ascii) : bool := Ascii.eqb c "{" || Ascii.eqb c "}".

(** [UUID(s)], as its number *)
Definition uuid_of (s : string) : result Z :=
  let hex := str_remove "uuid:" 0 (str_remove "urn:" 0 s) in
  let hex := str_without "-" (rstrip_if is_brace (lstrip_if is_brace hex)) in
  if negb (String.length hex =? 32)%nat then Raise ValueError
  else
    n ← int_base16 hex;
    if (0 <=? n) && (n <? 2 ^ 128) then Ok n else Raise ValueError.

(** A [datetime]; the offset of its zone is in microseconds. *)
Record datetime := {
  dt_date : Z * Z * Z;
  dt_time : Z * Z * Z * Z;
  dt_offset : option Z
}.

(** Exactly [n] digits. *)
Definition digits_of (n : nat) (s : string) : result Z :=
  if (String.length s =? n)%nat && forallb is_decimal (list_ascii_of_string s)
  then match digits_value 0 s with Some v => Ok v | None => Raise ValueError end
  else Raise ValueError.

Definition require_str (sep s : string) : result unit :=
  if String.eqb sep s then Ok tt else Raise ValueError.

Definition parse_date (s : string) : result (Z * Z * Z) :=
  if negb (String.length s =? 10)%nat then Raise ValueError
  else
    y ← digits_of 4 (substring 0 4 s); _ ← require_str "-" (substring 4 1 s);
    m ← digits_of 2 (substring 5 2 s); _ ← require_str "-" (substring 7 1 s);
    d ← digits_of 2 (substring 8 2 s);
    if (1 <=? y) && (1 <=? m) && (m <=? 12) && (1 <=? d) && (d <=? days_in_month y m)
    then Ok (y, m, d) else Raise ValueError.

(** The fraction of a second, of three or six digits. *)
Definition parse_fraction (s : string) : result Z :=
  match s with
  | EmptyString => Ok 0
  | String c frac =>
      _ ← require_str "." (String c EmptyString);
      if (String.length frac =? 3)%nat then n ← digits_of 3 frac; Ok (n * 1000)
      else digits_of 6 frac
  end.

(** [HH[:MM[:SS[.fff[fff]]]]] *)
Definition parse_hh_mm_ss_ff (s : string) : result (Z * Z * Z * Z) :=
  h ← digits_of 2 (substring 0 2 s);
  match str_drop 2 s with
  | EmptyString => Ok (h, 0, 0, 0)
  | String c1 _ as rest =>
      if negb (Ascii.eqb c1 ":") then Raise ValueError
      else
        m ← digits_of 2 (substring 1 2 rest);
        match str_drop 3 rest with
        | EmptyString => Ok (h, m, 0, 0)
        | String c2 _ as rest =>
            if negb (Ascii.eqb c2 ":") then Raise ValueError
            else
              sec ← digits_of 2 (substring 1 2 rest);
              us ← parse_fraction (str_drop 3 rest);
              Ok (h, m, sec, us)
        end
  end.

(** What is before the first sign of a zone, and the zone with its sign. *)
Fixpoint split_zone (s : string) : string * option (bool * string) :=
  match s with
  | EmptyString => (EmptyString, None)
  | String c s' =>
      if Ascii.eqb c "-" then (EmptyString, Some (true, s'))
      else if Ascii.eqb c "+" then (EmptyString, Some (false, s'))
      else let '(a, z) := split_zone s' in (String c a, z)
  end.

Definition micros (t : Z * Z * Z * Z) : Z :=
  let '(h, m, s, us) := t in ((h * 60 + m) * 60 + s) * 1000000 + us.

Definition parse_zone (negative : bool) (s : string) : result Z :=
  if existsb (Nat.eqb (String.length s)) [5; 8; 15]%nat then
    t ← parse_hh_mm_ss_ff s;
    if micros t <? 24 * 3600 * 1000000 then Ok (if negative then - micros t else micros t)
    else Raise ValueError
  else Raise ValueError.

Definition time_ok (t : Z * Z * Z * Z) : bool :=
  let '(h, m, s, _) := t in (h <? 24) && (m <? 60) && (s <? 60).

(** [datetime.fromisoformat], as of python 3.7 to 3.10. *)
Definition fromisoformat (s : string) : result datetime :=
  d ← parse_date (substring 0 10 s);
  if (String.length s =? 10)%nat then
    Ok {| dt_date := d; dt_time := (0, 0, 0, 0); dt_offset := None |}
  else
    let '(clock, zone) := split_zone (str_drop 11 s) in
    t ← parse_hh_mm_ss_ff clock;
    z ← match zone with
        | Some (negative, z) => o ← parse_zone negative z; Ok (Some o)
        | None => Ok None
        end;
    if time_ok t then Ok {| dt_date := d; dt_time := t; dt_offset := z |} else Raise ValueError.

(** ** Classes *)

Inductive cls :=
| PP | Interface | Unit | Level | Group | Application | Network | Project
| Installer | InstallationDetail | Installation.

(** The type of a field. *)
Inductive field_type :=
| TStr
| TInt
| TUuid
| TDatetime
| TClass (c : cls)
| TSequence (c : cls).

Definition base_cbz_element : list (string * field_type) := [("oid", TUuid)].

Definition base_network_element : list (string * field_type) :=
  base_cbz_element ++ [("tag_name", TStr); ("address", TInt); ("description", TStr)].

(** [dataclasses.fields(cls)] *)
Definition class_fields (c : cls) : list (string * field_type) :=
  match c with
  | PP => [("name", TStr); ("value", TStr)]
  | Interface => base_cbz_element ++ [("interface_type", TStr); ("interface_address", TStr)]
  | Unit =>
      base_network_element ++
      [("unit_type", TStr); ("unit_name", TStr); ("serial_number", TStr);
       ("firmware_version", TStr); ("catalog_number", TStr); ("pp", TSequence PP)]
  | Level => base_network_element ++ [("value", TInt)]
  | Group => base_network_element ++ [("levels", TSequence Level)]
  | Application => base_network_element ++ [("groups", TSequence Group)]
  | Network =>
      base_network_element ++
      [("network_number", TInt); ("interface", TClass Interface);
       ("applications", TSequence Application); ("units", TSequence Unit)]
  | Project =>
      base_cbz_element ++
      [("tag_name", TStr); ("address", TStr); ("description", TStr); ("network", TSequence Network)]
  | Installer => base_cbz_element ++ [("name", TStr)]
  | InstallationDetail =>
      base_cbz_element ++
      [("system_location", TStr); ("hardware_platform", TStr); ("hostname", TStr); ("os_name", TStr);
       ("os_version", TStr); ("hardware_location", TStr); ("installer", TClass Installer)]
  | Installation =>
      base_cbz_element ++
      [("db_version", TStr); ("version", TStr); ("modified", TDatetime);
       ("installation_detail", TClass InstallationDetail); ("project", TClass Project)]
  end.

(** The value of a field; an object has the fields of its class, in order. *)
#[warnings="-register-all"]
Inductive value :=
| VNone
| VStr (s : string)
| VInt (n : Z)
| VUuid (n : Z)
| VDatetime (d : datetime)
| VObject (c : cls) (fields : list (string * value))
| VList (l : list value).

(** [ElementTree.Element] *)
#[warnings="-register-all"]
Inductive element :=
| Element (tag : string) (attributes : list (string * string)) (text : option string)
    (children : list element).

Definition tag (e : element) : string := let 'Element t _ _ _ := e in t.
Definition attributes (e : element) : list (string * string) := let 'Element _ a _ _ := e in a.
Definition text (e : element) : option string := let 'Element _ _ t _ := e in t.
Definition children (e : element) : list element := let 'Element _ _ _ cs := e in cs.

(** ** [from_element] *)

Notation params := (list (string * value)).

(** [_new] *)
Definition _new (t : field_type) : value :=
  match t with TSequence _ => VList [] | _ => VNone end.

(** [fields[field_names.index(key)]] *)
Definition find_field (c : cls) (key : string) : option (string * field_type) :=
  List.find (fun '(n, _) => String.eqb (_normalise_name n) key) (class_fields c).

(** [params[name]], and its change: [params] has all the fields. *)
Definition set_param (name : string) (v : value) (ps : params) : params :=
  map (fun '(n, old) => (n, if String.eqb n name then v else old)) ps.

Definition append_param (name : string) (v : value) (ps : params) : params :=
  map (fun '(n, old) =>
    (n, if String.eqb n name
        then match old with VList l => VList (l ++ [v]) | _ => old end else old)) ps.

(** [field.type(value)] of an attribute: classes take more than one argument,
    [datetime] takes integers, and [Sequence] is abstract. *)
Definition attribute_value (t : field_type) (s : string) : result value :=
  match t with
  | TStr => Ok (VStr s)
  | TInt => VInt <$> int_text s
  | TUuid => VUuid <$> uuid_of s
  | TDatetime | TClass _ | TSequence _ => Raise TypeError
  end.

(** [child_type(child.text)] and [datetime.fromisoformat(child.text)]; the text of an
    empty element is [None], of which [str] makes a text. *)
Definition text_value (t : field_type) (text : option string) : result value :=
  match t, text with
  | TStr, Some s => Ok (VStr s)
  | TStr, None => Ok (VStr "None")
  | TInt, Some s => VInt <$> int_text s
  | TUuid, Some s => VUuid <$> uuid_of s
  | TDatetime, Some s => VDatetime <$> fromisoformat s
  | _, _ => Raise TypeError
  end.

Definition read_attribute (c : cls) (ps : params) (a : string * string) : result params :=
  match find_field c (_normalise_name (fst a)) with
  | None => Ok ps
  | Some (name, t) => v ← attribute_value t (snd a); Ok (set_param name v ps)
  end.

Fixpoint read_attributes (c : cls) (l : list (string * string)) (ps : params) : result params :=
  match l with [] => Ok ps | a :: l => ps ← read_attribute c ps a; read_attributes c l ps end.

(** [params[field.name]] is a list if and only if the type is a sequence. *)
Fixpoint from_element (c : cls) (e : element) : result value :=
  let 'Element _ attributes _ children := e in
  let read_child ps child :=
    let 'Element tag _ text _ := child in
    match find_field c (_normalise_name tag) with
    | None => Ok ps
    | Some (name, TSequence c') => v ← from_element c' child; Ok (append_param name v ps)
    | Some (name, TClass c') => v ← from_element c' child; Ok (set_param name v ps)
    | Some (name, t) => v ← text_value t text; Ok (set_param name v ps)
    end in
  let fix read_children l ps :=
    match l with [] => Ok ps | child :: l => ps ← read_child ps child; read_children l ps end in
  ps ← read_attributes c attributes (map (fun '(n, t) => (n, _new t)) (class_fields c));
  ps ← read_children children ps;
  Ok (VObject c ps).

(** ** [CBZ] *)

(** What [ZipFile(fh)] finds: an archive with files, or something else, given as a
    file with a name or not. *)
Inductive archive := Zip (names : list string) | NotZip (name : option string).

Inductive opened :=
| Member (name : string)
| PlainFile (name : string)
| CBZException
| NoName (* AttributeError *).

(** [CBZ.__init__] up to the parsing of XML: where the XML is. *)
Definition open_cbz (a : archive) : opened :=
  match a with
  | Zip [xml_filename] => if str_endswith ".xml" xml_filename then Member xml_filename else CBZException
  | Zip _ => CBZException
  | NotZip (Some name) => PlainFile name
  | NotZip None => NoName
  end.

(** ** Attributes of objects *)

Definition attr (name : string) (v : value) : result value :=
  match v with
  | VObject _ fields =>
      match List.find (fun '(n, _) => String.eqb n name) fields with
      | Some (_, v) => Ok v
      | None => Raise AttributeError
      end
  | _ => Raise AttributeError
  end.

(** [for x in v] *)
Definition elements (v : value) : result (list value) :=
  match v with VList l => Ok l | _ => Raise TypeError end.

Definition int_attr (name : string) (v : value) : result (option Z) :=
  x ← attr name v; Ok (match x with VInt n => Some n | _ => None end).

Definition str_attr (name : string) (v : value) : result (option string) :=
  x ← attr name v; Ok (match x with VStr s => Some s | _ => None end).

Definition list_attr (name : string) (v : value) : result (list value) := x ← attr name v; elements x.

(** ** Labels *)

(** [d[k] = v]; an address is an integer, or [None] when the element has none. *)
Fixpoint put {V} (k : option Z) (v : V) (d : list (option Z * V)) : list (option Z * V) :=
  match d with
  | [] => [(k, v)]
  | (k', v') :: d => if bool_decide (k' = k) then (k', v) :: d else (k', v') :: put k v d
  end.

Definition dict_of {V} (l : list (option Z * V)) : list (option Z * V) :=
  foldl (fun d '(k, v) => put k v d) [] l.

Definition group_labels : Type := list (option Z * option string).
Definition backup_labels : Type := list (option Z * (option string * group_labels)).

(** The argument [cbus_network_name]. *)
Inductive network_name := NoNetwork | NetworkText (s : string) | NetworkWords (l : list string).

Definition joined_name (n : network_name) : option string :=
  match n with
  | NoNetwork => None
  | NetworkText s => if String.eqb s "" then None else Some s
  | NetworkWords l =>
      let s := String.concat " " l in if String.eqb s "" then None else Some s
  end.

Fixpoint find_network (name : string) (l : list value) : result value :=
  match l with
  | [] => Raise ValueError
  | network :: l =>
      n ← str_attr "tag_name" network;
      if bool_decide (n = Some name) then Ok network else find_network name l
  end.

Definition group_item (g : value) : result (option Z * option string) :=
  a ← int_attr "address" g; t ← str_attr "tag_name" g; Ok (a, t).

Definition application_item (app_def : value) : result (option Z * (option string * group_labels)) :=
  groups ← list_attr "groups" app_def;
  gs ← mapM_result group_item groups;
  a ← int_attr "address" app_def; t ← str_attr "tag_name" app_def;
  Ok (a, (t, dict_of gs)).

(** [read_cbz_labels] of the root of the XML *)
Definition read_cbz_labels (root : element) (name : network_name) : result backup_labels :=
  installation ← from_element Installation root;
  project ← attr "project" installation;
  networks ← list_attr "network" project;
  chosen ← match joined_name name with
           | Some name => find_network name networks
           | None => match networks with [] => Raise ValueError | n :: _ => Ok n end
           end;
  applications ← list_attr "applications" chosen;
  dict_of <$> mapM_result application_item applications.

(** The labels as the gateway takes them, when every element has its texts. *)
Definition gateway_labels (l : backup_labels) : option labels :=
  mapM (fun '(a, (t, gs)) =>
    a ← a; t ← t;
    gs ← mapM (fun '(g, n) => g ← g; n ← n; Some (g, n)) gs;
    Some (a, (t, gs))) l.

(** ** The summary *)

Definition json_int (n : option Z) : json := match n with Some n => JInt n | None => JNull end.
Definition json_str (s : option string) : json := match s with Some s => JString s | None => JNull end.

(** A dict as [json.dump] writes it: its keys become texts. *)
Definition json_dict (d : list (option Z * json)) : json :=
  JObject (map (fun '(k, v) => (match k with Some n => str_int n | None => "null" end, v)) d).

(** [[int(c[2:], 16) for c in parameter.value.split(' ')]] *)
Definition parameter_groups (parameter : value) : result (list Z) :=
  n ← str_attr "name" parameter;
  if bool_decide (n = Some "GroupAddress") then
    v ← str_attr "value" parameter;
    match v with
    | Some v => let '(h, t) := str_split " " v in mapM_result (fun c => int_base16 (str_drop 2 c)) (h :: t)
    | None => Raise AttributeError
    end
  else Ok [].

Definition unit_channels (u : value) : result (list Z) :=
  pps ← list_attr "pp" u; (foldr app [] : list (list Z) -> list Z) <$> mapM_result parameter_groups pps.

Definition unit_entry (u : value) : result (option Z * json) :=
  channels ← unit_channels u;
  a ← int_attr "address" u; name ← str_attr "tag_name" u; unittype ← str_attr "unit_type" u;
  unitname ← str_attr "unit_name" u; serial ← str_attr "serial_number" u;
  catalog ← str_attr "catalog_number" u;
  Ok (a, JObject [("name", json_str name); ("address", json_int a); ("unittype", json_str unittype);
                  ("unitname", json_str unitname); ("serial", json_str serial);
                  ("catalog", json_str catalog); ("groups", JArray (map JInt channels))]).

Definition application_entry (app : value) : result (option Z * json) :=
  a ← int_attr "address" app; name ← str_attr "tag_name" app; description ← str_attr "description" app;
  groups ← list_attr "groups" app; gs ← mapM_result group_item groups;
  Ok (a, JObject [("name", json_str name); ("address", json_int a); ("description", json_str description);
                  ("groups", json_dict (map (fun '(k, n) => (k, json_str n)) (dict_of gs)))]).

Definition network_entry (network : value) : result (option Z * json) :=
  name ← str_attr "tag_name" network; a ← int_attr "address" network;
  number ← int_attr "network_number" network;
  applications ← list_attr "applications" network; aos ← mapM_result application_entry applications;
  units ← list_attr "units" network; us ← mapM_result unit_entry units;
  Ok (a, JObject [("name", json_str name); ("address", json_int a); ("networknumber", json_int number);
                  ("applications", json_dict (dict_of aos)); ("units", json_dict (dict_of us))]).

(** [main] of [dump_labels.py]: the value it writes. *)
Definition dump_labels (root : element) : result json :=
  installation ← from_element Installation root;
  project ← attr "project" installation;
  networks ← list_attr "network" project;
  nos ← mapM_result network_entry networks;
  Ok (json_dict (dict_of nos)).

(** ** The reference: an object field by field *)

(** An item of an element that belongs to a field: the field, its type, and the
    value that is read. *)
Definition item : Type := string * field_type * result value.

Definition attribute_item (c : cls) (a : string * string) : option item :=
  '(n, t) ← find_field c (_normalise_name (fst a)); Some (n, t, attribute_value t (snd a)).

Definition child_value (t : field_type) (child : element) : result value :=
  match t with
  | TSequence c' | TClass c' => from_element c' child
  | _ => text_value t (text child)
  end.

Definition child_item (c : cls) (child : element) : option item :=
  '(n, t) ← find_field c (_normalise_name (tag child)); Some (n, t, child_value t child).

Definition items (c : cls) (e : element) : list item :=
  omap (attribute_item c) (attributes e) ++ omap (child_item c) (children e).

Definition run_items (l : list item) : result (list (string * value)) :=
  mapM_result (fun '(n, _, r) => v ← r; Ok (n, v)) l.

Definition values_of (n : string) (l : list (string * value)) : list value :=
  omap (fun '(n', v) => if String.eqb n' n then Some v else None) l.

(** The last value of a field, or all of them. *)
Definition field_value (t : field_type) (vs : list value) : value :=
  match t with TSequence _ => VList vs | _ => default VNone (last vs) end.

Definition object_of (c : cls) (l : list (string * value)) : value :=
  VObject c (map (fun '(n, t) => (n, field_value t (values_of n l))) (class_fields c)).

(** ** Lemmas *)

Definition store (n : string) (t : field_type) (v : value) (ps : params) : params :=
  match t with TSequence _ => append_param n v ps | _ => set_param n v ps end.

(** Items one after the other. *)
Fixpoint store_items (l : list item) (ps : params) : result params :=
  match l with
  | [] => Ok ps
  | (n, t, r) :: l => v ← r; store_items l (store n t v ps)
  end.

Lemma store_items_app l1 l2 ps :
  store_items (l1 ++ l2) ps = (ps ← store_items l1 ps; store_items l2 ps).
Proof.
  revert ps. induction l1 as [|[[n t] r] l1 IH]; intros ps; [done|]. cbn [store_items app].
  destruct r as [v|]; [|done]. by rewrite !bind_Ok, IH.
Qed.

Lemma read_attributes_store c l ps :
  read_attributes c l ps = store_items (omap (attribute_item c) l) ps.
Proof.
  revert ps. induction l as [|a l IH]; intros ps; [done|]. cbn [read_attributes omap list_omap].
  unfold read_attribute, attribute_item at 1.
  destruct (find_field c (_normalise_name (fst a))) as [[n t]|]; [|by rewrite bind_Ok, IH].
  cbn [mbind option_bind store_items].
  destruct t; cbn [attribute_value]; try done.
  - rewrite !bind_Ok. apply IH.
  - destruct (int_text (snd a)); [|done]. apply IH.
  - destruct (uuid_of (snd a)); [|done]. apply IH.
Qed.

(** [from_element] reads the items in their order. *)
Lemma from_element_items c e :
  from_element c e =
    (ps ← store_items (items c e) (map (fun '(n, t) => (n, _new t)) (class_fields c));
     Ok (VObject c ps)).
Proof.
  destruct e as [t attrs tx chs]. unfold items. rewrite store_items_app. cbn [attributes children].
  rewrite <- read_attributes_store. cbn [from_element].
  destruct (read_attributes c attrs _) as [ps|]; [|done]. rewrite !bind_Ok. f_equal.
  revert ps. induction chs as [|child chs IH]; intros ps; [done|].
  destruct child as [t1 a1 tx1 ch1]. cbn [omap list_omap].
  unfold child_item at 1. cbn [tag].
  destruct (find_field c (_normalise_name t1)) as [[n ty]|]; [|apply IH].
  unfold child_value. cbn [mbind option_bind store_items text].
  destruct ty as [| | | |c'|c'];
    (match goal with |- context [?r ≫= _] => destruct r as [v|]; [|done] end);
    apply IH.
Qed.

Definition fields_of (c : cls) (l : list (string * value)) : params :=
  map (fun '(n, t) => (n, field_value t (values_of n l))) (class_fields c).

Lemma values_of_snoc n l n' v :
  values_of n (l ++ [(n', v)]) = values_of n l ++ (if String.eqb n' n then [v] else []).
Proof. unfold values_of. rewrite omap_app. cbn. by destruct (String.eqb n' n). Qed.

(** The names of the fields of a class are distinct. *)
Lemma field_names_distinct c n t t' : In (n, t) (class_fields c) -> In (n, t') (class_fields c) -> t = t'.
Proof.
  assert (NoDup (map fst (class_fields c))) as Hnd.
  { apply (bool_decide_unpack (NoDup _)). destruct c; vm_compute; exact I. }
  generalize (class_fields c), Hnd. clear Hnd. induction l as [|[m u] l IH]; [done|].
  cbn [map fst]. intros [Hm Hnd]%NoDup_cons. cbn [In].
  assert (forall u', In (m, u') l -> False) as Hno.
  { intros u' Hu. apply Hm. apply list_elem_of_In, in_map_iff. by exists (m, u'). }
  intros [H1|H1] [H2|H2]; [congruence|..|by apply IH].
  - injection H1 as -> ->. by apply Hno in H2.
  - injection H2 as -> ->. by apply Hno in H1.
Qed.

Lemma store_fields c n t v l :
  In (n, t) (class_fields c) -> store n t v (fields_of c l) = fields_of c (l ++ [(n, v)]).
Proof.
  intros Hin. unfold fields_of.
  assert (forall n' t', In (n', t') (class_fields c) ->
    (n', field_value t' (values_of n' (l ++ [(n, v)]))) =
    match t with
    | TSequence _ => (n', if String.eqb n' n
        then match field_value t' (values_of n' l) with
             | VList l => VList (l ++ [v]) | _ => field_value t' (values_of n' l) end
        else field_value t' (values_of n' l))
    | _ => (n', if String.eqb n' n then v else field_value t' (values_of n' l))
    end) as H.
  { intros n' t' Hin'. rewrite values_of_snoc, String.eqb_sym.
    destruct (String.eqb_spec n' n) as [->|Hne].
    - rewrite (field_names_distinct c n t' t Hin' Hin).
      destruct t; cbn [field_value]; by rewrite ?last_snoc.
    - rewrite app_nil_r. by destruct t. }
  unfold store, set_param, append_param.
  destruct t; rewrite map_map; apply map_ext_in; intros [n' t'] Hin'; symmetry; exact (H n' t' Hin').
Qed.

Lemma store_items_fields c l before :
  Forall (fun '(n, t, _) => In (n, t) (class_fields c)) l ->
  store_items l (fields_of c before) = (its ← run_items l; Ok (fields_of c (before ++ its))).
Proof.
  intros Hl. revert before. induction Hl as [|[[n t] r] l Hn Hl IH]; intros before.
  - cbn. by rewrite app_nil_r.
  - unfold run_items. cbn [store_items mapM_result]. destruct r as [v|]; [|done].
    rewrite !bind_Ok, store_fields, IH by done. fold (run_items l).
    destruct (run_items l) as [its|]; [|done]. rewrite !bind_Ok. by rewrite <- app_assoc.
Qed.

Lemma find_field_in c key n t :
  find_field c key = Some (n, t) -> In (n, t) (class_fields c) /\ _normalise_name n = key.
Proof. unfold find_field. intros [H1 H2]%find_some. by apply String.eqb_eq in H2. Qed.

Lemma items_fields c e : Forall (fun '(n, t, _) => In (n, t) (class_fields c)) (items c e).
Proof.
  unfold items. apply Forall_app. split; apply Forall_forall; intros [[n t] r].
  - rewrite list_elem_of_omap. intros (a & _ & Ha). unfold attribute_item in Ha.
    destruct (find_field c _) as [[n' t']|] eqn:E; [|done]. injection Ha as <- <- _.
    by apply find_field_in in E as [? _].
  - rewrite list_elem_of_omap. intros (a & _ & Ha). unfold child_item in Ha.
    destruct (find_field c _) as [[n' t']|] eqn:E; [|done]. injection Ha as <- <- _.
    by apply find_field_in in E as [? _].
Qed.

Lemma fields_of_nil c : fields_of c [] = map (fun '(n, t) => (n, _new t)) (class_fields c).
Proof. unfold fields_of. apply map_ext. by intros [n []]. Qed.

Lemma from_element_run c e :
  from_element c e = (its ← run_items (items c e); Ok (object_of c its)).
Proof.
  rewrite from_element_items, <- fields_of_nil, store_items_fields by apply items_fields.
  by destruct (run_items (items c e)).
Qed.

(** *** Attributes of an object that was read *)

Lemma normalised_distinct c n t n' t' :
  In (n, t) (class_fields c) -> In (n', t') (class_fields c) ->
  _normalise_name n = _normalise_name n' -> n = n' /\ t = t'.
Proof.
  assert (NoDup (map (fun '(n, _) => _normalise_name n) (class_fields c))) as Hnd.
  { apply (bool_decide_unpack (NoDup _)). destruct c; vm_compute; exact I. }
  generalize (class_fields c), Hnd. clear Hnd. induction l as [|[m u] l IH]; [done|].
  cbn [map]. intros [Hm Hnd]%NoDup_cons. cbn [In].
  assert (forall m' u', In (m', u') l -> _normalise_name m <> _normalise_name m') as Hno.
  { intros m' u' Hu E. apply Hm. rewrite E. apply list_elem_of_In, in_map_iff. by exists (m', u'). }
  intros [[= <- <-]|H1] [[= <- <-]|H2] E; [done|by apply Hno in H2|by apply Hno in H1|by apply IH].
Qed.

Lemma find_field_spec c n t key :
  In (n, t) (class_fields c) ->
  match find_field c key with
  | Some (n', t') => if String.eqb key (_normalise_name n) then n' = n /\ t' = t else n' <> n
  | None => String.eqb key (_normalise_name n) = false
  end.
Proof.
  intros Hin. destruct (find_field c key) as [[n' t']|] eqn:E.
  - apply find_field_in in E as [Hin' <-].
    destruct (String.eqb_spec (_normalise_name n') (_normalise_name n)) as [E|E].
    + by apply (normalised_distinct c n' t' n t).
    + by intros ->.
  - apply String.eqb_neq. intros ->. pose proof (find_none _ _ E (n, t) Hin) as H.
    cbn in H. by rewrite String.eqb_refl in H.
Qed.

(** The results of the items of a field. *)
Definition field_results (n : string) (t : field_type) (e : element) : list (result value) :=
  omap (fun a => if String.eqb (_normalise_name (fst a)) (_normalise_name n)
                 then Some (attribute_value t (snd a)) else None) (attributes e) ++
  omap (fun ch => if String.eqb (_normalise_name (tag ch)) (_normalise_name n)
                  then Some (child_value t ch) else None) (children e).

Definition results_of (n : string) (l : list item) : list (result value) :=
  omap (fun '(n', _, r) => if String.eqb n' n then Some r else None) l.

Lemma results_field c e n t :
  In (n, t) (class_fields c) -> results_of n (items c e) = field_results n t e.
Proof.
  intros Hin. unfold results_of, items, field_results. rewrite omap_app. f_equal.
  - induction (attributes e) as [|a l IH]; [done|]. cbn [omap list_omap].
    pose proof (find_field_spec c n t (_normalise_name (fst a)) Hin) as H. unfold attribute_item at 1.
    destruct (find_field c _) as [[n' t']|]; cbn [mbind option_bind].
    + destruct (String.eqb (_normalise_name (fst a)) _).
      * destruct H as [-> ->]. cbn [omap list_omap]. by rewrite String.eqb_refl, IH.
      * cbn [omap list_omap]. apply String.eqb_neq in H. by rewrite H, IH.
    + by rewrite H, IH.
  - induction (children e) as [|a l IH]; [done|]. cbn [omap list_omap].
    pose proof (find_field_spec c n t (_normalise_name (tag a)) Hin) as H. unfold child_item at 1.
    destruct (find_field c _) as [[n' t']|]; cbn [mbind option_bind].
    + destruct (String.eqb (_normalise_name (tag a)) _).
      * destruct H as [-> ->]. cbn [omap list_omap]. by rewrite String.eqb_refl, IH.
      * cbn [omap list_omap]. apply String.eqb_neq in H. by rewrite H, IH.
    + by rewrite H, IH.
Qed.

Lemma run_items_results l its n :
  run_items l = Ok its -> mapM_result id (results_of n l) = Ok (values_of n its).
Proof.
  revert its. induction l as [|[[n' t] r] l IH]; intros its.
  - by intros [= <-].
  - change (run_items ((n', t, r) :: l)) with (y ← (v ← r; Ok (n', v)); ys ← run_items l; Ok (y :: ys)).
    destruct r as [v|]; [|done]. rewrite !bind_Ok.
    destruct (run_items l) as [its'|]; [|done]. intros [= <-].
    specialize (IH its' eq_refl). unfold results_of, values_of in *. cbn [omap list_omap].
    destruct (String.eqb n' n); [|exact IH]. cbn [mapM_result id]. by rewrite bind_Ok, IH.
Qed.

(** An attribute of an object that was read. *)
Lemma attr_read c e v n t :
  from_element c e = Ok v -> In (n, t) (class_fields c) ->
  exists vs, mapM_result id (field_results n t e) = Ok vs /\ attr n v = Ok (field_value t vs).
Proof.
  rewrite from_element_run. intros Hv Hin.
  destruct (run_items (items c e)) as [its|] eqn:E; [|done]. injection Hv as <-.
  exists (values_of n its). split.
  - rewrite <- (results_field c) by done. by apply run_items_results.
  - unfold attr, object_of.
    destruct (List.find _ _) as [[n' v]|] eqn:Ef.
    + apply find_some in Ef as [Hm He%String.eqb_eq]. subst n'.
      apply in_map_iff in Hm as ([n' t'] & [= -> <-] & Hin').
      by rewrite (field_names_distinct c n t' t Hin' Hin).
    + pose proof (find_none _ _ Ef (n, field_value t (values_of n its))) as H. cbn in H.
      rewrite String.eqb_refl in H. discriminate H. apply in_map_iff. by exists (n, t).
Qed.

(** *** The reference: queries by path *)

(** The texts under a name: of attributes, then of children. *)
Definition texts (key : string) (e : element) : list (option string) :=
  omap (fun a => if String.eqb (_normalise_name (fst a)) key then Some (Some (snd a)) else None)
    (attributes e) ++
  omap (fun ch => if String.eqb (_normalise_name (tag ch)) key then Some (text ch) else None)
    (children e).

Definition objects (key : string) (e : element) : list element :=
  List.filter (fun ch => String.eqb (_normalise_name (tag ch)) key) (children e).

Definition str_query (key : string) (e : element) : option string :=
  default "None" <$> last (texts key e).

Definition int_query (key : string) (e : element) : option Z :=
  match last (texts key e) with
  | Some (Some s) => match int_text s with Ok n => Some n | Raise _ => None end
  | _ => None
  end.

Lemma texts_results n t e :
  (forall s, attribute_value t s = text_value t (Some s)) ->
  (forall ch, child_value t ch = text_value t (text ch)) ->
  field_results n t e = map (text_value t) (texts (_normalise_name n) e).
Proof.
  intros Ha Hc. unfold field_results, texts. rewrite map_app. f_equal.
  - induction (attributes e) as [|a l IH]; [done|]. cbn [omap list_omap].
    destruct (String.eqb _ _); [|done]. cbn [map]. by rewrite Ha, IH.
  - induction (children e) as [|a l IH]; [done|]. cbn [omap list_omap].
    destruct (String.eqb _ _); [|done]. cbn [map]. by rewrite Hc, IH.
Qed.

Lemma mapM_id_map {A B} (f : A -> result B) l : mapM_result id (map f l) = mapM_result f l.
Proof. induction l as [|x l IH]; [done|]. cbn [map mapM_result]. by rewrite IH. Qed.

Lemma mapM_last {A B} (f : A -> result B) l ys :
  mapM_result f l = Ok ys ->
  match last l with
  | Some x => exists y, last ys = Some y /\ f x = Ok y
  | None => last ys = None
  end.
Proof.
  revert ys. induction l as [|x l IH]; intros ys; cbn [mapM_result]; [by intros [= <-]|].
  destruct (f x) as [y|] eqn:Ex; [|done]. destruct (mapM_result f l) as [ys'|]; [|done].
  intros [= <-]. specialize (IH ys' eq_refl). destruct l as [|x' l].
  - destruct ys' as [|y' ys']; [by exists y|].
    rewrite last_cons in IH. by destruct (last ys').
  - rewrite last_cons_cons. destruct (last (x' :: l)) as [z|] eqn:El.
    + destruct IH as (w & Hw & Hz). exists w. split; [|done]. rewrite last_cons. by rewrite Hw.
    + by apply last_None in El.
Qed.

Lemma str_attr_read c e v n :
  from_element c e = Ok v -> In (n, TStr) (class_fields c) ->
  str_attr n v = Ok (str_query (_normalise_name n) e).
Proof.
  intros Hv Hin. destruct (attr_read c e v n TStr Hv Hin) as (vs & Hvs & Ha).
  unfold str_attr. rewrite Ha, bind_Ok. f_equal. cbn [field_value].
  rewrite texts_results, mapM_id_map in Hvs by done. apply mapM_last in Hvs. unfold str_query.
  destruct (last (texts _ e)) as [[s|]|]; [| |by rewrite Hvs];
    destruct Hvs as (y & -> & [= <-]); done.
Qed.

Lemma int_attr_read c e v n :
  from_element c e = Ok v -> In (n, TInt) (class_fields c) ->
  int_attr n v = Ok (int_query (_normalise_name n) e).
Proof.
  intros Hv Hin. destruct (attr_read c e v n TInt Hv Hin) as (vs & Hvs & Ha).
  unfold int_attr. rewrite Ha, bind_Ok. f_equal. cbn [field_value].
  rewrite texts_results, mapM_id_map in Hvs by done. apply mapM_last in Hvs. unfold int_query.
  destruct (last (texts _ e)) as [[s|]|]; [| |by rewrite Hvs]; destruct Hvs as (y & -> & Hy); [|done].
  cbn [text_value] in Hy. destruct (int_text s) as [m|]; [|done]. by injection Hy as <-.
Qed.

(** The children of a field with objects. *)
Lemma object_results c' n t e vs :
  t = TSequence c' \/ t = TClass c' ->
  mapM_result id (field_results n t e) = Ok vs ->
  mapM_result (from_element c') (objects (_normalise_name n) e) = Ok vs.
Proof.
  intros Ht. unfold field_results, objects.
  induction (attributes e) as [|a l IH]; cbn [omap list_omap app].
  - revert vs. induction (children e) as [|ch l IH]; intros vs; [done|].
    cbn [omap list_omap List.filter]. destruct (String.eqb _ _); [|apply IH].
    cbn [mapM_result id]. replace (child_value t ch) with (from_element c' ch) by by destruct Ht as [-> | ->].
    destruct (from_element c' ch) as [v|]; [|done]. rewrite !bind_Ok.
    destruct (mapM_result id _) as [vs'|]; [|done]. by rewrite (IH vs' eq_refl).
  - destruct (String.eqb _ _); [|exact IH]. cbn [mapM_result id app].
    by destruct Ht as [-> | ->].
Qed.

Lemma list_attr_read c e v n c' :
  from_element c e = Ok v -> In (n, TSequence c') (class_fields c) ->
  exists vs, mapM_result (from_element c') (objects (_normalise_name n) e) = Ok vs /\
    list_attr n v = Ok vs.
Proof.
  intros Hv Hin. destruct (attr_read c e v n _ Hv Hin) as (vs & Hvs & Ha). exists vs.
  split; [by apply (object_results c' n (TSequence c')); [left|]|].
  unfold list_attr. by rewrite Ha.
Qed.

Lemma class_attr_read c e v n c' :
  from_element c e = Ok v -> In (n, TClass c') (class_fields c) ->
  match last (objects (_normalise_name n) e) with
  | Some e' => exists v', from_element c' e' = Ok v' /\ attr n v = Ok v'
  | None => attr n v = Ok VNone
  end.
Proof.
  intros Hv Hin. destruct (attr_read c e v n _ Hv Hin) as (vs & Hvs & Ha).
  apply (object_results c') in Hvs; [|by right]. apply mapM_last in Hvs.
  rewrite Ha. cbn [field_value]. destruct (last _) as [e'|]; [|by rewrite Hvs].
  destruct Hvs as (y & -> & Hy). by exists y.
Qed.

(** The labels of a tree, by path. *)
Definition group_query (g : element) : option Z * option string :=
  (int_query "addre" g, str_query "tagname" g).

Definition application_query (a : element) : option Z * (option string * group_labels) :=
  (int_query "addre" a, (str_query "tagname" a, dict_of (map group_query (objects "group" a)))).

Definition network_query (name : network_name) (networks : list element) : option element :=
  match joined_name name with
  | Some name => List.find (fun n => bool_decide (str_query "tagname" n = Some name)) networks
  | None => head networks
  end.

Definition labels_query (root : element) (name : network_name) : result backup_labels :=
  match last (objects "project" root) with
  | None => Raise AttributeError
  | Some project =>
      match network_query name (objects "network" project) with
      | None => Raise ValueError
      | Some network => Ok (dict_of (map application_query (objects "application" network)))
      end
  end.

(** Queries over a list of elements whose objects were read. *)
Lemma mapM_read {A} c (f : value -> result A) (q : element -> A) l vs :
  (forall e v, from_element c e = Ok v -> f v = Ok (q e)) ->
  mapM_result (from_element c) l = Ok vs -> mapM_result f vs = Ok (map q l).
Proof.
  intros Hf. revert vs. induction l as [|e l IH]; intros vs; cbn [mapM_result map]; [by intros [= <-]|].
  destruct (from_element c e) as [v|] eqn:Ev; [|done].
  destruct (mapM_result (from_element c) l) as [vs'|]; [|done]. intros [= <-].
  cbn [mapM_result]. by rewrite (Hf e v Ev), !bind_Ok, (IH vs' eq_refl).
Qed.

Lemma group_read e v : from_element Group e = Ok v -> group_item v = Ok (group_query e).
Proof.
  intros Hv. unfold group_item.
  rewrite (int_attr_read Group e v "address"), (str_attr_read Group e v "tag_name") by (done || cbn; tauto).
  done.
Qed.

Lemma application_read e v :
  from_element Application e = Ok v -> application_item v = Ok (application_query e).
Proof.
  intros Hv. unfold application_item.
  destruct (list_attr_read Application e v "groups" Group Hv) as (vs & Hvs & ->); [cbn; tauto|].
  rewrite bind_Ok, (mapM_read Group _ group_query _ vs) by (done || apply group_read).
  rewrite bind_Ok, (int_attr_read Application e v "address"), (str_attr_read Application e v "tag_name")
    by (done || cbn; tauto).
  done.
Qed.

Lemma find_network_read name l vs :
  mapM_result (from_element Network) l = Ok vs ->
  match List.find (fun n => bool_decide (str_query "tagname" n = Some name)) l with
  | Some n => exists v, from_element Network n = Ok v /\ find_network name vs = Ok v
  | None => find_network name vs = Raise ValueError
  end.
Proof.
  revert vs. induction l as [|e l IH]; intros vs; cbn [mapM_result List.find]; [by intros [= <-]|].
  destruct (from_element Network e) as [v|] eqn:Ev; [|done].
  destruct (mapM_result (from_element Network) l) as [vs'|]; [|done]. intros [= <-].
  cbn [find_network]. rewrite (str_attr_read Network e v "tag_name"), bind_Ok by (done || cbn; tauto).
  change (_normalise_name "tag_name") with "tagname".
  case_bool_decide; [by exists v|]. by apply IH.
Qed.

(** ** Properties *)

(** An element is read field by field. Whatever the order of its attributes and
    children, the code's loop gives each field of the class the last value among
    the attributes and the children whose normalised name is the field's, or all of
    them, in order, for a field that is a list; items that belong to no field are
    ignored, and the first item in the document that cannot be converted decides
    the exception. *)
Theorem elements_read_by_field c e :
  from_element c e =
    (its ← run_items (items c e);
     Ok (VObject c (map (fun '(n, t) => (n, field_value t (values_of n its))) (class_fields c)))).
Proof. apply from_element_run. Qed.

(** C28. The labels that the daemon takes from a backup are those of the document.
    When the XML is read, they are what queries by path give: of the last [project],
    the first [network] with the given name (or the first), for each [application]
    its address, name, and the addresses and names of each [group], later entries
    replacing earlier ones with the same address; without a project or network the
    code raises, as the query does. *)
Theorem labels_by_path root name v :
  from_element Installation root = Ok v -> read_cbz_labels root name = labels_query root name.
Proof.
  intros Hv. unfold read_cbz_labels, labels_query. rewrite Hv, bind_Ok.
  pose proof (class_attr_read Installation root v "project" Project Hv ltac:(cbn; tauto)) as Hp.
  change (_normalise_name "project") with "project" in Hp.
  destruct (last (objects "project" root)) as [project|]; [|by rewrite Hp].
  destruct Hp as (pv & Hpv & ->). rewrite bind_Ok.
  destruct (list_attr_read Project project pv "network" Network Hpv) as (ns & Hns & ->); [cbn; tauto|].
  change (_normalise_name "network") with "network" in Hns. rewrite bind_Ok.
  assert (match network_query name (objects "network" project) with
    | Some n => exists nv, from_element Network n = Ok nv /\
        match joined_name name with
        | Some name => find_network name ns
        | None => match ns with [] => Raise ValueError | n :: _ => Ok n end
        end = Ok nv
    | None => match joined_name name with
        | Some name => find_network name ns
        | None => match ns with [] => Raise ValueError | n :: _ => Ok n end
        end = Raise ValueError end) as Hn.
  { unfold network_query. destruct (joined_name name) as [s|]; [by apply find_network_read|].
    destruct (objects "network" project) as [|n l]; [by injection Hns as <-|]. cbn [head].
    cbn [mapM_result] in Hns. destruct (from_element Network n) as [nv|]; [|done].
    destruct (mapM_result _ l); [|done]. injection Hns as <-. by exists nv. }
  destruct (network_query name _) as [n|]; [|by rewrite Hn].
  destruct Hn as (nv & Hnv & ->). rewrite bind_Ok.
  destruct (list_attr_read Network n nv "applications" Application Hnv) as (vs & Hvs & ->);
    [cbn; tauto|].
  rewrite bind_Ok, (mapM_read Application _ application_query _ vs) by (done || apply application_read).
  done.
Qed.

(** [fixtures/project.xml] of [rust-migration-harness], of which [generate_vectors.py]
    says what its labels are. *)
Definition leaf (tag text : string) : element := Element tag [] (Some text) [].

Definition node (tag oid : string) (children : list element) : element :=
  Element tag [("oid", "00000000-0000-0000-0000-" +:+ oid)] (Some " ") children.

Definition fixture_group (oid name address : string) : element :=
  node "Group" oid [leaf "TagName" name; leaf "Address" address; leaf "Description" ("ga " +:+ address)].

Definition fixture_networks : list element :=
  [node "Network" "000000000005"
     [leaf "TagName" "Harness Network"; leaf "Address" "254"; leaf "Description" "Fixture network";
      leaf "NetworkNumber" "1";
      node "Interface" "000000000006"
        [leaf "InterfaceType" "CNI"; leaf "InterfaceAddress" "127.0.0.1:10001"];
      node "Application" "000000000007"
        [leaf "TagName" "Lighting"; leaf "Address" "56"; leaf "Description" "Default lighting application";
         fixture_group "000000000008" "Kitchen Bench" "1"; fixture_group "000000000009" "Lounge" "10"];
      node "Application" "00000000000a"
        [leaf "TagName" "Lighting 48"; leaf "Address" "48";
         leaf "Description" "Alternate lighting application 0x30";
         fixture_group "00000000000b" "Deck" "11"]]].

Definition fixture : element :=
  node "Installation" "000000000001"
    [leaf "DBVersion" "1"; leaf "Version" "1.0.0"; leaf "Modified" "2026-07-20T00:00:00";
     node "Project" "000000000004"
       (leaf "TagName" "HARNESS" :: leaf "Address" "1" ::
        leaf "Description" "Fixture project for rust migration harness" :: fixture_networks)].

Definition fixture_labels : labels :=
  [(0x38, ("Lighting", [(1, "Kitchen Bench"); (10, "Lounge")])); (0x30, ("Lighting 48", [(11, "Deck")]))].

Example labels_by_path_witness :
  exists v l, from_element Installation fixture = Ok v /\
    read_cbz_labels fixture (NetworkWords ["Harness"; "Network"]) = Ok l /\
    labels_query fixture (NetworkWords ["Harness"; "Network"]) = Ok l /\
    gateway_labels l = Some fixture_labels.
Proof.
  destruct (from_element Installation fixture) as [v|e] eqn:Ev; [|vm_compute in Ev; discriminate Ev].
  destruct (labels_query fixture (NetworkWords ["Harness"; "Network"])) as [l|e] eqn:El;
    [|vm_compute in El; discriminate El].
  exists v, l. split; [reflexivity|].
  split; [rewrite (labels_by_path fixture (NetworkWords ["Harness"; "Network"]) v Ev); exact El|].
  split; [reflexivity|]. vm_compute in El. injection El as <-. reflexivity.
Defined.

(** An element without text, as Toolkit writes for an unknown serial number, is read
    as the text "None". *)
Example empty_text_is_none :
  (v ← from_element Unit (Element "Unit" [] None
     [leaf "OID" "8a058147-d1c5-43f6-8408-c7b4ad3a5021"; leaf "TagName" "n254_u250";
      leaf "Address" "250"; Element "SerialNumber" [] None []]);
   str_attr "serial_number" v) = Ok (Some "None").
Proof. by vm_compute. Qed.

(** A repeated space in the addresses of a unit stops the summary. *)
Example repeated_space_stops :
  parameter_groups (VObject PP [("name", VStr "GroupAddress"); ("value", VStr "0x30 0xff")]) = Ok [0x30; 0xff] /\
  parameter_groups (VObject PP [("name", VStr "GroupAddress"); ("value", VStr "0x30  0xff")]) = Raise ValueError.
Proof. by vm_compute. Qed.
