(* ===== verification/EmulatorLog.v ===== *)
(** * The command log of the emulated bridge

    The entries that [esp32/emulator/device.py] keeps of the lines it was sent, and
    what [/api/logs] of [web/server.py] shows of them. An entry is filled in as its
    line is handled; the handling itself is in [Emulator]. *)

From S2P Require Import Prelude Common Hex Text Gateway Emulator.
From Stdlib Require Import String.
From stdpp Require Import strings options.

Local Open Scope string_scope.
Local Open Scope list_scope.
Local Open Scope Z_scope.

(** ** Entries *)

(** The values of ["type"], with the other keys of each. *)
Inductive kind :=
| Unknown | Reset | Null | SmartConnect | DeviceManagementCal | DeviceManagement | CbusCommand
| PpCal (u : Z) | StatusRequested | ClockUpdate | BareDmCal
| LightingOn (group : Z) | LightingOff (group : Z) | LightingTerminateRamp (group : Z)
| LightingRamp (group level : Z).

Record entry := { raw : bytes; entry_kind : kind }.

Definition type_text (k : kind) : string :=
  match k with
  | Unknown => "unknown" | Reset => "reset" | Null => "null" | SmartConnect => "smart_connect"
  | DeviceManagementCal => "device_management_cal" | DeviceManagement => "device_management"
  | CbusCommand => "cbus_command" | PpCal _ => "pp_cal" | StatusRequested => "status_request"
  | ClockUpdate => "clock_update" | BareDmCal => "bare_dm_cal" | LightingOn _ => "lighting_on"
  | LightingOff _ => "lighting_off" | LightingTerminateRamp _ => "lighting_terminate_ramp"
  | LightingRamp _ _ => "lighting_ramp"
  end.

(** [entry.get("group")] and [entry.get("level")] *)
Definition entry_group (k : kind) : option Z :=
  match k with
  | LightingOn g | LightingOff g | LightingTerminateRamp g | LightingRamp g _ => Some g
  | _ => None
  end.

Definition entry_level (k : kind) : option Z :=
  match k with LightingRamp _ l => Some l | _ => None end.

(** What [_handle_lighting] writes to the entry. *)
Definition lighting_kind (packet_bytes : bytes) : kind :=
  let cmd_type := default 0 (packet_bytes !! 3%nat) in
  let group_addr := default 0 (packet_bytes !! 4%nat) in
  if cmd_type =? 0x79 then LightingOn group_addr
  else if cmd_type =? 0x01 then LightingOff group_addr
  else if cmd_type =? 0x09 then LightingTerminateRamp group_addr
  else if (0x02 <=? cmd_type) && (cmd_type <=? 0x7a) then
    LightingRamp group_addr (default 255 (packet_bytes !! 5%nat))
  else CbusCommand.

(** A command that starts with a backslash. *)
Definition command_kind (payload : bytes) : kind :=
  let '(_, payload) := split_conf payload in
  let packet_bytes := match fromhex_ascii payload with Ok b => b | Raise _ => payload end in
  match packet_bytes with
  | dest_type :: app_id :: rest =>
      if dest_type =? 0x46 then if (2 <=? length rest)%nat then PpCal app_id else CbusCommand
      else if (2 <=? length rest)%nat && (dest_type =? 0x05) then
        if app_id =? 0x38 then lighting_kind packet_bytes
        else if app_id =? 0xff then StatusRequested
        else if app_id =? 0xdf then ClockUpdate else CbusCommand
      else CbusCommand
  | _ => CbusCommand
  end.

Definition line_kind (cmd_bytes : bytes) : kind :=
  if bool_decide (cmd_bytes ∈ [txt "~~~"; txt "~"]) then Reset
  else if bool_decide (cmd_bytes = txt "null") then Null
  else if bool_decide (cmd_bytes ∈ [txt "|"; txt "||"]) then SmartConnect
  else if startswith (txt "@") cmd_bytes then DeviceManagementCal
  else if startswith (txt "A3") cmd_bytes then DeviceManagement
  else if startswith [92] cmd_bytes then command_kind (drop 1 cmd_bytes)
  else
    let '(_, bare) := split_conf cmd_bytes in
    match fromhex_ascii bare with
    | Ok _ => if bool_decide (bare = []) then Unknown else BareDmCal
    | Raise _ => Unknown
    end.

(** ** The log *)

Definition maxlen : Z := 10000.

(** [deque.append] *)
Definition log_append (log : list entry) (e : entry) : list entry :=
  drop (Z.to_nat (len log + 1 - maxlen)) (log ++ [e]).

(** An empty line is not logged. *)
Definition log_line (log : list entry) (cmd_bytes : bytes) : list entry :=
  match cmd_bytes with
  | [] => log
  | _ :: _ => log_append log {| raw := cmd_bytes; entry_kind := line_kind cmd_bytes |}
  end.

(** [_process_buffer] with the log: the lines of a buffer, until one raises. *)
Fixpoint logged_lines (fuel : nat) (buf : bytes) (em : emulator) (log : list entry) : list entry :=
  match fuel with
  | O => log
  | S fuel =>
      match line_end buf with
      | None => log
      | Some (e, next) =>
          let log := log_line log (take e buf) in
          match handle_line (take e buf) em with
          | (_, (_, Raise _)) => log
          | (em, (_, Ok _)) => logged_lines fuel (drop next buf) em log
          end
      end
  end.

(** A bridge and its log. *)
Definition logged_process (buf : bytes) (b : emulator * list entry) : emulator * list entry :=
  let '(em, log) := b in ((emulator_process buf em).1.2, logged_lines (length buf) buf em log).

Definition optional_int (n : option Z) : json := match n with Some n => JInt n | None => JNull end.

(** [_handle_get_logs], of a server with an emulator or without. *)
Definition _handle_get_logs (command_log : option (list entry)) : json :=
  match command_log with
  | Some log =>
      JArray (map (fun e => JObject
        [("type", JString (type_text (entry_kind e)));
         ("group", optional_int (entry_group (entry_kind e)));
         ("level", optional_int (entry_level (entry_kind e)))])
        (drop (length log - 100) log))
  | None => JArray []
  end.

(** ** The reference: a log replayed *)

Definition replay (em : emulator) (k : kind) : emulator :=
  match k with
  | LightingOn g => set_group_level g 255 em
  | LightingOff g => set_group_level g 0 em
  | LightingRamp g l => set_group_level g l em
  | _ => em
  end.

(** ** Lemmas *)

Lemma lighting_replayed p em : _handle_lighting p em = replay em (lighting_kind p).
Proof. unfold _handle_lighting, lighting_kind. by repeat case_match. Qed.

Lemma command_replayed payload em : (handle_command payload em).1 = replay em (command_kind payload).
Proof.
  unfold handle_command, command_kind. destruct (split_conf payload) as [conf p].
  generalize (match fromhex_ascii p with Ok b => b | Raise _ => p end). intros packet_bytes.
  unfold run_command. destruct packet_bytes as [|d [|a rest]]; [done|done|].
  destruct (d =? 0x46).
  { destruct (_handle_pp_command _ _ _) as [ws [u|e]]; by destruct (2 <=? length rest)%nat. }
  change (4 <=? length (d :: a :: rest))%nat with (2 <=? length rest)%nat.
  destruct (2 <=? length rest)%nat; [|done]. destruct (d =? 0x05); [|done].
  cbn [andb lookup list_lookup default from_option id]. destruct (a =? 0x38).
  - apply lighting_replayed.
  - destruct (a =? 0xff); cbn [andb]; [by destruct (5 <=? _)%nat|by destruct (a =? 0xdf)].
Qed.

Lemma line_replayed l em : l <> [] -> (handle_line l em).1 = replay em (line_kind l).
Proof.
  intros Hl. unfold handle_line, line_kind.
  destruct (decide (l ∈ [txt "~~~"; txt "~"])) as [H1|H1].
  { rewrite !bool_decide_true; [done|done|]. set_solver. }
  rewrite (bool_decide_false _ H1). destruct (decide (l = txt "null")) as [->|H2]; [done|].
  rewrite (bool_decide_false _ H2).
  destruct (decide (l ∈ [txt "|"; txt "||"])) as [H3|H3].
  { rewrite !bool_decide_true; [done|done|]. set_solver. }
  rewrite (bool_decide_false _ H3), bool_decide_false by set_solver.
  destruct (startswith (txt "@") l); [done|]. destruct (startswith (txt "A3") l); [done|].
  destruct (startswith [92] l); [apply command_replayed|].
  destruct (split_conf l) as [conf bare]. destruct (fromhex_ascii bare); [|done].
  destruct bare; [|done]. done.
Qed.

Lemma log_append_short log e : len log < maxlen -> log_append log e = log ++ [e].
Proof. intros H. unfold log_append. by replace (Z.to_nat _) with 0%nat by (unfold maxlen, len in *; lia). Qed.

(** What the log explains: it is full, or it is all that was done. *)
Definition explains (em0 em : emulator) (log : list entry) : Prop :=
  maxlen <= len log \/ em = foldl replay em0 (map entry_kind log).

Lemma log_grows log l : len log <= len (log_line log l) \/ maxlen <= len (log_line log l).
Proof.
  unfold log_line, log_append, len, maxlen. destruct l; [left; lia|].
  rewrite length_drop, length_app. simpl. lia.
Qed.

Lemma line_explains em0 em log l :
  explains em0 em log -> explains em0 (handle_line l em).1 (log_line log l).
Proof.
  intros H. destruct (Z.lt_ge_cases (len (log_line log l)) maxlen) as [Hlt|]; [|by left]. right.
  destruct H as [H| ->]; [destruct (log_grows log l); lia|].
  destruct l as [|b l]; [done|]. rewrite line_replayed by done.
  unfold log_line. rewrite log_append_short.
  - by rewrite map_app, foldl_app.
  - destruct (Z.lt_ge_cases (len log) maxlen); [done|].
    destruct (log_grows log (b :: l)); lia.
Qed.

Lemma lines_explain em0 fuel buf em log :
  explains em0 em log ->
  explains em0 (emulator_lines fuel buf em).1.2 (logged_lines fuel buf em log).
Proof.
  revert buf em log. induction fuel as [|fuel IH]; intros buf em log H; [done|].
  cbn [emulator_lines logged_lines]. destruct (line_end buf) as [[e next]|]; [|done].
  pose proof (line_explains em0 em log (take e buf) H) as Hl.
  destruct (handle_line (take e buf) em) as [em1 [ws [u|x]]]; [|exact Hl].
  specialize (IH (drop next buf) em1 _ Hl).
  by destruct (emulator_lines fuel (drop next buf) em1) as [[buf2 em2] [ws2 r2]].
Qed.

Lemma line_bounded log l : len log <= maxlen -> len (log_line log l) <= maxlen.
Proof.
  unfold log_line, log_append, len, maxlen. destruct l; [done|].
  rewrite length_drop, length_app. simpl. lia.
Qed.

Lemma lines_bounded fuel buf em log :
  len log <= maxlen -> len (logged_lines fuel buf em log) <= maxlen.
Proof.
  revert buf em log. induction fuel as [|fuel IH]; intros buf em log H; [done|].
  cbn [logged_lines]. destruct (line_end buf) as [[e next]|]; [|done].
  pose proof (line_bounded log (take e buf) H) as Hl.
  destruct (handle_line (take e buf) em) as [em1 [ws [u|x]]]; [by apply IH|exact Hl].
Qed.

(** ** Properties *)

(** The log explains the bridge. Whatever bytes its client sends, in any buffers, as
    long as the log has not reached its limit the groups and units of the bridge are
    those that its entries, replayed in order, leave of the initial ones; and the
    log never has more than its limit. *)
Theorem log_explains_bridge n bufs :
  let '(em, log) := foldl (fun b buf => logged_process buf b) (emulator_init n, []) bufs in
  len log <= maxlen /\
  (len log < maxlen -> em = foldl replay (emulator_init n) (map entry_kind log)).
Proof.
  assert (forall bufs em log, explains (emulator_init n) em log -> len log <= maxlen ->
    let '(em, log) := foldl (fun b buf => logged_process buf b) (em, log) bufs in
    explains (emulator_init n) em log /\ len log <= maxlen) as Hall.
  { clear bufs. induction bufs as [|buf bufs IH]; intros em log H Hl; [done|]. cbn [foldl logged_process].
    apply IH; [by apply lines_explain|]. by apply lines_bounded. }
  pose proof (Hall bufs (emulator_init n) [] (or_intror eq_refl) ltac:(done)) as H.
  destruct (foldl _ _ _) as [em log]. destruct H as [[H|H] Hl]; split; [done|lia|done|done].
Qed.
