(* ===== verification/EmulatorServer.v ===== *)
(** * The emulated bridge and its clients

    [_handle_client] and [_process_buffer] of [esp32/emulator/device.py] as the tasks of
    any number of connections to the bridge of [Emulator]. A task runs from one wait to
    the next: for data, or for the delay before a line is handled
    ([response_delay_ms]); other tasks run meanwhile. A write does not wait. *)

From S2P Require Import Prelude Common Hex Text Emulator.
From stdpp Require Import strings options.

Local Open Scope Z_scope.

(** ** Connections *)

(** The buffer of a connection, the line whose delay runs, what was written, and
    whether its task still runs. *)
Record session := {
  inbuf : bytes;
  waiting : option bytes;
  written : list bytes;
  is_open : bool
}.

Definition new_session : session := {| inbuf := []; waiting := None; written := []; is_open := true |}.

Definition set_inbuf (b : bytes) (s : session) : session :=
  {| inbuf := b; waiting := waiting s; written := written s; is_open := is_open s |}.

Definition set_waiting (w : option bytes) (s : session) : session :=
  {| inbuf := inbuf s; waiting := w; written := written s; is_open := is_open s |}.

Definition set_closed (s : session) : session :=
  {| inbuf := inbuf s; waiting := None; written := written s; is_open := false |}.

(** A line is handled: its replies, and the end of the task when it raises. *)
Definition add_output (o : output) (s : session) : session :=
  {| inbuf := inbuf s; waiting := None; written := written s ++ o.1;
     is_open := is_open s && is_Ok o.2 |}.

(** [_process_buffer] up to its next delay, or to the end of the buffer. The lines
    that were handled are given back with the state. *)
Fixpoint process (fuel : nat) (delay : bool) (s : session) (em : emulator) : session * emulator * list bytes :=
  match fuel with
  | O => (s, em, [])
  | S fuel =>
      match line_end (inbuf s) with
      | None => (s, em, [])
      | Some (e, next) =>
          let l := take e (inbuf s) in
          let s := set_inbuf (drop next (inbuf s)) s in
          match l with
          | [] => process fuel delay s em
          | _ :: _ =>
              if delay then (set_waiting (Some l) s, em, [])
              else
                let '(em, o) := handle_line l em in
                let s := add_output o s in
                if is_open s then
                  let '(s, em, ls) := process fuel delay s em in (s, em, l :: ls)
                else (s, em, [l])
          end
      end
  end.

Definition process_all (delay : bool) (s : session) (em : emulator) : session * emulator * list bytes :=
  process (length (inbuf s)) delay s em.

(** The delay of a line ends. *)
Definition resume (delay : bool) (l : bytes) (s : session) (em : emulator) : session * emulator * list bytes :=
  let '(em, o) := handle_line l em in
  let s := add_output o s in
  if is_open s then
    let '(s, em, ls) := process_all delay s em in (s, em, l :: ls)
  else (s, em, [l]).

(** ** The server *)

(** [order] is the order in which lines were handled, with their connections. *)
Record bridge_server := { bridge : emulator; sessions : list session; order : list (nat * bytes) }.

Definition server_start (em : emulator) : bridge_server := {| bridge := em; sessions := []; order := [] |}.

(** What a task did. *)
Definition after (i : nat) (st : bridge_server) (r : session * emulator * list bytes) : bridge_server :=
  let '(s, em, ls) := r in
  {| bridge := em; sessions := <[i := s]> (sessions st); order := order st ++ map (pair i) ls |}.

Inductive label := Connects | Reads (i : nat) (data : bytes) | Awakes (i : nat) | Ends (i : nat).

(** A connection is accepted; [read] returns data; a delay ends; a task ends, because
    its client is gone or it is cancelled. *)
Inductive bridge_step (delay : bool) : bridge_server -> label -> bridge_server -> Prop :=
| StepConnects st :
    bridge_step delay st Connects
      {| bridge := bridge st; sessions := sessions st ++ [new_session]; order := order st |}
| StepReads st i s data :
    sessions st !! i = Some s -> is_open s = true -> waiting s = None -> data <> [] ->
    bridge_step delay st (Reads i data)
      (after i st (process_all delay (set_inbuf (inbuf s ++ data) s) (bridge st)))
| StepAwakes st i s l :
    sessions st !! i = Some s -> is_open s = true -> waiting s = Some l ->
    bridge_step delay st (Awakes i) (after i st (resume delay l s (bridge st)))
| StepEnds st i s :
    sessions st !! i = Some s -> is_open s = true ->
    bridge_step delay st (Ends i)
      {| bridge := bridge st; sessions := <[i := set_closed s]> (sessions st); order := order st |}.

Inductive runs (delay : bool) (em : emulator) : list label -> bridge_server -> Prop :=
| RunsNone : runs delay em [] (server_start em)
| RunsStep labels st label st' :
    runs delay em labels st -> bridge_step delay st label st' -> runs delay em (labels ++ [label]) st'.

(** ** The reference: one line after the other *)

Definition handle_all (ls : list (nat * bytes)) (em : emulator) : emulator :=
  foldl (fun em l => (handle_line l.2 em).1) em ls.

(** What the lines of connection [i] are answered, each at its turn. *)
Fixpoint replies (i : nat) (ls : list (nat * bytes)) (em : emulator) : list bytes :=
  match ls with
  | [] => []
  | (j, l) :: ls =>
      let '(em', o) := handle_line l em in
      (if (i =? j)%nat then o.1 else []) ++ replies i ls em'
  end.

(** The lines of a buffer that are not empty, and what is left. *)
Fixpoint cut_fuel (fuel : nat) (buf : bytes) : list bytes * bytes :=
  match fuel with
  | O => ([], buf)
  | S fuel =>
      match line_end buf with
      | None => ([], buf)
      | Some (e, next) =>
          let '(ls, rest) := cut_fuel fuel (drop next buf) in
          (match take e buf with [] => ls | l => l :: ls end, rest)
      end
  end.

Definition cut_lines (buf : bytes) : list bytes * bytes := cut_fuel (length buf) buf.

(** The lines of a connection, from its reads. *)
Definition read_lines (chunks : list bytes) : list bytes * bytes :=
  foldl (fun '(ls, rest) d => let '(ls', rest) := cut_lines (rest ++ d) in (ls ++ ls', rest)) ([], []) chunks.

Definition reads_of (i : nat) (labels : list label) : list bytes :=
  omap (fun l => match l with Reads j d => if (i =? j)%nat then Some d else None | _ => None end) labels.

Definition handled_lines (i : nat) (ls : list (nat * bytes)) : list bytes :=
  omap (fun l => if (i =? l.1)%nat then Some l.2 else None) ls.

(** ** Lemmas *)

Lemma line_end_next buf e next : line_end buf = Some (e, next) -> (0 < next)%nat.
Proof.
  unfold line_end. destruct (find_sub [13] buf); [|done]. cbn. intros [= <- <-].
  case_match; lia.
Qed.

Lemma drop_next buf e next : line_end buf = Some (e, next) -> buf <> [] -> (length (drop next buf) < length buf)%nat.
Proof.
  intros H Hb. apply line_end_next in H. rewrite length_drop. destruct buf; [done|]. simpl. lia.
Qed.

Lemma line_end_nil : line_end [] = None.
Proof. done. Qed.

Lemma cut_fuel_enough n m buf :
  (length buf <= n)%nat -> (length buf <= m)%nat -> cut_fuel n buf = cut_fuel m buf.
Proof.
  revert m buf. induction n as [|n IH]; intros m buf Hn Hm.
  { destruct buf; [by destruct m|simpl in Hn; lia]. }
  destruct buf as [|b buf]; [by destruct m|]. destruct m as [|m]; [simpl in Hm; lia|].
  cbn [cut_fuel]. destruct (line_end (b :: buf)) as [[e next]|] eqn:E; [|done].
  pose proof (drop_next (b :: buf) _ _ E ltac:(done)) as Hd. cbn [length] in *.
  by rewrite (IH m) by lia.
Qed.

Lemma cut_enough fuel buf : (length buf <= fuel)%nat -> cut_fuel fuel buf = cut_lines buf.
Proof. intros H. by apply cut_fuel_enough. Qed.

Lemma cut_step buf :
  cut_lines buf =
    match line_end buf with
    | None => ([], buf)
    | Some (e, next) =>
        let '(ls, rest) := cut_lines (drop next buf) in
        (match take e buf with [] => ls | l => l :: ls end, rest)
    end.
Proof.
  destruct buf as [|b buf]; [done|]. unfold cut_lines at 1. cbn [length cut_fuel].
  destruct (line_end (b :: buf)) as [[e next]|] eqn:E; [|done].
  pose proof (drop_next (b :: buf) _ _ E ltac:(done)) as Hd. cbn [length] in Hd. by rewrite cut_enough by lia.
Qed.

(** *** A task *)

(** What a task does from a state [s] and a bridge [em]: it handles [ls], leaves the
    lines that it has not, and writes their replies. *)
Definition task_ok (s : session) (em : emulator) (r : session * emulator * list bytes) : Prop :=
  let '(s', em', ls) := r in
  em' = foldl (fun em l => (handle_line l em).1) em ls /\
  (exists out, written s' = written s ++ out /\ forall i, out = replies i (map (pair i) ls) em) /\
  if is_open s' then
    ls ++ option_list (waiting s') ++ (cut_lines (inbuf s')).1 = (cut_lines (inbuf s)).1 /\
    (cut_lines (inbuf s')).2 = (cut_lines (inbuf s)).2 /\
    (waiting s' = None -> cut_lines (inbuf s') = ([], inbuf s'))
  else ls `prefix_of` (cut_lines (inbuf s)).1 /\ waiting s' = None.

Lemma task_line l s em (r : session -> emulator -> session * emulator * list bytes) :
  is_open s = true ->
  (forall s' em', is_open s' = true -> waiting s' = None -> inbuf s' = inbuf s ->
     task_ok s' em' (r s' em')) ->
  let '(em1, o) := handle_line l em in
  let s1 := add_output o s in
  let '(s', em', ls) :=
    (if is_open s1 then let '(s2, em2, ls) := r s1 em1 in (s2, em2, l :: ls) else (s1, em1, [l])) in
  em' = foldl (fun em l => (handle_line l em).1) em ls /\
  (exists out, written s' = written s ++ out /\ forall i, out = replies i (map (pair i) ls) em) /\
  if is_open s' then
    ls ++ option_list (waiting s') ++ (cut_lines (inbuf s')).1 = l :: (cut_lines (inbuf s)).1 /\
    (cut_lines (inbuf s')).2 = (cut_lines (inbuf s)).2 /\
    (waiting s' = None -> cut_lines (inbuf s') = ([], inbuf s'))
  else ls `prefix_of` l :: (cut_lines (inbuf s)).1 /\ waiting s' = None.
Proof.
  intros Ho Hr. destruct (handle_line l em) as [em1 o] eqn:E. cbv zeta.
  destruct (is_open (add_output o s)) eqn:Eo.
  - specialize (Hr (add_output o s) em1 Eo eq_refl eq_refl).
    destruct (r (add_output o s) em1) as [[s' em'] ls]. destruct Hr as (He & (out & Hw & Hout) & Hc).
    split; [cbn; by rewrite E|]. split.
    + exists (o.1 ++ out). split; [by rewrite Hw; cbn; rewrite <- app_assoc|]. intros i. cbn.
      rewrite E, Nat.eqb_refl. by rewrite <- Hout.
    + cbn [inbuf add_output] in Hc. destruct (is_open s').
      * destruct Hc as (Hc & Hd & Hw'). split; [by cbn; rewrite Hc|done].
      * destruct Hc as [Hc Hw']. split; [|done]. by apply prefix_cons.
  - split; [cbn; by rewrite E|]. split.
    + exists o.1. split; [done|]. intros i. cbn. rewrite E, Nat.eqb_refl. by rewrite app_nil_r.
    + rewrite Eo. split; [|done]. by apply prefix_cons, prefix_nil.
Qed.

Lemma process_ok fuel delay s em :
  (length (inbuf s) <= fuel)%nat -> is_open s = true -> waiting s = None ->
  task_ok s em (process fuel delay s em).
Proof.
  revert s em. induction fuel as [|fuel IH]; intros s em Hf Ho Hw.
  - cbn [process]. unfold task_ok. rewrite Ho, Hw.
    assert (inbuf s = []) as -> by (destruct (inbuf s); [done|simpl in Hf; lia]).
    split; [done|]. split; [exists []; by rewrite app_nil_r|done].
  - cbn [process]. destruct (line_end (inbuf s)) as [[e next]|] eqn:E.
    2: { unfold task_ok. rewrite Ho, Hw, (cut_step (inbuf s)), E.
         split; [done|]. split; [exists []; by rewrite app_nil_r|done]. }
    assert (length (drop next (inbuf s)) <= fuel)%nat as Hd.
    { destruct (inbuf s) eqn:Eb; [done|]. pose proof (drop_next _ _ _ E ltac:(done)). lia. }
    pose proof (cut_step (inbuf s)) as Hc. rewrite E in Hc.
    destruct (cut_lines (drop next (inbuf s))) as [ls0 rest0] eqn:Ec.
    destruct (take e (inbuf s)) as [|b l] eqn:El.
    + specialize (IH (set_inbuf (drop next (inbuf s)) s) em Hd Ho Hw).
      destruct (process fuel delay _ em) as [[s' em'] ls]. unfold task_ok in *.
      cbn [inbuf set_inbuf written] in IH. rewrite Ec in IH. by rewrite Hc.
    + destruct delay.
      * unfold task_ok. cbn [is_open set_waiting set_inbuf inbuf written waiting]. rewrite Ho, Hc, Ec.
        split; [done|]. split; [exists []; by rewrite app_nil_r|done].
      * pose proof (task_line (b :: l) (set_inbuf (drop next (inbuf s)) s) em
          (process fuel false) Ho) as Ht.
        destruct (handle_line (b :: l) em) as [em1 o]. cbv zeta in Ht.
        unfold task_ok. cbn [inbuf set_inbuf written] in Ht. rewrite Ec in Ht. rewrite Hc.
        apply Ht. intros s' em' Ho' Hw' Hi. apply IH; [by rewrite Hi|done|done].
Qed.

Lemma resume_ok delay l s em :
  is_open s = true -> waiting s = Some l ->
  let '(s', em', ls) := resume delay l s em in
  em' = foldl (fun em l => (handle_line l em).1) em ls /\
  (exists out, written s' = written s ++ out /\ forall i, out = replies i (map (pair i) ls) em) /\
  if is_open s' then
    ls ++ option_list (waiting s') ++ (cut_lines (inbuf s')).1 = l :: (cut_lines (inbuf s)).1 /\
    (cut_lines (inbuf s')).2 = (cut_lines (inbuf s)).2 /\
    (waiting s' = None -> cut_lines (inbuf s') = ([], inbuf s'))
  else ls `prefix_of` l :: (cut_lines (inbuf s)).1 /\ waiting s' = None.
Proof.
  intros Ho Hw. pose proof (task_line l s em (process_all delay) Ho) as H. unfold resume.
  destruct (handle_line l em) as [em1 o]. apply H. intros s' em' Ho' Hw' _. by apply process_ok.
Qed.

(** *** All tasks *)

Lemma handle_all_tagged i ls em :
  handle_all (map (pair i) ls) em = foldl (fun em l => (handle_line l em).1) em ls.
Proof. revert em. induction ls as [|l ls IH]; intros em; [done|]. apply IH. Qed.

Lemma handle_all_app ls1 ls2 em : handle_all (ls1 ++ ls2) em = handle_all ls2 (handle_all ls1 em).
Proof. apply foldl_app. Qed.

Lemma replies_app i ls1 ls2 em :
  replies i (ls1 ++ ls2) em = replies i ls1 em ++ replies i ls2 (handle_all ls1 em).
Proof.
  revert em. induction ls1 as [|[j l] ls1 IH]; intros em; [done|]. cbn [app replies handle_all foldl].
  destruct (handle_line l em) as [em1 o] eqn:E. rewrite IH, <- app_assoc. cbn [snd]. by rewrite E.
Qed.

Lemma replies_other i j ls em : i <> j -> replies i (map (pair j) ls) em = [].
Proof.
  intros Hij. revert em. induction ls as [|l ls IH]; intros em; [done|]. cbn [map replies].
  destruct (handle_line l em) as [em1 o]. by rewrite (proj2 (Nat.eqb_neq i j) Hij), IH.
Qed.

Lemma handled_lines_app i ls1 ls2 : handled_lines i (ls1 ++ ls2) = handled_lines i ls1 ++ handled_lines i ls2.
Proof. apply omap_app. Qed.

Lemma handled_lines_tagged i j ls : handled_lines i (map (pair j) ls) = if (i =? j)%nat then ls else [].
Proof.
  unfold handled_lines. induction ls as [|l ls IH]; [by destruct (i =? j)%nat|]. cbn [map omap list_omap fst snd].
  rewrite IH. by destruct (i =? j)%nat.
Qed.

Lemma read_lines_snoc chunks d :
  read_lines (chunks ++ [d]) =
    let '(ls, rest) := read_lines chunks in
    let '(ls', rest') := cut_lines (rest ++ d) in (ls ++ ls', rest').
Proof. unfold read_lines. rewrite foldl_app. cbn [foldl]. by destruct (foldl _ _ _) as [ls rest]. Qed.

(** What a connection has done of what it read. *)
Definition progress (s : session) (done : list bytes) (chunks : list bytes) : Prop :=
  if is_open s then
    done ++ option_list (waiting s) ++ (cut_lines (inbuf s)).1 = (read_lines chunks).1 /\
    (cut_lines (inbuf s)).2 = (read_lines chunks).2 /\
    (waiting s = None -> cut_lines (inbuf s) = ([], inbuf s))
  else done `prefix_of` (read_lines chunks).1 /\ waiting s = None.

Record serves (em : emulator) (labels : list label) (st : bridge_server) : Prop := {
  serves_bridge : bridge st = handle_all (order st) em;
  serves_sessions : forall i s, sessions st !! i = Some s ->
    written s = replies i (order st) em /\ progress s (handled_lines i (order st)) (reads_of i labels);
  serves_new : forall i, (length (sessions st) <= i)%nat ->
    replies i (order st) em = [] /\ handled_lines i (order st) = [] /\ reads_of i labels = []
}.

Lemma reads_of_snoc i labels l :
  reads_of i (labels ++ [l]) =
    reads_of i labels ++ match l with Reads j d => if (i =? j)%nat then [d] else [] | _ => [] end.
Proof.
  unfold reads_of. rewrite omap_app. f_equal. destruct l as [|j d|j|j]; try done. cbn.
  by destruct (i =? j)%nat.
Qed.

(** A task of connection [i] runs. *)
Lemma serves_after em labels st i s r l :
  serves em labels st -> sessions st !! i = Some s ->
  (forall j, j <> i -> reads_of j (labels ++ [l]) = reads_of j labels) ->
  let '(s', em', ls) := r in
  em' = foldl (fun em l => (handle_line l em).1) (bridge st) ls ->
  (exists out, written s' = written s ++ out /\ forall j, out = replies j (map (pair j) ls) (bridge st)) ->
  progress s' (handled_lines i (order st) ++ ls) (reads_of i (labels ++ [l])) ->
  serves em (labels ++ [l]) (after i st r).
Proof.
  destruct r as [[s' em'] ls]. intros [Hb Hs Hn] Hi Hl He (out & Hw & Hout) Hp.
  assert (i < length (sessions st))%nat as Hlt by by eapply lookup_lt_Some.
  split; cbn [after bridge sessions order].
  - by rewrite handle_all_app, <- Hb, handle_all_tagged.
  - intros j t Hj. rewrite replies_app, handled_lines_app, handled_lines_tagged, <- Hb.
    destruct (decide (j = i)) as [->|Hji].
    + rewrite list_lookup_insert_eq in Hj by done. injection Hj as <-. rewrite Nat.eqb_refl.
      destruct (Hs i s Hi) as [Hws _]. split; [by rewrite Hw, Hws, (Hout i)|done].
    + rewrite list_lookup_insert_ne in Hj by done.
      rewrite replies_other, (proj2 (Nat.eqb_neq j i) Hji), !app_nil_r, Hl by done. by apply Hs.
  - intros j Hj. rewrite length_insert in Hj. assert (j <> i) as Hji by lia.
    rewrite replies_app, handled_lines_app, handled_lines_tagged, replies_other, (proj2 (Nat.eqb_neq j i) Hji), !app_nil_r, Hl by done.
    by apply Hn.
Qed.

Lemma serves_step delay em labels st l st' :
  serves em labels st -> bridge_step delay st l st' -> serves em (labels ++ [l]) st'.
Proof.
  intros Hst Hstep. destruct Hstep as [st|st i s data Hi Ho Hw Hd|st i s ln Hi Ho Hw|st i s Hi Ho].
  - destruct Hst as [Hb Hs Hn]. split; cbn [bridge sessions order]; [done| |].
    + intros i s Hi. rewrite reads_of_snoc, app_nil_r. apply lookup_snoc_Some in Hi as [[_ Hi]|[Hi <-]].
      * by apply Hs.
      * destruct (Hn i ltac:(lia)) as (Hr & Hl & Hx). rewrite Hr, Hl, Hx. done.
    + intros i Hi. rewrite reads_of_snoc, app_nil_r. apply Hn. rewrite length_app in Hi. simpl in Hi. lia.
  - pose proof (process_ok (length (inbuf s ++ data)) delay (set_inbuf (inbuf s ++ data) s) (bridge st)
      (le_n _) Ho Hw) as H. unfold process_all. cbn [inbuf set_inbuf] in *.
    pose proof (serves_after em labels st i s
      (process (length (inbuf s ++ data)) delay (set_inbuf (inbuf s ++ data) s) (bridge st)) (Reads i data) Hst Hi) as Ha.
    destruct (process _ delay _ _) as [[s' em'] ls]. destruct H as (He & Hout & Hc). apply Ha; [|done|done|].
    { intros j Hj. rewrite reads_of_snoc, (proj2 (Nat.eqb_neq j i) Hj). apply app_nil_r. }
    destruct (serves_sessions _ _ _ Hst i s Hi) as [_ Hp]. unfold progress in Hp. rewrite Ho, Hw in Hp.
    destruct Hp as (Hp1 & Hp2 & Hp3). specialize (Hp3 eq_refl). rewrite Hp3 in Hp1, Hp2. cbn in Hp1, Hp2.
    unfold progress. rewrite reads_of_snoc, Nat.eqb_refl, read_lines_snoc.
    destruct (read_lines (reads_of i labels)) as [ls0 rest0]. cbn in Hp1, Hp2. rewrite app_nil_r in Hp1. subst ls0 rest0.
    change (inbuf (set_inbuf (inbuf s ++ data) s)) with (inbuf s ++ data) in Hc.
    destruct (cut_lines (inbuf s ++ data)) as [ls1 rest1]. cbn [fst snd] in *.
    destruct (is_open s').
    + destruct Hc as (Hc1 & Hc2 & Hc3). split; [by rewrite <- app_assoc, Hc1|done].
    + destruct Hc as [Hc Hc']. split; [by apply prefix_app|done].
  - pose proof (resume_ok delay ln s (bridge st) Ho Hw) as H.
    pose proof (serves_after em labels st i s (resume delay ln s (bridge st)) (Awakes i) Hst Hi) as Ha.
    destruct (resume _ _ _ _) as [[s' em'] ls]. destruct H as (He & Hout & Hc).
    assert (forall j, reads_of j (labels ++ [Awakes i]) = reads_of j labels) as Hr.
    { intros j. rewrite reads_of_snoc. apply app_nil_r. }
    apply Ha; [done|done|done|]. rewrite Hr.
    destruct (serves_sessions _ _ _ Hst i s Hi) as [_ Hp]. unfold progress in *. rewrite Ho, Hw in Hp.
    destruct Hp as (Hp1 & Hp2 & _). cbn [option_list app] in Hp1. destruct (is_open s').
    + destruct Hc as (Hc1 & Hc2 & Hc3). split; [by rewrite <- app_assoc, Hc1|].
      split; [by rewrite Hc2|done].
    + destruct Hc as [Hc Hc']. split; [|done]. rewrite <- Hp1. by apply prefix_app.
  - destruct Hst as [Hb Hs Hn]. split; cbn [bridge sessions order]; [done| |].
    + intros j t Hj. rewrite reads_of_snoc, app_nil_r. destruct (decide (j = i)) as [->|Hji].
      * rewrite list_lookup_insert_eq in Hj by by eapply lookup_lt_Some.
        injection Hj as <-. destruct (Hs i s Hi) as [Hws Hp]. split; [done|].
        unfold progress in *. rewrite Ho in Hp. cbn. split; [|done]. destruct Hp as [<- _]. by eexists.
      * rewrite list_lookup_insert_ne in Hj by done. by apply Hs.
    + intros j Hj. rewrite length_insert in Hj. rewrite reads_of_snoc, app_nil_r. by apply Hn.
Qed.

Lemma runs_serves delay em labels st : runs delay em labels st -> serves em labels st.
Proof.
  induction 1 as [|labels st l st' _ IH Hstep].
  - split; [done|intros i s Hi; by destruct i|done].
  - by eapply serves_step.
Qed.

(** ** Properties *)

(** C39. Clients of the bridge are served as if their lines were handled one after the
    other, in some order. Whatever their reads and delays, and however their tasks
    interleave: the bridge is what that order makes of it; a client is written the
    replies to its own lines, each at its turn, and nothing else; and its lines are
    handled in the order in which it sent them, all of them when it is connected and no
    delay runs. *)
Theorem lines_serialized delay em labels st :
  runs delay em labels st ->
  bridge st = handle_all (order st) em /\
  forall i s, sessions st !! i = Some s ->
    written s = replies i (order st) em /\
    handled_lines i (order st) `prefix_of` (read_lines (reads_of i labels)).1 /\
    (is_open s = true -> waiting s = None ->
      handled_lines i (order st) = (read_lines (reads_of i labels)).1 /\
      inbuf s = (read_lines (reads_of i labels)).2).
Proof.
  intros H%runs_serves. destruct H as [Hb Hs _]. split; [done|]. intros i s Hi.
  destruct (Hs i s Hi) as [Hw Hp]. split; [done|]. unfold progress in Hp. destruct (is_open s).
  - destruct Hp as (Hp1 & Hp2 & Hp3). split; [rewrite <- Hp1; by eexists|]. intros _ Hn.
    specialize (Hp3 Hn). rewrite Hp3, Hn in *. cbn in *. by rewrite app_nil_r in Hp1.
  - split; [apply Hp|done].
Qed.

(** Two clients switch a group, the second off; its delay ends first. *)
Definition switch_on : bytes := txt "\0538007901g" ++ [13].
Definition switch_off : bytes := txt "\0538000101h" ++ [13].

Lemma lines_serialized_witness :
  exists st, runs true (emulator_init 4) [Connects; Connects; Reads 0 switch_on; Reads 1 switch_off; Awakes 1; Awakes 0] st /\
    Emulator.get_group_level 1 (bridge st) = 255 /\ map fst (order st) = [1%nat; 0%nat] /\
    written <$> sessions st !! 0%nat = Some [txt "g." ++ [13; 10]].
Proof.
  assert (exists st, runs true (emulator_init 4)
    [Connects; Connects; Reads 0 switch_on; Reads 1 switch_off; Awakes 1; Awakes 0] st /\
    map fst (order st) = [1%nat; 0%nat] /\ order st = [(1%nat, txt "\0538000101h"); (0%nat, txt "\0538007901g")] /\
    is_Some (sessions st !! 0%nat)) as (st & Hr & Ho & Ho' & (s & Hs)).
  { eexists. split.
    - eapply (RunsStep _ _ [Connects; Connects; Reads 0 switch_on; Reads 1 switch_off; Awakes 1]).
      + eapply (RunsStep _ _ [Connects; Connects; Reads 0 switch_on; Reads 1 switch_off]).
        * eapply (RunsStep _ _ [Connects; Connects; Reads 0 switch_on]).
          -- eapply (RunsStep _ _ [Connects; Connects]).
             ++ eapply (RunsStep _ _ [Connects]); [|apply StepConnects].
                eapply (RunsStep _ _ []); [apply RunsNone|apply StepConnects].
             ++ by eapply StepReads.
          -- by eapply StepReads.
        * by eapply StepAwakes.
      + by eapply StepAwakes.
    - vm_compute. split; [done|]. split; [done|]. by eexists. }
  exists st. destruct (lines_serialized true (emulator_init 4) _ st Hr) as [Hb Hw].
  split; [exact Hr|]. split; [rewrite Hb, Ho'; by vm_compute|]. split; [exact Ho|].
  rewrite Hs. cbn. destruct (Hw 0%nat s Hs) as [-> _]. rewrite Ho'. by vm_compute.
Defined.
