(* ===== verification/Web.v ===== *)
(** * The configuration server: [cbus/web/server.py]

    The handlers of the server's API over its configuration, an emulated bridge
    ([Emulator]) and a connection to one ([Esp32], [Pci]). Requests interleave where
    a handler waits for a connection. The text of an error message is not modelled,
    nor are the discovery of devices and the log of commands. *)

From S2P Require Import Prelude Text Common Hex Lighting Application Packet PyDict Confirm Pci.
From S2P Require Import Gateway Transport Emulator EmulatorClient Esp32.
From Stdlib Require Import String Ascii QArith.
From stdpp Require Import strings options.

Local Open Scope string_scope.
Local Open Scope list_scope.
Local Open Scope Z_scope.

(** ** Values *)

(** [int(x)] of a JSON value *)
Definition int_value (j : json) : result Z :=
  match j with JString s => int_text s | _ => int_of_json j end.

(** [d[key]], and [d[key] = v] for a key that is there. *)
Definition get_item (key : string) (d : list (string * json)) : result json :=
  match field key d with Some v => Ok v | None => Raise KeyError end.

Definition replace_item (key : string) (v : json) (d : list (string * json)) : list (string * json) :=
  map (fun '(k, old) => (k, if String.eqb k key then v else old)) d.

Definition has_key (key : string) (d : list (string * json)) : bool :=
  match field key d with Some _ => true | None => false end.

(** ** State *)

(** A running emulator. *)
Record bridge := {
  em : emulator;
  is_running : bool;
  actual_port : Z;
  device_info : list (string * json)
}.

(** The connections ever made, and which one the server holds. *)
Record web := {
  config : list (string * json);
  connections : list esp32;
  current : option nat;
  heap : world;
  emulated : option bridge
}.

Definition default_config : list (string * json) :=
  [("connection_mode", JString "wifi"); ("wifi_host", JString ""); ("wifi_port", JInt 10001);
   ("serial_device", JString "/dev/ttyUSB0"); ("serial_baudrate", JInt 9600);
   ("reconnect", JBool true); ("reconnect_interval", JInt 5);
   ("max_reconnect_attempts", JInt 0); ("connect_timeout", JInt 10);
   ("timesync_frequency", JInt 300); ("handle_clock_requests", JBool true);
   ("mqtt_broker", JString "localhost"); ("mqtt_port", JInt 1883); ("mqtt_use_tls", JBool false)].

(** [WebConfigServer.__init__] without a connection *)
Definition web_init (e : option bridge) : web :=
  {| config := default_config; connections := []; current := None;
     heap := {| instances := []; futures := [] |}; emulated := e |}.

Definition with_config (d : list (string * json)) (w : web) : web :=
  {| config := d; connections := connections w; current := current w; heap := heap w;
     emulated := emulated w |}.

Definition with_heap (h : world) (w : web) : web :=
  {| config := config w; connections := connections w; current := current w; heap := h;
     emulated := emulated w |}.

Definition with_connections (cs : list esp32) (k : option nat) (w : web) : web :=
  {| config := config w; connections := cs; current := k; heap := heap w; emulated := emulated w |}.

Definition on_emulator (f : emulator -> emulator) (w : web) : web :=
  {| config := config w; connections := connections w; current := current w; heap := heap w;
     emulated := (fun b => {| em := f (em b); is_running := is_running b;
                              actual_port := actual_port b; device_info := device_info b |})
                 <$> emulated w |}.

(** [self._esp32_connection] *)
Definition held (w : web) : option esp32 := k ← current w; connections w !! k.

(** What a handler answers: a status and JSON, or a status and the text of an
    exception, of which [TransportError] is the library's. *)
Inductive reply :=
| Reply (status : Z) (body : json)
| Failure (status : Z) (e : exn)
| TransportFailure (status : Z).

(** ** Configuration and status *)

Definition _handle_get_config (w : web) : reply := Reply 200 (JObject (config w)).

(** A turn of the loop over the items of the posted value: [None] when [data] is not
    a dict and [data[key]] raises, or [key] cannot be looked up. *)
Definition set_item (fields : option (list (string * json))) (key : json) (d : list (string * json))
    : result (list (string * json)) :=
  match key with
  | JString key =>
      if has_key key d then
        match fields with
        | Some fields => v ← get_item key fields; Ok (replace_item key v d)
        | None => Raise TypeError
        end
      else Ok d
  | JArray _ | JObject _ => Raise TypeError
  | _ => Ok d
  end.

(** [for key in data], item by item; what was set before an exception stays. *)
Fixpoint set_items (fields : option (list (string * json))) (ks : list json)
    (d : list (string * json)) : list (string * json) * result unit :=
  match ks with
  | [] => (d, Ok tt)
  | key :: ks =>
      match set_item fields key d with
      | Ok d => set_items fields ks d
      | Raise e => (d, Raise e)
      end
  end.

Definition _handle_set_config (body : result json) (w : web) : web * reply :=
  let '(d, r) :=
    match body with
    | Ok (JObject fields) => set_items (Some fields) (map (fun '(k, _) => JString k) fields) (config w)
    | Ok (JArray l) => set_items None l (config w)
    | Ok (JString s) =>
        set_items None (map (fun c => JString (String c "")) (list_ascii_of_string s)) (config w)
    | Ok _ => (config w, Raise TypeError)
    | Raise e => (config w, Raise e)
    end in
  (with_config d w,
   match r with
   | Ok _ => Reply 200 (JObject [("status", JString "ok"); ("config", JObject d)])
   | Raise e => Failure 400 e
   end).

(** [TransportState.value] *)
Definition state_value (s : TransportState) : string :=
  match s with
  | DISCONNECTED => "disconnected"
  | CONNECTING => "connecting"
  | CONNECTED => "connected"
  | RECONNECTING => "reconnecting"
  | ERROR => "error"
  end.

(** The entry for the connection; all but the address of [ESP32Info] are defaults. *)
Definition connection_status (c : esp32) : list (string * json) :=
  [("connected", JBool (is_connected (link c)));
   ("transport_type", JString (transport_type c));
   ("transport_state", JString (state_value (_state (link c))));
   ("esp32_info", JObject [("firmware_version", JString "unknown"); ("device_type", JString "ESP32");
                           ("mac_address", JString ""); ("ip_address", ip_address c)]);
   ("connection_info", JObject (connection_info c))].

Definition no_connection_status : list (string * json) :=
  [("connected", JBool false); ("transport_type", JNull); ("transport_state", JString "disconnected");
   ("esp32_info", JObject []); ("connection_info", JObject [])].

Definition _handle_get_status (w : web) : reply :=
  Reply 200 (JObject
    (match held w with Some c => connection_status c | None => no_connection_status end ++
     match emulated w with
     | Some b => [("emulator_running", JBool (is_running b)); ("emulator_port", JInt (actual_port b));
                  ("emulator_info", JObject (device_info b))]
     | None => [("emulator_running", JBool false)]
     end)).

(** ** Groups *)

Definition group_entry (i : nat) (level : Z) : json :=
  JObject [("id", JInt (Z.of_nat i)); ("name", JString ("Group " +:+ str_int (Z.of_nat i)));
           ("level", JInt level); ("is_on", JBool (0 <? level))].

Definition _handle_get_groups (w : web) : reply :=
  Reply 200 (JArray
    match emulated w with
    | Some b => imap group_entry (take 256 (group_levels (em b)))
    | None => []
    end).

(** The command of the client for a level. *)
Definition level_command (group_id level : Z) : result packet :=
  if level =? 255 then lighting_group_on (OneGroup group_id) 0x38
  else if level =? 0 then lighting_group_off (OneGroup group_id) 0x38
  else lighting_group_ramp group_id 0x38 0 level.

Definition command_call (p : packet) : send_call :=
  {| cmd := p; want_confirmation := true; basic_mode := false |}.

(** [await self._send(p)]: up to its delay, and how it ends; a write to a transport
    that was closed during the delay is lost without an exception. *)
Definition send (p : packet) (t now : Z) (st : pci) : pci * result unit :=
  (start_send [command_call p] t now st,
   match _prepare_packet (command_call p) t now (confs st) with
   | Raise e => Raise e
   | Ok _ => match _transport st with Some _ => Ok tt | None => Raise IOError end
   end).

(** [self._esp32_connection.protocol] *)
Definition held_protocol (w : web) : option nat := c ← held w; _protocol c.

Definition command_group (group_id level : Z) (t now : Z) (w : web) : web * result unit :=
  match held_protocol w with
  | None => (w, Ok tt)
  | Some i =>
      match instances (heap w) !! i with
      | None => (w, Ok tt)
      | Some p =>
          match level_command group_id level with
          | Raise e => (w, Raise e)
          | Ok c =>
              let '(st, r) := send c t now (client p) in
              (with_heap (at_instance i (with_client st) (heap w)) w, r)
          end
      end
  end.

(** [data.get("level", 0)] as an integer *)
Definition level_argument (d : json) : result Z :=
  match d with
  | JObject fields => int_value (default (JInt 0) (field "level" fields))
  | _ => Raise AttributeError
  end.

Definition group_reply (group_id level : Z) : reply :=
  Reply 200 (JObject [("status", JString "ok"); ("group_id", JInt group_id); ("level", JInt level)]).

Definition bad_group : reply :=
  Reply 400 (JObject [("status", JString "error"); ("message", JString "group_id must be 0-255")]).

Definition _handle_set_group (group_id : string) (body : result json) (t now : Z) (w : web)
    : web * reply :=
  match int_text group_id with
  | Raise e => (w, Failure 400 e)
  | Ok g =>
      if negb ((0 <=? g) && (g <=? 255)) then (w, bad_group)
      else
        match (d ← body; level_argument d) with
        | Raise e => (w, Failure 400 e)
        | Ok n =>
            let level := Z.max 0 (Z.min 255 n) in
            let w := on_emulator (set_group_level g level) w in
            let '(w, r) := command_group g level t now w in
            (w, match r with Ok _ => group_reply g level | Raise e => Failure 400 e end)
        end
  end.

(** ** Connections *)

Definition settings_of (d : list (string * json)) : result settings :=
  reconnect ← get_item "reconnect" d;
  interval ← get_item "reconnect_interval" d;
  attempts ← get_item "max_reconnect_attempts" d;
  timeout ← get_item "connect_timeout" d;
  timesync ← get_item "timesync_frequency" d;
  clock ← get_item "handle_clock_requests" d;
  Ok {| Esp32.reconnect := reconnect; Esp32.reconnect_interval := interval;
        Esp32.max_reconnect_attempts := attempts; Esp32.connect_timeout := timeout;
        Esp32.timesync_frequency := timesync; Esp32.handle_clock_requests := clock |}.

Definition esp32_config (d : list (string * json)) : result ESP32Config :=
  m ← get_item "connection_mode" d;
  match m with
  | JString "wifi" =>
      h ← get_item "wifi_host" d; p ← get_item "wifi_port" d; s ← settings_of d; Ok (wifi h p s)
  | _ =>
      f ← get_item "serial_device" d; b ← get_item "serial_baudrate" d; s ← settings_of d;
      Ok (serial f b s)
  end.

(** [await self._esp32_connection.disconnect()] of connection [k] *)
Definition disconnect_held (w : web) : web :=
  match current w with
  | Some k =>
      match connections w !! k with
      | Some c =>
          let '(c, h) := esp32_disconnect c (heap w) in
          with_heap h (with_connections (<[k := c]> (connections w)) (current w) w)
      | None => w
      end
  | None => w
  end.

(** [_handle_connect] up to its wait for the connection, which has the number given
    back; an exception before it is answered at once. *)
Definition connect_begins (w : web) : web * result nat :=
  match esp32_config (config w) with
  | Raise e => (w, Raise e)
  | Ok cfg =>
      let w := disconnect_held w in
      let k := length (connections w) in
      (with_connections (connections w ++ [esp32_connect_starts (esp32_init cfg)]) (Some k) w, Ok k)
  end.

(** The rest of [_handle_connect]. A handler that is cancelled does not answer. *)
Definition connect_finishes (k : nat) (o : connect_outcome) (w : web) : web * option reply :=
  match connections w !! k with
  | None => (w, None)
  | Some c =>
      let '(c, h, r) := esp32_connect_ends None o c (heap w) in
      (with_heap h (with_connections (<[k := c]> (connections w)) (current w) w),
       match r with
       | Returned => Some (Reply 200 (JObject [("status", JString "ok"); ("message", JString "Connected")]))
       | RaisedTransportError => Some (TransportFailure 500)
       | RaisedCancelled => None
       end)
  end.

Definition _handle_disconnect (w : web) : web * reply :=
  let w := disconnect_held w in
  (with_connections (connections w) None w,
   Reply 200 (JObject [("status", JString "ok"); ("message", JString "Disconnected")])).

(** ** Requests *)

Inductive request :=
| GetConfig
| PostConfig (body : result json)
| GetStatus
| GetGroups
| PostLevel (group_id : string) (body : result json) (t now : Z)
| PostConnect
| PostDisconnect.

(** What happens: a request, the end of a connection's wait, the loss of a
    protocol's connection, and what clients of the bridge and the tasks of a
    protocol do. *)
Inductive web_event :=
| Asked (q : request)
| ConnectEnds (k : nat) (o : connect_outcome)
| Lost (i : nat)
| BridgeRuns (f : emulator -> emulator)
| ClientRuns (i : nat) (f : pci -> pci).

Definition answer (q : request) (w : web) : web * option reply :=
  match q with
  | GetConfig => (w, Some (_handle_get_config w))
  | PostConfig body => let '(w, r) := _handle_set_config body w in (w, Some r)
  | GetStatus => (w, Some (_handle_get_status w))
  | GetGroups => (w, Some (_handle_get_groups w))
  | PostLevel group_id body t now =>
      let '(w, r) := _handle_set_group group_id body t now w in (w, Some r)
  | PostConnect =>
      match connect_begins w with
      | (w, Ok _) => (w, None)
      | (w, Raise e) => (w, Some (Failure 500 e))
      end
  | PostDisconnect => let '(w, r) := _handle_disconnect w in (w, Some r)
  end.

Definition web_step (w : web) (e : web_event) : web :=
  match e with
  | Asked q => fst (answer q w)
  | ConnectEnds k o => fst (connect_finishes k o w)
  | Lost i => with_heap (connection_lost i (heap w)) w
  | BridgeRuns f => on_emulator f w
  | ClientRuns i f => with_heap (at_instance i (fun p => with_client (f (client p)) p) (heap w)) w
  end.

Definition web_run (events : list web_event) (w : web) : web := foldl web_step w events.

(** ** Lemmas *)

(** *** Configurations *)

Lemma field_keys key d : has_key key d = bool_decide (key ∈ map fst d).
Proof.
  unfold has_key. induction d as [|[k v] d IH]; [done|]. cbn [field map fst].
  destruct (String.eqb_spec k key) as [->|Hk].
  - symmetry. apply bool_decide_eq_true. by constructor.
  - rewrite IH. apply bool_decide_ext. rewrite elem_of_cons. naive_solver.
Qed.

Lemma replace_item_keys key v d : map fst (replace_item key v d) = map fst d.
Proof. unfold replace_item. rewrite map_map. by apply map_ext; intros [k old]. Qed.

Lemma field_replace key v k d :
  field k (replace_item key v d) = if String.eqb key k && has_key k d then Some v else field k d.
Proof.
  unfold has_key. induction d as [|[k' old] d IH]; cbn [replace_item map field].
  - by rewrite andb_false_r.
  - fold (replace_item key v d). destruct (String.eqb_spec k' k) as [->|Hk]; [|exact IH].
    rewrite andb_true_r, String.eqb_sym. by destruct (String.eqb key k).
Qed.

Lemma set_item_keys fields key d d' : set_item fields key d = Ok d' -> map fst d' = map fst d.
Proof.
  unfold set_item. destruct key as [| | | |key| |]; try (by intros [= <-]); try done.
  destruct (has_key key d); [|by intros [= <-]]. destruct fields as [fields|]; [|done].
  destruct (get_item key fields); [|done]. intros [= <-]. apply replace_item_keys.
Qed.

Lemma set_items_keys fields ks d : map fst (set_items fields ks d).1 = map fst d.
Proof.
  revert d. induction ks as [|key ks IH]; intros d; [done|]. cbn [set_items].
  destruct (set_item fields key d) as [d'|e] eqn:E; [|done].
  rewrite IH. by eapply set_item_keys.
Qed.

Lemma set_config_keys body w : map fst (config (_handle_set_config body w).1) = map fst (config w).
Proof.
  unfold _handle_set_config. destruct body as [[| | | |s|l|fields]|e]; try done.
  - pose proof (set_items_keys None (map (fun c => JString (String c "")) (list_ascii_of_string s)) (config w)).
    by destruct (set_items _ _ _).
  - pose proof (set_items_keys None l (config w)). by destruct (set_items _ _ _).
  - pose proof (set_items_keys (Some fields) (map (fun '(k, _) => JString k) fields) (config w)).
    by destruct (set_items _ _ _).
Qed.

Lemma set_items_object fields ks d :
  Forall (fun k => has_key k fields = true) ks ->
  let '(d', r) := set_items (Some fields) (map JString ks) d in
  r = Ok tt /\
  forall k, field k d' = if bool_decide (k ∈ ks) && has_key k d then field k fields else field k d.
Proof.
  intros Hks. revert d. induction Hks as [|key ks Hk Hks IH]; intros d; [done|].
  cbn [map set_items set_item]. unfold has_key in Hk.
  destruct (field key fields) as [v|] eqn:Ev; [|done].
  assert (exists d1, (if has_key key d
      then v ← get_item key fields; Ok (replace_item key v d) else Ok d) = Ok d1 /\
      forall k, field k d1 = if bool_decide (k = key) && has_key k d then field k fields else field k d)
    as (d1 & -> & H1).
  { unfold get_item. rewrite Ev, bind_Ok. destruct (has_key key d) eqn:Eh.
    - eexists. split; [done|]. intros k. rewrite field_replace.
      destruct (String.eqb_spec key k) as [->|Hne].
      + by rewrite bool_decide_true, Eh, Ev.
      + by rewrite bool_decide_false by congruence.
    - eexists. split; [done|]. intros k. case_bool_decide as E; [|done]. subst. by rewrite Eh. }
  specialize (IH d1). destruct (set_items _ _ d1) as [d' r]. destruct IH as [-> Hd].
  split; [done|]. intros k. rewrite Hd.
  assert (has_key k d1 = has_key k d) as ->.
  { unfold has_key at 1. rewrite H1. unfold has_key.
    destruct (decide (k = key)) as [->|Hne].
    - rewrite bool_decide_true by done. cbn [andb]. unfold has_key.
      destruct (field key d); [by rewrite Ev|done].
    - by rewrite bool_decide_false. }
  rewrite H1. destruct (has_key k d) eqn:Eh; [|by rewrite !andb_false_r].
  rewrite !andb_true_r. destruct (decide (k = key)) as [->|Hne].
  - rewrite (bool_decide_true (key = key)), (bool_decide_true (key ∈ key :: ks)) by (done || constructor).
    by destruct (bool_decide _).
  - rewrite (bool_decide_false (k = key)) by done.
    rewrite (bool_decide_ext (k ∈ key :: ks) (k ∈ ks)); [done|]. rewrite elem_of_cons. naive_solver.
Qed.

(** *** Commands *)

Lemma start_send_transport calls t now st :
  _transport (start_send calls t now st) = _transport st.
Proof.
  unfold start_send. destruct calls as [|c rest]; [done|].
  destruct (_prepare_packet c t now (confs st)) as [[[confs' data] code]|]; [|done].
  change (_transport (with_confs st confs')) with (_transport st).
  destruct (_transport st) eqn:E; exact E.
Qed.

(** The message of a level. *)
Definition level_message (g level : Z) : LightingSAL :=
  if level =? 255 then LightingOnSAL g 0x38
  else if level =? 0 then LightingOffSAL g 0x38
  else LightingRampSAL g 0x38 0 level.

Lemma level_message_obeyed g level em :
  0 <= level <= 255 -> obey (level_message g level) em = set_group_level g level em.
Proof.
  intros Hl. unfold level_message. destruct (Z.eqb_spec level 255) as [->|]; [done|].
  by destruct (Z.eqb_spec level 0) as [->|].
Qed.

Lemma level_message_valid g level :
  byte_ok g -> byte_ok level ->
  packet_valid (PointToMultipointPacket command_header (Some 0x38) [SLighting (level_message g level)]).
Proof.
  intros Hg Hl. repeat split; try done. constructor; [|constructor].
  unfold level_message. destruct (level =? 255); [|destruct (level =? 0)]; simpl;
    repeat split; try apply Hg; try apply Hl; done.
Qed.

Lemma level_command_packet g level :
  byte_ok g -> byte_ok level ->
  level_command g level =
    Ok (PointToMultipointPacket command_header (Some 0x38) [SLighting (level_message g level)]).
Proof.
  intros Hg Hl. assert (Forall byte_ok [g]) as Hgs by (by apply Forall_singleton).
  assert (forall m, lighting_application m = 0x38 ->
    pm_command [SLighting m] = Ok (PointToMultipointPacket command_header (Some 0x38) [SLighting m])) as Hpm.
  { intros m Hm. apply pm_command_ok; [done|]. by apply Forall_singleton. }
  unfold level_command, level_message.
  destruct (level =? 255); [|destruct (level =? 0)].
  - unfold lighting_group_on. cbn [_normalize_group_addrs length Nat.ltb Nat.leb].
    rewrite bind_Ok, (lighting_sals_ok LightingOnSAL 0x38 [g]), bind_Ok by done.
    exact (Hpm (LightingOnSAL g 0x38) eq_refl).
  - unfold lighting_group_off. cbn [_normalize_group_addrs length Nat.ltb Nat.leb].
    rewrite bind_Ok, (lighting_sals_ok LightingOffSAL 0x38 [g]), bind_Ok by done.
    exact (Hpm (LightingOffSAL g 0x38) eq_refl).
  - unfold lighting_group_ramp. by rewrite (lighting_init_ok 0x38), bind_Ok, Hpm.
Qed.

(** A command of a level, sent by a connected client, and a bridge that reads it. *)
Lemma level_sent g level t now st tr :
  byte_ok g -> byte_ok level -> confirmations_inv (confs st) -> _transport st = Some tr ->
  exists p st' s k,
    level_command g level = Ok p /\ send p t now st = (st', Ok tt) /\
    sends st' = sends st ++ [s] /\ s_transport s = tr /\
    forall em, emulator_process (s_data s) em =
      ([], set_group_level g level em, ([[k] ++ [46] ++ END_RESPONSE], Ok tt)).
Proof.
  intros Hg Hl Hi Ht. rewrite level_command_packet by done.
  pose proof (level_message_valid g level Hg Hl) as Hv.
  destruct (command_bytes 0x38 [SLighting (level_message g level)] Hv) as (o & Ho & Hob & He).
  destruct (prepared_text (PointToMultipointPacket command_header (Some 0x38)
    [SLighting (level_message g level)]) _ t now (confs st) Hi eq_refl eq_refl He) as (confs' & k & Hp & Hk).
  eexists _, _, _, k. split; [done|]. unfold send, command_call, start_send. rewrite Hp.
  change (_transport (with_confs st confs')) with (_transport st). rewrite Ht.
  split; [done|]. split; [done|]. split; [done|]. intros em0. cbn [s_data].
  rewrite (command_obeyed (level_message g level) [] o k em0 Ho Hob Hk).
  rewrite level_message_obeyed; [done|]. unfold byte_ok in Hl. lia.
Qed.

Lemma held_protocol_emulator f w : held_protocol (on_emulator f w) = held_protocol w.
Proof. done. Qed.

(** ** Properties *)

(** C27. Setting a level in the web interface sets it everywhere. A post of a level
    for a group from 0 to 255 (a number or its text, clamped to 0 to 255), while
    the server holds a connected client: the answer reports the level; the level of
    the emulated bridge of the server is set; and the client queues one write on
    its connection, which any bridge, once it reads it, confirms and obeys by
    setting the same group to the same level. Nothing else of the server's state
    changes. *)
Theorem group_set_everywhere group_id fields t now w g n i p tr :
  int_text group_id = Ok g -> byte_ok g ->
  int_value (default (JInt 0) (field "level" fields)) = Ok n ->
  held_protocol w = Some i -> instances (heap w) !! i = Some p ->
  _transport (client p) = Some tr -> confirmations_inv (confs (client p)) ->
  let level := Z.max 0 (Z.min 255 n) in
  exists st s k,
    _handle_set_group group_id (Ok (JObject fields)) t now w =
      (with_heap (at_instance i (with_client st) (heap w)) (on_emulator (set_group_level g level) w),
       group_reply g level) /\
    sends st = sends (client p) ++ [s] /\ s_transport s = tr /\
    forall em, emulator_process (s_data s) em =
      ([], set_group_level g level em, ([[k] ++ [46] ++ END_RESPONSE], Ok tt)).
Proof.
  intros Hg Hgb Hn Hh Hp Ht Hi level.
  assert (byte_ok level) as Hl by (unfold byte_ok, level; lia).
  destruct (level_sent g level t now (client p) tr Hgb Hl Hi Ht)
    as (c & st & s & k & Hc & Hs & Hq & Htr & Hem).
  exists st, s, k. split; [|done]. unfold _handle_set_group. rewrite Hg.
  replace ((0 <=? g) && (g <=? 255)) with true
    by (unfold byte_ok in Hgb; symmetry; apply andb_true_intro; lia).
  cbn [negb]. unfold level_argument. rewrite bind_Ok, Hn. fold level.
  unfold command_group. rewrite held_protocol_emulator, Hh.
  change (heap (on_emulator (set_group_level g level) w)) with (heap w). by rewrite Hp, Hc, Hs.
Qed.

Definition sample_bridge : bridge :=
  {| em := emulator_init 256; is_running := true; actual_port := 10001; device_info := [] |}.

(** A server with a bridge and a connection. *)
Definition sample_web : web :=
  web_run [Asked (PostConfig (Ok (JObject [("wifi_host", JString "10.0.0.1"); ("colour", JNull)])));
           Asked PostConnect; ConnectEnds 0 Established] (web_init (Some sample_bridge)).

Example group_set_everywhere_witness :
  exists w' s,
    _handle_set_group "7" (Ok (JObject [("level", JString "200")])) 0 0 sample_web =
      (w', group_reply 7 200) /\
    (get_group_level 7 ∘ em) <$> emulated w' = Some 200 /\
    exists k, emulator_process (s_data s) (emulator_init 256) =
      ([], set_group_level 7 200 (emulator_init 256), ([[k] ++ [46] ++ END_RESPONSE], Ok tt)).
Proof.
  destruct (instances (heap sample_web) !! 0%nat) as [p|] eqn:Ep; [|discriminate].
  assert (client p = connection_made 0 pci_init) as Ec.
  { vm_compute in Ep. injection Ep as <-. reflexivity. }
  assert (byte_ok 7) as Hb by (split; reflexivity || discriminate).
  assert (confirmations_inv (confs (client p))) as Hi by (rewrite Ec; exact no_confirmations_inv).
  assert (_transport (client p) = Some 0%nat) as Ht by (rewrite Ec; reflexivity).
  destruct (group_set_everywhere "7" [("level", JString "200")] 0 0 sample_web 7 200 0 p 0
    eq_refl Hb eq_refl eq_refl Ep Ht Hi) as (st & s & k & Hr & _ & _ & He).
  eexists _, s. split; [exact Hr|]. split; [reflexivity|]. exists k. exact (He (emulator_init 256)).
Defined.

(** The keys of the configuration are fixed: whatever happens, they are the ones the
    server started with, in their order. *)
Theorem config_keys_fixed e events :
  map fst (config (web_run events (web_init e))) = map fst default_config.
Proof.
  change default_config with (config (web_init e)). generalize (web_init e).
  induction events as [|ev events IH]; intros w; [done|]. cbn [web_run foldl].
  unfold web_run in IH. rewrite IH. clear IH.
  assert (forall w, config (disconnect_held w) = config w) as Hd.
  { intros w'. unfold disconnect_held. destruct (current w') as [k|]; [|done].
    destruct (connections w' !! k) as [c|]; [|done]. by destruct (esp32_disconnect c (heap w')). }
  destruct ev as [q|k o|i|f|i f]; cbn [web_step]; try done.
  - destruct q as [|body| | |g body t now| |]; cbn [answer]; try done.
    + pose proof (set_config_keys body w). by destruct (_handle_set_config body w).
    + assert (config (_handle_set_group g body t now w).1 = config w) as <-;
        [|by destruct (_handle_set_group g body t now w)].
      unfold _handle_set_group. destruct (int_text g) as [n|]; [|done]. destruct (negb _); [done|].
      destruct (d ← body; level_argument d) as [m|]; [|done]. cbv zeta.
      set (w' := on_emulator _ w). change (config w) with (config w'). unfold command_group.
      destruct (held_protocol w') as [i|]; [|done].
      destruct (instances (heap w') !! i) as [p|]; [|done].
      destruct (level_command n _) as [c|]; [|done]. by destruct (send c t now (client p)).
    + unfold connect_begins. destruct (esp32_config (config w)); [|done]. cbn. by rewrite Hd.
    + cbn. by rewrite Hd.
  - unfold connect_finishes. destruct (connections w !! k) as [c|]; [|done].
    by destruct (esp32_connect_ends None o c (heap w)) as [[c' h] r].
Qed.

(** What a post of a JSON object does to the configuration: the values of the keys
    that it has are replaced, whatever their types, and others are ignored. *)
Theorem posted_config fields w :
  let '(w', r) := _handle_set_config (Ok (JObject fields)) w in
  r = Reply 200 (JObject [("status", JString "ok"); ("config", JObject (config w'))]) /\
  forall k, field k (config w') =
    if has_key k fields && has_key k (config w) then field k fields else field k (config w).
Proof.
  unfold _handle_set_config.
  pose proof (set_items_object fields (map fst fields) (config w)) as H.
  rewrite map_map in H.
  rewrite (map_ext (fun '(k, _) => JString k) (fun x => JString (fst x))) by (by intros [k v]).
  destruct (set_items _ _ _) as [d r]. destruct H as [-> H].
  { apply Forall_forall. intros k Hk%list_elem_of_In. rewrite field_keys.
    apply bool_decide_eq_true. by apply list_elem_of_In. }
  split; [done|]. intros k. rewrite field_keys. apply H.
Qed.

(** A protocol that lost its connection: the level of the server's own bridge is
    set and the post is refused, while the status still says connected. *)
Theorem lost_protocol_refused group_id fields t now w g n c i p :
  int_text group_id = Ok g -> byte_ok g ->
  int_value (default (JInt 0) (field "level" fields)) = Ok n ->
  held w = Some c -> is_connected (link c) = true -> _protocol c = Some i ->
  instances (heap w) !! i = Some p -> confirmations_inv (confs (client p)) ->
  let w1 := web_step w (Lost i) in
  let '(w2, r) := _handle_set_group group_id (Ok (JObject fields)) t now w1 in
  r = Failure 400 IOError /\
  emulated w2 = emulated (on_emulator (set_group_level g (Z.max 0 (Z.min 255 n))) w) /\
  exists rest, _handle_get_status w2 = Reply 200 (JObject (("connected", JBool true) :: rest)).
Proof.
  intros Hg Hgb Hn Hc Hcon Hpr Hp Hi w1. set (level := Z.max 0 (Z.min 255 n)).
  assert (byte_ok level) as Hl by (unfold byte_ok, level; lia).
  assert (exists p1, instances (heap w1) !! i = Some p1 /\ _transport (client p1) = None /\
    confirmations_inv (confs (client p1))) as (p1 & Hp1 & Ht1 & Hi1).
  { unfold w1. cbn [web_step heap with_heap]. unfold connection_lost. rewrite Hp.
    destruct (_transport (client p)) eqn:Et; [|by exists p].
    eexists. cbn [instances]. rewrite list_lookup_insert_eq by (by apply lookup_lt_Some in Hp).
    split; [done|]. split; [done|]. exact no_confirmations_inv. }
  unfold _handle_set_group. rewrite Hg.
  replace ((0 <=? g) && (g <=? 255)) with true
    by (unfold byte_ok in Hgb; symmetry; apply andb_true_intro; lia).
  cbn [negb]. unfold level_argument. rewrite bind_Ok, Hn. fold level.
  unfold command_group, held_protocol.
  change (held (on_emulator (set_group_level g level) w1)) with (held w). rewrite Hc.
  cbn [mbind option_bind]. rewrite Hpr.
  change (heap (on_emulator (set_group_level g level) w1)) with (heap w1).
  rewrite Hp1, level_command_packet by done. unfold send.
  pose proof (level_message_valid g level Hgb Hl) as Hv.
  destruct (command_bytes 0x38 [SLighting (level_message g level)] Hv) as (o & _ & _ & He).
  destruct (prepared_text (PointToMultipointPacket command_header (Some 0x38)
    [SLighting (level_message g level)]) _ t now (confs (client p1)) Hi1 eq_refl eq_refl He)
    as (confs' & k & Hpk & _).
  unfold command_call. rewrite Hpk, Ht1. split; [done|]. split; [done|].
  unfold _handle_get_status.
  match goal with |- context [held ?w2] => change (held w2) with (held w) end.
  rewrite Hc. unfold connection_status. rewrite Hcon. by eexists.
Qed.

(** ** One connection at a time *)

Definition waits (w : web) : Prop :=
  exists k c, connections w !! k = Some c /\ _state (link c) = CONNECTING.

(** Events in which a connection is made or ended only while no other is awaited,
    and what runs in a protocol leaves its transport. *)
Definition orderly_event (w : web) (e : web_event) : Prop :=
  match e with
  | Asked PostConnect | Asked PostDisconnect => ~ waits w
  | ConnectEnds k _ => exists c, connections w !! k = Some c /\ _state (link c) = CONNECTING
  | ClientRuns _ f => forall st, _transport (f st) = _transport st
  | _ => True
  end.

Fixpoint orderly (w : web) (events : list web_event) : Prop :=
  match events with
  | [] => True
  | e :: events => orderly_event w e /\ orderly (web_step w e) events
  end.

Definition live (w : web) (i : nat) : Prop :=
  exists p, instances (heap w) !! i = Some p /\ _transport (client p) <> None.

(** The connection that is held has the live protocol, and the others are closed. *)
Record one_connection (w : web) : Prop := {
  others_closed : forall k c, connections w !! k = Some c -> current w <> Some k ->
                  _state (link c) = DISCONNECTED;
  live_held : forall i, live w i -> exists c, held w = Some c /\ _state (link c) = CONNECTED /\
              _asyncio_transport (link c) = true /\ link_protocol c = Some i /\ _protocol c = Some i
}.

(** What changes no connection and brings no protocol to life. *)
Lemma one_connection_kept w w' :
  one_connection w -> connections w' = connections w -> current w' = current w ->
  (forall i, live w' i -> live w i) -> one_connection w'.
Proof.
  intros [Ho Hl] Hc Hk Hi. split.
  - intros k c. rewrite Hc, Hk. apply Ho.
  - intros i Hli. unfold held. rewrite Hc, Hk. by apply Hl, Hi.
Qed.

Lemma live_at_instance w i f j :
  (forall p, _transport (client (f p)) = _transport (client p)) ->
  live (with_heap (at_instance i f (heap w)) w) j -> live w j.
Proof.
  intros Hf (p & Hp & Ht). cbn in Hp. unfold live. destruct (decide (i = j)) as [<-|Hne].
  - rewrite list_lookup_alter_eq in Hp. destruct (instances (heap w) !! i) as [q|]; [|done].
    injection Hp as <-. exists q. by rewrite <- Hf.
  - rewrite list_lookup_alter_ne in Hp by done. by exists p.
Qed.

Lemma connection_lost_live i w j :
  live (with_heap (connection_lost i (heap w)) w) j -> live w j /\ i <> j.
Proof.
  intros (p & Hp & Ht). unfold connection_lost in Hp. cbn [heap with_heap] in Hp.
  destruct (instances (heap w) !! i) as [q|] eqn:Eq.
  - destruct (_transport (client q)) as [tr|] eqn:Et; cbn [instances] in Hp.
    + destruct (decide (i = j)) as [<-|Hne].
      * rewrite list_lookup_insert_eq in Hp by (by apply lookup_lt_Some in Eq).
        by injection Hp as <-.
      * rewrite list_lookup_insert_ne in Hp by done. split; [by exists p|done].
    + split; [by exists p|]. intros <-. congruence.
  - split; [by exists p|]. intros <-. congruence.
Qed.

Lemma disconnect_state t : _state (disconnect t) = DISCONNECTED.
Proof. unfold disconnect. destruct (_state t) eqn:E; [done|apply set_state_state..]. Qed.

(** Disconnecting while nothing is awaited closes the only live protocol. *)
Lemma disconnect_held_closes w :
  one_connection w -> ~ waits w ->
  let w' := disconnect_held w in
  (forall k c, connections w' !! k = Some c -> _state (link c) = DISCONNECTED) /\
  (forall i, ~ live w' i) /\ length (connections w') = length (connections w).
Proof.
  intros [Ho Hl] Hw. cbv zeta. unfold disconnect_held.
  destruct (current w) as [k|] eqn:Ek.
  2:{ split; [intros k c Hc; by apply (Ho k)|]. split; [|done]. intros i (c & Hc & _)%Hl.
      unfold held in Hc. by rewrite Ek in Hc. }
  destruct (connections w !! k) as [c|] eqn:Ec.
  2:{ split; [intros j c Hc; apply (Ho j); [done|congruence]|]. split; [|done].
      intros i (c & Hc & _)%Hl. unfold held in Hc. rewrite Ek in Hc. cbn in Hc. congruence. }
  assert (held w = Some c) as Hheld by (unfold held; by rewrite Ek).
  destruct (esp32_disconnect c (heap w)) as [c' h] eqn:Ed.
  assert (_state (link c') = DISCONNECTED) as Hs.
  { unfold esp32_disconnect in Ed. case_bool_decide as E; injection Ed as <- _; [done|].
    apply disconnect_state. }
  split; [|split].
  - intros j d. cbn [connections with_heap with_connections].
    intros [(<- & <- & _)|[Hne Hd]]%list_lookup_insert_Some; [done|]. apply (Ho j d Hd). congruence.
  - intros i Hi. assert (live (with_heap h w) i) as Hi' by exact Hi. clear Hi.
    unfold esp32_disconnect in Ed. case_bool_decide as E.
    + injection Ed as _ <-. destruct (Hl i Hi') as (c0 & Hc0 & Hs0 & _).
      rewrite Hheld in Hc0. injection Hc0 as <-. congruence.
    + injection Ed as _ <-.
      assert (live w i) as Hlw.
      { destruct (link_protocol c) as [j|]; [|done].
        destruct (_asyncio_transport (link c)); [|done]. by apply connection_lost_live in Hi' as [? _]. }
      destruct (Hl i Hlw) as (c0 & Hc0 & _ & Ha & Hlp & _). rewrite Hheld in Hc0. injection Hc0 as <-.
      rewrite Hlp, Ha in Hi'. by apply connection_lost_live in Hi' as [_ ?].
  - cbn. apply length_insert.
Qed.

Lemma begins_one w :
  one_connection w -> ~ waits w -> one_connection (connect_begins w).1.
Proof.
  intros H Hw. unfold connect_begins. destruct (esp32_config (config w)) as [cfg|]; [|done].
  destruct (disconnect_held_closes w H Hw) as (Hc & Hl & _). cbn [fst]. split.
  - intros k c. cbn [connections current with_connections].
    intros [Hk|[Hlen Hk]]%lookup_app_Some Hne; [by apply (Hc k)|].
    destruct (k - length (connections (disconnect_held w)))%nat eqn:E; [|done].
    exfalso. apply Hne. f_equal. lia.
  - intros i Hi. destruct (Hl i). exact Hi.
Qed.

Lemma established_live w i :
  live (with_heap (at_instance (length (instances (heap w)))
    (fun p => with_client (connection_made (length (instances (heap w))) (client p)) p)
    {| instances := instances (heap w) ++
         [{| client := pci_init; lost_future := length (futures (heap w)) |}];
       futures := futures (heap w) ++ [false] |}) w) i ->
  live w i \/ i = length (instances (heap w)).
Proof.
  intros (p & Hp & Ht). cbn in Hp. destruct (decide (i = length (instances (heap w)))) as [|Hne]; [by right|].
  left. exists p. rewrite list_lookup_alter_ne in Hp by congruence.
  apply lookup_app_Some in Hp as [Hp|[Hge Hp]]; [done|].
  destruct (i - length (instances (heap w)))%nat eqn:E; [lia|done].
Qed.

Lemma finishes_one w k o :
  one_connection w ->
  (exists c, connections w !! k = Some c /\ _state (link c) = CONNECTING) ->
  one_connection (connect_finishes k o w).1.
Proof.
  intros [Ho Hl] (c & Hc & Hs). unfold connect_finishes. rewrite Hc.
  assert (current w = Some k) as Hk.
  { destruct (decide (current w = Some k)) as [|Hne]; [done|]. rewrite (Ho k c Hc Hne) in Hs. done. }
  assert (held w = Some c) as Hheld by (unfold held; by rewrite Hk).
  assert (forall i, ~ live w i) as Hdead.
  { intros i (c0 & Hc0 & Hs0 & _)%Hl. rewrite Hheld in Hc0. injection Hc0 as <-. congruence. }
  assert (forall c' h, (forall i, live (with_heap h w) i -> _state (link c') = CONNECTED /\
      _asyncio_transport (link c') = true /\ link_protocol c' = Some i /\ _protocol c' = Some i) ->
    one_connection (with_heap h (with_connections (<[k := c']> (connections w)) (current w) w))) as Hmain.
  { intros c' h H. split.
    - intros j d. cbn [connections current with_heap with_connections].
      intros [(<- & <- & _)|[Hne Hd]]%list_lookup_insert_Some Hcur; [by rewrite Hk in Hcur|].
      by apply (Ho j).
    - intros i Hi. exists c'. unfold held. cbn [connections current with_heap with_connections].
      rewrite Hk. cbn [mbind option_bind]. rewrite list_lookup_insert_eq by (by apply lookup_lt_Some in Hc).
      split; [done|]. by apply H. }
  unfold esp32_connect_ends. destruct o; cbn [connect_ends fst].
  - apply Hmain. intros i Hi. apply established_live in Hi as [Hi|Hi]; [by destruct (Hdead i)|]. subst i. cbn.
    split; [apply set_state_state|]. split; [|done]. unfold _set_state. by case_bool_decide.
  - apply Hmain. intros i Hi. by destruct (Hdead i).
  - apply Hmain. intros i Hi. by destruct (Hdead i).
  - apply Hmain. intros i Hi. by destruct (Hdead i).
Qed.

Lemma set_group_one g body t now w :
  one_connection w -> one_connection (_handle_set_group g body t now w).1.
Proof.
  intros H. unfold _handle_set_group. destruct (int_text g) as [n|]; [|done].
  destruct (negb _); [done|]. destruct (d ← body; level_argument d) as [m|]; [|done]. cbv zeta.
  set (w1 := on_emulator _ w). assert (one_connection w1) as H1 by (by apply (one_connection_kept w)).
  clearbody w1. clear H w. unfold command_group.
  destruct (held_protocol w1) as [i|]; [|done].
  destruct (instances (heap w1) !! i) as [p|] eqn:Ep; [|done].
  destruct (level_command n _) as [c|]; [|done]. unfold send. cbn [fst].
  pose proof (start_send_transport [command_call c] t now (client p)) as Hst.
  revert Hst. generalize (start_send [command_call c] t now (client p)). intros st Hst.
  apply (one_connection_kept w1); [done..|]. intros j (q & Hq & Ht).
  cbn [heap with_heap at_instance instances] in Hq.
  destruct (decide (i = j)) as [<-|Hne].
  - rewrite list_lookup_alter_eq, Ep in Hq. injection Hq as <-.
    exists p. split; [done|]. cbn in Ht. by rewrite <- Hst.
  - rewrite list_lookup_alter_ne in Hq by done. by exists q.
Qed.

Lemma orderly_step w e : one_connection w -> orderly_event w e -> one_connection (web_step w e).
Proof.
  intros H He. destruct e as [q|k o|i|f|i f]; cbn [web_step orderly_event] in *.
  - destruct q as [|body| | |g body t now| |]; cbn [answer]; try done.
    + unfold _handle_set_config. destruct (match body with Ok _ => _ | Raise _ => _ end).
      by apply (one_connection_kept w).
    + pose proof (set_group_one g body t now w H). by destruct (_handle_set_group g body t now w).
    + pose proof (begins_one w H He). by destruct (connect_begins w) as [? []].
    + cbn. destruct (disconnect_held_closes w H He) as (Hc & Hl & _).
      split; [intros k c Hk _; by apply (Hc k)|]. intros i Hi. destruct (Hl i). exact Hi.
  - by apply finishes_one.
  - apply (one_connection_kept w); [done..|]. intros j Hj. by apply connection_lost_live in Hj as [? _].
  - by apply (one_connection_kept w).
  - apply (one_connection_kept w); [done..|]. intros j. apply live_at_instance. intros p. apply He.
Qed.

(** While connections are asked for one after the other, at most one protocol is
    connected, and it is the one that posted levels go to. *)
Theorem connections_exclusive e events :
  orderly (web_init e) events -> one_connection (web_run events (web_init e)).
Proof.
  assert (one_connection (web_init e)) as H.
  { split; [by intros [|k]|]. by intros [|i] (p & Hp & _). }
  revert H. generalize (web_init e). induction events as [|ev events IH]; intros w Hw; [done|].
  intros [He Ho]. by apply IH; [apply orderly_step|].
Qed.

(** Two requests to connect that overlap: both connections are made, and the first
    one stays connected with nobody to close it. *)
Example overlapping_requests_leak :
  let w := web_run [Asked PostConnect; Asked PostConnect; ConnectEnds 0 Established;
                    ConnectEnds 1 Established; Asked PostDisconnect] (web_init None) in
  current w = None /\ is_connected <$> (link <$> connections w !! 0%nat) = Some true /\
  (_transport ∘ client) <$> instances (heap w) = [Some 0%nat; None].
Proof. by vm_compute. Qed.
