(* ===== verification/PyJson.v ===== *)
(** * Packets as JSON: [lib/pyjson.py] of [src/rust-migration-harness]

    The canonical JSON of packets and what is built from it again, with the
    recording and the check of the vectors that hold it ([emit] of
    [generate_vectors.py], [check_encode] of [suites/verify_vectors.py]).

    A field of JSON may hold any type, and python keeps what it finds. The objects
    of the other files have fields of one type each, so a load ends in one of
    three ways: the object, an exception, or [Untyped] when a field has a type
    that the class does not announce. Nothing is claimed of [Untyped] loads. *)

From S2P Require Import Prelude Common Hex Report Cal Lighting Enable StatusRequest.
From S2P Require Import Temperature Clock Application Packet Decode Text Gateway.
From Stdlib Require Import String Ascii QArith.
From stdpp Require Import options.

Local Open Scope string_scope.
Local Open Scope list_scope.
Local Open Scope Z_scope.
#[local] Obligation Tactic := idtac.

(** ** Loads *)

Inductive load (A : Type) : Type :=
| Loaded (a : A)
| Failed (e : exn)
| Untyped.
Arguments Loaded {A} a.
Arguments Failed {A} e.
Arguments Untyped {A}.

#[export] Instance load_ret : MRet load := fun A a => Loaded a.
#[export] Instance load_bind : MBind load :=
  fun A B f m => match m with Loaded a => f a | Failed e => Failed e | Untyped => Untyped end.
#[export] Instance load_fmap : FMap load :=
  fun A B f m => match m with Loaded a => Loaded (f a) | Failed e => Failed e
                             | Untyped => Untyped end.

Definition call {A} (r : result A) : load A :=
  match r with Ok a => Loaded a | Raise e => Failed e end.

Fixpoint mapM_load {A B} (f : A -> load B) (l : list A) : load (list B) :=
  match l with
  | [] => Loaded []
  | x :: l => y ← f x; ys ← mapM_load f l; Loaded (y :: ys)
  end.

(** [d[key]] *)
Definition get (d : json) (key : string) : load json :=
  match d with
  | JObject fields => match field key fields with Some v => Loaded v | None => Failed KeyError end
  | _ => Failed TypeError
  end.

(** [k == key] *)
Definition is_str (key : string) (k : json) : bool :=
  match k with JString s => String.eqb s key | _ => false end.

(** Values for a field of one type: [True] is the integer 1. *)
Definition as_int (j : json) : load Z :=
  match j with JInt n => Loaded n | JBool b => Loaded (Z.b2z b) | _ => Untyped end.

Definition as_bool (j : json) : load bool :=
  match j with JBool b => Loaded b | _ => Untyped end.

Definition as_float (j : json) : load Q :=
  match j with
  | JFloat (Finite q) => Loaded q
  | JInt n => Loaded (inject_Z n)
  | JBool b => Loaded (inject_Z (Z.b2z b))
  | _ => Untyped
  end.

Definition as_level (j : json) : load (option Z) :=
  match j with JNull => Loaded None | _ => Some <$> as_int j end.

Definition as_list (j : json) : load (list json) :=
  match j with JArray l => Loaded l | _ => Untyped end.

(** [for x in j]: the values of a list, the characters of a text, the keys of
    an object. *)
Definition iterate (j : json) : load (list json) :=
  match j with
  | JArray l => Loaded l
  | JString s => Loaded (map (fun c => JString (String c "")) (list_ascii_of_string s))
  | JObject fields => Loaded (map (fun '(k, _) => JString k) fields)
  | _ => Failed TypeError
  end.

(** ** Texts of bytes *)

(** [bytes.hex()] *)
Definition bytes_hex (b : bytes) : string := text_of (hex_lower b).

Definition bytes_fromhex (j : json) : load bytes :=
  match j with JString s => call (fromhex (txt s)) | _ => Failed TypeError end.

(** [b.decode('ascii')] and [b.decode('latin-1')] *)
Definition decode_ascii (b : bytes) : result string :=
  if forallb (fun c => (0 <=? c) && (c <? 128)) b then Ok (text_of b) else Raise UnicodeError.

Definition decode_latin1 (b : bytes) : string := text_of b.

(** ** SALs *)

Definition sal_to_json (s : SAL) : json :=
  match s with
  | SLighting (LightingRampSAL g a duration level) =>
      JObject [("sal", JString "lighting_ramp"); ("application", JInt a);
               ("group_address", JInt g); ("duration", JInt duration); ("level", JInt level)]
  | SLighting (LightingOnSAL g a) =>
      JObject [("sal", JString "lighting_on"); ("application", JInt a);
               ("group_address", JInt g)]
  | SLighting (LightingOffSAL g a) =>
      JObject [("sal", JString "lighting_off"); ("application", JInt a);
               ("group_address", JInt g)]
  | SLighting (LightingTerminateRampSAL g a) =>
      JObject [("sal", JString "lighting_terminate_ramp"); ("application", JInt a);
               ("group_address", JInt g)]
  | SClock ClockRequestSAL => JObject [("sal", JString "clock_request")]
  | SClock (ClockUpdateSAL (VDate d)) =>
      JObject [("sal", JString "clock_update_date"); ("year", JInt (year d));
               ("month", JInt (month d)); ("day", JInt (day d))]
  | SClock (ClockUpdateSAL (VTime t)) =>
      JObject [("sal", JString "clock_update_time"); ("hour", JInt (hour t));
               ("minute", JInt (minute t)); ("second", JInt (second t))]
  | STemperature (TemperatureBroadcastSAL g t) =>
      JObject [("sal", JString "temperature_broadcast"); ("group_address", JInt g);
               ("temperature", JFloat (Finite t))]
  | SEnable (EnableSetNetworkVariableSAL variable v) =>
      JObject [("sal", JString "enable_set_network_variable"); ("variable", JInt variable);
               ("value", JInt v)]
  | SStatusRequest s =>
      JObject [("sal", JString "status_request"); ("level_request", JBool (sr_level_request s));
               ("group_address", JInt (sr_group_address s));
               ("child_application", JInt (sr_child_application s))]
  end.

(** An argument of [date(...)] or [time(...)]: a C [int]. *)
Definition c_int (n : Z) : result Z :=
  if (-(2 ^ 31) <=? n) && (n <? 2 ^ 31) then Ok n else Raise OverflowError.

Definition lighting_from_json (make : Z -> Z -> LightingSAL) (g a : json) : load SAL :=
  g ← as_int g; a ← as_int a;
  SLighting <$> call (lighting_init (make g a)).

Definition three_ints (x y z : json) : load (Z * Z * Z) :=
  x ← as_int x; y ← as_int y; z ← as_int z;
  x ← call (c_int x); y ← call (c_int y); z ← call (c_int z);
  Loaded (x, y, z).

Definition sal_from_json (d : json) : load SAL :=
  k ← get d "sal";
  if is_str "lighting_on" k then
    g ← get d "group_address"; a ← get d "application";
    lighting_from_json LightingOnSAL g a
  else if is_str "lighting_off" k then
    g ← get d "group_address"; a ← get d "application";
    lighting_from_json LightingOffSAL g a
  else if is_str "lighting_terminate_ramp" k then
    g ← get d "group_address"; a ← get d "application";
    lighting_from_json LightingTerminateRampSAL g a
  else if is_str "lighting_ramp" k then
    g ← get d "group_address"; a ← get d "application";
    duration ← get d "duration"; level ← get d "level";
    duration ← as_int duration; level ← as_int level;
    lighting_from_json (fun g a => LightingRampSAL g a duration level) g a
  else if is_str "clock_request" k then Loaded (SClock ClockRequestSAL)
  else if is_str "clock_update_date" k then
    y ← get d "year"; m ← get d "month"; dd ← get d "day";
    '(y, m, dd) ← three_ints y m dd;
    v ← call (date_call y m dd);
    Loaded (SClock (ClockUpdateSAL (VDate v)))
  else if is_str "clock_update_time" k then
    h ← get d "hour"; m ← get d "minute"; s ← get d "second";
    '(h, m, s) ← three_ints h m s;
    v ← call (time_call h m s);
    Loaded (SClock (ClockUpdateSAL (VTime v)))
  else if is_str "temperature_broadcast" k then
    g ← get d "group_address"; t ← get d "temperature";
    g ← as_int g; t ← as_float t;
    Loaded (STemperature (TemperatureBroadcastSAL g t))
  else if is_str "enable_set_network_variable" k then
    variable ← get d "variable"; v ← get d "value";
    variable ← as_int variable; v ← as_int v;
    Loaded (SEnable (EnableSetNetworkVariableSAL variable v))
  else if is_str "status_request" k then
    level_request ← get d "level_request"; g ← get d "group_address";
    child ← get d "child_application";
    level_request ← as_bool level_request; g ← as_int g; child ← as_int child;
    Loaded (SStatusRequest {| sr_level_request := level_request; sr_group_address := g;
                              sr_child_application := child |})
  else Failed ValueError.

(** ** CALs and status reports *)

Definition level_json (v : option Z) : json :=
  match v with Some v => JInt v | None => JNull end.

Definition report_to_json (r : StatusReport) : json :=
  match r with
  | BinaryStatusReport states =>
      JObject [("report", JString "binary");
               ("group_states", JArray (map (fun g => JInt (value g)) states))]
  | LevelStatusReport levels =>
      JObject [("report", JString "level"); ("levels", JArray (map level_json levels))]
  end.

Definition group_state_from_json (g : json) : load GroupState.t :=
  g ← as_int g; call (enum_call g).

Definition report_from_json (d : json) : load StatusReport :=
  k ← get d "report";
  if is_str "binary" k then
    l ← get d "group_states"; l ← iterate l;
    BinaryStatusReport <$> mapM_load group_state_from_json l
  else
    k ← get d "report";
    if is_str "level" k then
      l ← get d "levels"; l ← as_list l;
      LevelStatusReport <$> mapM_load as_level l
    else Failed ValueError.

(** The fields of the object, in order. *)
Definition cal_fields (c : AnyCAL) : list (string * json) :=
  match c with
  | IdentifyCAL attribute => [("cal", JString "identify"); ("attribute", JInt attribute)]
  | RecallCAL param count =>
      [("cal", JString "recall"); ("param", JInt param); ("count", JInt count)]
  | ReplyCAL parameter data =>
      [("cal", JString "reply"); ("parameter", JInt parameter);
       ("data_hex", JString (bytes_hex data))]
  | ExtendedCAL ext child start report =>
      [("cal", JString "extended_status"); ("externally_initiated", JBool ext);
       ("child_application", JInt child); ("block_start", JInt start);
       ("report", report_to_json report)]
  end.

Definition cal_to_json (c : AnyCAL) : json := JObject (cal_fields c).

Definition cal_from_json (d : json) : load AnyCAL :=
  k ← get d "cal";
  if is_str "identify" k then
    a ← get d "attribute"; a ← as_int a; Loaded (IdentifyCAL a)
  else if is_str "recall" k then
    p ← get d "param"; n ← get d "count"; p ← as_int p; n ← as_int n;
    Loaded (RecallCAL p n)
  else if is_str "reply" k then
    p ← get d "parameter"; h ← get d "data_hex"; data ← bytes_fromhex h; p ← as_int p;
    Loaded (ReplyCAL p data)
  else if is_str "extended_status" k then
    ext ← get d "externally_initiated"; child ← get d "child_application";
    start ← get d "block_start"; r ← get d "report"; r ← report_from_json r;
    ext ← as_bool ext; child ← as_int child; start ← as_int start;
    Loaded (ExtendedCAL ext child start r)
  else Failed ValueError.

(** ** Packets *)

Definition _conf_to_json (confirmation : option bytes) : result json :=
  match confirmation with
  | None => Ok JNull
  | Some c => JString <$> decode_ascii c
  end.

Definition int_or_null (v : option Z) : json :=
  match v with Some v => JInt v | None => JNull end.

(** The fields after the type that the three packets with a header share. *)
Definition header_fields (h : header) : result (list (string * json)) :=
  confirmation ← _conf_to_json (confirmation h);
  Ok [("checksum", JBool (checksum h)); ("priority_class", JInt (value (priority_class h)));
      ("source_address", int_or_null (source_address h)); ("confirmation", confirmation)].

(** [packet_to_json], whose [None] is [JNull]. *)
Definition packet_to_json (p : option decoded) : result json :=
  match p with
  | None => Ok JNull
  | Some (DCal c) => Ok (JObject (("type", JString "cal") :: cal_fields c))
  | Some (DPacket p) =>
      match p with
      | InvalidPacket _ _ => Ok (JObject [("type", JString "invalid")])
      | PowerOnPacket => Ok (JObject [("type", JString "power_on")])
      | PCIErrorPacket => Ok (JObject [("type", JString "pci_error")])
      | ConfirmationPacket code success =>
          code ← decode_ascii code;
          Ok (JObject [("type", JString "confirmation"); ("code", JString code);
                       ("success", JBool success)])
      | ResetPacket => Ok (JObject [("type", JString "reset")])
      | SmartConnectShortcutPacket => Ok (JObject [("type", JString "smart_connect")])
      | DeviceManagementPacket h parameter v =>
          fields ← header_fields h;
          Ok (JObject (("type", JString "device_management") :: fields ++
                       [("parameter", JInt parameter); ("value", JInt v)]))
      | PointToMultipointPacket h application sals =>
          fields ← header_fields h;
          Ok (JObject (("type", JString "point_to_multipoint") :: fields ++
                       [("application", int_or_null application);
                        ("sals", JArray (map sal_to_json sals))]))
      | PointToPointPacket h hops bridged unit_address cals =>
          fields ← header_fields h;
          Ok (JObject (("type", JString "point_to_point") :: fields ++
                       [("unit_address", JInt unit_address); ("bridged", JBool bridged);
                        ("hops", JArray (map JInt hops));
                        ("cals", JArray (map cal_to_json cals))]))
      end
  end.

(** What [packet_from_json] returns. *)
Inductive built :=
| BPacket (p : packet)
| BCal (c : AnyCAL)
| BSal (s : SAL)
| BReport (r : StatusReport).

Definition priority_from_json (j : json) : load PriorityClass.t :=
  n ← as_int j; call (enum_call n).

Definition encode_text (j : json) : load bytes :=
  match j with JString s => call (encode_ascii (txt s)) | _ => Failed AttributeError end.

(** [d.get(key)] of an object. *)
Definition get_default (d : json) (key : string) : json :=
  match d with JObject fields => default JNull (field key fields) | _ => JNull end.

Definition source_from_json (j : json) : load (option Z) :=
  match j with JNull => Loaded None | _ => Some <$> as_int j end.

(** From the construction of a packet with a header to the end. *)
Definition routed (d : json) (p : packet) : load built :=
  let conf := get_default d "confirmation" in
  c ← (if truthy conf then Some <$> encode_text conf else Loaded None);
  s ← source_from_json (get_default d "source_address");
  Loaded (BPacket (map_header (set_routing c s) p)).

Definition packet_from_json (d : json) : load built :=
  t ← get d "type";
  if is_str "reset" t then Loaded (BPacket ResetPacket)
  else if is_str "smart_connect" t then Loaded (BPacket SmartConnectShortcutPacket)
  else if is_str "power_on" t then Loaded (BPacket PowerOnPacket)
  else if is_str "pci_error" t then Loaded (BPacket PCIErrorPacket)
  else if is_str "confirmation" t then
    code ← get d "code"; code ← encode_text code; success ← get d "success";
    success ← as_bool success;
    BPacket <$> call (confirmation_new code success)
  else if is_str "device_management" t then
    cs ← get d "checksum"; prio ← get d "priority_class"; prio ← priority_from_json prio;
    parameter ← get d "parameter"; v ← get d "value";
    cs ← as_bool cs; parameter ← as_int parameter; v ← as_int v;
    routed d (dm_new cs prio parameter v)
  else if is_str "point_to_multipoint" t then
    cs ← get d "checksum"; prio ← get d "priority_class"; prio ← priority_from_json prio;
    sals ← get d "sals"; sals ← iterate sals; sals ← mapM_load sal_from_json sals;
    cs ← as_bool cs;
    p ← call (pm_new cs prio None sals);
    routed d p
  else if is_str "point_to_point" t then
    cs ← get d "checksum"; prio ← get d "priority_class"; prio ← priority_from_json prio;
    unit_address ← get d "unit_address";
    cals ← get d "cals"; cals ← iterate cals; cals ← mapM_load cal_from_json cals;
    cs ← as_bool cs; unit_address ← as_int unit_address;
    p ← call (pp_new cs prio unit_address 0 None cals);
    routed d p
  else if is_str "cal" t then BCal <$> cal_from_json d
  else if is_str "sal" t then BSal <$> sal_from_json d
  else if is_str "binary_report" t then
    l ← get d "group_states";
    BReport <$> report_from_json (JObject [("report", JString "binary"); ("group_states", l)])
  else if is_str "level_report" t then
    l ← get d "levels";
    BReport <$> report_from_json (JObject [("report", JString "level"); ("levels", l)])
  else Failed ValueError.

(** ** Vectors

    [obj.encode()] and [obj.encode_packet()] of what is built; only packets have
    the second. *)

Definition built_encode (b : built) : result bytes :=
  match b with
  | BPacket p => packet_encode p
  | BCal c => cal_encode c
  | BSal s => sal_encode s
  | BReport r => report_encode r
  end.

Definition built_encode_packet (b : built) : result bytes :=
  match b with BPacket p => encode_packet p | _ => Raise AttributeError end.

(** [emit] of [gen_encode]; [id] is what [_vid] returns. *)
Definition emit (id : string) (obj : built) (pjson : json) (packet_level : bool)
    : result json :=
  b ← built_encode obj;
  let rec := [("id", JString id); ("packet", pjson);
              ("expect_encode_hex", JString (bytes_hex b))] in
  if packet_level then
    w ← built_encode_packet obj;
    Ok (JObject (rec ++ [("expect_encode_packet", JString (decode_latin1 w))]))
  else Ok (JObject rec).

(** The two messages [check_encode] may return instead of [None]. *)
Inductive mismatch := EncodeMismatch (got : string) | EncodePacketMismatch (got : string).

(** [v == s] for a text [s]. *)
Definition equals (v : json) (s : string) : bool := is_str s v.

Definition check_encode (v : json) : load (option mismatch) :=
  p ← get v "packet"; obj ← packet_from_json p;
  b ← call (built_encode obj);
  let got := bytes_hex b in
  expected ← get v "expect_encode_hex";
  if negb (equals expected got) then Loaded (Some (EncodeMismatch got))
  else
    match get v "expect_encode_packet" with
    | Loaded expected =>
        w ← call (built_encode_packet obj);
        let got := decode_latin1 w in
        Loaded (if equals expected got then None else Some (EncodePacketMismatch got))
    | _ => Loaded None
    end.

(** ** Objects that JSON describes *)

Definition ascii_bytes (b : bytes) : Prop := Forall (fun c => 0 <= c < 128) b.

(** Built by the constructor of its class, as the JSON is. *)
Definition sal_json_ok (s : SAL) : Prop :=
  match s with
  | SLighting s => lighting_init s = Ok s
  | SClock (ClockUpdateSAL (VDate d)) => date_valid d = true
  | SClock (ClockUpdateSAL (VTime t)) => time_valid t = true /\ microsecond t = 0
  | _ => True
  end.

Definition cal_json_ok (c : AnyCAL) : Prop :=
  match c with ReplyCAL _ data => bytes_ok data | _ => True end.

Definition conf_json_ok (c : option bytes) : Prop :=
  match c with Some c => c <> [] /\ ascii_bytes c | None => True end.

Definition header_json_ok (h : header) (dat : DestinationAddressType.t) (long : bool) : Prop :=
  destination_address_type h = dat /\ rc h = 0 /\ dp h = long /\
  conf_json_ok (confirmation h).

Definition packet_json_ok (p : packet) : Prop :=
  match p with
  | InvalidPacket _ _ => False
  | ConfirmationPacket code success =>
      ascii_bytes code /\ confirmation_new code success = Ok (ConfirmationPacket code success)
  | PointToMultipointPacket h application sals =>
      header_json_ok h DestinationAddressType.POINT_TO_MULTIPOINT false /\ sals <> [] /\
      Forall (fun s => application = Some (sal_application s) /\ sal_json_ok s) sals
  | PointToPointPacket h hops bridged _ cals =>
      header_json_ok h DestinationAddressType.POINT_TO_POINT false /\ hops = [] /\
      bridged = false /\ Forall cal_json_ok cals
  | DeviceManagementPacket h _ _ =>
      header_json_ok h DestinationAddressType.POINT_TO_POINT_TO_MULTIPOINT true
  | _ => True
  end.

Definition json_ok (d : decoded) : Prop :=
  match d with DPacket p => packet_json_ok p | DCal c => cal_json_ok c end.

Definition built_of (d : decoded) : built :=
  match d with DPacket p => BPacket p | DCal c => BCal c end.

(** The packets of a decoder that the module says it does not build: invalid and
    bridged ones; and a point-to-multipoint packet without SALs, whose
    application is lost. *)
Definition encodable (d : decoded) : bool :=
  match d with
  | DPacket (InvalidPacket _ _) => false
  | DPacket (PointToPointPacket _ _ bridged _ _) => negb bridged
  | DPacket (PointToMultipointPacket _ _ sals) => negb (bool_decide (sals = []))
  | _ => true
  end.

(** ** Lemmas: texts and fields *)

Lemma ascii_bytes_ok b : ascii_bytes b -> bytes_ok b.
Proof. intros H. eapply Forall_impl; [exact H|]. unfold byte_ok. simpl. lia. Qed.

Lemma ascii_bytes_b b : ascii_bytes b <-> forallb (fun c => (0 <=? c) && (c <? 128)) b = true.
Proof.
  unfold ascii_bytes. rewrite forallb_forall, Forall_forall. setoid_rewrite list_elem_of_In.
  split; intros H x Hx; specialize (H x Hx); bool_hyps;
    rewrite ?andb_true_iff, ?Z.leb_le, ?Z.ltb_lt in *; lia.
Qed.

Lemma decode_ascii_ok b : ascii_bytes b -> decode_ascii b = Ok (text_of b).
Proof. intros H%ascii_bytes_b. unfold decode_ascii. by rewrite H. Qed.

Lemma encode_text_ok b : ascii_bytes b -> encode_text (JString (text_of b)) = Loaded b.
Proof.
  intros H. unfold encode_text, encode_ascii. rewrite txt_text_of by by apply ascii_bytes_ok.
  apply ascii_bytes_b in H. by rewrite H.
Qed.

Lemma bytes_fromhex_hex b : bytes_ok b -> bytes_fromhex (JString (bytes_hex b)) = Loaded b.
Proof.
  intros Hb. destruct (hex_lower_fromhex b Hb) as [Hl Hf].
  unfold bytes_fromhex, bytes_hex. by rewrite txt_text_of, Hf.
Qed.

Lemma load_bind_ok {A B} (a : A) (f : A -> load B) : (Loaded a ≫= f) = f a.
Proof. done. Qed.

Lemma mapM_load_map {A B} (f : B -> load A) (g : A -> B) (l : list A) :
  Forall (fun x => f (g x) = Loaded x) l -> mapM_load f (map g l) = Loaded l.
Proof. induction 1 as [|x l Hx _ IH]; [done|]. simpl. by rewrite Hx, load_bind_ok, IH. Qed.

(** ** Lemmas: objects are built again *)

Lemma date_valid_c_int d : date_valid d = true ->
  c_int (year d) = Ok (year d) /\ c_int (month d) = Ok (month d) /\ c_int (day d) = Ok (day d).
Proof.
  intros H. apply date_valid_bounds in H. unfold c_int.
  rewrite !(proj2 (Z.leb_le _ _)), !(proj2 (Z.ltb_lt _ _)) by lia. done.
Qed.

Lemma time_valid_c_int t : time_valid t = true ->
  c_int (hour t) = Ok (hour t) /\ c_int (minute t) = Ok (minute t) /\
  c_int (second t) = Ok (second t).
Proof.
  intros H. apply time_valid_bounds in H. unfold c_int.
  rewrite !(proj2 (Z.leb_le _ _)), !(proj2 (Z.ltb_lt _ _)) by lia. done.
Qed.

Lemma sal_json_roundtrip s : sal_json_ok s -> sal_from_json (sal_to_json s) = Loaded s.
Proof.
  destruct s as [[]|[[d|t]|]|[]|[]|[]]; intros Hs; unfold sal_json_ok in Hs;
    unfold sal_from_json, lighting_from_json, three_ints;
    cbn -[lighting_init date_call time_call c_int]; rewrite ?Hs; try done.
  - destruct (date_valid_c_int d Hs) as (-> & -> & ->). cbn -[date_call].
    by rewrite date_call_valid.
  - destruct Hs as [Hs H0]. destruct (time_valid_c_int t Hs) as (-> & -> & ->).
    cbn -[time_call]. destruct t as [h m s u]. cbn in H0. subst u.
    rewrite (time_call_valid _ Hs).
    done.
Qed.

Lemma report_json_roundtrip r : report_from_json (report_to_json r) = Loaded r.
Proof.
  destruct r as [states|levels]; unfold report_from_json; cbn -[mapM_load].
  - rewrite (mapM_load_map group_state_from_json (fun g => JInt (value g))); [done|].
    apply Forall_forall. intros g _. unfold group_state_from_json. simpl.
    by rewrite enum_call_value.
  - rewrite mapM_load_map; [done|]. apply Forall_forall. by intros [v|] _.
Qed.

(** Whatever stands before the fields of a CAL, except its keys. *)
Lemma cal_json_roundtrip c k v :
  k = "type" -> cal_json_ok c ->
  cal_from_json (cal_to_json c) = Loaded c /\
  cal_from_json (JObject ((k, v) :: cal_fields c)) = Loaded c.
Proof.
  intros -> Hc. destruct c as [a|p n|p data|ext child start r]; try done;
    unfold cal_from_json, cal_to_json; cbn -[bytes_fromhex report_from_json report_to_json].
  - by rewrite bytes_fromhex_hex.
  - by rewrite report_json_roundtrip.
Qed.

Lemma conf_to_json_ok c : conf_json_ok c ->
  exists j, _conf_to_json c = Ok j /\
    (if truthy j then Some <$> encode_text j else Loaded None) = Loaded c.
Proof.
  destruct c as [c|]; [|by exists JNull]. intros [Hne Hc]. exists (JString (text_of c)).
  unfold _conf_to_json. rewrite decode_ascii_ok by done. split; [done|].
  assert (truthy (JString (text_of c)) = true) as ->.
  { destruct c as [|x c]; [done|]. done. }
  by rewrite encode_text_ok.
Qed.

Lemma source_json_roundtrip s : source_from_json (int_or_null s) = Loaded s.
Proof. by destruct s. Qed.

Lemma pm_new_none cs prio a sals :
  sals <> [] -> Forall (fun s => a = Some (sal_application s) /\ sal_json_ok s) sals ->
  pm_new cs prio None sals =
    Ok (PointToMultipointPacket
          (base_header cs DestinationAddressType.POINT_TO_MULTIPOINT 0 false prio) a sals).
Proof.
  intros Hne H. destruct H as [|s sals [Ha _] H]; [done|]. subst a. unfold pm_new.
  cbn [append_sals]. unfold append_sal at 1. rewrite bind_Ok, append_sals_ok; [done|].
  eapply Forall_impl; [exact H|]. intros s' [[= Hs] _]. done.
Qed.

Lemma header_rebuilt h dat long :
  header_json_ok h dat long ->
  set_routing (confirmation h) (source_address h)
    (base_header (checksum h) dat 0 long (priority_class h)) = h.
Proof. destruct h. intros (? & ? & ? & _). simpl in *. by subst. Qed.

Lemma priority_json_roundtrip p : priority_from_json (JInt (value p)) = Loaded p.
Proof. unfold priority_from_json. simpl. by rewrite enum_call_value. Qed.

(** JSON describes the object that it was made from. *)
Lemma packet_json_roundtrip d : json_ok d ->
  exists j, packet_to_json (Some d) = Ok j /\ packet_from_json j = Loaded (built_of d).
Proof.
  destruct d as [[| | | |code success|pl e|h a sals|h hops br u cals|h p v]|c];
    simpl; intros Hok; try (eexists; split; [reflexivity|reflexivity]); try done.
  - destruct Hok as [Ha Hc]. rewrite decode_ascii_ok, bind_Ok by done.
    eexists. split; [done|]. unfold packet_from_json.
    cbn -[encode_text confirmation_new]. rewrite encode_text_ok by done.
    cbn -[confirmation_new]. by rewrite Hc.
  - destruct Hok as (Hh & Hne & Hs). destruct (conf_to_json_ok _ (proj2 (proj2 (proj2 Hh))))
      as (j & Hj & Hc). unfold header_fields. rewrite Hj, !bind_Ok.
    eexists. split; [done|]. unfold packet_from_json, routed.
    cbn -[truthy encode_text source_from_json priority_from_json mapM_load pm_new].
    rewrite priority_json_roundtrip, load_bind_ok, mapM_load_map, !load_bind_ok.
    + rewrite (pm_new_none _ _ a) by done. cbn -[truthy encode_text source_from_json].
      rewrite Hc, source_json_roundtrip, !load_bind_ok. simpl.
      by rewrite header_rebuilt.
    + eapply Forall_impl; [exact Hs|]. intros s [_ H]. by apply sal_json_roundtrip.
  - destruct Hok as (Hh & -> & -> & Hs). destruct (conf_to_json_ok _ (proj2 (proj2 (proj2 Hh))))
      as (j & Hj & Hc). unfold header_fields. rewrite Hj, !bind_Ok.
    eexists. split; [done|]. unfold packet_from_json, routed.
    cbn -[truthy encode_text source_from_json priority_from_json mapM_load pp_new].
    rewrite priority_json_roundtrip, load_bind_ok, mapM_load_map, !load_bind_ok.
    + cbn -[truthy encode_text source_from_json].
      rewrite Hc, source_json_roundtrip, !load_bind_ok. simpl. by rewrite header_rebuilt.
    + eapply Forall_impl; [exact Hs|]. intros c H. by eapply cal_json_roundtrip.
  - destruct (conf_to_json_ok _ (proj2 (proj2 (proj2 Hok)))) as (j & Hj & Hc).
    unfold header_fields. rewrite Hj, !bind_Ok.
    eexists. split; [done|]. unfold packet_from_json, routed.
    cbn -[truthy encode_text source_from_json priority_from_json].
    rewrite priority_json_roundtrip, !load_bind_ok, Hc, source_json_roundtrip, !load_bind_ok.
    simpl. by rewrite header_rebuilt.
  - eexists. split; [done|]. unfold packet_from_json. cbn -[cal_from_json cal_fields].
    by rewrite (proj2 (cal_json_roundtrip c "type" _ eq_refl Hok)).
Qed.

(** ** Lemmas: what the decoders return *)

Lemma lighting_init_inv s r : lighting_init s = Ok r -> r = s.
Proof. unfold lighting_init. intros H. follow_result. congruence. Qed.

Lemma lighting_step_init app data o rest :
  lighting_step app data = Ok (Next o rest) ->
  from_option (fun s => lighting_init s = Ok s) True o.
Proof.
  unfold lighting_step, lighting_decode, ramp_decode. intros H.
  destruct data as [|c [|g data]]; try done.
  destruct (dict_get _SAL_HANDLERS c) as [h|]; [|done].
  apply result_bind_Ok in H as ([o' d'] & H & [= -> ->]).
  destruct h; cases_in H; follow_result; simplify_eq; simpl; try done;
    match goal with H : lighting_init _ = Ok ?s |- _ =>
      pose proof (lighting_init_inv _ _ H); congruence end.
Qed.

Lemma clock_ok_json s : clock_ok s -> sal_json_ok (SClock s).
Proof.
  destruct s as [[d|t]|]; intros [Hv Hw]; try done. split; [done|].
  destruct t. by injection Hw.
Qed.

(** Each family returns objects that its constructors accept. *)
Lemma app_decode_json_ok handler data app sals :
  app_decode_sals handler data app = Ok sals -> Forall sal_json_ok sals.
Proof.
  destruct handler; simpl; intros (l & Hl & <-)%result_fmap_Ok; apply Forall_map;
    try (by apply Forall_forall).
  - refine (while_data_all _ (fun _ => True) _ clock_step_consuming _ _ _ I Hl).
    intros d o rest _ H. split; [done|]. pose proof (clock_step_outcome d) as Ho.
    rewrite H in Ho. destruct o; [by apply clock_ok_json|done].
  - refine (while_data_all _ (fun _ => True) _ (lighting_step_consuming app) _ _ _ I Hl).
    intros d o rest _ H. split; [done|]. by eapply lighting_step_init.
Qed.

Lemma cal_step_json_ok data o rest :
  bytes_ok data -> cal_step data = Ok (Next o rest) ->
  bytes_ok rest /\ from_option cal_json_ok True o.
Proof.
  unfold cal_step. intros Hb H. follow_result. simplify_eq. split; [by apply Forall_drop|].
  match goal with H : decode_cal _ = _ |- _ => rename H into Hd end.
  unfold decode_cal, request_decode, identify_decode, recall_decode, reply_decode in Hd.
  cbv zeta in Hd. follow_result; simplify_eq; simpl; try done.
  - apply Forall_drop, Forall_take, Forall_drop, Hb.
  - unfold extended_decode in *. cbv zeta in *. follow_result; by simplify_eq.
Qed.

Lemma decode_cals_json_ok data cals :
  bytes_ok data -> decode_cals data = Ok cals -> Forall cal_json_ok cals.
Proof.
  intros Hb H. refine (while_data_all _ bytes_ok _ cal_step_consuming _ _ _ Hb H).
  intros d o rest Hd Hs. by eapply cal_step_json_ok.
Qed.

Lemma append_sals_inv a sals new r l :
  append_sals a sals new = Ok (r, l) ->
  l = sals ++ new /\ Forall (fun s => r = Some (sal_application s)) new /\
  (is_Some a -> r = a).
Proof.
  revert a sals. induction new as [|s new IH]; simpl; intros a sals H.
  - simplify_eq. by rewrite app_nil_r.
  - apply result_bind_Ok in H as ([a' sals'] & Hs & H). apply IH in H as (-> & Hn & Ha).
    assert (sals' = sals ++ [s] /\ a' = Some (sal_application s) /\ (is_Some a -> a' = a))
      as (-> & -> & Ha').
    { unfold append_sal in Hs. cbv zeta in Hs. destruct a as [a|]; follow_result; simplify_eq.
      - bool_hyps. rewrite Z.eqb_eq in *. by subst a.
      - repeat split. by intros []. }
    rewrite <- app_assoc. specialize (Ha ltac:(eauto)). rewrite Ha in *. auto.
Qed.

Lemma pm_decode_json_ok data cs prio p :
  pm_decode data cs prio = Ok p -> encodable (DPacket p) = true -> packet_json_ok p.
Proof.
  unfold pm_decode, pm_new. cbv zeta. intros H He. follow_result. simplify_eq.
  match goal with H : append_sals _ _ _ = _ |- _ =>
    apply append_sals_inv in H as (-> & Ha & _) end.
  match goal with H : app_decode_sals _ _ _ = _ |- _ => apply app_decode_json_ok in H as Hs end.
  simpl in *. rewrite negb_true_iff, bool_decide_eq_false in He.
  split; [by repeat split|]. split; [done|]. apply Forall_and. by split.
Qed.

Lemma pp_decode_json_ok data cs prio p :
  bytes_ok data -> pp_decode data cs prio = Ok p -> encodable (DPacket p) = true ->
  packet_json_ok p.
Proof.
  unfold pp_decode, pp_new. cbv zeta. intros Hb H He.
  apply result_bind_Ok in H as (d1 & _ & H). apply result_bind_Ok in H as (d0 & _ & H).
  apply result_bind_Ok in H as ([[[u b] hops] rest] & Hr & H).
  apply result_bind_Ok in H as (cals & Hc & H).
  assert (hops = None -> bytes_ok rest) as Hrest.
  { intros ->. destruct (d1 =? 0); [|follow_result; congruence].
    injection Hr as _ _ <-. by apply Forall_drop. }
  destruct hops as [hops|]; follow_result; simplify_eq. simpl.
  split; [by repeat split|]. repeat split. eapply decode_cals_json_ok; [|exact Hc]. auto.
Qed.

Lemma dm_decode_json_ok data cs prio p : dm_decode data cs prio = Ok p -> packet_json_ok p.
Proof. unfold dm_decode. intros H. follow_result. by simplify_eq. Qed.

Lemma routing_json_ok c s p :
  conf_json_ok c -> packet_json_ok p -> packet_json_ok (map_header (set_routing c s) p).
Proof.
  intros Hc. destruct p as [| | | | | |h a sals|h hops br u cals|h p v]; try done; simpl;
    unfold header_json_ok; tauto.
Qed.

Lemma route_json_ok from_pci c s p :
  conf_json_ok c -> packet_json_ok p -> packet_json_ok (route from_pci c s p).
Proof.
  intros Hc Hp. unfold route. repeat case_match; try done; by apply routing_json_ok.
Qed.

Lemma encodable_map_header f p : encodable (DPacket (map_header f p)) = encodable (DPacket p).
Proof. by destruct p. Qed.

Lemma encodable_route from_pci c s p :
  encodable (DPacket (route from_pci c s p)) = encodable (DPacket p).
Proof. unfold route. repeat case_match; try done; apply encodable_map_header. Qed.

Lemma direct_json_ok cs prio cals p :
  Forall cal_json_ok cals -> pp_new cs prio 0 0 None cals = Ok p -> packet_json_ok p.
Proof. intros Hc [= <-]. by repeat split. Qed.

Lemma decode_flags_json_ok fl data cs from_pci dm_cal c consumed d n :
  bytes_ok data -> conf_json_ok c ->
  decode_flags fl data cs from_pci dm_cal c consumed = (Some d, n) ->
  encodable d = true -> json_ok d.
Proof.
  unfold decode_flags, attempt. cbv zeta. intros Hb Hc H He.
  destruct (enum_call (Z.land fl 7)) as [dat|]; [|by simplify_eq].
  destruct (enum_call (Z.land (Z.shiftr fl 6) 3)) as [prio|]; [|by simplify_eq].
  destruct (from_pci && direct_cal _ _).
  { destruct (decode_cals data ≫= _) as [p|] eqn:E; [|by simplify_eq].
    apply result_bind_Ok in E as (cals & Hcals & E). simplify_eq.
    apply routing_json_ok; [done|]. eapply direct_json_ok; [|exact E].
    by apply (decode_cals_json_ok data). }
  destruct (if from_pci then _ else _) as [s|]; [|by simplify_eq].
  assert (bytes_ok (if from_pci then drop 1 (drop 1 data) else drop 1 data)) as Hd
    by by destruct from_pci; repeat apply Forall_drop.
  destruct (negb _ && dm_cal).
  { destruct (decode_cal _) as [[cal len]|] eqn:E; [|by simplify_eq]. simplify_eq.
    apply (cal_step_json_ok _ (Some cal) (drop len (if from_pci then drop 1 (drop 1 data)
      else drop 1 data)) Hd). unfold cal_step. by rewrite E. }
  match type of H with (match ?r with _ => _ end) = _ => destruct r as [p|] eqn:E end;
    [|by simplify_eq].
  simplify_eq. simpl. rewrite encodable_route in He. apply route_json_ok; [done|].
  destruct (Z.land fl 32 =? 32); [by eapply dm_decode_json_ok|].
  unfold decode_by_type in E. destruct dat; try done;
    [exact (pm_decode_json_ok _ _ _ _ E He)|exact (pp_decode_json_ok _ _ _ _ Hd E He)].
Qed.

Lemma decode_text_json_ok data cs strict from_pci dm_cal c consumed d n :
  conf_json_ok c -> decode_text data cs strict from_pci dm_cal c consumed = Ok (Some d, n) ->
  encodable d = true -> json_ok d.
Proof.
  unfold decode_text. cbv zeta. intros Hc H He. destruct (negb _); [by simplify_eq|].
  apply result_bind_Ok in H as (b & Hb%b16decode_bytes & H).
  apply result_bind_Ok in H as (valid & _ & H).
  destruct (negb valid && strict); [by simplify_eq|].
  apply result_bind_Ok in H as (fl & _ & [= H]).
  eapply decode_flags_json_ok; [|exact Hc|exact H|exact He].
  destruct cs; [by apply Forall_take|done].
Qed.

Lemma decode_command_json_ok data cs strict consumed d n :
  strict = true \/ ascii_bytes data ->
  decode_command data cs strict consumed = Ok (Some d, n) ->
  encodable d = true -> json_ok d.
Proof.
  unfold decode_command. intros Ha H He.
  assert (exists t cs' dm, (if startswith [64] data then (drop 1 data, false, true)
      else if startswith [92] data then (drop 1 data, cs, false) else (data, cs, true))
      = (t, cs', dm) /\ (ascii_bytes data -> ascii_bytes t)) as (t & cs' & dm & E & Ht).
  { clear H. destruct (startswith [64] data); [|destruct (startswith [92] data)];
      eexists _, _, _; (split; [reflexivity|]); [apply Forall_drop|apply Forall_drop|done]. }
  rewrite E in H. apply result_bind_Ok in H as (x & Hx & H). apply last_item_split in Hx.
  destruct (byte_in x HEX_CHARS); [by eapply decode_text_json_ok in H|].
  destruct (negb (byte_in x CONFIRMATION_CODES) && strict) eqn:Ec; [by simplify_eq|].
  eapply decode_text_json_ok; [|exact H|exact He]. split; [done|].
  apply Forall_singleton. destruct Ha as [->|Ha].
  - rewrite andb_true_r, negb_false_iff in Ec.
    assert (forallb (fun c => (0 <=? c) && (c <? 128)) CONFIRMATION_CODES = true) as Hall
      by by vm_compute.
    rewrite forallb_forall in Hall. apply byte_in_spec, list_elem_of_In, Hall in Ec.
    bool_hyps. lia.
  - apply Ht in Ha. rewrite Hx in Ha. apply Forall_app in Ha as [_ Ha].
    exact (Forall_inv Ha).
Qed.

Lemma decode_line_json_ok data term cs strict from_pci d n :
  strict = true \/ ascii_bytes data ->
  decode_line data term cs strict from_pci = Ok (Some d, n) ->
  encodable d = true -> json_ok d.
Proof.
  unfold decode_line. cbv zeta. intros Ha H He. destruct (find_sub term data) as [e|]; [|done].
  destruct (take e data) as [|x l] eqn:E; [done|]. destruct from_pci.
  - by eapply decode_text_json_ok in H.
  - eapply decode_command_json_ok; [|exact H|exact He].
    destruct Ha as [Ha|Ha]; [by left|right]. rewrite <- E. by apply Forall_take.
Qed.

Lemma confirmation_json_ok l s p :
  confirmation_new l s = Ok p -> packet_json_ok p.
Proof.
  unfold confirmation_new. cbv zeta. destruct (find_sub (take 1 l) CONFIRMATION_CODES) as [k|]
    eqn:E; [|done]. intros [= <-]. cbn [packet_json_ok]. split.
  - apply find_sub_Some in E as [Hs _]. unfold ascii_bytes.
    assert (Forall (fun c => 0 <= c < 128) CONFIRMATION_CODES) as Hall
      by (repeat constructor; lia).
    apply (Forall_drop _ k) in Hall. apply startswith_split in Hs. rewrite Hs in Hall.
    by apply Forall_app in Hall as [Hall _].
  - unfold confirmation_new. cbv zeta. rewrite take_take. cbn [Nat.min]. by rewrite E.
Qed.

Lemma decode_packet_json_ok data cs strict from_pci d n :
  strict = true \/ ascii_bytes data ->
  decode_packet data cs strict from_pci = Ok (Some d, n) ->
  encodable d = true -> json_ok d.
Proof.
  unfold decode_packet. intros Ha H He. destruct data as [|x data]; [done|].
  destruct from_pci.
  - unfold decode_from_pci in H.
    destruct (startswith [43] _); [by simplify_eq|].
    destruct (startswith [33] _); [by simplify_eq|].
    destruct (len _ <? MIN_MESSAGE_SIZE); [done|].
    apply result_bind_Ok in H as (d0 & _ & H).
    destruct (byte_in d0 CONFIRMATION_CODES); [|by eapply decode_line_json_ok].
    follow_result. simplify_eq. by eapply confirmation_json_ok.
  - unfold decode_to_pci in H.
    destruct (startswith [126] _); [by simplify_eq|].
    destruct (startswith NULL_TEXT _); [by simplify_eq|].
    destruct (_ || _); [by destruct (find_sub END_COMMAND _); simplify_eq|].
    destruct (cancel_position _); [done|]. by eapply decode_line_json_ok.
Qed.

(** ** Properties *)

(** C29. Every message that the decoder makes of bytes is described by JSON: for
    any bytes at all, in either direction, a packet that the module can build (not
    an invalid or a bridged one, and not one without SALs) has a JSON, and the
    object built from that JSON is the packet itself, attribute by attribute. In
    the mode that is not strict the bytes must be ASCII, because any last byte is
    taken for a confirmation code. *)
Theorem decoded_packets_rebuilt data cs strict from_pci d n :
  strict = true \/ ascii_bytes data ->
  decode_packet data cs strict from_pci = Ok (Some d, n) ->
  encodable d = true ->
  exists j, packet_to_json (Some d) = Ok j /\ packet_from_json j = Loaded (built_of d).
Proof.
  intros Ha H He. by eapply packet_json_roundtrip, decode_packet_json_ok.
Qed.

(** [\0538007901490A] with its confirmation code: light 1 on. *)
Definition rebuilt_wire : bytes :=
  [92; 48; 53; 51; 56; 48; 48; 55; 57; 48; 49; 52; 57; 104; 13].

Example decoded_packets_rebuilt_witness :
  exists d n j, decode_packet rebuilt_wire true true false = Ok (Some d, n) /\
    packet_to_json (Some d) = Ok j /\ packet_from_json j = Loaded (built_of d).
Proof.
  assert (exists d n, decode_packet rebuilt_wire true true false = Ok (Some d, n) /\
    encodable d = true) as (d & n & H & He) by (eexists _, _; split; reflexivity).
  destruct (decoded_packets_rebuilt rebuilt_wire true true false d n (or_introl eq_refl) H He)
    as (j & Hj & Hb).
  exists d, n, j. auto.
Defined.

(** A vector that the generator records for a packet passes its check: [emit]
    encodes the packet and stores its JSON; [check_encode] builds a packet from
    the JSON and finds the same bytes, also when the vector holds the text on the
    wire. *)
Theorem recorded_vectors_pass id d pjson packet_level v :
  json_ok d -> packet_to_json (Some d) = Ok pjson ->
  emit id (built_of d) pjson packet_level = Ok v ->
  check_encode v = Loaded None.
Proof.
  intros Hok Hj He. destruct (packet_json_roundtrip d Hok) as (j & Hj' & Hb).
  assert (pjson = j) as -> by congruence. clear Hj Hj'.
  unfold emit in He. apply result_bind_Ok in He as (b & Henc & He).
  unfold check_encode. destruct packet_level.
  - apply result_bind_Ok in He as (w & Hw & [= <-]).
    cbn -[packet_from_json built_encode built_encode_packet equals].
    rewrite Hb, load_bind_ok, Henc. cbn -[built_encode_packet equals].
    unfold equals at 1. cbn -[built_encode_packet equals]. rewrite String.eqb_refl.
    cbn -[built_encode_packet equals]. rewrite Hw. cbn. by rewrite String.eqb_refl.
  - injection He as <-. cbn -[packet_from_json built_encode equals].
    rewrite Hb, load_bind_ok, Henc. cbn. by rewrite String.eqb_refl.
Qed.

Definition recorded_sample : decoded :=
  DPacket (PointToMultipointPacket
    (base_header true DestinationAddressType.POINT_TO_MULTIPOINT 0 false PriorityClass.CLASS_4)
    (Some 0xdf)
    [SClock (ClockUpdateSAL (VDate {| year := 2024; month := 2; day := 29 |}));
     SClock (ClockUpdateSAL (VTime {| hour := 23; minute := 59; second := 59;
                                      microsecond := 0 |}))]).

Example recorded_vectors_pass_witness :
  exists pjson v, packet_to_json (Some recorded_sample) = Ok pjson /\
    emit "en-0001-pm" (built_of recorded_sample) pjson true = Ok v /\
    check_encode v = Loaded None.
Proof.
  assert (json_ok recorded_sample) as Hok by (repeat constructor; discriminate).
  destruct (packet_json_roundtrip recorded_sample Hok) as (j & Hj & _).
  assert (exists v, emit "en-0001-pm" (built_of recorded_sample) j true = Ok v) as (v & Hv)
    by (injection Hj as <-; eexists; vm_compute; reflexivity).
  exists j, v. split; [exact Hj|]. split; [exact Hv|].
  exact (recorded_vectors_pass "en-0001-pm" recorded_sample j true v Hok Hj Hv).
Defined.

(** The check is not vacuous: a record with other bytes is reported. *)
Example wrong_vector_reported :
  check_encode (JObject [("packet", JObject [("type", JString "reset")]);
                         ("expect_encode_hex", JString "7f")]) =
    Loaded (Some (EncodeMismatch "7e")).
Proof. reflexivity. Qed.

(** A packet without SALs has an application and an encoding, and its JSON has the
    application too; but what is built from that JSON has none, and no encoding. *)
Theorem application_of_empty_packet_lost cs prio a :
  byte_ok a ->
  let p := PointToMultipointPacket
    (base_header cs DestinationAddressType.POINT_TO_MULTIPOINT 0 false prio) (Some a) [] in
  is_Ok (packet_encode p) = true /\
  exists j b, packet_to_json (Some (DPacket p)) = Ok j /\ get j "application" = Loaded (JInt a) /\
    packet_from_json j = Loaded b /\ built_encode b = Raise ValueError.
Proof.
  intros Ha p. split.
  - simpl. unfold pm_encode, byte_ok in *.
    rewrite (proj2 (Z.ltb_ge _ _)), (proj2 (Z.ltb_ge _ _)) by lia. cbn -[base_encode].
    match goal with |- context [base_encode ?h] => by rewrite (proj1 (base_encode_ok h eq_refl)) end.
  - eexists _, _. split; [reflexivity|]. split; [reflexivity|].
    unfold packet_from_json, routed. cbn -[priority_from_json].
    rewrite priority_json_roundtrip. by split.
Qed.

Example unicode_code_not_json :
  exists p, decode_packet [92; 48; 53; 51; 56; 48; 48; 55; 57; 48; 49; 200; 13] false false false
    = Ok (Some p, 13%nat) /\ packet_to_json (Some p) = Raise UnicodeError.
Proof. eexists. split; reflexivity. Qed.
