(* ===== verification/Harness.v ===== *)
(** * The behavioural harness: [lib/wire.py] and [lib/fake_pci.py] of
      [src/rust-migration-harness]

    A second, independent reading of what a client sends: lines cut at carriage
    returns, each read as a frame ([Wire]), and a scripted interface that records
    the frames, confirms them, and may withhold the first confirmation to make the
    client send again ([FakePci]). Time stamps are not modelled. *)

From S2P Require Import Prelude Common Hex Lighting Application Packet Decode PyDict Confirm Pci.
From stdpp Require Import options.

Local Open Scope Z_scope.

(** ** Frames: [wire.py] *)

Module Wire.

(** [validate_cbus_checksum], which is [False] on no data. *)
Definition validate_checksum (data : bytes) : bool :=
  match last data with Some c => c =? cbus_checksum (but_last data) | None => false end.

(** [payload] is the text, by its code points. *)
Record ClientFrame := {
  raw : bytes;
  is_reset : bool;
  is_smart_connect : bool;
  basic : bool;
  conf : option bytes;
  payload : list Z
}.

#[export] Instance ClientFrame_eq_dec : EqDecision ClientFrame.
Proof. solve_decision. Defined.

(** [ClientFrame.__init__] *)
Definition client_frame (raw : bytes) : ClientFrame :=
  let is_reset := bool_decide (raw = [126]) in
  let is_smart_connect := bool_decide (raw = [124]) || bool_decide (raw = [124; 124]) in
  let body := if startswith [92] raw then drop 1 raw else raw in
  let body := if startswith [64] body then drop 1 body else body in
  let '(conf, body) :=
    match last body with
    | Some c =>
        if negb is_reset && negb is_smart_connect && negb (byte_in c HEX_CHARS)
        then (Some [c], but_last body) else (None, body)
    | None => (None, body)
    end in
  {| raw := raw; is_reset := is_reset; is_smart_connect := is_smart_connect;
     basic := negb (startswith [92] raw); conf := conf; payload := body |}.

Definition payload_bytes (f : ClientFrame) : option bytes :=
  match fromhex (payload f) with Ok b => Some b | Raise _ => None end.

(** [while chunk.startswith(b'~')]: the frames, and what is left of the chunk. *)
Fixpoint strip_resets (chunk : bytes) : list ClientFrame * bytes :=
  match chunk with
  | [] => ([], [])
  | c :: rest =>
      if c =? 126 then let '(fs, rest) := strip_resets rest in (client_frame [126] :: fs, rest)
      else ([], chunk)
  end.

(** The frames of one line; an empty one has none. *)
Definition chunk_frames (chunk : bytes) : list ClientFrame :=
  let '(fs, chunk) := strip_resets chunk in
  fs ++ match chunk with [] => [] | _ :: _ => [client_frame chunk] end.

(** The loop of [split_client_frames]; every turn takes a byte. *)
Fixpoint split_loop (fuel : nat) (buf : bytes) : list ClientFrame * bytes :=
  match find_sub END_COMMAND buf with
  | None => if bool_decide (buf = [126]) then ([client_frame [126]], []) else ([], buf)
  | Some idx =>
      match fuel with
      | O => ([], buf)
      | S fuel =>
          let '(fs, rest) := split_loop fuel (drop (idx + 1) buf) in
          (chunk_frames (take idx buf) ++ fs, rest)
      end
  end.

(** The frames, and what stays in the buffer. *)
Definition split_client_frames (buf : bytes) : list ClientFrame * bytes :=
  split_loop (length buf) buf.

(** *** The lines of a stream, and their frames *)

Fixpoint cut (s : bytes) : list bytes * bytes :=
  match s with
  | [] => ([], [])
  | c :: s =>
      let '(ls, r) := cut s in
      if c =? 13 then ([] :: ls, r)
      else match ls with [] => ([], c :: r) | l :: ls => ((c :: l) :: ls, r) end
  end.

Definition line_frames (s : bytes) : list ClientFrame := flat_map chunk_frames (fst (cut s)).
Definition unfinished (s : bytes) : bytes := snd (cut s).

End Wire.

(** ** The scripted interface: [fake_pci.py] *)

Module FakePci.
Import Wire.

Record fake := {
  frames : list ClientFrame;
  reset_count : Z;
  smart_connect_count : Z;
  connections : Z;
  withhold_first_conf : bool;
  withheld : option (list Z * option bytes);
  withheld_seen : Z;
  writer : option nat;
  buffers : list (nat * bytes) (* [buf] of each connection that is served *);
  written : list (nat * bytes)
}.

(** [FakePCI.__init__] *)
Definition fake_init (withhold_first_conf : bool) : fake :=
  {| frames := []; reset_count := 0; smart_connect_count := 0; connections := 0;
     withhold_first_conf := withhold_first_conf; withheld := None; withheld_seen := 0;
     writer := None; buffers := []; written := [] |}.

Definition add_frame (f : ClientFrame) (resets connects : Z) (st : fake) : fake :=
  {| frames := frames st ++ [f]; reset_count := reset_count st + resets;
     smart_connect_count := smart_connect_count st + connects;
     connections := connections st; withhold_first_conf := withhold_first_conf st;
     withheld := withheld st; withheld_seen := withheld_seen st; writer := writer st;
     buffers := buffers st; written := written st |}.

Definition set_withheld (k : option (list Z * option bytes)) (seen : Z) (st : fake) : fake :=
  {| frames := frames st; reset_count := reset_count st;
     smart_connect_count := smart_connect_count st; connections := connections st;
     withhold_first_conf := withhold_first_conf st; withheld := k; withheld_seen := seen;
     writer := writer st; buffers := buffers st; written := written st |}.

(** [writer.write(data)] of connection [i] *)
Definition write_to (i : nat) (data : bytes) (st : fake) : fake :=
  {| frames := frames st; reset_count := reset_count st;
     smart_connect_count := smart_connect_count st; connections := connections st;
     withhold_first_conf := withhold_first_conf st; withheld := withheld st;
     withheld_seen := withheld_seen st; writer := writer st; buffers := buffers st;
     written := written st ++ [(i, data)] |}.

Definition set_buffers (b : list (nat * bytes)) (st : fake) : fake :=
  {| frames := frames st; reset_count := reset_count st;
     smart_connect_count := smart_connect_count st; connections := connections st;
     withhold_first_conf := withhold_first_conf st; withheld := withheld st;
     withheld_seen := withheld_seen st; writer := writer st; buffers := b;
     written := written st |}.

(** What identifies a frame that is sent again. *)
Definition frame_key (f : ClientFrame) : list Z * option bytes := (payload f, conf f).

Definition _handle_frame (i : nat) (st : fake) (f : ClientFrame) : fake :=
  if is_reset f then add_frame f 1 0 st
  else if is_smart_connect f then add_frame f 0 1 st
  else
    let st := add_frame f 0 0 st in
    match conf f with
    | None => st
    | Some c =>
        match withheld st with
        | None =>
            if withhold_first_conf st then set_withheld (Some (frame_key f)) 1 st
            else write_to i (c ++ [46]) st
        | Some k =>
            if bool_decide (frame_key f = k)
            then set_withheld (withheld st) (withheld_seen st + 1) st
            else write_to i (c ++ [46]) st
        end
    end.

Fixpoint buffer_of (i : nat) (b : list (nat * bytes)) : option bytes :=
  match b with
  | [] => None
  | (j, d) :: b => if (i =? j)%nat then Some d else buffer_of i b
  end.

Fixpoint put_buffer (i : nat) (d : bytes) (b : list (nat * bytes)) : list (nat * bytes) :=
  match b with
  | [] => [(i, d)]
  | (j, e) :: b => if (i =? j)%nat then (i, d) :: b else (j, e) :: put_buffer i d b
  end.

(** [_on_client] up to its first [read] *)
Definition accept (i : nat) (st : fake) : fake :=
  {| frames := frames st; reset_count := reset_count st;
     smart_connect_count := smart_connect_count st; connections := connections st + 1;
     withhold_first_conf := withhold_first_conf st; withheld := withheld st;
     withheld_seen := withheld_seen st; writer := Some i;
     buffers := put_buffer i [] (buffers st); written := written st |}.

(** A turn of its loop: [read] returned [data], which is empty at the end of the
    stream. *)
Definition received (i : nat) (data : bytes) (st : fake) : fake :=
  match buffer_of i (buffers st), data with
  | None, _ => st (* the connection is not served *)
  | Some _, [] => set_buffers (List.filter (fun '(j, _) => negb (i =? j)%nat) (buffers st)) st
  | Some buf, _ :: _ =>
      let '(fs, buf) := split_client_frames (buf ++ data) in
      foldl (_handle_frame i) (set_buffers (put_buffer i buf (buffers st)) st) fs
  end.

(** [inject(wire_bytes)] *)
Definition inject (wire_bytes : bytes) (st : fake) : result fake :=
  match writer st with
  | None => Raise RuntimeError
  | Some i => Ok (write_to i wire_bytes st)
  end.

Definition is_command (f : ClientFrame) : bool := negb (is_reset f) && negb (is_smart_connect f).

Definition payloads (st : fake) : list (list Z) := map payload (List.filter is_command (frames st)).

Definition count_payload (p : list Z) (st : fake) : Z :=
  len (List.filter (fun f => bool_decide (payload f = p)) (frames st)).

(** *** What the script promises *)

(** A frame that asks for a confirmation. *)
Definition confirmed (f : ClientFrame) : bool :=
  is_command f && match conf f with Some _ => true | None => false end.

Definition acknowledgement (f : ClientFrame) : bytes :=
  match conf f with Some c => c ++ [46] | None => [] end.

(** The key whose confirmation is withheld: the one of the first frame that
    asks for a confirmation. *)
Definition withheld_key (withhold : bool) (fs : list ClientFrame) : option (list Z * option bytes) :=
  if withhold then frame_key <$> head (List.filter confirmed fs) else None.

Definition is_withheld (k : option (list Z * option bytes)) (f : ClientFrame) : bool :=
  match k with Some k => bool_decide (frame_key f = k) | None => false end.

(** What is answered to the frames [fs], in order. *)
Definition answers (withhold : bool) (fs : list ClientFrame) : list bytes :=
  map acknowledgement
    (List.filter (fun f => confirmed f && negb (is_withheld (withheld_key withhold fs) f)) fs).

Definition count (P : ClientFrame -> bool) (fs : list ClientFrame) : Z := len (List.filter P fs).

(** How often the withheld frame was seen. *)
Definition again (w : bool) (fs : list ClientFrame) : Z :=
  count (fun f => confirmed f && is_withheld (withheld_key w fs) f) fs.

(** A connection that is served from the start, and the reads of its stream. *)
Definition serve (withhold : bool) (i : nat) (chunks : list bytes) : fake :=
  foldl (fun st data => received i data st) (accept i (fake_init withhold)) chunks.

(** What a call of the client's [_send] writes, and the code it carries. *)
Definition sent : Type := send_call * bytes * option Z.

(** A message that [_prepare_packet] made of a packet that the client sends. *)
Definition sent_ok (s : sent) : Prop :=
  let '(call, data, code) := s in
  (packet_valid (cmd call) \/ cmd call = ResetPacket \/ cmd call = SmartConnectShortcutPacket) /\
  exists current_time now st st', confirmations_inv st /\ pending_carry st /\
    _prepare_packet call current_time now st = Ok (st', data, code).

(** The frame that records it. *)
Definition recorded (s : sent) (f : ClientFrame) : Prop :=
  let '(call, data, code) := s in
  match cmd call with
  | ResetPacket => is_reset f = true /\ code = None
  | SmartConnectShortcutPacket => is_smart_connect f = true /\ code = None
  | p => is_command f = true /\ encode_packet p = Ok (payload f) /\
      conf f = (fun k => [k]) <$> code /\ basic f = basic_mode call /\
      exists b, packet_encode p = Ok b /\ payload_bytes f = Some b
  end.

End FakePci.

(** ** Lemmas: the lines of a stream *)

Module WireFacts.
Import Wire.

Lemma validate_checksum_spec data :
  validate_checksum data = match validate_cbus_checksum data with Ok b => b | Raise _ => false end.
Proof.
  unfold validate_checksum, validate_cbus_checksum, last_item. by destruct (last data).
Qed.

Lemma cut_line l s : 13 ∉ l -> cut (l ++ 13 :: s) = (l :: fst (cut s), snd (cut s)).
Proof.
  induction l as [|c l IH]; intros Hl; simpl; [by destruct (cut s)|].
  apply not_elem_of_cons in Hl as [Hc Hl]. rewrite IH by done.
  by rewrite (proj2 (Z.eqb_neq c 13)) by congruence.
Qed.

Lemma cut_short l : 13 ∉ l -> cut l = ([], l).
Proof.
  induction l as [|c l IH]; intros Hl; simpl; [done|].
  apply not_elem_of_cons in Hl as [Hc Hl]. rewrite IH by done.
  by rewrite (proj2 (Z.eqb_neq c 13)) by congruence.
Qed.

Lemma cut_app a b :
  cut (a ++ b) = (fst (cut a) ++ fst (cut (snd (cut a) ++ b)), snd (cut (snd (cut a) ++ b))).
Proof.
  induction a as [|c a IH]; simpl; [by destruct (cut b)|].
  rewrite IH. destruct (cut a) as [ls r] eqn:E. simpl. destruct (c =? 13) eqn:Ec; [done|].
  destruct ls as [|l ls]; simpl; [|done].
  destruct (cut (r ++ b)) as [[|l' ls'] r']; simpl; by rewrite Ec.
Qed.

Lemma line_frames_app a b : line_frames (a ++ b) = line_frames a ++ line_frames (unfinished a ++ b).
Proof. unfold line_frames, unfinished. rewrite cut_app. simpl. apply flat_map_app. Qed.

Lemma unfinished_app a b : unfinished (a ++ b) = unfinished (unfinished a ++ b).
Proof. unfold unfinished. by rewrite (cut_app a b). Qed.

Lemma drop_after_line (a b : bytes) : drop (length a + 1) (a ++ 13 :: b) = b.
Proof.
  replace (length a + 1)%nat with (length (a ++ [13])) by (rewrite length_app; done).
  replace (a ++ 13 :: b) with ((a ++ [13]) ++ b) by by rewrite <- app_assoc.
  apply drop_app_length.
Qed.

(** Every turn of the loop reads a line, so the loop reads them all. *)
Lemma split_loop_lines fuel buf :
  (length buf <= fuel)%nat ->
  split_loop fuel buf =
    if bool_decide (unfinished buf = [126]) then (line_frames buf ++ [client_frame [126]], [])
    else (line_frames buf, unfinished buf).
Proof.
  revert buf. induction fuel as [|fuel IH]; intros buf Hl.
  - destruct buf; [done|simpl in Hl; lia].
  - cbn [split_loop]. destruct (find_sub END_COMMAND buf) as [n|] eqn:E.
    + apply find_sub_first in E as (a & b & -> & Hn & Ha). subst n.
      rewrite take_app_length, drop_after_line.
      rewrite IH by (rewrite length_app in Hl; simpl in Hl; lia).
      unfold line_frames, unfinished. rewrite cut_line by done. cbn [fst snd flat_map].
      destruct (bool_decide _); by rewrite ?app_assoc.
    + apply find_sub_None in E. unfold line_frames, unfinished. rewrite cut_short by done.
      cbn [fst snd flat_map app]. destruct (bool_decide _) eqn:Eb; [|done]. done.
Qed.

Lemma split_lines buf :
  split_client_frames buf =
    if bool_decide (unfinished buf = [126]) then (line_frames buf ++ [client_frame [126]], [])
    else (line_frames buf, unfinished buf).
Proof. by apply split_loop_lines. Qed.

(** *** Reset tokens taken before their line ends *)

Definition resets (k : nat) : list ClientFrame := replicate k (client_frame [126]).

Lemma chunk_frames_resets k l : chunk_frames (replicate k 126 ++ l) = resets k ++ chunk_frames l.
Proof.
  induction k as [|k IH]; [done|]. unfold chunk_frames, resets in *. cbn.
  destruct (strip_resets (replicate k 126 ++ l)). cbn. by rewrite IH.
Qed.

Lemma cut_resets k t :
  cut (replicate k 126 ++ t) =
    match cut t with
    | ([], r) => ([], replicate k 126 ++ r)
    | (l :: ls, r) => ((replicate k 126 ++ l) :: ls, r)
    end.
Proof.
  induction k as [|k IH]; simpl; [by destruct (cut t) as [[] ]|].
  rewrite IH. by destruct (cut t) as [[] ].
Qed.

(** What has been taken of a stream: the frames of its lines, and the reset
    tokens at the start of the line that is not finished. *)
Definition taken (s : bytes) (fs : list ClientFrame) (buf : bytes) : Prop :=
  exists k, fs = line_frames s ++ resets k /\ unfinished s = replicate k 126 ++ buf.

Lemma taken_nil : taken [] [] [].
Proof. by exists O. Qed.

Lemma taken_split s fs buf data :
  taken s fs buf ->
  taken (s ++ data) (fs ++ fst (split_client_frames (buf ++ data)))
    (snd (split_client_frames (buf ++ data))).
Proof.
  intros (k & -> & Hu). rewrite split_lines.
  assert (line_frames (s ++ data) = line_frames s ++
    match fst (cut (buf ++ data)) with [] => [] | _ :: _ => resets k ++ line_frames (buf ++ data) end /\
    unfinished (s ++ data) =
    match fst (cut (buf ++ data)) with
    | [] => replicate k 126 ++ unfinished (buf ++ data) | _ :: _ => unfinished (buf ++ data) end)
    as [Hf Hun].
  { rewrite line_frames_app, unfinished_app, Hu, <- app_assoc. unfold line_frames, unfinished.
    rewrite cut_resets. destruct (cut (buf ++ data)) as [[|l ls] r]; [done|].
    cbn [fst snd flat_map]. by rewrite chunk_frames_resets, <- app_assoc. }
  unfold taken. rewrite Hf, Hun. clear Hf Hun Hu.
  destruct (fst (cut (buf ++ data))) as [|l ls] eqn:El.
  - assert (line_frames (buf ++ data) = []) as -> by (unfold line_frames; by rewrite El).
    destruct (bool_decide_reflect (unfinished (buf ++ data) = [126])) as [->|_]; cbn [fst snd].
    + exists (S k). rewrite !app_nil_r. unfold resets. rewrite !replicate_S_end.
      by rewrite <- app_assoc.
    + exists k. by rewrite !app_nil_r.
  - destruct (bool_decide_reflect (unfinished (buf ++ data) = [126])) as [->|_]; cbn [fst snd].
    + exists 1%nat. by rewrite <- !app_assoc.
    + exists O. by rewrite !app_nil_r, <- !app_assoc.
Qed.

(** At the end of a line everything has been taken. *)
Lemma taken_complete s fs buf : taken s fs buf -> unfinished s = [] -> fs = line_frames s /\ buf = [].
Proof.
  intros (k & -> & Hu) H. rewrite H in Hu. destruct k; [|done]. simpl in Hu.
  by rewrite app_nil_r.
Qed.

End WireFacts.

Module FakePciFacts.
Import Wire WireFacts FakePci.

Lemma handle_set_buffers i b st f :
  _handle_frame i (set_buffers b st) f = set_buffers b (_handle_frame i st f).
Proof.
  unfold _handle_frame. destruct (is_reset f); [done|]. destruct (is_smart_connect f); [done|].
  destruct (conf f); [|done]. cbn. destruct (withheld st); [by case_bool_decide|].
  by destruct (withhold_first_conf st).
Qed.

Lemma fold_set_buffers i b st fs :
  foldl (_handle_frame i) (set_buffers b st) fs = set_buffers b (foldl (_handle_frame i) st fs).
Proof.
  revert st. induction fs as [|f fs IH]; intros st; [done|]. simpl.
  by rewrite handle_set_buffers, IH.
Qed.

Lemma handle_buffers i st f : buffers (_handle_frame i st f) = buffers st.
Proof.
  unfold _handle_frame. destruct (is_reset f); [done|]. destruct (is_smart_connect f); [done|].
  destruct (conf f); [|done]. cbn. destruct (withheld st); [by case_bool_decide|].
  by destruct (withhold_first_conf st).
Qed.

(** However the stream is cut, the frames handled are those taken of it. *)
Lemma serve_taken w i chunks :
  Forall (fun c => c <> []) chunks ->
  exists fs buf, taken (concat chunks) fs buf /\
    serve w i chunks =
      set_buffers [(i, buf)] (foldl (_handle_frame i) (accept i (fake_init w)) fs).
Proof.
  unfold serve. induction chunks as [|data chunks IH] using rev_ind; intros Hne.
  - exists [], []. split; [exact taken_nil|]. by destruct w.
  - apply Forall_app in Hne as [Hne Hd%Forall_inv].
    destruct (IH Hne) as (fs & buf & Ht & Hs).
    rewrite foldl_app. cbn [foldl]. rewrite Hs. unfold received.
    cbn [buffers set_buffers buffer_of]. rewrite Nat.eqb_refl.
    rewrite concat_app. simpl. rewrite app_nil_r.
    pose proof (taken_split _ _ _ data Ht) as Ht'.
    destruct data as [|x data]; [done|].
    destruct (split_client_frames (buf ++ x :: data)) as [fs' buf'].
    exists (fs ++ fs'), buf'. split; [exact Ht'|].
    cbn [put_buffer]. by rewrite Nat.eqb_refl, foldl_app, !fold_set_buffers.
Qed.

(** *** What the frames lead to *)

Lemma count_snoc P fs f : count P (fs ++ [f]) = count P fs + (if P f then 1 else 0).
Proof.
  unfold count, len. rewrite List.filter_app, length_app. simpl. destruct (P f); simpl; lia.
Qed.

Lemma withheld_key_snoc w fs f :
  withheld_key w (fs ++ [f]) =
    match withheld_key w fs with
    | Some k => Some k
    | None => if w && confirmed f then Some (frame_key f) else None
    end.
Proof.
  unfold withheld_key. destruct w; [|done]. rewrite List.filter_app.
  destruct (List.filter confirmed fs); [|done]. simpl. by destruct (confirmed f).
Qed.

(** Until a confirmation is withheld, none was asked for. *)
Lemma no_key_no_confirmed fs : withheld_key true fs = None -> List.filter confirmed fs = [].
Proof. unfold withheld_key. by destruct (List.filter confirmed fs). Qed.

Lemma filter_conj {A} (P Q : A -> bool) l :
  List.filter P l = [] -> List.filter (fun x => P x && Q x) l = [].
Proof.
  induction l as [|x l IH]; [done|]. simpl. destruct (P x); [done|]. simpl. auto.
Qed.

Lemma answers_snoc w fs f :
  answers w (fs ++ [f]) = answers w fs ++
    (if confirmed f && negb (is_withheld (withheld_key w (fs ++ [f])) f)
     then [acknowledgement f] else []).
Proof.
  unfold answers. rewrite List.filter_app, map_app. f_equal.
  - rewrite withheld_key_snoc. destruct (withheld_key w fs) as [k|] eqn:Ek; [done|].
    destruct w; [|done]. apply no_key_no_confirmed in Ek. by rewrite !filter_conj.
  - simpl. by destruct (_ && _).
Qed.

Lemma again_snoc w fs f :
  again w (fs ++ [f]) = again w fs +
    (if confirmed f && is_withheld (withheld_key w (fs ++ [f])) f then 1 else 0).
Proof.
  unfold again. rewrite count_snoc. f_equal. rewrite withheld_key_snoc.
  destruct (withheld_key w fs) as [k|] eqn:Ek; [done|]. destruct w; [|done].
  apply no_key_no_confirmed in Ek. unfold count. by rewrite !filter_conj.
Qed.

Lemma again_none w fs : withheld_key w fs = None -> again w fs = 0.
Proof.
  intros Hk. unfold again, count. rewrite Hk.
  assert (List.filter (fun f => confirmed f && is_withheld None f) fs = []) as ->; [|done].
  clear Hk. induction fs as [|f fs IH]; [done|]. simpl. by rewrite andb_false_r.
Qed.

(** One frame. *)
Lemma handle_effect i st f :
  (withheld st = None -> withheld_seen st = 0) ->
  let k := match withheld st with
           | Some k => Some k
           | None => if withhold_first_conf st && confirmed f then Some (frame_key f) else None
           end in
  let st' := _handle_frame i st f in
  frames st' = frames st ++ [f] /\
  written st' = written st ++
    map (pair i) (if confirmed f && negb (is_withheld k f) then [acknowledgement f] else []) /\
  reset_count st' = reset_count st + (if is_reset f then 1 else 0) /\
  smart_connect_count st' =
    smart_connect_count st + (if negb (is_reset f) && is_smart_connect f then 1 else 0) /\
  withhold_first_conf st' = withhold_first_conf st /\ withheld st' = k /\
  withheld_seen st' = withheld_seen st + (if confirmed f && is_withheld k f then 1 else 0).
Proof.
  intros H0. cbv zeta. unfold _handle_frame, confirmed, is_command, acknowledgement.
  destruct (is_reset f); [|destruct (is_smart_connect f); [|destruct (conf f) as [c|]]].
  1,2,4: cbn; rewrite ?andb_false_r; cbn; rewrite ?app_nil_r, ?Z.add_0_r;
    by destruct (withheld st).
  destruct (withheld st) as [k|] eqn:Ek; [|destruct (withhold_first_conf st) eqn:Ew];
    cbn; rewrite ?Ek, ?Ew; cbn.
  - destruct (bool_decide (frame_key f = k)); cbn; by rewrite ?Ek, ?app_nil_r, ?Z.add_0_r.
  - by rewrite bool_decide_eq_true_2, app_nil_r, H0, ?Ew, !Z.add_0_r by done.
  - by rewrite ?Ek, ?Ew, !Z.add_0_r.
Qed.

Lemma handled w i fs :
  let st := foldl (_handle_frame i) (accept i (fake_init w)) fs in
  frames st = fs /\ written st = map (pair i) (answers w fs) /\
  reset_count st = count is_reset fs /\
  smart_connect_count st = count (fun f => negb (is_reset f) && is_smart_connect f) fs /\
  withhold_first_conf st = w /\ withheld st = withheld_key w fs /\ withheld_seen st = again w fs.
Proof.
  cbv zeta. induction fs as [|f fs IH] using rev_ind.
  - repeat split. by destruct w.
  - rewrite foldl_app. cbn [foldl].
    set (st := foldl (_handle_frame i) (accept i (fake_init w)) fs) in *. clearbody st.
    destruct IH as (Hf & Hw & Hr & Hs & Hb & Hk & Hn).
    destruct (handle_effect i st f) as (-> & -> & -> & -> & -> & -> & ->).
    { rewrite Hk, Hn. apply again_none. }
    rewrite answers_snoc, again_snoc, !count_snoc, withheld_key_snoc, map_app, Hf, Hw, Hr, Hs,
      Hb, Hk, Hn. done.
Qed.

(** *** The lines of the client *)

Lemma code_not_hex k : k ∈ CONFIRMATION_CODES -> byte_in k HEX_CHARS = false /\ k <> 13.
Proof.
  intros H.
  assert (forallb (fun k => negb (byte_in k HEX_CHARS) && negb (k =? 13)) CONFIRMATION_CODES = true)
    as Hall by by vm_compute.
  rewrite forallb_forall in Hall. apply list_elem_of_In, Hall in H. bool_hyps.
  by rewrite <- Z.eqb_neq.
Qed.

(** A line of text is one frame. *)
Lemma text_frame b pre code :
  bytes_ok b -> b <> [] -> pre = [] \/ pre = [92] ->
  match code with Some k => k ∈ CONFIRMATION_CODES | None => True end ->
  let line := pre ++ b16encode b ++ option_list code in
  13 ∉ line /\ chunk_frames line = [client_frame line] /\
  client_frame line =
    {| raw := line; is_reset := false; is_smart_connect := false;
       basic := negb (startswith [92] line); conf := (fun k => [k]) <$> code;
       payload := b16encode b |}.
Proof.
  intros Hb Hne Hpre Hcode line.
  destruct (text_shape b Hb Hne) as (c & d & l & E & Hc & Hall).
  assert (exists x y r, line = x :: y :: r /\ x <> 126 /\ x <> 124) as (x & y & r & El & Hx).
  { unfold line. rewrite E. destruct Hpre as [->| ->]; cbn; eexists _, _, _; split; try done; lia. }
  split; [|split].
  - unfold line. rewrite !elem_of_app. intros [H|[H%Hall|H]]; [|lia|].
    + destruct Hpre as [->| ->]; set_solver.
    + destruct code as [k|]; [|set_solver]. apply code_not_hex in Hcode as [_ Hk]. set_solver.
  - unfold chunk_frames. rewrite El. cbn [strip_resets].
    by rewrite (proj2 (Z.eqb_neq x 126)) by tauto.
  - unfold client_frame.
    rewrite (bool_decide_eq_false_2 (line = [126])) by (rewrite El; congruence).
    rewrite (bool_decide_eq_false_2 (line = [124])) by (rewrite El; congruence).
    rewrite (bool_decide_eq_false_2 (line = [124; 124])) by (rewrite El; intuition congruence).
    assert ((if startswith [92] line then drop 1 line else line) = b16encode b ++ option_list code)
      as ->.
    { unfold line. destruct Hpre as [->| ->]; [|done]. cbn [app]. rewrite E. cbn [app startswith].
      by rewrite (proj2 (Z.eqb_neq 92 c)) by lia. }
    assert (startswith [64] (b16encode b ++ option_list code) = false) as ->.
    { rewrite E. cbn [app startswith]. by rewrite (proj2 (Z.eqb_neq 64 c)) by lia. }
    cbn [negb orb andb]. destruct code as [k|].
    + change (option_list (Some k)) with [k]. rewrite last_snoc, but_last_snoc.
      by rewrite (proj1 (code_not_hex k Hcode)).
    + change (option_list None) with (@nil Z). rewrite app_nil_r.
      destruct (last (b16encode b)) as [k|] eqn:Ek; [|done].
      pose proof (b16encode_hex_chars b Hb) as Hx'. rewrite forallb_forall in Hx'.
      rewrite Hx'; [done|]. apply list_elem_of_In. apply last_Some in Ek as (l' & ->). set_solver.
Qed.

(** What a valid packet is on the wire. *)
Lemma valid_packet_text p : packet_valid p ->
  exists b, packet_encode p = Ok b /\ encode_packet p = Ok (b16encode b) /\
    bytes_ok b /\ b <> [] /\ is_special p = false.
Proof.
  intros Hv. assert (exists h, packet_header p = Some h) as [h Hh]
    by (destruct p as [| | | | | |? []| |]; try done; by eexists).
  destruct (packet_wire p h Hv Hh) as (body & Hb & Ee & _).
  destruct (valid_decoder p h Hv Hh) as (_ & Hrc & _).
  exists (finish h (header_bytes h ++ body)). split; [done|].
  assert (is_special p = false) as Hs by by destruct p.
  split; [by unfold encode_packet; rewrite Ee, bind_Ok, Hs|]. split; [|split; [|done]].
  - apply finish_bytes, Forall_app. split; [|done]. by apply base_encode_ok.
  - unfold finish, header_bytes, add_cbus_checksum. by destruct (checksum h).
Qed.

Lemma prepared_data call t now st st' data code :
  confirmations_inv st -> pending_carry st ->
  _prepare_packet call t now st = Ok (st', data, code) ->
  exists text, encode_packet (cmd call) = Ok text /\
    data = (if is_special_client (cmd call) || basic_mode call then [] else [92]) ++ text ++
      option_list code ++ END_COMMAND /\
    match code with
    | Some k => k ∈ CONFIRMATION_CODES /\ is_special_client (cmd call) = false
    | None => True
    end.
Proof.
  intros Hi Hp H. pose proof (prepare_packet_ok _ _ _ _ _ _ _ Hi Hp H) as (_ & _ & Hk).
  unfold _prepare_packet in H. cbv zeta in H. apply result_bind_Ok in H as (text & Ht & H).
  exists text. split; [done|].
  destruct (negb (is_special_client (cmd call)) && want_confirmation call) eqn:E.
  - destruct (_get_confirmation_code t now st) as [st1 k]. injection H as _ <- <-.
    apply andb_true_iff in E as [E _]. apply negb_true_iff in E. rewrite E.
    split; [|by destruct Hk]. by destruct (basic_mode call).
  - injection H as _ <- <-. split; [|done].
    by destruct (is_special_client (cmd call)), (basic_mode call).
Qed.

Lemma sent_line s : sent_ok s ->
  exists line f, snd (fst s) = line ++ [13] /\ 13 ∉ line /\ chunk_frames line = [f] /\ recorded s f.
Proof.
  destruct s as [[call data] code]. intros (Hcmd & t & now & st & st' & Hi & Hp & H).
  destruct (prepared_data _ _ _ _ _ _ _ Hi Hp H) as (text & Ht & -> & Hk). cbn [fst snd].
  destruct Hcmd as [Hv|Hs].
  - destruct (valid_packet_text _ Hv) as (b & Eb & Ep & Hb & Hne & Hsp).
    assert (text = b16encode b) as -> by congruence.
    assert (is_special_client (cmd call) = false) as Hc by by destruct (cmd call).
    rewrite Hc. cbn [orb]. set (pre := if basic_mode call then [] else [92]).
    destruct (text_frame b pre code Hb Hne) as (H13 & Hch & Hf);
      [subst pre; destruct (basic_mode call); auto|by destruct code; [apply Hk|]|].
    exists (pre ++ b16encode b ++ option_list code), (client_frame (pre ++ b16encode b ++ option_list code)).
    split; [by rewrite <- !app_assoc|]. split; [done|]. split; [done|]. rewrite Hf.
    assert (negb (startswith [92] (pre ++ b16encode b ++ option_list code)) = basic_mode call) as Hbas.
    { subst pre. destruct (basic_mode call); [|done].
      destruct (text_shape b Hb Hne) as (c & d & l & E & Hc' & _). rewrite E.
      cbn [app startswith]. by rewrite (proj2 (Z.eqb_neq 92 c)) by lia. }
    assert (fromhex (b16encode b) = Ok b) as Hx by by apply fromhex_b16encode.
    unfold recorded, payload_bytes. cbn [is_reset is_smart_connect conf payload basic].
    destruct (cmd call); try done; (split; [done|]); (split; [exact Ep|]); (split; [done|]);
      (split; [done|]); exists b; by rewrite Hx.
  - destruct Hs as [Hs|Hs]; rewrite Hs in *; injection Ht as <-;
      (destruct code as [k|]; [by destruct Hk|]); cbn [recorded]; rewrite Hs.
    + exists [126], (client_frame [126]). cbn. repeat split. set_solver by lia.
    + exists [124], (client_frame [124]). cbn. repeat split. set_solver by lia.
Qed.

Lemma sent_lines (l : list sent) :
  Forall sent_ok l ->
  Forall2 recorded l (line_frames (concat (map (fun s => snd (fst s)) l))) /\
  unfinished (concat (map (fun s => snd (fst s)) l)) = [].
Proof.
  induction 1 as [|s l Hs _ [IH IHu]]; [by split|].
  destruct (sent_line s Hs) as (line & f & Hd & H13 & Hf & Hr).
  cbn [map concat]. rewrite Hd, <- app_assoc. unfold line_frames, unfinished in *.
  cbn [app]. rewrite cut_line by done. cbn [fst snd flat_map]. rewrite Hf.
  by split; [constructor|].
Qed.

(** Without withholding, the answers are the codes. *)
Lemma answers_codes l fs :
  Forall2 recorded l fs -> answers false fs = omap (fun s => (fun k => [k; 46]) <$> snd s) l.
Proof.
  assert (answers false fs = map acknowledgement (List.filter confirmed fs)) as ->.
  { unfold answers. f_equal. apply List.filter_ext. intros f. by rewrite andb_true_r. }
  induction 1 as [|[[call data] code] f l fs Hr _ IH]; [done|]. simpl.
  assert (confirmed f = match code with Some _ => true | None => false end /\
    acknowledgement f = match code with Some k => [k; 46] | None => acknowledgement f end)
    as [-> Ha].
  { unfold recorded, confirmed, acknowledgement, is_command in *.
    destruct (cmd call); repeat match type of Hr with _ /\ _ => destruct Hr as [? Hr] end;
      repeat match goal with H : ?x = _ |- context [?x] => rewrite H end; subst;
      try destruct code; cbn; rewrite ?andb_false_r; auto. }
  destruct code as [k|]; cbn; [by rewrite Ha, IH|done].
Qed.

End FakePciFacts.

(** ** Properties *)

(** *** Client and interface *)
Import Wire WireFacts FakePci FakePciFacts.

(** C30. The scripted interface records exactly what the client sends. Take the
    lines that any calls of the client's [_send] write, in order, and cut their
    stream into reads in any way: there is one frame for each call, in order; a
    command's frame has the text and the bytes of the packet, the mode and the
    confirmation code of the call; a reset or a mode token is recognised as one. The
    interface answers each code once, in order, or, when told to withhold the first
    confirmation, each except that of the first coded frame and its exact repeats,
    which it counts. Nothing stays in the buffer. *)
Theorem client_lines_recorded w i (l : list sent) chunks :
  Forall sent_ok l -> Forall (fun c => c <> []) chunks ->
  concat chunks = concat (map (fun s => snd (fst s)) l) ->
  let st := serve w i chunks in
  Forall2 recorded l (frames st) /\ buffers st = [(i, [])] /\
  written st =
    map (pair i)
      (if w then answers true (frames st)
       else omap (fun s => (fun k => [k; 46]) <$> snd s) l) /\
  withheld_seen st = again w (frames st).
Proof.
  intros Hl Hne Hc. cbv zeta. destruct (serve_taken w i chunks Hne) as (fs & buf & Ht & ->).
  destruct (sent_lines l Hl) as [Hr Hu]. rewrite Hc in Ht.
  destruct (taken_complete _ _ _ Ht Hu) as [-> ->].
  destruct (handled w i (line_frames (concat (map (fun s => snd (fst s)) l))))
    as (Hf & Hw & _ & _ & _ & _ & Ha).
  cbn [frames written buffers withheld_seen set_buffers]. rewrite Hf, Hw, Ha.
  split; [done|]. split; [done|]. split; [|done]. f_equal.
  destruct w; [done|]. by apply answers_codes.
Qed.

(** A reset and an option of [pci_reset], read in pieces. *)
Definition harness_option : send_call := dm_option 0x30 0x79.

Example client_lines_recorded_witness :
  exists data k,
    Forall sent_ok [(special ResetPacket, [126; 13], None); (harness_option, data, Some k)] /\
    Forall2 recorded [(special ResetPacket, [126; 13], None); (harness_option, data, Some k)]
      (frames (serve false 7 [[126]; 13 :: data])) /\
    written (serve false 7 [[126]; 13 :: data]) = [(7%nat, [k; 46])].
Proof.
  assert (exists st' data k, _prepare_packet harness_option 0 0 no_confirmations =
    Ok (st', data, Some k)) as (st' & data & k & H)
    by (eexists _, _, _; vm_compute; reflexivity).
  exists data, k.
  assert (Forall sent_ok [(special ResetPacket, [126; 13], None); (harness_option, data, Some k)])
    as Hl.
  { constructor; [split|constructor; [split|done]].
    - right. by left.
    - exists 0, 0, no_confirmations, no_confirmations.
      split; [exact no_confirmations_inv|]. split; [|reflexivity].
      by intros c e ?%not_elem_of_nil.
    - left. by repeat split.
    - exists 0, 0, no_confirmations, st'.
      split; [exact no_confirmations_inv|]. split; [|exact H].
      by intros c e ?%not_elem_of_nil. }
  split; [exact Hl|].
  destruct (client_lines_recorded false 7
    [(special ResetPacket, [126; 13], None); (harness_option, data, Some k)] [[126]; 13 :: data] Hl)
    as (Hr & _ & Hw & _).
  - by repeat constructor.
  - reflexivity.
  - split; [exact Hr|exact Hw].
Defined.

(** Withholding: a line sent twice is seen twice and not answered; the next code is. *)
Example first_code_withheld :
  let line k := [65; 51; k; 13] in
  let st := serve true 7 [line 103 ++ line 103; line 104] in
  written st = [(7%nat, [104; 46])] /\ withheld_seen st = 2 /\
  payloads st = [[65; 51]; [65; 51]; [65; 51]].
Proof. by vm_compute. Qed.

