(* ===== verification/Broker.v ===== *)
(** * The harness's broker: [lib/mini_broker.py] of [src/rust-migration-harness]

    MQTT 3.1.1 as far as the daemon needs it: the length coding, the packets of a
    client as they come out of its stream, the broker's answers and the delivery of
    messages to the subscribers, with the reference encoding of a client's packets
    and the abstract broker that the code implements. A text is its UTF-8 bytes.
    Time stamps are not modelled. [Listening]: the socket of the broker, from its start
    to its end. *)

From S2P Require Import Prelude Text Common Hex Topics.
From Stdlib Require Import String Ascii.
From stdpp Require Import strings options.

Local Open Scope string_scope.
Local Open Scope list_scope.
Local Open Scope Z_scope.

Abbreviation text := (list Z).

(** ** Topics *)

(** [s.split('/')]: the first part and the others. *)
Fixpoint split_levels (s : text) : text * list text :=
  match s with
  | [] => ([], [])
  | c :: s =>
      let '(h, t) := split_levels s in
      if c =? 47 then ([], h :: t) else (c :: h, t)
  end.

Definition levels (s : text) : list text := let '(h, t) := split_levels s in h :: t.

(** The loop of [topic_matches] over the levels of the filter and, at the same
    position, of the topic. *)
Fixpoint levels_match (fp tp : list text) : bool :=
  match fp with
  | [] => match tp with [] => true | _ :: _ => false end
  | seg :: fp =>
      if bool_decide (seg = [35]) then true
      else
        match tp with
        | [] => false
        | t :: tp =>
            if bool_decide (seg = [43]) then levels_match fp tp
            else if bool_decide (seg = t) then levels_match fp tp else false
        end
  end.

Definition topic_matches (filt topic : text) : bool := levels_match (levels filt) (levels topic).

(** ** Numbers and texts in packets *)

(** [int.from_bytes(b, 'big')] *)
Definition from_bytes (b : bytes) : Z := foldl (fun a x => a * 256 + x) 0 b.

(** [n.to_bytes(2, 'big')] *)
Definition to_bytes2 (n : Z) : result bytes :=
  if (0 <=? n) && (n <? 65536) then Ok (pack_H n) else Raise OverflowError.

Fixpoint remaining_loop (fuel : nat) (n : Z) : bytes :=
  let b := n mod 128 in
  let n := n / 128 in
  match fuel with
  | O => [b]
  | S fuel => if n =? 0 then [b] else Z.lor b 0x80 :: remaining_loop fuel n
  end.

(** One turn per seven bits. *)
Definition _encode_remaining (n : Z) : bytes := remaining_loop (Z.to_nat (Z.log2 n)) n.

(** [_publish_packet]; the identifier is always 1. *)
Definition _publish_packet (topic : text) (payload : bytes) (qos : Z) (retain : bool)
    : result bytes :=
  l ← to_bytes2 (len topic);
  let var := l ++ topic ++ (if 0 <? qos then pack_H 1 else []) in
  let body := var ++ payload in
  let hdr := Z.lor (Z.lor 0x30 (Z.shiftl qos 1)) (if retain then 0x01 else 0) in
  h ← mk_bytes [hdr];
  Ok (h ++ _encode_remaining (len body) ++ body).

(** ** State *)

(** [_Client] and its stream: what waits to be read, what was written to it, and
    whether its handler runs (its writer is closed when the handler ends). *)
Record client := {
  subscriptions : list text;
  connected : bool;
  serving : bool;
  inbox : bytes;
  outbox : list bytes
}.

Record publication := { p_topic : text; p_payload : bytes; p_qos : Z; p_retain : bool }.

Inductive broker_error := WrongLevel (level : Z) | Unhandled (kind : Z).

Record broker := {
  clients : list client;
  publishes : list publication;
  all_subscriptions : list text;
  errors : list broker_error;
  retained : gmap text bytes
}.

Definition broker_init : broker :=
  {| clients := []; publishes := []; all_subscriptions := []; errors := []; retained := ∅ |}.

Definition new_client : client :=
  {| subscriptions := []; connected := false; serving := true; inbox := []; outbox := [] |}.

Definition with_clients (cs : list client) (br : broker) : broker :=
  {| clients := cs; publishes := publishes br; all_subscriptions := all_subscriptions br;
     errors := errors br; retained := retained br |}.

(** A change of client [i]. *)
Definition at_client (i : nat) (f : client -> client) (br : broker) : broker :=
  with_clients (alter f i (clients br)) br.

Definition set_connected (c : client) : client :=
  {| subscriptions := subscriptions c; connected := true; serving := serving c;
     inbox := inbox c; outbox := outbox c |}.

Definition add_subscription (t : text) (c : client) : client :=
  {| subscriptions := subscriptions c ++ [t]; connected := connected c; serving := serving c;
     inbox := inbox c; outbox := outbox c |}.

Definition set_inbox (b : bytes) (c : client) : client :=
  {| subscriptions := subscriptions c; connected := connected c; serving := serving c;
     inbox := b; outbox := outbox c |}.

(** [writer.write(data)]: lost when the writer is closed. *)
Definition write_client (data : bytes) (c : client) : client :=
  if serving c then
    {| subscriptions := subscriptions c; connected := connected c; serving := serving c;
       inbox := inbox c; outbox := outbox c ++ [data] |}
  else c.

(** The end of the handler: the [finally] block. *)
Definition close_client (c : client) : client :=
  {| subscriptions := subscriptions c; connected := connected c; serving := false;
     inbox := inbox c; outbox := outbox c |}.

Definition add_error (e : broker_error) (br : broker) : broker :=
  {| clients := clients br; publishes := publishes br;
     all_subscriptions := all_subscriptions br; errors := errors br ++ [e];
     retained := retained br |}.

Definition add_topic (t : text) (br : broker) : broker :=
  {| clients := clients br; publishes := publishes br;
     all_subscriptions := all_subscriptions br ++ [t]; errors := errors br;
     retained := retained br |}.

Definition record_publish (p : publication) (br : broker) : broker :=
  {| clients := clients br; publishes := publishes br ++ [p];
     all_subscriptions := all_subscriptions br; errors := errors br;
     retained := if p_retain p then <[p_topic p := p_payload p]> (retained br)
                 else retained br |}.

(** ** Handling a packet *)

Definition wants (topic : text) (c : client) : bool :=
  existsb (fun f => topic_matches f topic) (subscriptions c).

(** [_fanout] *)
Definition _fanout (topic : text) (payload : bytes) (br : broker) : result broker :=
  pkt ← _publish_packet topic payload 0 false;
  Ok (with_clients
        (map (fun c => if wants topic c then write_client pkt c else c) (clients br)) br).

(** [inject] *)
Definition inject (topic : text) (payload : bytes) (br : broker) : result broker :=
  _fanout topic payload br.

(** The loop over the topics of a SUBSCRIBE packet; what it did before an
    exception stays done. Every turn takes three bytes. *)
Fixpoint subscribe_loop (fuel : nat) (i : nat) (body : bytes) (off : nat) (granted : bytes)
    (br : broker) : broker * result bytes :=
  if (off <? length body)%nat then
    match fuel with
    | O => (br, Raise OutOfFuel)
    | S fuel =>
        let tlen := Z.to_nat (from_bytes (slice off (off + 2) body)) in
        match
          topic ← decode_utf8 (slice (off + 2) (off + 2 + tlen) body);
          rq ← item body (off + 2 + tlen);
          Ok (topic, rq)
        with
        | Raise e => (br, Raise e)
        | Ok (topic, rq) =>
            subscribe_loop fuel i body (off + 3 + tlen) (granted ++ [Z.min rq 1])
              (add_topic topic (at_client i (add_subscription topic) br))
        end
    end
  else (br, Ok granted).

(** How a turn of [_on_client] ends: with the next packet, or with the end of the
    handler, by [break] or by an exception. *)
Inductive turn := Go | Stop (e : option exn).

Definition of_result {A} (br : broker) (r : result A) (k : A -> broker * turn) : broker * turn :=
  match r with Ok a => k a | Raise e => (br, Stop (Some e)) end.

Definition on_connect (i : nat) (body : bytes) (br : broker) : broker * turn :=
  let nlen := Z.to_nat (from_bytes (slice 0 2 body)) in
  of_result br (item body (2 + nlen)) (fun level =>
    if negb (level =? 4) then
      (at_client i (write_client [0x20; 0x02; 0x00; 0x01]) (add_error (WrongLevel level) br),
       Stop None)
    else
      (at_client i (fun c => write_client [0x20; 0x02; 0x00; 0x00] (set_connected c)) br, Go)).

Definition on_publish (i : nat) (ptype : Z) (body : bytes) (br : broker) : broker * turn :=
  let qos := Z.land (Z.shiftr ptype 1) 0x03 in
  let retain := negb (Z.land ptype 0x01 =? 0) in
  let tlen := Z.to_nat (from_bytes (slice 0 2 body)) in
  of_result br (decode_utf8 (slice 2 (2 + tlen) body)) (fun topic =>
    let off := (2 + tlen)%nat in
    let '(pid, off) :=
      if 0 <? qos then (from_bytes (slice off (off + 2) body), (off + 2)%nat) else (0, off) in
    let payload := drop off body in
    let br := record_publish {| p_topic := topic; p_payload := payload; p_qos := qos;
                                p_retain := retain |} br in
    of_result br (to_bytes2 pid) (fun id =>
      let br :=
        if qos =? 1 then at_client i (write_client ([0x40; 0x02] ++ id)) br
        else if qos =? 2 then at_client i (write_client ([0x50; 0x02] ++ id)) br
        else br in
      of_result br (_fanout topic payload br) (fun br => (br, Go)))).

(** The answer to a packet that only carries an identifier. *)
Definition on_identifier (i : nat) (head : bytes) (body : bytes) (br : broker) : broker * turn :=
  of_result br (to_bytes2 (from_bytes (slice 0 2 body))) (fun id =>
    (at_client i (write_client (head ++ id)) br, Go)).

Definition on_subscribe (i : nat) (body : bytes) (br : broker) : broker * turn :=
  let pid := from_bytes (slice 0 2 body) in
  let '(br, granted) := subscribe_loop (length body) i body 2 [] br in
  of_result br granted (fun granted =>
    of_result br (to_bytes2 pid) (fun id =>
      (at_client i (write_client ([0x90] ++ _encode_remaining (2 + len granted) ++ id ++ granted)) br,
       Go))).

Definition handle_packet (i : nat) (ptype : Z) (body : bytes) (br : broker) : broker * turn :=
  let kind := Z.shiftr ptype 4 in
  if kind =? 1 then on_connect i body br
  else if kind =? 3 then on_publish i ptype body br
  else if kind =? 6 then on_identifier i [0x70; 0x02] body br
  else if kind =? 8 then on_subscribe i body br
  else if kind =? 10 then on_identifier i [0xb0; 0x02] body br
  else if kind =? 12 then (at_client i (write_client [0xd0; 0x00]) br, Go)
  else if kind =? 14 then (br, Stop None)
  else if kind =? 4 then (br, Go)
  else (add_error (Unhandled kind) br, Go).

(** ** Reading *)

Inductive reading (A : Type) :=
| Got (a : A) (rest : bytes)
| Incomplete
| Bad (e : exn).
Arguments Got {A} a rest.
Arguments Incomplete {A}.
Arguments Bad {A} e.

(** The loop over the bytes of the remaining length. *)
Fixpoint read_remaining (i : Z) (mult rem : Z) (s : bytes) : reading Z :=
  match s with
  | [] => Incomplete
  | b :: s =>
      let rem := rem + Z.land b 0x7f * mult in
      if Z.land b 0x80 =? 0 then Got rem s
      else if 3 <? i + 1 then Bad ValueError
      else read_remaining (i + 1) (mult * 128) rem s
  end.

(** [_read_packet], from what has arrived: it waits while that is incomplete. *)
Definition _read_packet (s : bytes) : reading (Z * bytes) :=
  match s with
  | [] => Incomplete
  | h :: s =>
      match read_remaining 0 1 0 s with
      | Incomplete => Incomplete
      | Bad e => Bad e
      | Got rem s =>
          if len s <? rem then Incomplete
          else Got (h, take (Z.to_nat rem) s) (drop (Z.to_nat rem) s)
      end
  end.

(** The loop of [_on_client]; every packet takes two bytes. *)
Fixpoint serve_loop (fuel : nat) (i : nat) (s : bytes) (br : broker) : broker :=
  match _read_packet s with
  | Incomplete => at_client i (set_inbox s) br
  | Bad e => at_client i close_client br
  | Got (ptype, body) rest =>
      match fuel with
      | O => at_client i (set_inbox s) br
      | S fuel =>
          let '(br, t) := handle_packet i ptype body br in
          match t with
          | Go => serve_loop fuel i rest br
          | Stop _ => at_client i close_client br
          end
      end
  end.

(** ** Events *)

(** A connection: [_on_client] up to its first [read]. *)
Definition accept (br : broker) : broker := with_clients (clients br ++ [new_client]) br.

(** Bytes of client [i]; none at the end of its stream. *)
Definition received (i : nat) (data : bytes) (br : broker) : broker :=
  match clients br !! i with
  | Some c =>
      if serving c then
        match data with
        | [] => at_client i close_client br
        | _ :: _ => let s := inbox c ++ data in serve_loop (length s) i s br
        end
      else br
  | None => br
  end.

Definition find_publishes (topic : text) (br : broker) : list publication :=
  List.filter (fun p => bool_decide (p_topic p = topic)) (publishes br).

Definition has_subscription (topic_filter : text) (br : broker) : bool :=
  bool_decide (topic_filter ∈ all_subscriptions br).

(** ** The reference: packets of a client

    MQTT 3.1.1, the packets that the daemon's library sends. *)

Inductive mqtt :=
| Connect (name : text) (level : Z) (rest : bytes)
| Publish (topic : text) (payload : bytes) (qos pid : Z) (dup retain : bool)
| Puback (pid : Z)
| Pubrel (pid : Z)
| Subscribe (pid : Z) (filters : list (text * Z))
| Unsubscribe (pid : Z) (filters : list text)
| Pingreq
| Disconnect.

Definition prefixed (t : text) : bytes := pack_H (len t) ++ t.

Definition first_byte (p : mqtt) : Z :=
  match p with
  | Connect _ _ _ => 0x10
  | Publish _ _ qos _ dup retain =>
      0x30 + (if dup then 8 else 0) + 2 * qos + (if retain then 1 else 0)
  | Puback _ => 0x40
  | Pubrel _ => 0x62
  | Subscribe _ _ => 0x82
  | Unsubscribe _ _ => 0xa2
  | Pingreq => 0xc0
  | Disconnect => 0xe0
  end.

Definition filter_bytes (f : text * Z) : bytes := prefixed (fst f) ++ [snd f].

Definition packet_body (p : mqtt) : bytes :=
  match p with
  | Connect name level rest => prefixed name ++ [level] ++ rest
  | Publish topic payload qos pid _ _ =>
      prefixed topic ++ (if 0 <? qos then pack_H pid else []) ++ payload
  | Puback pid | Pubrel pid => pack_H pid
  | Subscribe pid filters => pack_H pid ++ flat_map filter_bytes filters
  | Unsubscribe pid filters => pack_H pid ++ flat_map prefixed filters
  | Pingreq | Disconnect => []
  end.

Definition wire (p : mqtt) : bytes :=
  first_byte p :: _encode_remaining (len (packet_body p)) ++ packet_body p.

Definition word (n : Z) : Prop := 0 <= n < 65536.
Definition text_ok (t : text) : Prop := utf8 t = true /\ word (len t).

Definition mqtt_ok (p : mqtt) : Prop :=
  len (packet_body p) < 128 ^ 4 /\
  match p with
  | Connect name _ _ => word (len name)
  | Publish topic _ qos pid _ _ => text_ok topic /\ 0 <= qos <= 2 /\ word pid
  | Puback pid | Pubrel pid | Unsubscribe pid _ => word pid
  | Subscribe pid filters => word pid /\ Forall (fun f => text_ok (fst f)) filters
  | Pingreq | Disconnect => True
  end.

(** What the broker sends. *)
Inductive message :=
| Connack (code : Z)
| PubackTo (pid : Z)
| Pubrec (pid : Z)
| Pubcomp (pid : Z)
| Suback (pid : Z) (codes : bytes)
| Unsuback (pid : Z)
| Pingresp
| Deliver (topic : text) (payload : bytes).

Definition render (m : message) : bytes :=
  match m with
  | Connack code => [0x20; 2; 0; code]
  | PubackTo pid => [0x40; 2] ++ pack_H pid
  | Pubrec pid => [0x50; 2] ++ pack_H pid
  | Pubcomp pid => [0x70; 2] ++ pack_H pid
  | Suback pid codes => 0x90 :: _encode_remaining (2 + len codes) ++ pack_H pid ++ codes
  | Unsuback pid => [0xb0; 2] ++ pack_H pid
  | Pingresp => [0xd0; 0]
  | Deliver topic payload => wire (Publish topic payload 0 0 false false)
  end.

(** *** Filters *)

(** What the filters of MQTT mean: a level of the filter stands for itself, [+] for
    any one level, [#] for the rest of the topic. *)
Inductive matches : list text -> list text -> Prop :=
| MatchEnd : matches [] []
| MatchRest fp tp : matches ([35] :: fp) tp
| MatchAny fp t tp : matches fp tp -> matches ([43] :: fp) (t :: tp)
| MatchLevel fp t tp : matches fp tp -> matches (t :: fp) (t :: tp).

Lemma levels_match_spec fp tp : levels_match fp tp = true <-> matches fp tp.
Proof.
  split.
  - revert tp. induction fp as [|seg fp IH]; intros [|t tp]; simpl.
    + intros _. apply MatchEnd.
    + done.
    + case_bool_decide; [subst; intros _; apply MatchRest|done].
    + case_bool_decide; [subst; intros _; apply MatchRest|].
      case_bool_decide; [subst; intros H'; by apply MatchAny, IH|].
      case_bool_decide; [subst; intros H'; by apply MatchLevel, IH|done].
  - induction 1 as [|fp tp|fp t tp H IH|fp t tp H IH]; simpl; [done|done| |].
    + done.
    + repeat case_bool_decide; subst; done.
Qed.

#[export] Instance matches_dec fp tp : Decision (matches fp tp).
Proof.
  destruct (levels_match fp tp) eqn:E.
  - left. by apply levels_match_spec.
  - right. intros H%levels_match_spec. congruence.
Defined.

(** A client that subscribed to the topic. *)
Definition subscribed (topic : text) (c : client) : Prop :=
  Exists (fun f => matches (levels f) (levels topic)) (subscriptions c).

#[export] Instance subscribed_dec topic c : Decision (subscribed topic c).
Proof. unfold subscribed. apply _. Defined.

(** ** The abstract broker *)

Definition tell (i : nat) (m : message) (br : broker) : broker :=
  at_client i (write_client (render m)) br.

(** To every client that is subscribed to the topic, once, whatever the number
    of its filters that match. *)
Definition deliver (topic : text) (payload : bytes) (br : broker) : broker :=
  with_clients
    (map (fun c => if decide (subscribed topic c)
                   then write_client (render (Deliver topic payload)) c else c)
       (clients br)) br.

Definition subscribe_to (i : nat) (br : broker) (f : text * Z) : broker :=
  add_topic (fst f) (at_client i (add_subscription (fst f)) br).

Definition act (i : nat) (p : mqtt) (br : broker) : broker * turn :=
  match p with
  | Connect _ level _ =>
      if level =? 4 then (tell i (Connack 0) (at_client i set_connected br), Go)
      else (tell i (Connack 1) (add_error (WrongLevel level) br), Stop None)
  | Publish topic payload qos pid _ retain =>
      let br := record_publish {| p_topic := topic; p_payload := payload; p_qos := qos;
                                  p_retain := retain |} br in
      let br := if qos =? 1 then tell i (PubackTo pid) br
                else if qos =? 2 then tell i (Pubrec pid) br else br in
      (deliver topic payload br, Go)
  | Puback _ => (br, Go)
  | Pubrel pid => (tell i (Pubcomp pid) br, Go)
  | Subscribe pid filters =>
      (tell i (Suback pid (map (fun f => Z.min (snd f) 1) filters))
         (foldl (subscribe_to i) br filters), Go)
  | Unsubscribe pid _ => (tell i (Unsuback pid) br, Go)
  | Pingreq => (tell i Pingresp br, Go)
  | Disconnect => (br, Stop None)
  end.

Definition is_serving (i : nat) (br : broker) : bool :=
  match clients br !! i with Some c => serving c | None => false end.

(** A packet of client [i], which is ignored after the end of its handler. *)
Definition perform (br : broker) (a : nat * mqtt) : broker :=
  let '(i, p) := a in
  if is_serving i br then
    let '(br, t) := act i p br in
    match t with Go => br | Stop _ => at_client i close_client br end
  else br.

(** Without what has arrived of a packet. *)
Definition clear (br : broker) : broker := with_clients (map (set_inbox []) (clients br)) br.

Definition inbox_of (i : nat) (br : broker) : bytes := from_option inbox [] (clients br !! i).

Definition start (n : nat) : broker := Nat.iter n accept broker_init.

Definition run (n : nat) (events : list (nat * bytes)) : broker :=
  foldl (fun br '(i, data) => received i data br) (start n) events.

Definition wires (ps : list mqtt) : bytes := flat_map wire ps.

Definition of_client {A} (i : nat) (l : list (nat * A)) : list A :=
  omap (fun '(j, a) => if (i =? j)%nat then Some a else None) l.

Definition stream (i : nat) (events : list (nat * bytes)) : bytes := concat (of_client i events).

(** ** Lemmas: topics *)

(** A topic without wildcards is a filter for itself alone. *)
Definition plain_topic (t : text) : Prop := 35 ∉ t /\ 43 ∉ t.

Lemma split_levels_inj s s' : split_levels s = split_levels s' -> s = s'.
Proof.
  revert s'. induction s as [|c s IH]; intros [|c' s']; simpl; [done| | |].
  - destruct (split_levels s'), (c' =? 47); congruence.
  - destruct (split_levels s), (c =? 47); congruence.
  - destruct (split_levels s) as [h t] eqn:E, (split_levels s') as [h' t'] eqn:E'.
    destruct (Z.eqb_spec c 47) as [->|], (Z.eqb_spec c' 47) as [->|]; intros H;
      [|congruence|congruence|]; f_equal; try congruence; apply IH; congruence.
Qed.

Lemma levels_elem c s l : l ∈ levels s -> c ∈ l -> c ∈ s.
Proof.
  unfold levels. revert l. induction s as [|x s IH]; simpl; intros l Hl Hc.
  - apply elem_of_cons in Hl as [->|Hl]; [done|by apply not_elem_of_nil in Hl].
  - destruct (split_levels s) as [h t]. apply elem_of_cons.
    destruct (x =? 47); apply elem_of_cons in Hl as [->|Hl].
    + by apply not_elem_of_nil in Hc.
    + right. by eapply IH.
    + apply elem_of_cons in Hc as [->|Hc]; [by left|right].
      eapply IH; [|exact Hc]. apply elem_of_cons. by left.
    + right. eapply IH; [|exact Hc]. apply elem_of_cons. by right.
Qed.

Lemma plain_levels_match fp tp :
  (forall l, l ∈ fp -> l <> [35] /\ l <> [43]) -> levels_match fp tp = bool_decide (fp = tp).
Proof.
  revert tp. induction fp as [|seg fp IH]; intros [|t tp] Hl; simpl; try done.
  - destruct (Hl seg) as [H1 _]; [apply elem_of_cons; by left|].
    by rewrite bool_decide_eq_false_2.
  - destruct (Hl seg) as [H1 H2]; [apply elem_of_cons; by left|].
    rewrite !bool_decide_eq_false_2 by done.
    destruct (bool_decide_reflect (seg = t)) as [->|].
    + rewrite IH by (intros l Hin; apply Hl, elem_of_cons; by right).
      apply bool_decide_ext. naive_solver.
    + rewrite bool_decide_eq_false_2; naive_solver.
Qed.

Lemma plain_topic_matches f t : plain_topic f -> topic_matches f t = bool_decide (f = t).
Proof.
  intros [H1 H2]. unfold topic_matches. rewrite plain_levels_match.
  - apply bool_decide_ext. split; [|by intros ->]. intros H. apply split_levels_inj.
    unfold levels in H. destruct (split_levels f), (split_levels t). congruence.
  - intros l Hl. split; intros ->; [apply H1|apply H2]; (eapply levels_elem; [exact Hl|by apply elem_of_cons; left]).
Qed.

(** ** Lemmas: the coding of packets *)

Lemma seven_bits b : 0 <= b < 128 ->
  Z.land b 0x7f = b /\ (Z.land b 0x80 =? 0) = true /\
  Z.land (Z.lor b 0x80) 0x7f = b /\ (Z.land (Z.lor b 0x80) 0x80 =? 0) = false.
Proof.
  intros Hb.
  assert (forallb (fun b => (Z.land b 0x7f =? b) && (Z.land b 0x80 =? 0) &&
    (Z.land (Z.lor b 0x80) 0x7f =? b) && negb (Z.land (Z.lor b 0x80) 0x80 =? 0))
    (seqZ 0 128) = true) as H by by vm_compute.
  rewrite forallb_forall in H. specialize (H b).
  rewrite <- list_elem_of_In, elem_of_seqZ in H. specialize (H ltac:(lia)).
  bool_hyps. by rewrite <- !Z.eqb_eq.
Qed.

(** A length is read back, whatever follows, and four bytes are enough. *)
Lemma read_remaining_loop fuel i mult rem n s :
  0 <= n -> Z.log2 n <= Z.of_nat fuel -> 0 <= i <= 3 -> n < 128 ^ (4 - i) ->
  read_remaining i mult rem (remaining_loop fuel n ++ s) = Got (rem + n * mult) s.
Proof.
  revert i mult rem n. induction fuel as [|fuel IH]; intros i mult rem n Hn Hf Hi Hb; simpl;
    pose proof (Z.mod_pos_bound n 128 ltac:(lia)) as Hm;
    destruct (seven_bits (n mod 128) Hm) as (H1 & H2 & H3 & H4).
  - rewrite H1, H2. do 2 f_equal. f_equal. apply Z.mod_small. split; [done|].
    destruct (Z.le_gt_cases n 1); [lia|]. pose proof (Z.log2_pos n). lia.
  - destruct (Z.eqb_spec (n / 128) 0) as [E|E]; cbn [app read_remaining].
    + rewrite H1, H2. do 2 f_equal. f_equal. apply Z.mod_small.
      pose proof (Z.div_small_iff n 128). lia.
    + rewrite H3, H4. assert (128 <= n) as Hbig.
      { destruct (Z.le_gt_cases 128 n); [done|]. exfalso. apply E, Z.div_small. lia. }
      assert (i <= 2) as Hi2.
      { destruct (Z.eq_dec i 3) as [->|]; [|lia]. simpl in Hb. lia. }
      rewrite (proj2 (Z.ltb_ge 3 (i + 1))) by lia. rewrite IH.
      * f_equal. rewrite (Z.div_mod n 128) at 3 by lia. ring.
      * by apply Z.div_pos.
      * change 128 with (2 ^ 7). rewrite <- Z.shiftr_div_pow2, Z.log2_shiftr by lia. lia.
      * lia.
      * apply Z.div_lt_upper_bound; [lia|]. rewrite <- Z.pow_succ_r by lia.
        by replace (Z.succ (4 - (i + 1))) with (4 - i) by lia.
Qed.

Lemma read_encoded_length n s :
  0 <= n < 128 ^ 4 -> read_remaining 0 1 0 (_encode_remaining n ++ s) = Got n s.
Proof.
  intros Hn. unfold _encode_remaining. rewrite read_remaining_loop; try lia.
  f_equal. lia.
Qed.

Lemma read_wire p rest :
  len (packet_body p) < 128 ^ 4 ->
  _read_packet (wire p ++ rest) = Got (first_byte p, packet_body p) rest.
Proof.
  intros Hl. unfold wire, _read_packet. cbn [app]. rewrite <- app_assoc, read_encoded_length.
  - unfold len in *. rewrite (proj2 (Z.ltb_ge _ _)) by (rewrite length_app; lia).
    rewrite Nat2Z.id. by rewrite take_app_length, drop_app_length.
  - unfold len in *. lia.
Qed.

(** More bytes do not change what has been read. *)
Lemma read_remaining_more i mult rem s t :
  match read_remaining i mult rem s with
  | Got n r => read_remaining i mult rem (s ++ t) = Got n (r ++ t)
  | Bad e => read_remaining i mult rem (s ++ t) = Bad e
  | Incomplete => True
  end.
Proof.
  revert i mult rem. induction s as [|b s IH]; intros i mult rem; simpl; [done|].
  destruct (_ =? 0); [done|]. destruct (3 <? i + 1); [done|]. apply IH.
Qed.

Lemma read_packet_more s t :
  match _read_packet s with
  | Got a r => _read_packet (s ++ t) = Got a (r ++ t)
  | Bad e => _read_packet (s ++ t) = Bad e
  | Incomplete => True
  end.
Proof.
  destruct s as [|h s]; [done|]. cbn [_read_packet app].
  pose proof (read_remaining_more 0 1 0 s t) as H.
  destruct (read_remaining 0 1 0 s) as [n r| |e]; [|done|by rewrite H]. rewrite H.
  destruct (Z.ltb_spec (len r) n) as [|Hge]; [done|].
  rewrite (proj2 (Z.ltb_ge _ _)) by (unfold len in *; rewrite length_app; lia).
  unfold len in Hge. by rewrite take_app_le, drop_app_le by lia.
Qed.

(** *** The fields of a body *)

Lemma from_bytes_pack n : word n -> from_bytes (pack_H n) = n.
Proof.
  intros Hn. unfold from_bytes. cbn [foldl pack_H]. rewrite Z.shiftr_div_pow2 by lia.
  change 0xff with (Z.ones 8). rewrite !Z.land_ones by lia. change (2 ^ 8) with 256.
  unfold word in Hn. rewrite (Z.mod_small (n / 256)).
  - pose proof (Z.div_mod n 256). lia.
  - split; [apply Z.div_pos; lia|apply Z.div_lt_upper_bound; lia].
Qed.

Lemma to_bytes2_word n : word n -> to_bytes2 n = Ok (pack_H n).
Proof.
  intros Hn. unfold to_bytes2, word in *.
  by rewrite (proj2 (Z.leb_le _ _)), (proj2 (Z.ltb_lt _ _)) by lia.
Qed.

Lemma slice_pack n (b pre : bytes) off :
  length pre = off -> slice off (off + 2) (pre ++ pack_H n ++ b) = pack_H n.
Proof.
  intros <-. unfold slice. rewrite drop_app_length.
  by replace (length pre + 2 - length pre)%nat with 2%nat by lia.
Qed.

Lemma slice_pack_0 n (b : bytes) : slice 0 2 (pack_H n ++ b) = pack_H n.
Proof. done. Qed.

Lemma slice_text (t b pre : bytes) off :
  length pre = off -> slice off (off + length t) (pre ++ t ++ b) = t.
Proof.
  intros <-. unfold slice. rewrite drop_app_length.
  replace (length pre + length t - length pre)%nat with (length t) by lia.
  apply take_app_length.
Qed.

Lemma len_text (t : text) : word (len t) -> Z.to_nat (len t) = length t.
Proof. intros _. unfold len. apply Nat2Z.id. Qed.

(** ** Lemmas: the handler does what the abstract broker does *)

Lemma deliver_packet topic payload :
  word (len topic) ->
  _publish_packet topic payload 0 false = Ok (render (Deliver topic payload)).
Proof.
  intros Ht. unfold _publish_packet. rewrite to_bytes2_word by done.
  cbn [mbind result_bind]. unfold render, wire. cbn [first_byte packet_body].
  unfold prefixed. by rewrite !app_nil_r, <- app_assoc.
Qed.

Lemma wants_subscribed topic c : wants topic c = true <-> subscribed topic c.
Proof.
  unfold wants, subscribed. rewrite existsb_exists, Exists_exists.
  setoid_rewrite <- levels_match_spec. setoid_rewrite list_elem_of_In. done.
Qed.

Lemma fanout_deliver topic payload br :
  word (len topic) -> _fanout topic payload br = Ok (deliver topic payload br).
Proof.
  intros Ht. unfold _fanout. rewrite deliver_packet by done. cbn [mbind result_bind].
  unfold deliver. do 2 f_equal. apply map_ext. intros c.
  destruct (decide (subscribed topic c)) as [H|H]; [by rewrite (proj2 (wants_subscribed _ _) H)|].
  destruct (wants topic c) eqn:E; [|done]. by apply wants_subscribed in E.
Qed.

Lemma identifier_tell i head m pid rest br :
  word pid -> render m = head ++ pack_H pid ->
  on_identifier i head (pack_H pid ++ rest) br = (tell i m br, Go).
Proof.
  intros Hp Hm. unfold on_identifier. rewrite slice_pack_0.
  rewrite from_bytes_pack, to_bytes2_word by done. unfold tell. by rewrite Hm.
Qed.

Lemma connect_act i name level rest br :
  word (len name) ->
  on_connect i (prefixed name ++ [level] ++ rest) br = act i (Connect name level rest) br.
Proof.
  intros Hn. unfold on_connect, prefixed. rewrite <- !app_assoc.
  rewrite slice_pack_0, from_bytes_pack, len_text by done.
  cbn zeta. replace (item _ _) with (Ok level : result Z).
  - cbn [of_result act]. destruct (level =? 4); [|done]. cbn [negb].
    unfold tell, at_client. cbn. by rewrite list_alter_alter_eq.
  - symmetry. unfold item. rewrite lookup_app_r by (simpl; lia).
    replace (2 + length name - length (pack_H (len name)))%nat with (length name) by (simpl; lia).
    rewrite lookup_app_r, Nat.sub_diag by lia. done.
Qed.

Lemma publish_first qos (dup retain : bool) :
  0 <= qos <= 2 ->
  let h := 0x30 + (if dup then 8 else 0) + 2 * qos + (if retain then 1 else 0) in
  Z.shiftr h 4 = 3 /\ Z.land (Z.shiftr h 1) 0x03 = qos /\ negb (Z.land h 0x01 =? 0) = retain.
Proof.
  intros Hq h. assert (qos = 0 \/ qos = 1 \/ qos = 2) as [-> | [-> | ->]] by lia;
    subst h; by destruct dup, retain.
Qed.

(** The identifier and the payload after the topic. *)
Lemma slice_after a (t : text) pid payload :
  slice (2 + length t) (2 + length t + 2) (pack_H a ++ t ++ pack_H pid ++ payload) = pack_H pid.
Proof. rewrite app_assoc. apply slice_pack. by rewrite length_app. Qed.

Lemma drop_after_pid a (t : text) pid payload :
  drop (2 + length t + 2) (pack_H a ++ t ++ pack_H pid ++ payload) = payload.
Proof. rewrite !app_assoc. apply drop_app_length'. by rewrite !length_app. Qed.

Lemma publish_act i topic payload qos pid dup retain br :
  text_ok topic -> 0 <= qos <= 2 -> word pid ->
  on_publish i (first_byte (Publish topic payload qos pid dup retain))
    (packet_body (Publish topic payload qos pid dup retain)) br =
  act i (Publish topic payload qos pid dup retain) br.
Proof.
  intros [Hu Ht] Hq Hp. destruct (publish_first qos dup retain Hq) as (_ & H2 & H3).
  unfold on_publish. cbn [first_byte packet_body]. rewrite H2, H3. unfold prefixed.
  rewrite <- app_assoc, slice_pack_0, from_bytes_pack, len_text by done.
  rewrite (slice_text topic _ (pack_H (len topic)) 2) by done.
  unfold decode_utf8. rewrite Hu. cbn [of_result act].
  assert (drop (2 + length topic) (pack_H (len topic) ++ topic ++
    (if 0 <? qos then pack_H pid else []) ++ payload) =
    (if 0 <? qos then pack_H pid else []) ++ payload) as Hd.
  { rewrite app_assoc. apply drop_app_length'. rewrite length_app. done. }
  assert (qos = 0 \/ qos = 1 \/ qos = 2) as [-> | [-> | ->]] by lia;
    cbn [Z.ltb Z.eqb Z.compare Pos.compare Pos.compare_cont Pos.eqb] in *.
  - rewrite Hd, to_bytes2_word by done. cbn [of_result]. by rewrite fanout_deliver.
  - rewrite slice_after, from_bytes_pack, drop_after_pid, to_bytes2_word by done. cbn [of_result].
    by rewrite fanout_deliver.
  - rewrite slice_after, from_bytes_pack, drop_after_pid, to_bytes2_word by done. cbn [of_result].
    by rewrite fanout_deliver.
Qed.

(** One filter and its options, anywhere in a body. *)
Lemma subscribe_turn fuel i (pre : bytes) f l granted br :
  text_ok (fst f) ->
  subscribe_loop (S fuel) i (pre ++ flat_map filter_bytes (f :: l)) (length pre) granted br =
    subscribe_loop fuel i ((pre ++ filter_bytes f) ++ flat_map filter_bytes l)
      (length (pre ++ filter_bytes f)) (granted ++ [Z.min (snd f) 1]) (subscribe_to i br f).
Proof.
  intros [Hu Ht]. destruct f as [t q]. cbn [fst snd] in *. cbn [flat_map].
  assert (filter_bytes (t, q) = pack_H (len t) ++ t ++ [q]) as ->
    by (unfold filter_bytes, prefixed; cbn [fst snd]; by rewrite <- app_assoc).
  set (tl := flat_map filter_bytes l).
  cbn [subscribe_loop]. rewrite (proj2 (Nat.ltb_lt _ _)) by (rewrite !length_app; simpl; lia).
  rewrite <- !app_assoc, slice_pack, from_bytes_pack, len_text by done.
  rewrite (app_assoc pre (pack_H (len t))).
  rewrite (slice_text t ([q] ++ tl) (pre ++ pack_H (len t))) by (rewrite length_app; done).
  unfold decode_utf8. rewrite Hu. cbn [mbind result_bind].
  assert (item ((pre ++ pack_H (len t)) ++ t ++ [q] ++ tl) (length pre + 2 + length t) = Ok q)
    as ->.
  { unfold item. rewrite app_assoc, lookup_app_r by (rewrite !length_app; simpl; lia).
    rewrite !length_app. cbn [length pack_H].
    by replace (length pre + 2 + length t - (length pre + 2 + length t))%nat with 0%nat by lia. }
  rewrite !app_assoc. f_equal. rewrite !length_app. cbn [length pack_H]. lia.
Qed.

Lemma subscribe_loop_filters l fuel i (pre : bytes) granted br :
  Forall (fun f => text_ok (fst f)) l -> (length l <= fuel)%nat ->
  subscribe_loop fuel i (pre ++ flat_map filter_bytes l) (length pre) granted br =
    (foldl (subscribe_to i) br l, Ok (granted ++ map (fun f => Z.min (snd f) 1) l)).
Proof.
  intros Hl. revert fuel pre granted br. induction Hl as [|f l Hf _ IH]; intros fuel pre granted br Hfu.
  - cbn [flat_map map foldl]. rewrite !app_nil_r.
    destruct fuel; cbn [subscribe_loop]; by rewrite Nat.ltb_irrefl.
  - destruct fuel as [|fuel]; [simpl in Hfu; lia|].
    rewrite subscribe_turn by done. rewrite IH by (simpl in Hfu; lia).
    by rewrite <- app_assoc.
Qed.

Lemma filters_length (l : list (text * Z)) : (length l <= length (flat_map filter_bytes l))%nat.
Proof.
  induction l as [|f l IH]; [done|]. cbn [flat_map]. rewrite length_app.
  unfold filter_bytes at 1. rewrite length_app. simpl. lia.
Qed.

Lemma subscribe_act i pid l br :
  word pid -> Forall (fun f => text_ok (fst f)) l ->
  on_subscribe i (packet_body (Subscribe pid l)) br = act i (Subscribe pid l) br.
Proof.
  intros Hp Hl. unfold on_subscribe. cbn [packet_body].
  rewrite slice_pack_0, from_bytes_pack by done.
  rewrite (subscribe_loop_filters l _ i (pack_H pid)) by
    (try done; rewrite length_app; pose proof (filters_length l); lia).
  cbn [of_result app]. rewrite to_bytes2_word by done. cbn [of_result act].
  unfold tell, render, len. by rewrite length_map.
Qed.

(** Every packet is understood. *)
Lemma handle_act i p br :
  mqtt_ok p -> handle_packet i (first_byte p) (packet_body p) br = act i p br.
Proof.
  intros [_ Hp]. unfold handle_packet.
  destruct p as [name level rest|topic payload qos pid dup retain|pid|pid|pid l|pid l| |].
  - by apply connect_act.
  - destruct Hp as (Ht & Hq & Hp). destruct (publish_first qos dup retain Hq) as (H1 & _).
    cbn [first_byte]. rewrite H1. by apply publish_act.
  - done.
  - cbn [first_byte packet_body]. rewrite <- (app_nil_r (pack_H pid)).
    by apply (identifier_tell i [0x70; 0x02] (Pubcomp pid)).
  - destruct Hp as [Hp Hl]. by apply subscribe_act.
  - by apply (identifier_tell i [0xb0; 0x02] (Unsuback pid)).
  - done.
  - done.
Qed.

(** ** Lemmas: the stream of a client *)

Lemma clear_at i f br :
  (forall c, f (set_inbox [] c) = set_inbox [] (f c)) ->
  clear (at_client i f br) = at_client i f (clear br).
Proof.
  intros Hf. unfold clear, at_client, with_clients. cbn. f_equal. generalize (clients br) i.
  induction l as [|c l IH]; intros [|k]; cbn; try done; [by rewrite Hf|]. f_equal. apply IH.
Qed.

Lemma clear_write m c : write_client m (set_inbox [] c) = set_inbox [] (write_client m c).
Proof. unfold write_client. simpl. by destruct (serving c). Qed.

Lemma clear_tell i m br : clear (tell i m br) = tell i m (clear br).
Proof. apply clear_at. intros c. apply clear_write. Qed.

Lemma clear_deliver t p br : clear (deliver t p br) = deliver t p (clear br).
Proof.
  unfold clear, deliver, with_clients. cbn. f_equal. rewrite !map_map. apply map_ext.
  intros c. assert (decide (subscribed t (set_inbox [] c)) = decide (subscribed t c)) as -> by done.
  destruct (decide (subscribed t c)); [by rewrite clear_write|done].
Qed.

Lemma clear_subscribe i f br : clear (subscribe_to i br f) = subscribe_to i (clear br) f.
Proof. exact (f_equal (add_topic (fst f)) (clear_at i (add_subscription (fst f)) br (fun _ => eq_refl))). Qed.

Lemma clear_subscribes i l br :
  clear (foldl (subscribe_to i) br l) = foldl (subscribe_to i) (clear br) l.
Proof.
  revert br. induction l as [|f l IH]; intros br; [done|]. cbn. by rewrite IH, clear_subscribe.
Qed.

(** The abstract broker does not look at what waits to be read. *)
Lemma clear_act i p br :
  act i p (clear br) = (clear (fst (act i p br)), snd (act i p br)).
Proof.
  destruct p as [name level rest|topic payload qos pid dup retain|pid|pid|pid l|pid l| |];
    cbn [act fst snd]; try done; try by rewrite clear_tell.
  - destruct (level =? 4); cbn [fst snd]; rewrite clear_tell; [|done].
    by rewrite (clear_at i set_connected).
  - cbn [fst snd]. rewrite clear_deliver.
    destruct (qos =? 1); [by rewrite clear_tell|]. destruct (qos =? 2); [by rewrite clear_tell|done].
  - cbn [fst snd]. by rewrite clear_tell, clear_subscribes.
Qed.

Lemma clear_clear_inbox i s br : clear (at_client i (set_inbox s) br) = clear br.
Proof.
  unfold clear, at_client, with_clients. cbn. f_equal. generalize (clients br) i.
  induction l as [|c l IH]; intros [|k]; cbn; try done. f_equal. apply IH.
Qed.

Lemma is_serving_clear i br : is_serving i (clear br) = is_serving i br.
Proof. unfold is_serving, clear. cbn. rewrite list_lookup_fmap. by destruct (clients br !! i). Qed.

(** *** Nobody else is touched *)

(** A change that keeps inboxes and handlers. *)
Definition keeps (f : broker -> broker) : Prop :=
  forall j br, inbox_of j (f br) = inbox_of j br /\ is_serving j (f br) = is_serving j br.

Lemma at_client_lookup i f br j :
  clients (at_client i f br) !! j = (if decide (i = j) then f <$> clients br !! i else clients br !! j).
Proof. cbn. apply list_lookup_alter. Qed.

Lemma keeps_at i f :
  (forall c, inbox (f c) = inbox c /\ serving (f c) = serving c) -> keeps (at_client i f).
Proof.
  intros Hf j br. unfold inbox_of, is_serving. rewrite at_client_lookup.
  destruct (decide (i = j)) as [->|]; [|done]. destruct (clients br !! j) as [c|]; [|done]. apply Hf.
Qed.

Lemma write_keeps m c : inbox (write_client m c) = inbox c /\ serving (write_client m c) = serving c.
Proof. unfold write_client. destruct (serving c) eqn:E; cbn; auto. Qed.

Lemma keeps_tell i m : keeps (tell i m).
Proof. apply keeps_at, write_keeps. Qed.

Lemma keeps_deliver t p : keeps (deliver t p).
Proof.
  intros j br. unfold inbox_of, is_serving. cbn. rewrite list_lookup_fmap.
  destruct (clients br !! j) as [c|]; [|done]. cbn. destruct (decide (subscribed t c)); [|done].
  apply write_keeps.
Qed.

Lemma keeps_subscribes i l : keeps (fun br => foldl (subscribe_to i) br l).
Proof.
  intros j br. revert br. induction l as [|f l IH]; intros br; [done|]. cbn [foldl].
  destruct (IH (subscribe_to i br f)) as [-> ->].
  apply (keeps_at i (add_subscription (fst f))). done.
Qed.

Lemma act_keeps i p : keeps (fun br => fst (act i p br)).
Proof.
  intros j br.
  destruct p as [name level rest|topic payload qos pid dup retain|pid|pid|pid l|pid l| |];
    cbn [act fst]; try done; try apply keeps_tell.
  - destruct (level =? 4); cbn [fst].
    + destruct (keeps_tell i (Connack 0) j (at_client i set_connected br)) as [-> ->].
      by apply keeps_at.
    + by destruct (keeps_tell i (Connack 1) j (add_error (WrongLevel level) br)) as [-> ->].
  - match goal with |- context [deliver topic payload ?b] =>
      destruct (keeps_deliver topic payload j b) as [-> ->] end.
    destruct (qos =? 1); [|destruct (qos =? 2); [|done]];
      match goal with |- context [tell i ?m ?b] => by destruct (keeps_tell i m j b) as [-> ->] end.
  - match goal with |- context [tell i ?m ?b] => destruct (keeps_tell i m j b) as [-> ->] end.
    apply keeps_subscribes.
Qed.

(** *** The packets of a stream *)

Lemma perform_go i p br br' :
  is_serving i br = true -> act i p br = (br', Go) -> perform (clear br) (i, p) = clear br'.
Proof. intros Hs Ha. unfold perform. by rewrite is_serving_clear, Hs, clear_act, Ha. Qed.

Lemma perform_stop i p br br' e :
  is_serving i br = true -> act i p br = (br', Stop e) ->
  perform (clear br) (i, p) = clear (at_client i close_client br').
Proof.
  intros Hs Ha. unfold perform. rewrite is_serving_clear, Hs, clear_act, Ha. cbn [fst snd].
  by rewrite (clear_at i close_client).
Qed.

Lemma closed_not_serving i br : is_serving i (at_client i close_client br) = false.
Proof.
  unfold is_serving. rewrite at_client_lookup, decide_True by done.
  by destruct (clients br !! i).
Qed.

Lemma other_untouched i f br j : i <> j ->
  inbox_of j (at_client i f br) = inbox_of j br /\ is_serving j (at_client i f br) = is_serving j br.
Proof. intros Hij. unfold inbox_of, is_serving. by rewrite at_client_lookup, decide_False. Qed.

(** What the loop makes of bytes that begin a stream of packets. *)
Definition served (i : nat) (s : bytes) (rest : list mqtt) (br br' : broker) : Prop :=
  exists done todo, rest = done ++ todo /\
    clear br' = foldl perform (clear br) (map (pair i) done) /\
    (is_serving i br' = true ->
       s = wires done ++ inbox_of i br' /\ _read_packet (inbox_of i br') = Incomplete) /\
    forall j, i <> j -> inbox_of j br' = inbox_of j br /\ is_serving j br' = is_serving j br.

Lemma served_waiting i s rest br :
  is_serving i br = true -> _read_packet s = Incomplete ->
  served i s rest br (at_client i (set_inbox s) br).
Proof.
  intros Hs Hr. exists [], rest. split; [done|]. split; [by rewrite clear_clear_inbox|].
  split; [|by intros j Hij; apply other_untouched].
  intros _. unfold inbox_of. rewrite at_client_lookup, decide_True by done.
  unfold is_serving in Hs. by destruct (clients br !! i).
Qed.

Lemma wires_cons p ps : wires (p :: ps) = wire p ++ wires ps.
Proof. done. Qed.

Lemma served_packet i p r rest br br1 br' :
  is_serving i br = true -> act i p br = (br1, Go) ->
  served i r rest br1 br' -> served i (wire p ++ r) (p :: rest) br br'.
Proof.
  intros Hs Ha (done & todo & -> & Hc & Hi & Ho). exists (p :: done), todo.
  split; [done|]. split; [|split].
  - cbn [map foldl]. by rewrite (perform_go i p br br1) by done.
  - intros [Hr Hw]%Hi. split; [|done]. by rewrite wires_cons, <- app_assoc, <- Hr.
  - intros j Hij. destruct (act_keeps i p j br) as [Hk1 Hk2]. rewrite Ha in Hk1, Hk2.
    destruct (Ho j Hij) as [-> ->]. done.
Qed.

Lemma served_stop i p s rest br br1 e :
  is_serving i br = true -> act i p br = (br1, Stop e) ->
  served i s (p :: rest) br (at_client i close_client br1).
Proof.
  intros Hs Ha. exists [p], rest. split; [done|]. split; [|split].
  - cbn [map foldl]. by rewrite (perform_stop i p br br1 e).
  - by rewrite closed_not_serving.
  - intros j Hij. destruct (act_keeps i p j br) as [Hk1 Hk2]. rewrite Ha in Hk1, Hk2.
    destruct (other_untouched i close_client br1 j Hij) as [-> ->]. done.
Qed.

Lemma serve_loop_served i fuel s rest br t :
  (length s <= fuel)%nat -> s ++ t = wires rest -> Forall mqtt_ok rest ->
  is_serving i br = true -> served i s rest br (serve_loop fuel i s br).
Proof.
  revert s rest br. induction fuel as [|fuel IH]; intros s rest br Hf Hst Hok Hs.
  - destruct s; [|simpl in Hf; lia]. by apply served_waiting.
  - cbn [serve_loop]. pose proof (read_packet_more s t) as Hm. rewrite Hst in Hm.
    destruct (_read_packet s) as [[h b] r| |e] eqn:Er; [|by apply served_waiting|].
    + destruct Hok as [|p rest Hp Hok]; [done|].
      rewrite wires_cons, read_wire in Hm by apply Hp. injection Hm as <- <- Hr.
      assert (s = wire p ++ r) as Hsr.
      { apply (app_inv_tail t). by rewrite Hst, wires_cons, <- app_assoc, <- Hr. }
      rewrite handle_act by done. destruct (act i p br) as [br1 [|e]] eqn:Ea.
      * rewrite Hsr. eapply served_packet; [done|exact Ea|]. apply IH; try done.
        { rewrite Hsr, length_app in Hf. unfold wire in Hf. simpl in Hf. lia. }
        destruct (act_keeps i p i br) as [_ Hk]. rewrite Ea in Hk. exact (eq_trans Hk Hs).
      * by eapply served_stop.
    + destruct Hok as [|p rest Hp Hok]; [done|].
      by rewrite wires_cons, read_wire in Hm by apply Hp.
Qed.

(** ** The run *)

Lemma accept_idle br :
  clear br = br -> (forall i, inbox_of i br = []) ->
  clear (accept br) = accept br /\ forall i, inbox_of i (accept br) = [].
Proof.
  intros Hc Hi. split.
  - refine (eq_trans _ (f_equal accept Hc)). unfold clear, accept, with_clients. cbn.
    by rewrite map_app.
  - intros i. specialize (Hi i). unfold inbox_of in *.
    change (clients (accept br)) with (clients br ++ [new_client]).
    destruct (Nat.lt_ge_cases i (length (clients br))).
    + by rewrite lookup_app_l.
    + rewrite lookup_app_r by done. by destruct (i - length (clients br))%nat as [|[|k]].
Qed.

Lemma start_clear n : clear (start n) = start n /\ forall i, inbox_of i (start n) = [].
Proof.
  unfold start. induction n as [|n [IH IHi]]; [done|]. by apply accept_idle.
Qed.

Lemma of_client_app {A} i (l1 l2 : list (nat * A)) :
  of_client i (l1 ++ l2) = of_client i l1 ++ of_client i l2.
Proof. apply omap_app. Qed.

Lemma of_client_tagged i j (l : list mqtt) :
  of_client j (map (pair i) l) = if (j =? i)%nat then l else [].
Proof.
  unfold of_client. induction l as [|p l IH]; [by destruct (j =? i)%nat|]. cbn.
  rewrite IH. by destruct (j =? i)%nat.
Qed.

Lemma stream_snoc j events i data :
  stream j (events ++ [(i, data)]) = stream j events ++ (if (j =? i)%nat then data else []).
Proof.
  unfold stream. rewrite of_client_app, concat_app. f_equal. cbn.
  destruct (j =? i)%nat; cbn; by rewrite ?app_nil_r.
Qed.

Lemma wires_app ps qs : wires (ps ++ qs) = wires ps ++ wires qs.
Proof. apply flat_map_app. Qed.

(** What has been done of the streams. *)
Definition progress (n : nat) (sent : nat -> list mqtt) (events : list (nat * bytes))
    (acts : list (nat * mqtt)) : Prop :=
  clear (run n events) = foldl perform (start n) acts /\
  forall i,
    (exists todo, sent i = of_client i acts ++ todo) /\
    (is_serving i (run n events) = true ->
       stream i events = wires (of_client i acts) ++ inbox_of i (run n events) /\
       _read_packet (inbox_of i (run n events)) = Incomplete).

Lemma progress_step n sent events acts i data :
  (forall i, Forall mqtt_ok (sent i)) -> data <> [] ->
  (exists t, stream i (events ++ [(i, data)]) ++ t = wires (sent i)) ->
  progress n sent events acts ->
  exists acts', progress n sent (events ++ [(i, data)]) acts'.
Proof.
  intros Hok Hne [t Ht] [Hc Hp]. unfold progress.
  unfold run. rewrite foldl_app. cbn [foldl]. fold (run n events).
  set (br := run n events) in *.
  destruct (is_serving i br) eqn:Hs.
  - destruct (Hp i) as [[todo Htodo] Hi]. destruct (Hi Hs) as [Hst _].
    assert ((inbox_of i br ++ data) ++ t = wires todo) as Hpre.
    { rewrite stream_snoc, Nat.eqb_refl, Hst, Htodo, wires_app, <- !app_assoc in Ht.
      apply app_inv_head in Ht. by rewrite <- app_assoc. }
    assert (received i data br =
      serve_loop (length (inbox_of i br ++ data)) i (inbox_of i br ++ data) br) as ->.
    { unfold received, is_serving, inbox_of in *. destruct (clients br !! i) as [c|]; [|done].
      cbn in *. rewrite Hs. by destruct data. }
    assert (Forall mqtt_ok todo) as Htok.
    { specialize (Hok i). rewrite Htodo in Hok. by apply Forall_app in Hok as [_ Hok]. }
    destruct (serve_loop_served i _ _ todo br t (le_n _) Hpre Htok Hs)
      as (done & todo' & Hd & Hcl & Hin & Hoth).
    exists (acts ++ map (pair i) done). split; [by rewrite foldl_app, <- Hc|].
    intros j. rewrite of_client_app, of_client_tagged, stream_snoc.
    destruct (Nat.eqb_spec j i) as [->|Hji].
    + split; [exists todo'; by rewrite <- app_assoc, <- Hd|].
      intros [Hw Hr]%Hin. split; [|done]. by rewrite wires_app, <- app_assoc, <- Hw, Hst, app_assoc.
    + rewrite !app_nil_r. destruct (Hoth j ltac:(congruence)) as [-> ->]. apply Hp.
  - exists acts. assert (received i data br = br) as ->.
    { unfold received, is_serving in *. destruct (clients br !! i) as [c|]; [|done]. by rewrite Hs. }
    split; [done|]. intros j. rewrite stream_snoc. destruct (Nat.eqb_spec j i) as [->|Hji].
    + split; [apply Hp|]. by rewrite Hs.
    + rewrite app_nil_r. apply Hp.
Qed.

Lemma progress_all n sent events :
  (forall i, Forall mqtt_ok (sent i)) -> Forall (fun e => snd e <> []) events ->
  (forall i, exists t, stream i events ++ t = wires (sent i)) ->
  exists acts, progress n sent events acts.
Proof.
  intros Hok. induction events as [|[i data] events IH] using rev_ind; intros Hne Hpre.
  - exists []. destruct (start_clear n) as [Hc Hi]. split; [exact Hc|]. intros i.
    split; [by exists (sent i)|]. intros _. unfold run. cbn [foldl]. by rewrite Hi.
  - apply Forall_app in Hne as [Hne Hd%Forall_inv]. destruct IH as [acts Hacts].
    + done.
    + intros j. destruct (Hpre j) as [t Ht]. rewrite stream_snoc, <- app_assoc in Ht. eauto.
    + by eapply progress_step.
Qed.

(** When all bytes of a client that is served have arrived, all its packets have been
    performed. *)
Lemma all_performed n sent events acts i :
  Forall mqtt_ok (sent i) -> progress n sent events acts ->
  is_serving i (run n events) = true -> stream i events = wires (sent i) ->
  of_client i acts = sent i.
Proof.
  intros Hok [_ Hp] Hs Hall. destruct (Hp i) as [[todo Ht] Hi]. destruct (Hi Hs) as [Hst Hr].
  rewrite Hst, Ht, wires_app in Hall.
  apply app_inv_head in Hall. destruct todo as [|p todo]; [by rewrite app_nil_r in Ht|].
  rewrite Ht in Hok. apply Forall_app in Hok as [_ [Hp' _]%Forall_cons].
  by rewrite Hall, wires_cons, read_wire in Hr by apply Hp'.
Qed.

(** The topics of lights have no wildcards. *)
Lemma set_topic_plain g a : address_ok g -> address_ok a -> plain_topic (txt (set_topic g a)).
Proof.
  intros Hg Ha.
  assert (forall c, digit_value c = None -> c <> "-"%char ->
    str_in c (_LIGHT_TOPIC_PREFIX +:+ "_" +:+ _TOPIC_SET_SUFFIX) = false ->
    str_in c (set_topic g a) = false) as Hfree.
  { intros c Hc Hm Hp. rewrite !str_in_app, !orb_false_iff in Hp. destruct Hp as (Hp & Hu & Hs).
    unfold set_topic, ga_string. rewrite !str_in_app, Hp, Hs.
    destruct (number_free c g Hc Hm Hg) as [H1 H2], (number_free c a Hc Hm Ha) as [_ H3].
    destruct (_ =? _); [by rewrite H1|]. by rewrite !str_in_app, H2, H3, Hu. }
  split; [apply (str_in_code "#")|apply (str_in_code "+")]; by apply Hfree.
Qed.

(** ** Properties *)

(** C31. The broker serves MQTT clients: let any number of clients each send a
    sequence of well-formed packets, whose bytes arrive in any pieces and in any
    interleaving. Then the broker's state is the one of an abstract broker that
    performs whole packets: CONNECT, SUBSCRIBE, PUBLISH, PINGREQ and the others are
    answered with their acknowledgements, and a message is delivered once to each
    client with a filter that matches its topic in the sense of MQTT ([matches]). The packets
    performed for a client are the first ones it sent, in its order; while its
    connection lasts, nothing that has arrived completely waits, and when all its
    bytes have arrived all its packets have been performed. *)
Theorem clients_served n (sent : nat -> list mqtt) events :
  (forall i, Forall mqtt_ok (sent i)) -> Forall (fun e => snd e <> []) events ->
  (forall i, exists t, stream i events ++ t = wires (sent i)) ->
  exists acts,
    clear (run n events) = foldl perform (start n) acts /\
    forall i,
      (exists todo, sent i = of_client i acts ++ todo) /\
      (is_serving i (run n events) = true ->
         stream i events = wires (of_client i acts) ++ inbox_of i (run n events) /\
         _read_packet (inbox_of i (run n events)) = Incomplete /\
         (stream i events = wires (sent i) -> of_client i acts = sent i)).
Proof.
  intros Hok Hne Hpre. destruct (progress_all n sent events Hok Hne Hpre) as (acts & Hc & Hp).
  exists acts. split; [exact Hc|]. intros i. destruct (Hp i) as [[todo Ht] Hi].
  split; [by exists todo|]. intros Hs. destruct (Hi Hs) as [Hst Hr].
  split; [done|]. split; [done|]. by apply (all_performed n sent events); [apply Hok|..].
Qed.

(** Two clients: one subscribes, the other publishes; their bytes are interleaved
    and cut within packets. *)
Definition sent_sample (i : nat) : list mqtt :=
  match i with
  | 0%nat => [Connect [77] 4 [2; 0; 60; 0; 0]; Subscribe 9 [([97; 47; 43], 2)]]
  | 1%nat => [Connect [77] 4 [2; 0; 60; 0; 0]; Publish [97; 47; 98] [7; 8] 1 5 false true;
              Disconnect]
  | _ => []
  end.

Definition events_sample : list (nat * bytes) :=
  let w0 := wires (sent_sample 0) in
  let w1 := wires (sent_sample 1) in
  [(1%nat, take 11 w1); (0%nat, take 3 w0); (0%nat, drop 3 w0); (1%nat, drop 11 w1)].

Example clients_served_witness :
  exists acts,
    clear (run 2 events_sample) = foldl perform (start 2) acts /\
    of_client 0 acts = sent_sample 0 /\
    (outbox <$> clients (run 2 events_sample) !! 0%nat) =
      Some (map render [Connack 0; Suback 9 [1]; Deliver [97; 47; 98] [7; 8]]).
Proof.
  assert (forall i, Forall mqtt_ok (sent_sample i)) as Hok.
  { intros [|[|i]]; repeat constructor; vm_compute; intuition congruence. }
  assert (Forall (fun e => snd e <> []) events_sample) as Hne by (repeat constructor; discriminate).
  destruct (clients_served 2 sent_sample events_sample Hok Hne) as (acts & Hc & Hi).
  - intros [|[|i]]; exists []; reflexivity.
  - exists acts. split; [exact Hc|]. split; [|reflexivity].
    destruct (Hi 0%nat) as [_ H]. apply H; reflexivity.
Defined.

(** A filter has the meaning of MQTT. *)
Theorem topic_matches_spec filt topic :
  topic_matches filt topic = true <-> matches (levels filt) (levels topic).
Proof. apply levels_match_spec. Qed.

(** A topic of a light is a filter for itself: the daemon's subscription for a light
    brings the commands of that light alone. *)
Theorem light_filters_exact g a g' a' :
  address_ok g -> address_ok a -> address_ok g' -> address_ok a' ->
  topic_matches (txt (set_topic g a)) (txt (set_topic g' a')) = true <-> g = g' /\ a = a'.
Proof.
  intros Hg Ha Hg' Ha'. rewrite plain_topic_matches, bool_decide_eq_true.
  - split; [|by intros [-> ->]]. intros E%(f_equal text_of). rewrite !text_of_txt in E.
    by apply (topic_inj g a g' a' SetTopic SetTopic) in E as (_ & ? & ?).
  - by apply set_topic_plain.
Qed.

(** A filter that was given up still brings messages. *)
Example unsubscribed_still_served :
  let f := [97; 47; 98] in
  let br := run 1 [(0%nat, wires [Connect [77] 4 []; Subscribe 1 [(f, 0)]; Unsubscribe 2 [f]])] in
  (fun br => outbox <$> clients br !! 0%nat) <$> inject f [7] br =
    Ok (Some (map render [Connack 0; Suback 1 [0]; Unsuback 2; Deliver f [7]])).
Proof. by vm_compute. Qed.

(** A retained message does not reach a client that subscribes later. *)
Example retained_not_delivered :
  let f := [97; 47; 98] in
  let br := run 1 [(0%nat, wires [Connect [77] 4 []; Publish f [7] 0 0 false true;
                                  Subscribe 1 [(f, 0)]])] in
  (outbox <$> clients br !! 0%nat) = Some (map render [Connack 0; Suback 1 [0]]) /\
  retained br !! f = Some [7].
Proof. by vm_compute. Qed.

(** ** The socket: [start], [port], [stop] *)
Module Listening.

(** [_server]: [None] before [start]; the port of its socket, gone once it is closed. *)
Record listening := { the_broker : broker; _server : option (option Z) }.

Definition listening_init : listening := {| the_broker := broker_init; _server := None |}.

Definition set_broker (br : broker) (l : listening) : listening :=
  {| the_broker := br; _server := _server l |}.

(** [None.sockets] raises AttributeError, and a closed server has no sockets. *)
Definition port (l : listening) : result Z :=
  match _server l with
  | None => Raise AttributeError
  | Some p => or_raise IndexError p
  end.

(** [start], with the port that the socket got. *)
Definition start (p : Z) (l : listening) : listening :=
  {| the_broker := the_broker l; _server := Some (Some p) |}.

(** [stop]: a closed writer ends the stream that the client's handler reads. *)
Definition stop (l : listening) : listening :=
  {| the_broker := with_clients (map close_client (clients (the_broker l))) (the_broker l);
     _server := match _server l with None => None | Some _ => Some None end |}.

(** What comes through the sockets: a client while the server listens, or bytes. *)
Inductive socket_event := Comes | Arrives (i : nat) (data : bytes).

Definition socket_step (l : listening) (e : socket_event) : listening :=
  match e with
  | Comes => match port l with Ok _ => set_broker (accept (the_broker l)) l | Raise _ => l end
  | Arrives i data => set_broker (received i data (the_broker l)) l
  end.

Definition socket_run (es : list socket_event) (l : listening) : listening :=
  foldl socket_step l es.

Lemma closed_received i data br :
  Forall (fun c => serving c = false) (clients br) -> received i data br = br.
Proof.
  intros H. unfold received. destruct (clients br !! i) as [c|] eqn:E; [|done].
  by rewrite (Forall_lookup_1 _ _ _ _ H E).
Qed.

Lemma closed_fanout topic payload br br' :
  Forall (fun c => serving c = false) (clients br) ->
  _fanout topic payload br = Ok br' -> br' = br.
Proof.
  intros H. unfold _fanout. destruct (_publish_packet _ _ _ _) as [pkt|e]; [|done].
  cbn. intros [= <-]. destruct br as [cs ps ss es rs]. unfold with_clients. cbn in *. f_equal.
  rewrite <- (map_id cs) at 2. apply map_ext_in. intros c Hc%list_elem_of_In.
  unfold write_client. rewrite (proj1 (Forall_forall _ _) H c Hc). by destruct (wants topic c).
Qed.

Lemma stop_closed l : Forall (fun c => serving c = false) (clients (the_broker (stop l))).
Proof. apply Forall_map, Forall_true. by intros. Qed.

(** A broker that was started and stopped has no port; nothing that comes afterwards,
    through its sockets or from [inject], changes it, and what it recorded stays. *)
Theorem stopped_for_good l p es :
  port l = Ok p ->
  let l' := stop l in
  socket_run es l' = l' /\ port l' = Raise IndexError /\
  (forall topic payload br, inject topic payload (the_broker l') = Ok br -> br = the_broker l') /\
  publishes (the_broker l') = publishes (the_broker l) /\
  all_subscriptions (the_broker l') = all_subscriptions (the_broker l).
Proof.
  intros Hp l'. assert (port l' = Raise IndexError) as Hp'.
  { unfold port, l', stop in *. cbn [_server]. by destruct (_server l). }
  split; [|repeat split; [done|intros *; apply closed_fanout, stop_closed]].
  unfold socket_run. induction es as [|[|i data] es IH]; [done| |]; cbn [foldl socket_step].
  - by rewrite Hp'.
  - rewrite closed_received by apply stop_closed. by destruct l'.
Qed.

Example stopped_for_good_witness :
  let l := socket_run [Comes; Arrives 0 (wires [Connect [77] 4 []; Subscribe 1 [([97], 0)]])]
             (start 1883 listening_init) in
  socket_run [Comes; Arrives 0 (wires [Publish [97] [7] 0 0 false true])] (stop l) = stop l /\
  port listening_init = Raise AttributeError /\ port (stop l) = Raise IndexError /\
  has_subscription [97] (the_broker (stop l)) = true.
Proof.
  intros l. split; [|by vm_compute].
  refine (proj1 (stopped_for_good l 1883 _ _)). by vm_compute.
Defined.

End Listening.
