(* ===== verification/Graph.v ===== *)
(** * Drawings of a network: [toolkit/graph.py]

    What [generate_graph] gives to pydot for a summary that [dump_labels] of [Toolkit]
    wrote: the names of the graph and its clusters, the nodes and the edges in the order
    in which they are added. The order of the groups of a cluster, which the code takes
    from a set, is stdpp's. *)

From Stdlib Require Import String Ascii.
From stdpp Require Import strings gmap options.
From S2P Require Import Prelude Text Gateway Toolkit PyJson.

Local Open Scope string_scope.
Local Open Scope list_scope.
Local Open Scope Z_scope.

(** ** Graphs, as they are built *)

(** A node is named by a value of the summary, or after a group. *)
Inductive node := UnitNode (name : json) | GroupNode (name : string).

Record subgraph := {
  cluster_name : string;
  nodes : list node;
  edges : list (json * string)
}.

Record graph := { graph_name : string; subgraphs : list subgraph }.

(** [out_f.replace('.', '_').replace('-', '_')] *)
Fixpoint graph_id (s : string) : string :=
  match s with
  | EmptyString => EmptyString
  | String c s => String (if Ascii.eqb c "." || Ascii.eqb c "-" then "_"%char else c) (graph_id s)
  end.

Definition ga (x : Z) : string := "GA " +:+ str_int x.

(** A turn of the loop over units; the state is the cluster and [loads]. *)
Definition add_unit (s : subgraph * gset Z) (unit_value : json) : load (subgraph * gset Z) :=
  let '(g, loads) := s in
  name ← get unit_value "name";
  groups ← get unit_value "groups"; groups ← as_list groups; groups ← mapM_load as_int groups;
  Loaded ({| cluster_name := cluster_name g; nodes := nodes g ++ [UnitNode name];
             edges := edges g ++ map (fun x => (name, ga x)) (List.filter (fun x => negb (x =? 255)) groups) |},
          loads ∪ list_to_set groups).

Fixpoint add_units (s : subgraph * gset Z) (units : list (string * json)) : load (subgraph * gset Z) :=
  match units with
  | [] => Loaded s
  | (_, u) :: units => s ← add_unit s u; add_units s units
  end.

(** [d.items()] *)
Definition json_items (j : json) : load (list (string * json)) :=
  match j with JObject l => Loaded l | _ => Failed AttributeError end.

(** A turn of the loop over networks *)
Definition network_cluster (network_id : string) (network : json) : load subgraph :=
  units ← get network "units"; units ← json_items units;
  '(g, loads) ← add_units ({| cluster_name := "Network_" +:+ network_id; nodes := []; edges := [] |}, ∅) units;
  Loaded {| cluster_name := cluster_name g;
            nodes := nodes g ++ map (fun x => GroupNode (ga x)) (base.elements loads); edges := edges g |}.

Definition generate_graph (networks : json) (out_f : string) : load graph :=
  items ← json_items networks;
  clusters ← mapM_load (fun '(i, n) => network_cluster i n) items;
  Loaded {| graph_name := graph_id out_f; subgraphs := clusters |}.

(** ** The reference: units and their groups *)

(** What a summary says of a unit, and of a network. *)
Definition describes_unit (j : json) (u : json * list Z) : Prop :=
  exists fields, j = JObject fields /\ field "name" fields = Some u.1 /\
    field "groups" fields = Some (JArray (map JInt u.2)).

Definition describes_network (j : json) (us : list (json * list Z)) : Prop :=
  exists fields units, j = JObject fields /\ field "units" fields = Some (JObject units) /\
    Forall2 describes_unit (map snd units) us.

Definition groups_of (us : list (json * list Z)) : list Z := flat_map snd us.

Definition drawing (network_id : string) (us : list (json * list Z)) : subgraph :=
  {| cluster_name := "Network_" +:+ network_id;
     nodes := map (fun u => UnitNode u.1) us ++
              map (fun x => GroupNode (ga x)) (base.elements (list_to_set (groups_of us) : gset Z));
     edges := flat_map (fun u => map (fun x => (u.1, ga x)) (List.filter (fun x => negb (x =? 255)) u.2)) us |}.

(** ** Lemmas *)

Lemma ints_read l : mapM_load as_int (map JInt l) = Loaded l.
Proof. induction l as [|x l IH]; [done|]. cbn [map mapM_load as_int]. cbn. by rewrite IH. Qed.

Lemma add_unit_drawn g loads j u :
  describes_unit j u ->
  add_unit (g, loads) j =
    Loaded ({| cluster_name := cluster_name g; nodes := nodes g ++ [UnitNode u.1];
               edges := edges g ++ map (fun x => (u.1, ga x)) (List.filter (fun x => negb (x =? 255)) u.2) |},
            loads ∪ list_to_set u.2).
Proof.
  intros (fields & -> & Hn & Hg). unfold add_unit, get. rewrite Hn, Hg. cbn [mbind load_bind as_list].
  by rewrite ints_read.
Qed.

Lemma add_units_drawn units us g loads :
  Forall2 describes_unit (map snd units) us ->
  add_units (g, loads) units =
    Loaded ({| cluster_name := cluster_name g; nodes := nodes g ++ map (fun u => UnitNode u.1) us;
               edges := edges g ++ flat_map (fun u => map (fun x => (u.1, ga x))
                                  (List.filter (fun x => negb (x =? 255)) u.2)) us |},
            loads ∪ list_to_set (groups_of us)).
Proof.
  revert us g loads. induction units as [|[k j] units IH]; intros us g loads H.
  - apply Forall2_nil_inv_l in H as ->. destruct g. cbn. rewrite !app_nil_r, (right_id_L ∅ (∪)). done.
  - cbn [map snd] in H. apply Forall2_cons_inv_l in H as (u & us' & Hu & Hus & ->).
    cbn [add_units]. rewrite (add_unit_drawn _ _ _ _ Hu). cbn [mbind load_bind]. rewrite (IH us') by done.
    cbn [cluster_name nodes edges map flat_map groups_of]. rewrite <- !app_assoc.
    unfold groups_of. by rewrite list_to_set_app_L, (assoc_L (∪)).
Qed.

Lemma network_drawn i j us : describes_network j us -> network_cluster i j = Loaded (drawing i us).
Proof.
  intros (fields & units & -> & Hf & Hu). unfold network_cluster, get. rewrite Hf.
  cbn [mbind load_bind json_items]. rewrite (add_units_drawn _ _ _ _ Hu).
  cbn [cluster_name nodes edges app]. unfold drawing. by rewrite (left_id_L ∅ (∪)).
Qed.

(** *** What [dump_labels] writes *)

Lemma put_values {V} (P : V -> Prop) k v d : P v -> Forall (fun x => P x.2) d -> Forall (fun x => P x.2) (put k v d).
Proof.
  intros Hv. induction 1 as [|[k' v'] d Hx Hd IH]; cbn [put]; [by repeat constructor|].
  case_bool_decide; by constructor.
Qed.

Lemma dict_of_values {V} (P : V -> Prop) (l : list (option Z * V)) :
  Forall (fun x => P x.2) l -> Forall (fun x => P x.2) (dict_of l).
Proof.
  unfold dict_of. intros H.
  assert (forall d, Forall (fun x => P x.2) d ->
    Forall (fun x => P x.2) (foldl (fun d '(k, v) => put k v d) d l)) as Hall; [|by apply Hall].
  induction H as [|[k v] l Hv _ IH]; intros d Hd; [done|]. cbn [foldl]. apply IH. by apply put_values.
Qed.

Lemma mapM_result_values {A B} (f : A -> result B) (P : B -> Prop) l r :
  (forall x y, f x = Ok y -> P y) -> mapM_result f l = Ok r -> Forall P r.
Proof.
  intros Hf. revert r. induction l as [|x l IH]; intros r H; cbn [mapM_result] in H; [by injection H as <-|].
  apply result_bind_Ok in H as (y & Hy & H). apply result_bind_Ok in H as (ys & Hys & H).
  injection H as <-. constructor; [by eapply Hf|by apply IH].
Qed.

(** The values of a dict, as the reading of each. *)
Lemma described {R} (P : json -> R -> Prop) (d : list (option Z * json)) :
  Forall (fun x => exists r, P x.2 r) d ->
  exists rs, Forall2 P (map snd (map (fun '(k, v) => (match k with Some n => str_int n | None => "null" end, v)) d)) rs.
Proof.
  induction 1 as [|[k v] d [r Hr] _ [rs IH]]; [by exists []|]. exists (r :: rs). by constructor.
Qed.

Lemma unit_described u k j : unit_entry u = Ok (k, j) -> exists r, describes_unit j r.
Proof.
  unfold unit_entry. intros H. apply result_bind_Ok in H as (channels & _ & H).
  do 6 apply result_bind_Ok in H as (? & _ & H). injection H as _ <-.
  eexists (_, channels), _. split; [reflexivity|]. split; reflexivity.
Qed.

Lemma network_described n k j : network_entry n = Ok (k, j) -> exists us, describes_network j us.
Proof.
  unfold network_entry. intros H. do 5 apply result_bind_Ok in H as (? & _ & H).
  apply result_bind_Ok in H as (units & _ & H). apply result_bind_Ok in H as (us & Hus & H).
  injection H as _ <-.
  destruct (described describes_unit (dict_of us)) as (rs & Hrs).
  { apply (dict_of_values (fun j => exists r, describes_unit j r)).
    eapply mapM_result_values; [|exact Hus]. intros y [k' j']. apply unit_described. }
  exists rs. eexists _, _. split; [reflexivity|]. split; [reflexivity|exact Hrs].
Qed.

Lemma ga_255 x : ga x = "GA 255" -> x = 255.
Proof.
  unfold ga. intros H. injection H as H. change (str_int x = "255") in H. unfold str_int in H. destruct (Z.ltb_spec x 0); [discriminate H|].
  pose proof (str_nat_value x ltac:(lia)) as Hv. rewrite H in Hv. vm_compute in Hv. congruence.
Qed.

(** ** Properties *)

(** Every summary that [dump_labels] writes can be drawn: each network is a cluster
    with a node for each unit, one for each group that its units use, and an edge from
    a unit to each of its groups but 255. *)
Theorem summary_drawn root j out_f :
  dump_labels root = Ok j ->
  exists nets uss, j = JObject nets /\ Forall2 describes_network (map snd nets) uss /\
    generate_graph j out_f =
      Loaded {| graph_name := graph_id out_f; subgraphs := zip_with drawing (map fst nets) uss |}.
Proof.
  unfold dump_labels. intros H. do 3 apply result_bind_Ok in H as (? & _ & H).
  apply result_bind_Ok in H as (nos & Hnos & H). injection H as <-. unfold json_dict.
  destruct (described describes_network (dict_of nos)) as (uss & Hus).
  { apply (dict_of_values (fun j => exists us, describes_network j us)).
    eapply mapM_result_values; [|exact Hnos]. intros y [k' j']. apply network_described. }
  eexists _, uss. split; [reflexivity|]. split; [exact Hus|].
  unfold generate_graph. cbn [json_items mbind load_bind].
  match goal with |- context [mapM_load _ ?l] => generalize dependent l end. intros l Hl.
  assert (mapM_load (fun '(i, n) => network_cluster i n) l = Loaded (zip_with drawing (map fst l) uss)) as ->;
    [|done].
  revert uss Hl. induction l as [|[i n] l IH]; intros uss Hl; cbn [map snd fst] in *.
  - by apply Forall2_nil_inv_l in Hl as ->.
  - apply Forall2_cons_inv_l in Hl as (us & uss' & Hn & Hl & ->). cbn [mapM_load].
    rewrite (network_drawn _ _ _ Hn). cbn [mbind load_bind]. by rewrite (IH uss').
Qed.

(** The group 255, an unused channel, has no edge but is drawn, when a unit has it. *)
Theorem unused_group_drawn i us :
  255 ∈ groups_of us ->
  GroupNode "GA 255" ∈ nodes (drawing i us) /\ forall u, (u, "GA 255") ∉ edges (drawing i us).
Proof.
  intros H. split.
  - unfold drawing. cbn [nodes]. apply elem_of_app. right. apply list_elem_of_fmap. exists 255.
    split; [reflexivity|]. by apply elem_of_elements, elem_of_list_to_set.
  - intros u Hu. unfold drawing in Hu. cbn [edges] in Hu.
    apply list_elem_of_In, in_flat_map in Hu as (v & _ & Hu%list_elem_of_In).
    apply list_elem_of_fmap in Hu as (x & [= -> Hx] & Hin).
    apply list_elem_of_In, List.filter_In in Hin as [_ Hne].
    rewrite (ga_255 x) in Hne by (unfold ga; by rewrite Hx). discriminate Hne.
Qed.

Lemma unused_group_drawn_witness :
  GroupNode "GA 255" ∈ nodes (drawing "254" [(JString "relay", [1; 255])]).
Proof. apply (unused_group_drawn "254" [(JString "relay", [1; 255])]). by repeat constructor. Defined.
