(* ===== verification/Home.v ===== *)
(** * The daemon and the broker

    The MQTT side of the daemon ([Gateway]) as client 0 of the harness's broker
    ([Broker]). The MQTT library between them is a relation: [session] says which
    packets it may send for the calls that the daemon made. *)

From S2P Require Import Prelude Text Topics Common Packet Decode Buffered Confirm Pci Relay Gateway Broker.
From Stdlib Require Import String.
From stdpp Require Import strings gmap options.

Local Open Scope Z_scope.

(** ** The library *)

(** What a packet publishes. *)
Definition published (p : mqtt) : option publication :=
  match p with
  | Publish topic payload qos _ _ retain =>
      Some {| p_topic := topic; p_payload := payload; p_qos := qos; p_retain := retain |}
  | _ => None
  end.

Definition filters_of (p : mqtt) : list text :=
  match p with Subscribe _ l => map fst l | _ => [] end.

(** A packet after which the broker goes on. *)
Definition stays (p : mqtt) : bool :=
  match p with Connect _ level _ => level =? 4 | Disconnect => false | _ => true end.

(** A packet that leaves what the broker retains for a topic. *)
Definition quiet (t : text) (p : mqtt) : bool :=
  match published p with
  | Some r => negb (p_retain r && bool_decide (p_topic r = t))
  | None => true
  end.

Section library.
Context (encode : payload -> bytes).

Definition call_publication (c : mqtt_call) : option publication :=
  match c with
  | Gateway.Publish topic p qos retain =>
      Some {| p_topic := txt topic; p_payload := encode p; p_qos := qos; p_retain := retain |}
  | Gateway.Subscribe _ _ => None
  end.

Definition call_filter (c : mqtt_call) : option text :=
  match c with Gateway.Subscribe topic _ => Some (txt topic) | Gateway.Publish _ _ _ _ => None end.

(** A connection on which all the calls were sent: messages in their order, and
    subscriptions in theirs. Messages may wait longer than subscriptions; what else
    is sent, pings and acknowledgements, and the identifiers are the library's. *)
Definition session (cs : list mqtt_call) (ps : list mqtt) : Prop :=
  forallb stays ps = true /\
  omap published ps = omap call_publication cs /\
  flat_map filters_of ps = omap call_filter cs.

(** ** Lemmas: what the broker keeps of a client *)

Definition keep (t : text) (acc : option bytes) (r : publication) : option bytes :=
  if p_retain r && bool_decide (p_topic r = t) then Some (p_payload r) else acc.

Definition kept (t : text) (ps : list mqtt) : option bytes := foldl (keep t) None (omap published ps).

(** The state of the broker for client 0, of which the packets [ps] were performed. *)
Definition holds (t : text) (ps : list mqtt) (br : broker) : Prop :=
  retained br !! t = kept t ps /\
  exists c, clients br !! 0%nat = Some c /\ serving c = true /\
    subscriptions c = flat_map filters_of ps.

Lemma kept_snoc t ps p :
  kept t (ps ++ [p]) = match published p with Some r => keep t (kept t ps) r | None => kept t ps end.
Proof.
  unfold kept. rewrite omap_app, foldl_app. cbn [omap list_omap].
  by destruct (published p).
Qed.

(** A change of a client that keeps whether it is served and its filters. *)
Definition modest (f : client -> client) : Prop :=
  forall c, serving (f c) = serving c /\ subscriptions (f c) = subscriptions c.

Lemma modest_write m : modest (write_client m).
Proof. intros c. unfold write_client. destruct (serving c) eqn:E; cbn; auto. Qed.

Lemma holds_at t ps br i f : modest f -> holds t ps br -> holds t ps (at_client i f br).
Proof.
  intros Hf (Hr & c & Hc & Hs & Hsub). split; [exact Hr|]. rewrite at_client_lookup.
  destruct (decide (i = 0%nat)) as [->|]; [|by exists c].
  exists (f c). rewrite Hc. destruct (Hf c) as [-> ->]. done.
Qed.

Lemma holds_tell t ps br i m : holds t ps br -> holds t ps (tell i m br).
Proof. apply holds_at, modest_write. Qed.

Lemma holds_deliver t ps br topic p : holds t ps br -> holds t ps (deliver topic p br).
Proof.
  intros (Hr & c & Hc & Hs & Hsub). split; [exact Hr|]. cbn. rewrite list_lookup_fmap, Hc. cbn.
  destruct (decide (subscribed topic c)); [|by exists c].
  exists (write_client (render (Deliver topic p)) c).
  destruct (modest_write (render (Deliver topic p)) c) as [-> ->]. done.
Qed.

(** Filters of another client, and filters of this one. *)
Lemma holds_subscribe t ps br i l :
  holds t ps br -> i <> 0%nat -> holds t ps (foldl (subscribe_to i) br l).
Proof.
  intros H Hi. revert br H. induction l as [|f l IH]; intros br H; [done|].
  destruct H as (Hr & c & Hc & H). cbn [foldl]. apply IH. split; [exact Hr|]. exists c. split; [|done].
  cbn. by rewrite list_lookup_alter_ne.
Qed.

Lemma subscribed_first t v l br c :
  retained br !! t = v -> clients br !! 0%nat = Some c -> serving c = true ->
  let br' := foldl (subscribe_to 0) br l in
  retained br' !! t = v /\
  exists c', clients br' !! 0%nat = Some c' /\ serving c' = true /\
    subscriptions c' = subscriptions c ++ map fst l.
Proof.
  revert br c. induction l as [|f l IH]; intros br c Hr Hc Hs; cbn [foldl map].
  - split; [done|]. exists c. by rewrite app_nil_r.
  - destruct (IH (subscribe_to 0 br f) (add_subscription (fst f) c)) as (H1 & c' & H2 & H3 & H4).
    + exact Hr.
    + cbn. by rewrite list_lookup_alter, decide_True, Hc by done.
    + exact Hs.
    + split; [exact H1|]. exists c'. split; [done|]. split; [done|].
      by rewrite H4; cbn; rewrite <- app_assoc.
Qed.
(** A packet of another client. *)
Lemma perform_other t ps br i p :
  i <> 0%nat -> quiet t p = true -> holds t ps br -> holds t ps (perform br (i, p)).
Proof.
  intros Hi Hq H. unfold perform. destruct (is_serving i br); [|done].
  assert (forall br', holds t ps br' -> holds t ps (at_client i close_client br')) as Hclose.
  { intros br' (Hr & c & Hc & H'). split; [exact Hr|]. exists c. split; [|done].
    by rewrite at_client_lookup, decide_False. }
  destruct p as [name level rest|topic payload qos pid dup retain|pid|pid|pid l|pid l| |];
    cbn [act].
  - destruct (level =? 4).
    + apply holds_tell, holds_at; [|done]. done.
    + by apply Hclose, holds_tell.
  - apply holds_deliver.
    assert (holds t ps (record_publish {| p_topic := topic; p_payload := payload; p_qos := qos;
                                           p_retain := retain |} br)) as Hrec.
    { destruct H as (Hr & H). split; [|exact H]. rewrite <- Hr. cbn in *.
      destruct retain; [|done]. apply negb_true_iff, bool_decide_eq_false in Hq.
      by apply lookup_insert_ne. }
    destruct (qos =? 1); [|destruct (qos =? 2); [|done]]; by apply holds_tell.
  - done.
  - by apply holds_tell.
  - by apply holds_tell, holds_subscribe.
  - by apply holds_tell.
  - by apply holds_tell.
  - by apply Hclose.
Qed.

(** A packet of the daemon. *)
Lemma perform_daemon t ps br p :
  stays p = true -> holds t ps br -> holds t (ps ++ [p]) (perform br (0%nat, p)).
Proof.
  intros Hp H. unfold perform.
  assert (is_serving 0 br = true) as ->.
  { destruct H as (_ & c & Hc & Hs & _). unfold is_serving. by rewrite Hc. }
  assert (published p = None -> filters_of p = [] -> holds t (ps ++ [p]) br) as Hsame.
  { intros Hn Hf. destruct H as (Hr & c & Hc & Hs & Hsub). split; [by rewrite kept_snoc, Hn|].
    exists c. rewrite flat_map_app. cbn. by rewrite Hf, !app_nil_r. }
  destruct p as [name level rest|topic payload qos pid dup retain|pid|pid|pid l|pid l| |];
    cbn [act stays] in *; try discriminate Hp; try (by apply Hsame); try (by apply holds_tell, Hsame).
  - rewrite Hp. apply holds_tell, holds_at; [done|by apply Hsame].
  - apply holds_deliver.
    assert (holds t (ps ++ [Publish topic payload qos pid dup retain])
      (record_publish {| p_topic := topic; p_payload := payload; p_qos := qos; p_retain := retain |} br))
      as Hrec.
    { destruct H as (Hr & c & Hc & Hs & Hsub). split.
      - rewrite kept_snoc. cbn [published]. unfold keep. rewrite <- Hr. cbn.
        destruct retain; [|done]. cbn. rewrite lookup_insert.
        case_bool_decide; by case_decide.
      - exists c. rewrite flat_map_app. cbn. by rewrite app_nil_r. }
    destruct (qos =? 1); [|destruct (qos =? 2); [|done]]; by apply holds_tell.
  - apply holds_tell. destruct H as (Hr & c & Hc & Hs & Hsub).
    destruct (subscribed_first t _ l br c Hr Hc Hs) as (H1 & c' & H2 & H3 & H4). split.
    + by rewrite kept_snoc, H1.
    + exists c'. split; [exact H2|]. split; [exact H3|].
      by rewrite H4, Hsub, flat_map_app; cbn; rewrite app_nil_r.
Qed.

Lemma holds_start t n : (0 < n)%nat -> holds t [] (start n).
Proof.
  intros Hn. unfold holds, start. assert (forall n, retained (Nat.iter n accept broker_init) = ∅) as Hr.
  { intros k. by induction k as [|k IH]. }
  split; [by rewrite Hr|]. exists new_client. split; [|done].
  destruct n as [|n]; [lia|]. clear Hn. induction n as [|n IH]; [done|].
  change (clients (Nat.iter (S (S n)) accept broker_init)) with
    (clients (Nat.iter (S n) accept broker_init) ++ [new_client]).
  by apply lookup_app_l_Some.
Qed.

Lemma holds_run t n acts :
  (0 < n)%nat -> forallb stays (of_client 0 acts) = true ->
  (forall i, i <> 0%nat -> forallb (quiet t) (of_client i acts) = true) ->
  holds t (of_client 0 acts) (foldl perform (start n) acts).
Proof.
  intros Hn. induction acts as [|[i p] acts IH] using rev_ind; intros Hst Hq; [by apply holds_start|].
  rewrite foldl_app. cbn [foldl]. rewrite of_client_app in Hst |- *.
  rewrite forallb_app in Hst. apply andb_true_iff in Hst as [Hst Hp].
  assert (holds t (of_client 0 acts) (foldl perform (start n) acts)) as H.
  { apply IH; [done|]. intros j Hj. specialize (Hq j Hj).
    rewrite of_client_app, forallb_app in Hq. by apply andb_true_iff in Hq as [Hq _]. }
  destruct (Nat.eq_dec i 0%nat) as [->|Hi].
  - apply perform_daemon; [|done]. cbn in Hp. by apply andb_true_iff in Hp as [Hp _].
  - replace (of_client 0 [(i, p)]) with (@nil mqtt) by by (destruct i).
    rewrite app_nil_r. apply perform_other; [done| |done].
    specialize (Hq i Hi). rewrite of_client_app, forallb_app in Hq.
    apply andb_true_iff in Hq as [_ Hq]. cbn in Hq. rewrite Nat.eqb_refl in Hq.
    by apply andb_true_iff in Hq as [Hq _].
Qed.

(** *** The calls of the daemon *)

Lemma txt_eq a b : txt a = txt b <-> a = b.
Proof. split; [|by intros ->]. intros E%(f_equal text_of). by rewrite !text_of_txt in E. Qed.

Lemma kept_calls topic cs ps :
  omap published ps = omap call_publication cs ->
  kept (txt topic) ps = encode <$> Gateway.retained cs topic.
Proof.
  unfold kept. intros ->. induction cs as [|c cs IH] using rev_ind; [done|].
  rewrite omap_app, foldl_app, retained_snoc, IH.
  destruct c as [t q|t p q r]; [done|]. cbn. unfold keep. cbn.
  destruct r; [|done]. cbn. destruct (String.eqb_spec t topic) as [->|Hne].
  - by rewrite bool_decide_true.
  - rewrite bool_decide_false; [done|]. by rewrite txt_eq.
Qed.

(** What has been retained was published. *)
Lemma retained_published cs topic p :
  Gateway.retained cs topic = Some p ->
  exists pre q post, cs = pre ++ Gateway.Publish topic p q true :: post.
Proof.
  induction cs as [|c cs IH] using rev_ind; [done|]. rewrite retained_snoc. intros H.
  assert (Gateway.retained cs topic = Some p ->
    exists pre q post, cs ++ [c] = pre ++ Gateway.Publish topic p q true :: post) as Hin.
  { intros (pre & q & post & ->)%IH. exists pre, q, (post ++ [c]). by rewrite <- app_assoc. }
  destruct c as [t q|t p' q []]; cbn [retain] in H; try by apply Hin.
  destruct (String.eqb_spec t topic) as [->|]; [|by apply Hin].
  injection H as ->. by exists cs, q, [].
Qed.

End library.

(** *** The run *)

Lemma holds_clear t ps br : holds t ps (clear br) -> holds t ps br.
Proof.
  intros (Hr & c & Hc & Hs & Hsub). split; [exact Hr|]. cbn in Hc. rewrite list_lookup_fmap in Hc.
  destruct (clients br !! 0%nat) as [c'|]; [|done]. injection Hc as <-. by exists c'.
Qed.

Lemma forallb_prefix {A} (f : A -> bool) l1 l2 : forallb f (l1 ++ l2) = true -> forallb f l1 = true.
Proof. rewrite forallb_app. by intros [H _]%andb_true_iff. Qed.

(** When the daemon's bytes have arrived, its packets have been performed. *)
Lemma daemon_performed t n sent events :
  (0 < n)%nat -> (forall i, Forall mqtt_ok (sent i)) -> Forall (fun e => snd e <> []) events ->
  (forall i, exists t, stream i events ++ t = wires (sent i)) ->
  stream 0 events = wires (sent 0%nat) -> forallb stays (sent 0%nat) = true ->
  (forall i, i <> 0%nat -> forallb (quiet t) (sent i) = true) ->
  holds t (sent 0%nat) (run n events).
Proof.
  intros Hn Hok Hne Hpre Hall Hst Hq.
  destruct (progress_all n sent events Hok Hne Hpre) as (acts & Hp).
  assert (holds t (of_client 0 acts) (run n events)) as H.
  { apply holds_clear. destruct Hp as [-> Hp]. apply holds_run; [done| |].
    - destruct (Hp 0%nat) as [[todo E] _]. rewrite E in Hst. by apply forallb_prefix in Hst.
    - intros i Hi. destruct (Hp i) as [[todo E] _]. specialize (Hq i Hi). rewrite E in Hq.
      by apply forallb_prefix in Hq. }
  rewrite <- (all_performed n sent events acts 0); [done|by apply Hok|done| |done].
  destruct H as (_ & c & Hc & Hs & _). unfold is_serving. by rewrite Hc.
Qed.

(** A message on a topic that was subscribed to. *)
Lemma told_once t ps br f message :
  holds t ps br -> f ∈ flat_map filters_of ps -> plain_topic f -> word (len f) ->
  exists br' c c', inject f message br = Ok br' /\
    clients br !! 0%nat = Some c /\ clients br' !! 0%nat = Some c' /\
    outbox c' = outbox c ++ [render (Deliver f message)].
Proof.
  intros (_ & c & Hc & Hs & Hsub) Hf Hp Hw. unfold inject. rewrite fanout_deliver by done.
  exists (deliver f message br), c, (write_client (render (Deliver f message)) c).
  split; [done|]. split; [done|]. unfold write_client. rewrite Hs. split; [|done].
  cbn. rewrite list_lookup_fmap, Hc. cbn. rewrite decide_True; [by unfold write_client; rewrite Hs|].
  apply wants_subscribed, existsb_exists. exists f. rewrite Hsub. split; [by apply list_elem_of_In|].
  by rewrite plain_topic_matches, bool_decide_true.
Qed.

Lemma filters_ok ps f : Forall mqtt_ok ps -> f ∈ flat_map filters_of ps -> word (len f).
Proof.
  intros Hok Hf. apply list_elem_of_In, in_flat_map in Hf as (p & Hp & Hf).
  rewrite List.Forall_forall in Hok. specialize (Hok p Hp).
  destruct p; try done. cbn in Hf. apply in_map_iff in Hf as (x & <- & Hx).
  destruct Hok as (_ & _ & Hl). rewrite List.Forall_forall in Hl. by apply (Hl x).
Qed.

(** The daemon subscribes to the commands of a light before it shows a state. *)
Lemma shown_subscribed cs ps g a p :
  flat_map filters_of ps = omap (call_filter) cs -> discovery_first cs ->
  address_ok g -> address_ok a -> Gateway.retained cs (state_topic g a) = Some p ->
  txt (set_topic g a) ∈ flat_map filters_of ps.
Proof.
  intros -> Hd Hg Ha (pre & q & post & E)%retained_published.
  destruct (Hd pre p q true post g a E Hg Ha) as [Hin _].
  apply list_elem_of_omap. exists (Gateway.Subscribe (set_topic g a) 2). split; [|done].
  subst cs. apply elem_of_app. left. by apply list_elem_of_In.
Qed.

(** *** The network *)

(** The calls of handlers that chunks of the interface lead to, as events of the
    gateway: one of [Gateway.NetworkEvents] per chunk. *)
Fixpoint heard (p : @buffered pci) (chunks : list bytes) : list gateway_event :=
  match chunks with
  | [] => []
  | c :: chunks =>
      let q := pci_received p c in
      NetworkEvents (drop (length (events (inner p))) (events (inner q))) :: heard q chunks
  end.

Definition network_calls (e : gateway_event) : list pci_event :=
  match e with NetworkEvents es => es | _ => [] end.

Lemma events_extended p c : events (inner p) `prefix_of` events (inner (pci_received p c)).
Proof.
  refine (received_keeps _ (fun s t : pci => events s `prefix_of` events t) p c _).
  - split; [by intros s|]. intros x y z. apply transitivity.
  - intros s buf. unfold handle_data. destruct (decode_packet _ _ _ _) as [[[d|] n]|e]; [|done..].
    cbn. unfold handle_cbus_packet. destruct (dispatch d) as [[evs ts]|e]; [|done].
    by apply prefix_app_r.
Qed.

Lemma heard_calls p chunks :
  events (inner (foldl pci_received p chunks)) =
    events (inner p) ++ flat_map network_calls (heard p chunks).
Proof.
  revert p. induction chunks as [|c chunks IH]; intros p; cbn [heard flat_map foldl].
  - by rewrite app_nil_r.
  - rewrite IH. cbn [network_calls]. destruct (events_extended p c) as [more E]. rewrite E.
    by rewrite drop_app_length, app_assoc.
Qed.

Lemma record_app ls l1 l2 : record ls (l1 ++ l2) = record (record ls l1) l2.
Proof. apply foldl_app. Qed.

Lemma heard_lights p chunks s :
  sp_bound s = true -> sp_closing s = false ->
  sp_lights (foldl spec_step s (heard p chunks)) =
    record (sp_lights s) (flat_map event_reports (flat_map network_calls (heard p chunks))).
Proof.
  intros Hb Hc. revert p s Hb Hc. induction chunks as [|c chunks IH]; intros p s Hb Hc; [done|].
  cbn [heard foldl]. rewrite IH; cbn [spec_step]; rewrite Hb, Hc; try done. cbn [sp_lights flat_map].
  by rewrite flat_map_app, record_app.
Qed.

(** ** Properties *)

(** C22. The lights of the house as others see them on the broker. The daemon runs
    with labels, and over any events of the network and commands, whose addresses are in
    range, its calls go to the broker through
    any library that keeps the order of messages and of subscriptions (the one of
    the dispatcher to all the topics of lights is among them), and other clients send
    what they like in between, as long as they retain nothing on the two topics of the
    light; all bytes arrive in any pieces and interleaving. When all of the daemon's
    have arrived, the broker retains for the light, and for its sensor,
    the payload of the last report of it, or nothing if there was none. A message
    for a light that was reported once reaches the daemon, which is told it exactly
    once. *)
Theorem lights_on_broker encode ls es n sent events g a :
  let s := foldl spec_step spec_init es in
  let br := run n events in
  labels_ok (default DEFAULT_LABELS ls) -> Forall gateway_event_ok es ->
  session encode (calls (mq (gateway_run ls es))) (sent 0%nat) ->
  (0 < n)%nat -> (forall i, Forall mqtt_ok (sent i)) -> Forall (fun e => snd e <> []) events ->
  (forall i, exists t, stream i events ++ t = wires (sent i)) ->
  stream 0 events = wires (sent 0%nat) ->
  address_ok g -> address_ok a ->
  (forall i, i <> 0%nat -> forallb (quiet (txt (state_topic g a))) (sent i) = true /\
                     forallb (quiet (txt (bin_sensor_state_topic g a))) (sent i) = true) ->
  retained br !! txt (state_topic g a) = encode ∘ state_payload <$> sp_lights s !! (g, a) /\
  retained br !! txt (bin_sensor_state_topic g a) =
    encode ∘ sensor_payload <$> sp_lights s !! (g, a) /\
  (is_Some (sp_lights s !! (g, a)) -> forall message, exists br' c c',
     inject (txt (set_topic g a)) message br = Ok br' /\
     clients br !! 0%nat = Some c /\ clients br' !! 0%nat = Some c' /\
     outbox c' = outbox c ++ [render (Deliver (txt (set_topic g a)) message)]).
Proof.
  intros s br Hls Hes (Hstay & Hpub & Hsub) Hn Hok Hne Hpre Hall Hg Ha Hq.
  destruct (gateway_run_simulates ls es Hls Hes) as ((_ & Hdisc & _) & Hshow & _).
  destruct (Hshow g a Hg Ha) as [Hs1 Hs2]. fold s in Hs1, Hs2.
  assert (forall topic, (forall i, i <> 0%nat -> forallb (quiet (txt topic)) (sent i) = true) ->
    holds (txt topic) (sent 0%nat) br) as Hh by (intros; by apply daemon_performed).
  pose proof (Hh (state_topic g a) (fun i Hi => proj1 (Hq i Hi))) as H1.
  pose proof (Hh (bin_sensor_state_topic g a) (fun i Hi => proj2 (Hq i Hi))) as H2.
  split; [|split].
  - by rewrite (proj1 H1), (kept_calls encode _ _ _ Hpub), Hs1, option_fmap_compose.
  - by rewrite (proj1 H2), (kept_calls encode _ _ _ Hpub), Hs2, option_fmap_compose.
  - intros [l Hl] message. rewrite Hl in Hs1.
    pose proof (shown_subscribed _ _ g a _ Hsub Hdisc Hg Ha Hs1) as Hf.
    apply (told_once _ _ _ _ message H1 Hf); [by apply set_topic_plain|].
    by apply (filters_ok (sent 0%nat)).
Qed.

(** The lights that the daemon knows after the interface sent packets, in whatever
    chunks the buffer of the client takes them: the last report in the packets, in
    their order. With [lights_on_broker] this is what the broker retains. *)
Theorem lights_of_packets ps ts chunks :
  Forall interface_packet ps -> mapM_result encode_packet ps = Ok ts ->
  brings chunks (concat (map (fun t => t ++ END_RESPONSE) ts)) (cbus_init pci_init) ->
  sp_lights (foldl spec_step spec_init (heard (cbus_init pci_init) chunks)) =
    record ∅ (flat_map event_reports (flat_map packet_events ps)).
Proof.
  intros Hps Hts [Hc Ha]. rewrite heard_lights by done. do 2 f_equal.
  destruct (network_events pci_init ps Hps) as (ts' & Hts' & Hrun).
  assert (ts' = ts) as -> by congruence. rewrite <- Hc in Hrun.
  destruct (received_all client_handler (cbus_init pci_init) chunks eq_refl Ha) as [Hall _].
  cbn [_buf inner cbus_init buffered_init app] in Hall. unfold client_handler in Hall.
  rewrite Hrun in Hall. injection Hall as _ Hst.
  pose proof (heard_calls (cbus_init pci_init) chunks) as Hh. cbn [events inner cbus_init buffered_init] in Hh.
  symmetry. refine (eq_trans _ Hh). exact (f_equal events Hst).
Qed.

(** A library that sends each call at once. *)
Definition call_packet (encode : payload -> bytes) (pid : nat) (c : mqtt_call) : mqtt :=
  let pid := Z.of_nat pid mod 65535 + 1 in
  match c with
  | Gateway.Publish topic p qos retain => Publish (txt topic) (encode p) qos pid false retain
  | Gateway.Subscribe topic qos => Subscribe pid [(txt topic, qos)]
  end.

Definition call_packets (encode : payload -> bytes) (cs : list mqtt_call) : list mqtt :=
  imap (call_packet encode) cs.

Lemma call_packets_snoc encode cs c :
  call_packets encode (cs ++ [c]) = call_packets encode cs ++ [call_packet encode (length cs) c].
Proof. unfold call_packets. rewrite imap_app. cbn. by rewrite Nat.add_0_r. Qed.

Lemma direct_session encode name rest cs :
  session encode cs (Connect name 4 rest :: call_packets encode cs).
Proof.
  induction cs as [|c cs (IH1 & IH2 & IH3)] using rev_ind; [done|]. rewrite call_packets_snoc.
  change (?x :: ?l ++ ?m) with ((x :: l) ++ m). split; [|split].
  - rewrite forallb_app, IH1. by destruct c.
  - rewrite !omap_app, IH2. f_equal. by destruct c.
  - rewrite flat_map_app, omap_app, IH3. f_equal. by destruct c.
Qed.

#[export] Instance mqtt_ok_dec p : Decision (mqtt_ok p).
Proof. destruct p; unfold mqtt_ok, text_ok, word; apply _. Defined.

(** A light is switched on; another client, which subscribed to everything and
    publishes on a topic of its own, shares the broker. *)
Definition sample_encode (p : payload) : bytes :=
  match p with
  | PText s => txt s
  | PJson j =>
      match j with
      | JObject (("state", JString s) :: _) => txt s
      | _ => txt "{}"
      end
  end.

Definition sample_day : list gateway_event := [NetworkEvents [OnLightingGroupOn (Some 5) 1 56]].

Definition home_sent (i : nat) : list mqtt :=
  match i with
  | 0%nat => Connect (txt "MQTT") 4 [2; 0; 60; 0; 0] ::
             call_packets sample_encode (calls (mq (gateway_run None sample_day)))
  | 1%nat => [Connect (txt "MQTT") 4 [2; 0; 60; 0; 0]; Subscribe 1 [([35], 0)];
              Publish (txt "weather") (txt "rain") 0 0 false true]
  | _ => []
  end.

Definition home_events : list (nat * bytes) :=
  let w0 := wires (home_sent 0%nat) in
  let w1 := wires (home_sent 1%nat) in
  [(1%nat, take 20 w1); (0%nat, take 100 w0); (1%nat, drop 20 w1); (0%nat, drop 100 w0)].

Example lights_on_broker_witness :
  let br := run 2 home_events in
  retained br !! txt (state_topic 1 56) = Some (txt "ON") /\
  retained br !! txt (bin_sensor_state_topic 1 56) = Some (txt "ON") /\
  exists br' c c',
    inject (txt (set_topic 1 56)) (txt "off") br = Ok br' /\
    clients br !! 0%nat = Some c /\ clients br' !! 0%nat = Some c' /\
    outbox c' = outbox c ++ [render (Deliver (txt (set_topic 1 56)) (txt "off"))].
Proof.
  destruct (lights_on_broker sample_encode None sample_day 2 home_sent home_events 1 56)
    as (H1 & H2 & H3).
  - repeat constructor.
  - repeat constructor.
  - apply direct_session.
  - apply Nat.lt_0_succ.
  - intros [|[|i]]; apply (bool_decide_unpack (Forall mqtt_ok _)); vm_compute; exact I.
  - repeat constructor; discriminate.
  - intros [|[|i]]; exists []; vm_compute; reflexivity.
  - vm_compute. reflexivity.
  - reflexivity.
  - reflexivity.
  - intros [|[|i]]; [done| |]; split; vm_compute; reflexivity.
  - split; [rewrite H1; vm_compute; reflexivity|]. split; [rewrite H2; vm_compute; reflexivity|].
    apply H3. vm_compute. eauto.
Defined.
