(* ===== verification/Vectors.v ===== *)
(** * Test vectors: [generate_vectors.py] and [suites/verify_vectors.py]

    The records that the generator of [src/rust-migration-harness] makes of the
    library's answers, and the checks of such records, which a port has to pass.
    A record is the dict; the text that [json.dumps] makes of it is left out. The
    vectors of encoders are in [PyJson], the suites in [Suites]. *)

From Stdlib Require Import String Ascii QArith.
From stdpp Require Import strings gmap options.
From S2P Require Import Prelude Common Hex Report Cal Application Packet Decode Text Topics.
From S2P Require Import Gateway PyJson.

Local Open Scope string_scope.
Local Open Scope list_scope.
Local Open Scope Z_scope.

(** ** Equality of JSON, as [==] has it *)

(** Numbers are equal by value, whatever their type. *)
Definition as_number (j : json) : option pyfloat :=
  match j with
  | JBool b => Some (Finite (inject_Z (Z.b2z b)))
  | JInt n => Some (Finite (inject_Z n))
  | JFloat f => Some f
  | _ => None
  end.

Definition float_eq (x y : pyfloat) : bool :=
  match x, y with
  | Finite p, Finite q => Qeq_bool p q
  | Gateway.Infinite s, Gateway.Infinite t => Bool.eqb s t
  | _, _ => false
  end.

(** Keys in any order. *)
Fixpoint json_eq (a b : json) : bool :=
  match a with
  | JNull => match b with JNull => true | _ => false end
  | JBool _ | JInt _ | JFloat _ =>
      match as_number a, as_number b with Some x, Some y => float_eq x y | _, _ => false end
  | JString s => match b with JString t => String.eqb s t | _ => false end
  | JArray l =>
      let fix go l m :=
        match l, m with
        | [], [] => true
        | x :: l, y :: m => json_eq x y && go l m
        | _, _ => false
        end in
      match b with JArray m => go l m | _ => false end
  | JObject l =>
      let fix go l m :=
        match l with
        | [] => true
        | (k, x) :: l => match field k m with Some y => json_eq x y | None => false end && go l m
        end in
      match b with JObject m => (length l =? length m)%nat && go l m | _ => false end
  end.

(** ** Records *)

(** [except ValueError], and its subclasses. *)
Definition is_value_error (e : exn) : bool :=
  bool_decide (e ∈ [ValueError; UnicodeError; BinasciiError]).

(** [p.encode_packet()] of what the decoder returned. *)
Definition encode_decoded (p : option decoded) : result bytes :=
  match p with None => Raise AttributeError | Some d => built_encode_packet (built_of d) end.

(** The packet encoded again, when that is asked for and possible. *)
Definition reencode (reencodable : bool) (p : option decoded) (pj : json) : result json :=
  let t := get_default pj "type" in
  if negb reencodable || bool_decide (p = None) || is_str "invalid" t || is_str "cal" t then Ok JNull
  else
    match encode_decoded p with
    | Ok out => Ok (JString (decode_latin1 out))
    | Raise e =>
        if is_value_error e || bool_decide (e = NotImplementedError) then Ok JNull else Raise e
    end.

(** The keyword arguments. *)
Record settings := {
  with_checksum : bool;
  with_strict : bool;
  with_from_pci : bool;
  with_note : string;
  with_reencodable : bool
}.

(** [make_decode_vector], without the counter of [id]. *)
Definition decode_vector (id : string) (wire : bytes) (o : settings) : result json :=
  '(p, consumed) ← decode_packet wire (with_checksum o) (with_strict o) (with_from_pci o);
  pj ← packet_to_json p;
  re ← reencode (with_reencodable o) p pj;
  Ok (JObject
    [("id", JString id); ("wire_hex", JString (bytes_hex wire));
     ("checksum", JBool (with_checksum o)); ("strict", JBool (with_strict o));
     ("from_pci", JBool (with_from_pci o)); ("expect_consumed", JInt (Z.of_nat consumed));
     ("expect_packet", pj); ("expect_reencode", re); ("note", JString (with_note o))]).

Definition checksum_vector (id : string) (data : bytes) : json :=
  JObject [("id", JString id); ("data_hex", JString (bytes_hex data));
           ("expect_checksum", JInt (cbus_checksum data))].

Definition duration_vector (id : string) (d : Z) : json :=
  JObject [("id", JString id); ("kind", JString "duration_to_rate"); ("in", JInt d);
           ("expect", JInt (value (duration_to_ramp_rate d)))].

Definition rate_vector (id : string) (code : Z) : result json :=
  d ← ramp_rate_to_duration code;
  Ok (JObject [("id", JString id); ("kind", JString "rate_to_duration"); ("in", JInt code);
               ("expect", JInt d)]).

(** What is formatted for a light, with the keys of the record. *)
Definition topic_checks (ga app : Z) : list (string * string) :=
  [("expect_ga_string_padded", ga_string ga app true);
   ("expect_ga_string_unpadded", ga_string ga app false);
   ("expect_set_topic", set_topic ga app);
   ("expect_state_topic", state_topic ga app);
   ("expect_conf_topic", conf_topic ga app);
   ("expect_bin_sensor_state_topic", bin_sensor_state_topic ga app);
   ("expect_bin_sensor_conf_topic", bin_sensor_conf_topic ga app)].

Definition format_vector (id : string) (ga app : Z) : json :=
  JObject ([("id", JString id); ("kind", JString "format"); ("group_addr", JInt ga);
            ("app_addr", JInt app)] ++
           map (fun '(k, s) => (k, JString s)) (topic_checks ga app)).

Definition is_parse_error (e : exn) : bool := is_value_error e || bool_decide (e = KeyError).

Definition parse_vector (id : string) (topic : string) : result json :=
  let rec := [("id", JString id); ("kind", JString "parse"); ("topic", JString topic)] in
  match get_topic_group_address topic with
  | Ok (g, a) => Ok (JObject (rec ++ [("expect_group", JInt g); ("expect_app", JInt a)]))
  | Raise e => if is_parse_error e then Ok (JObject (rec ++ [("expect_error", JBool true)])) else Raise e
  end.

(** [_RecordingClient]: the calls of a client that starts with nothing. *)
Definition recorded (f : method unit) : result (list mqtt_call) :=
  let '(m, r) := f {| _client := true; groupDB := ∅; calls := [] |} in
  _ ← r; Ok (calls m).

(** [rec.published] and [rec.subscribed]; a payload that is not a dict is not read. *)
Definition published_json (cs : list mqtt_call) : list (string * json * Z * bool) :=
  omap (fun c => match c with Publish t (PJson j) qos retain => Some (t, j, qos, retain) | _ => None end) cs.

Definition subscribed_topics (cs : list mqtt_call) : list (string * Z) :=
  omap (fun c => match c with Subscribe t qos => Some (t, qos) | _ => None end) cs.

(** [{t: ... for ... in rec.published}[topic]] *)
Definition find_published (topic : string) (l : list (string * json * Z * bool)) : result (json * Z * bool) :=
  or_raise KeyError
    (last (omap (fun '(t, j, qos, retain) => if String.eqb t topic then Some (j, qos, retain) else None) l)).

(** The labels as JSON has them. *)
Definition labels_json (ls : labels) : json :=
  JObject (map (fun '(k, (name, groups)) =>
    (str_int k, JArray [JString name;
       JObject (map (fun '(g, n) => (str_int g, JString n)) (groups : list (Z * string)))])) ls).

Definition ha_vector (id : string) (ga app : Z) (ls : option labels) : result json :=
  rec ← recorded (publish_light ga app ls);
  let pubs := published_json rec in
  s ← or_raise IndexError (head (subscribed_topics rec));
  light ← find_published (conf_topic ga app) pubs;
  sensor ← find_published (bin_sensor_conf_topic ga app) pubs;
  Ok (JObject
    [("id", JString id); ("group_addr", JInt ga); ("app_addr", JInt app);
     ("labels", match ls with Some ((_ :: _) as l) => labels_json l | _ => JNull end);
     ("expect_subscribe", JString (fst s)); ("expect_subscribe_qos", JInt (snd s));
     ("expect_light_config_topic", JString (conf_topic ga app)); ("expect_light_config", light.1.1);
     ("expect_sensor_config_topic", JString (bin_sensor_conf_topic ga app));
     ("expect_sensor_config", sensor.1.1); ("expect_qos", JInt 1); ("expect_retain", JBool true)]).

Definition meta_vector (id : string) : result json :=
  rec ← recorded (publish_all_lights []);
  '(t, j, qos, retain) ← or_raise IndexError (head (published_json rec));
  Ok (JObject [("id", JString id); ("meta", JBool true); ("expect_topic", JString t);
               ("expect_config", j); ("expect_qos", JInt qos); ("expect_retain", JBool retain)]).

(** ** Checks: a message, or none *)

Inductive complaint :=
| Differs (key : string) (got : json)
| EncodingRaised (e : exn)
| ParseError
| ErrorExpected
| NotPublished (topic : string).

Definition as_text (j : json) : load string :=
  match j with JString s => Loaded s | _ => Untyped end.

(** [if got != v[key]: return ...], before [next]. *)
Definition expect (v : json) (key : string) (got : json) (next : load (option complaint))
    : load (option complaint) :=
  want ← get v key;
  if json_eq got want then next else Loaded (Some (Differs key got)).

Definition check_decode (v : json) : load (option complaint) :=
  h ← get v "wire_hex"; wire ← bytes_fromhex h;
  cs ← get v "checksum"; cs ← as_bool cs;
  strict ← get v "strict"; strict ← as_bool strict;
  from_pci ← get v "from_pci"; from_pci ← as_bool from_pci;
  '(p, consumed) ← call (decode_packet wire cs strict from_pci);
  expect v "expect_consumed" (JInt (Z.of_nat consumed))
    (got ← call (packet_to_json p);
     expect v "expect_packet" got
       (match get_default v "expect_reencode" with
        | JNull => Loaded None
        | _ =>
            match encode_decoded p with
            | Raise e => Loaded (Some (EncodingRaised e))
            | Ok re => expect v "expect_reencode" (JString (decode_latin1 re)) (Loaded None)
            end
        end)).

Definition check_checksum (v : json) : load (option complaint) :=
  h ← get v "data_hex"; data ← bytes_fromhex h;
  expect v "expect_checksum" (JInt (cbus_checksum data)) (Loaded None).

Definition check_ramp (v : json) : load (option complaint) :=
  kind ← get v "kind"; n ← get v "in"; n ← as_int n;
  got ← (if is_str "duration_to_rate" kind then Loaded (value (duration_to_ramp_rate n))
         else call (ramp_rate_to_duration n));
  expect v "expect" (JInt got) (Loaded None).

(** The loop over the pairs of [checks]. *)
Fixpoint expect_all (v : json) (l : list (string * string)) : load (option complaint) :=
  match l with
  | [] => Loaded None
  | (key, got) :: l => expect v key (JString got) (expect_all v l)
  end.

Definition check_topic (v : json) : load (option complaint) :=
  kind ← get v "kind";
  if is_str "format" kind then
    ga ← get v "group_addr"; app ← get v "app_addr"; ga ← as_int ga; app ← as_int app;
    expect_all v (topic_checks ga app)
  else
    topic ← get v "topic"; topic ← as_text topic;
    match get_topic_group_address topic with
    | Raise e =>
        if is_parse_error e
        then Loaded (if truthy (get_default v "expect_error") then None else Some ParseError)
        else Failed e
    | Ok (g, a) =>
        if truthy (get_default v "expect_error") then Loaded (Some ErrorExpected)
        else
          group ← get v "expect_group";
          if json_eq (JInt g) group then expect v "expect_app" (JInt a) (Loaded None)
          else _ ← get v "expect_app"; Loaded (Some (Differs "expect_group" (JInt g)))
    end.

(** [{int(k): (name, {int(g): n ...}) ...}]: keys of an object are distinct texts, but
    the numbers they stand for need not be. *)
Definition labels_from_json (j : json) : load labels :=
  match j with
  | JObject fields =>
      mapM_load (fun '(k, v) =>
        k ← call (int_text k); pair ← as_list v;
        match pair with
        | [name; JObject groups] =>
            name ← as_text name;
            gs ← mapM_load (fun '(g, n) => g ← call (int_text g); n ← as_text n; Loaded (g, n)) groups;
            Loaded (k, (name, gs))
        | _ => Untyped
        end) fields
  | _ => Untyped
  end.

(** A configuration among the published ones. *)
Definition expect_config (v : json) (pubs : list (string * json * Z * bool)) (topic_key config_key : string)
    (next : load (option complaint)) : load (option complaint) :=
  topic ← get v topic_key; topic ← as_text topic;
  match find_published topic pubs with
  | Raise _ => Loaded (Some (NotPublished topic))
  | Ok (cfg, qos, retain) =>
      expect v config_key cfg
        (expect v "expect_qos" (JInt qos) (expect v "expect_retain" (JBool retain) next))
  end.

Definition check_ha (v : json) : load (option complaint) :=
  if truthy (get_default v "meta") then
    rec ← call (recorded (publish_all_lights []));
    '(t, cfg, qos, retain) ← call (or_raise IndexError (head (published_json rec)));
    expect v "expect_topic" (JString t) (expect v "expect_config" cfg
      (expect v "expect_qos" (JInt qos) (expect v "expect_retain" (JBool retain) (Loaded None))))
  else
    ls ← get v "labels";
    ls ← (if truthy ls then Some <$> labels_from_json ls else Loaded None);
    ga ← get v "group_addr"; app ← get v "app_addr"; ga ← as_int ga; app ← as_int app;
    rec ← call (recorded (publish_light ga app ls));
    s ← call (or_raise IndexError (head (subscribed_topics rec)));
    let pubs := published_json rec in
    expect v "expect_subscribe" (JString (fst s))
      (expect v "expect_subscribe_qos" (JInt (snd s))
        (expect_config v pubs "expect_light_config_topic" "expect_light_config"
          (expect_config v pubs "expect_sensor_config_topic" "expect_sensor_config" (Loaded None)))).

(** ** Lemmas: equality *)

(** Without NaN, and with distinct keys: what is equal to itself. *)
Fixpoint plain_json (j : json) : bool :=
  match j with
  | JFloat NaN => false
  | JArray l => forallb plain_json l
  | JObject l =>
      bool_decide (NoDup (map fst l)) &&
      (fix go l := match l with [] => true | (_, x) :: l => plain_json x && go l end) l
  | _ => true
  end.

Section json_ind.
Context (P : json -> Prop).
Context (Hnull : P JNull) (Hbool : forall b, P (JBool b)) (Hint : forall n, P (JInt n)).
Context (Hfloat : forall f, P (JFloat f)) (Hstring : forall s, P (JString s)).
Context (Harray : forall l, Forall P l -> P (JArray l)).
Context (Hobject : forall l, Forall (fun '(_, x) => P x) l -> P (JObject l)).

Fixpoint json_nested_ind (j : json) : P j :=
  match j with
  | JNull => Hnull
  | JBool b => Hbool b
  | JInt n => Hint n
  | JFloat f => Hfloat f
  | JString s => Hstring s
  | JArray l =>
      Harray l ((fix go l : Forall P l :=
        match l with
        | [] => Forall_nil_2 P
        | x :: l => Forall_cons_2 P x l (json_nested_ind x) (go l)
        end) l)
  | JObject l =>
      Hobject l ((fix go l : Forall (fun '(_, x) => P x) l :=
        match l with
        | [] => Forall_nil_2 _
        | (k, x) :: l => Forall_cons_2 (fun '(_, x) => P x) (k, x) l (json_nested_ind x) (go l)
        end) l)
  end.
End json_ind.

Lemma field_in k x l : NoDup (map fst l) -> In (k, x) l -> field k l = Some x.
Proof.
  induction l as [|[k' y] l IH]; [done|]. cbn [map fst field]. intros [Hk Hnd]%NoDup_cons [E|Hin].
  - injection E as -> ->. by rewrite String.eqb_refl.
  - destruct (String.eqb_spec k' k) as [->|]; [|by apply IH].
    destruct Hk. apply list_elem_of_In, in_map_iff. by exists (k, x).
Qed.

Lemma json_eq_refl j : plain_json j = true -> json_eq j j = true.
Proof.
  induction j as [| | |f|s|l IH|l IH] using json_nested_ind; cbn [plain_json json_eq as_number]; intros H.
  - done.
  - apply Qeq_bool_iff. reflexivity.
  - apply Qeq_bool_iff. reflexivity.
  - destruct f as [q|s|]; [apply Qeq_bool_iff; reflexivity|apply eqb_reflx|done].
  - apply String.eqb_refl.
  - induction IH as [|x l Hx _ IH]; [done|]. apply andb_true_iff in H as [H1 H2].
    rewrite Hx by done. by apply IH.
  - apply andb_true_iff in H as [Hnd%bool_decide_eq_true H]. rewrite Nat.eqb_refl. cbn [andb].
    assert (forall k x, In (k, x) l -> field k l = Some x) as Hf by (intros; by apply field_in).
    match goal with |- ?eq l l = true => match type of H with ?plain l = true =>
      assert (forall l', Forall (fun '(_, x) => plain_json x = true -> json_eq x x = true) l' ->
        (forall k x, In (k, x) l' -> field k l = Some x) -> plain l' = true -> eq l' l = true) as Hgo
    end end.
    { clear. induction 1 as [|[k x] l' Hx _ IH]; [done|]. intros Hf [H1 H2]%andb_true_iff.
      rewrite (Hf k x) by by left. rewrite Hx by done. apply IH; [|done].
      intros k' x' ?. apply Hf. by right. }
    by apply Hgo.
Qed.

Lemma plain_array {A} (f : A -> json) l :
  (forall x, plain_json (f x) = true) -> plain_json (JArray (map f l)) = true.
Proof. intros Hf. cbn. apply forallb_forall. intros j (x & <- & _)%in_map_iff. apply Hf. Qed.

Lemma plain_sal s : plain_json (sal_to_json s) = true.
Proof. by destruct s as [[]|[[]|]|[]|s|[]]. Qed.

Lemma plain_level v : plain_json (level_json v) = true.
Proof. by destruct v. Qed.

Lemma plain_report r : plain_json (report_to_json r) = true.
Proof.
  destruct r as [states|levels]; cbn [report_to_json].
  - pose proof (plain_array (fun g => JInt (value g)) states (fun _ => eq_refl)) as H.
    cbn in *. by rewrite H.
  - pose proof (plain_array level_json levels plain_level) as H. cbn in *. by rewrite H.
Qed.

Lemma plain_cal c : plain_json (cal_to_json c) = true.
Proof.
  destruct c as [| | |ext child start r]; try done. pose proof (plain_report r) as H.
  unfold cal_to_json, cal_fields. remember (report_to_json r) as j. cbn. by rewrite H.
Qed.

Lemma plain_source v : plain_json (int_or_null v) = true.
Proof. by destruct v. Qed.

Lemma plain_conf c j : _conf_to_json c = Ok j -> plain_json j = true.
Proof.
  destruct c as [c|]; cbn; [|by intros [= <-]]. destruct (decode_ascii c); [|done]. by intros [= <-].
Qed.

Lemma packet_json_plain p j : packet_to_json p = Ok j -> plain_json j = true.
Proof.
  destruct p as [[[| | | |code success|payload e|h app sals|h hops bridged u cals|h par v]|c]|];
    cbn [packet_to_json]; try by intros [= <-].
  - destruct (decode_ascii code); [|done]. by intros [= <-].
  - unfold header_fields. intros (fs & (conf & Hc & [= <-])%result_bind_Ok & [= <-])%result_bind_Ok.
    pose proof (plain_conf _ _ Hc) as H1. pose proof (plain_source (source_address h)) as H2.
    pose proof (plain_source app) as H3. pose proof (plain_array sal_to_json sals plain_sal) as H4.
    remember (JArray (map sal_to_json sals)) as arr. cbn. by rewrite H1, H2, H3, H4.
  - unfold header_fields. intros (fs & (conf & Hc & [= <-])%result_bind_Ok & [= <-])%result_bind_Ok.
    pose proof (plain_conf _ _ Hc) as H1. pose proof (plain_source (source_address h)) as H2.
    pose proof (plain_array JInt hops (fun _ => eq_refl)) as H3.
    pose proof (plain_array cal_to_json cals plain_cal) as H4.
    remember (JArray (map JInt hops)) as arr. remember (JArray (map cal_to_json cals)) as arr'.
    cbn. by rewrite H1, H2, H3, H4.
  - unfold header_fields. intros (fs & (conf & Hc & [= <-])%result_bind_Ok & [= <-])%result_bind_Ok.
    pose proof (plain_conf _ _ Hc) as H1. pose proof (plain_source (source_address h)) as H2.
    cbn. by rewrite H1, H2.
  - intros [= <-]. pose proof (plain_cal c) as H. unfold cal_to_json in H.
    by destruct c.
Qed.

(** ** Properties *)

(** What the checker reads back of a record. *)
Lemma expect_ok v key got next :
  get v key = Loaded got -> plain_json got = true -> expect v key got next = next.
Proof. intros Hg Hp. unfold expect. rewrite Hg, load_bind_ok. by rewrite json_eq_refl. Qed.

Lemma call_ok {A B} (r : result A) a (k : A -> load B) : r = Ok a -> (x ← call r; k x) = k a.
Proof. by intros ->. Qed.

(** Reads of the fields of a record. *)
Ltac read_fields :=
  cbn [PyJson.get field String.eqb Ascii.eqb Bool.eqb as_int as_bool as_text];
  repeat (rewrite load_bind_ok; cbn [as_int as_bool as_text]).

(** The checker accepts what the generator recorded: for any bytes and settings
    that a vector was made of, a decoder like the library's consumes the same number
    of bytes, has the same JSON, and encodes the packet to the same text, where one
    was recorded. *)
Theorem decode_vector_accepted id wire o v :
  bytes_ok wire -> decode_vector id wire o = Ok v -> check_decode v = Loaded None.
Proof.
  intros Hw Hv. unfold decode_vector in Hv.
  apply result_bind_Ok in Hv as ([p consumed] & Hd & Hv).
  apply result_bind_Ok in Hv as (pj & Hj & Hv).
  apply result_bind_Ok in Hv as (re & Hr & Hv). injection Hv as <-.
  unfold check_decode.
  read_fields. rewrite bytes_fromhex_hex by done. read_fields.
  rewrite (call_ok _ _ _ Hd), expect_ok by done.
  rewrite (call_ok _ _ _ Hj), expect_ok by (done || by apply (packet_json_plain p)).
  cbn [get_default default field String.eqb Ascii.eqb Bool.eqb].
  unfold reencode in Hr. destruct (_ || _ : bool) in Hr; [by injection Hr as <-|].
  destruct (encode_decoded p) as [out|e] eqn:He.
  - injection Hr as <-. by rewrite expect_ok.
  - destruct (_ || _ : bool) in Hr; [by injection Hr as <-|done].
Qed.

Theorem checksum_vector_accepted id data :
  bytes_ok data -> check_checksum (checksum_vector id data) = Loaded None.
Proof.
  intros Hd. unfold check_checksum, checksum_vector. read_fields.
  rewrite bytes_fromhex_hex by done. read_fields. by rewrite expect_ok.
Qed.

Theorem duration_vector_accepted id d : check_ramp (duration_vector id d) = Loaded None.
Proof. unfold check_ramp, duration_vector. read_fields. cbn [is_str String.eqb]. read_fields. by rewrite expect_ok. Qed.

Theorem rate_vector_accepted id code v : rate_vector id code = Ok v -> check_ramp v = Loaded None.
Proof.
  intros (d & Hd & [= <-])%result_bind_Ok. unfold check_ramp. read_fields.
  rewrite (call_ok _ _ _ Hd). by rewrite expect_ok.
Qed.

Theorem format_vector_accepted id ga a : check_topic (format_vector id ga a) = Loaded None.
Proof.
  unfold check_topic, format_vector. cbn [app map]. read_fields.
  cbn [is_str]. rewrite String.eqb_refl. read_fields.
  unfold topic_checks. cbn [map expect_all]. by rewrite !expect_ok.
Qed.

(** Any text, also one that is not a topic. *)
Theorem parse_vector_accepted id topic v : parse_vector id topic = Ok v -> check_topic v = Loaded None.
Proof.
  unfold parse_vector. destruct (get_topic_group_address topic) as [[g a]|e] eqn:Et.
  - intros [= <-]. unfold check_topic. cbn [app]. read_fields.
    cbn [is_str String.eqb Ascii.eqb Bool.eqb]. read_fields.
    rewrite Et. unfold get_default. cbn [field String.eqb Ascii.eqb Bool.eqb default truthy].
    read_fields. rewrite json_eq_refl by done. by rewrite expect_ok.
  - destruct (is_parse_error e) eqn:He; [|done]. intros [= <-]. unfold check_topic. cbn [app].
    read_fields. cbn [is_str String.eqb Ascii.eqb Bool.eqb]. read_fields. by rewrite Et, He.
Qed.

(** *** Discovery *)

Lemma labels_json_roundtrip ls : labels_ok ls -> labels_from_json (labels_json ls) = Loaded ls.
Proof.
  unfold labels_json, labels_from_json. induction 1 as [|[k [name groups]] ls [Hk Hg] _ IH]; [done|].
  cbn [map mapM_load]. rewrite int_text_str_int by done. cbn [call]. rewrite load_bind_ok.
  cbn [as_list as_text]. rewrite !load_bind_ok.
  assert (mapM_load (fun '(g, n) => g ← call (int_text g); n ← as_text n; Loaded (g, n))
    (map (fun '(g, n) => (str_int g, JString n)) groups) = Loaded groups) as ->.
  { induction Hg as [|[g n] groups Hg _ IHg]; [done|]. cbn [map mapM_load].
    rewrite int_text_str_int by done. cbn [call as_text]. rewrite !load_bind_ok.
    by rewrite IHg, load_bind_ok. }
  cbn [as_text]. rewrite !load_bind_ok. by rewrite IH.
Qed.

Lemma recorded_light g a ls : recorded (publish_light g a ls) = Ok (light_calls g a ls).
Proof.
  unfold recorded. destruct (publish_light_run g a ls
    {| _client := true; groupDB := ∅; calls := [] |} eq_refl) as (db & -> & _). done.
Qed.

Lemma subscribed_light g a ls : subscribed_topics (light_calls g a ls) = [(set_topic g a, 2)].
Proof. done. Qed.

(** The configurations among what is published for a light. *)
Lemma find_light g a ls :
  address_ok g -> address_ok a ->
  let pubs := published_json (light_calls g a ls) in
  find_published (conf_topic g a) pubs = Ok (light_conf (light_name ls g a) g a, 1, true) /\
  find_published (bin_sensor_conf_topic g a) pubs = Ok (sensor_conf (light_name ls g a) g a, 1, true).
Proof.
  intros Hg Ha pubs.
  assert (conf_topic g a <> bin_sensor_conf_topic g a) as Hne.
  { intros E. by apply (topic_inj g a g a ConfTopic SensorConfTopic) in E as [? _]. }
  unfold find_published, pubs, light_calls. cbn [published_json omap list_omap].
  rewrite !String.eqb_refl, (proj2 (String.eqb_neq _ _) Hne).
  by rewrite (proj2 (String.eqb_neq (bin_sensor_conf_topic g a) _)) by congruence.
Qed.

Theorem ha_vector_accepted id g a ls v :
  address_ok g -> address_ok a -> labels_ok (default [] ls) ->
  ha_vector id g a ls = Ok v -> check_ha v = Loaded None.
Proof.
  intros Hg Ha Hls. unfold ha_vector. rewrite recorded_light, bind_Ok.
  destruct (find_light g a ls Hg Ha) as [E1 E2]. rewrite E1, E2.
  rewrite subscribed_light. cbn [head or_raise]. rewrite !bind_Ok. intros [= <-].
  unfold check_ha, get_default. cbn [field String.eqb Ascii.eqb Bool.eqb default truthy fst snd].
  read_fields.
  assert (forall w, w = match ls with Some ((_ :: _) as l) => labels_json l | _ => JNull end ->
    (if truthy w then Some <$> labels_from_json w else Loaded None) =
      Loaded (match ls with Some (_ :: _) => ls | _ => None end)) as Hw.
  { intros w ->. destruct ls as [[|x l]|]; [done| |done]. cbn [default] in Hls.
    replace (truthy _) with true by by destruct x as [? [? ?]].
    by rewrite labels_json_roundtrip. }
  rewrite Hw by done. read_fields.
  set (ls' := match ls with Some (_ :: _) => ls | _ => None end).
  assert (light_name ls' g a = light_name ls g a) as Hn by by (destruct ls as [[|]|]).
  rewrite recorded_light. destruct (find_light g a ls' Hg Ha) as [F1 F2]. rewrite Hn in F1, F2.
  cbn [call]. rewrite load_bind_ok, subscribed_light. cbn [call head or_raise fst snd]. read_fields.
  unfold expect_config. rewrite !expect_ok by done. read_fields. rewrite F1, !expect_ok by done.
  read_fields. by rewrite F2, !expect_ok.
Qed.
