(* ===== verification/Suites.v ===== *)
(** * The suites of test vectors: [generate_vectors.py]

    The functions [gen_*] of [src/rust-migration-harness], which make the packets of
    every suite with the library's constructors and record their vectors, over the
    records of [Vectors] and [PyJson]. *)

From Stdlib Require Import String Ascii QArith.
From stdpp Require Import strings gmap options.
From S2P Require Import Prelude Common Hex Report Cal Lighting Enable StatusRequest Temperature.
From S2P Require Import Clock Application Packet Decode Text Topics Buffered Pci Gateway Home PyJson Vectors.

Local Open Scope string_scope.
Local Open Scope list_scope.
Local Open Scope Z_scope.

(** ** The generator *)

(** [_counters] and [vecs] *)
Record suite := { counters : gmap string Z; vecs : list json }.

Definition gen (A : Type) : Type := suite -> result (suite * A).

#[export] Instance gen_ret : MRet gen := fun A a s => Ok (s, a).
#[export] Instance gen_bind : MBind gen :=
  fun A B f m s => '(s, a) ← m s; f a s.

Definition lift {A} (r : result A) : gen A := fun s => a ← r; Ok (s, a).

Fixpoint each {A} (f : A -> gen unit) (l : list A) : gen unit :=
  match l with [] => mret tt | x :: l => _ ← f x; each f l end.

(** [f'{n:04d}'] and the like, of a number that is not negative *)
Definition padded (k : nat) (n : Z) : string :=
  let s := str_int n in zeros (k - String.length s) +:+ s.

(** [f'{n:02x}'] of a byte *)
Definition x02 (n : Z) : string := bytes_hex [n].

(** [chr(n)] below 256 *)
Definition chr (n : Z) : string := text_of [n].

(** [_vid] *)
Definition _vid (prefix slug : string) : gen string := fun s =>
  let n := default 0 (counters s !! prefix) + 1 in
  Ok ({| counters := <[prefix := n]> (counters s); vecs := vecs s |},
      prefix +:+ "-" +:+ padded 4 n +:+ "-" +:+ slug).

(** [vecs.append(v)] *)
Definition append (v : json) : gen unit := fun s =>
  Ok ({| counters := counters s; vecs := vecs s ++ [v] |}, tt).

Definition from_pci_settings : settings :=
  {| with_checksum := true; with_strict := true; with_from_pci := true; with_note := "";
     with_reencodable := true |}.

Definition noted (note : string) (o : settings) : settings :=
  {| with_checksum := with_checksum o; with_strict := with_strict o;
     with_from_pci := with_from_pci o; with_note := note; with_reencodable := with_reencodable o |}.

Definition not_reencodable (o : settings) : settings :=
  {| with_checksum := with_checksum o; with_strict := with_strict o;
     with_from_pci := with_from_pci o; with_note := with_note o; with_reencodable := false |}.

Definition no_checksum (o : settings) : settings :=
  {| with_checksum := false; with_strict := with_strict o; with_from_pci := with_from_pci o;
     with_note := with_note o; with_reencodable := with_reencodable o |}.

Definition lenient (o : settings) : settings :=
  {| with_checksum := with_checksum o; with_strict := false; with_from_pci := with_from_pci o;
     with_note := with_note o; with_reencodable := with_reencodable o |}.

Definition to_pci_settings : settings :=
  {| with_checksum := true; with_strict := true; with_from_pci := false; with_note := "";
     with_reencodable := true |}.

(** [make_decode_vector]: the identifier is drawn when the rest has not raised; it
    is the first field of the record. *)
Definition make_decode_vector (prefix slug : string) (wire : bytes) (o : settings) : gen json :=
  _ ← lift (decode_vector "" wire o);
  id ← _vid prefix slug;
  lift (decode_vector id wire o).

(** [vecs.append(make_decode_vector(...))] *)
Definition decode_case (prefix slug : string) (wire : bytes) (o : settings) : gen unit :=
  v ← make_decode_vector prefix slug wire o; append v.

(** ** Packets and lines *)

Definition pm (cs : bool) (sals : list SAL) : result packet := pm_new cs PriorityClass.CLASS_4 None sals.
Definition pp (unit_address : Z) (cals : list AnyCAL) : result packet :=
  pp_new true PriorityClass.CLASS_4 unit_address 0 None cals.

Definition light (s : LightingSAL) : result SAL := SLighting <$> lighting_init s.

(** [p.source_address = source] *)
Definition with_source (source : Z) (p : packet) : packet :=
  map_header (fun h => set_routing (confirmation h) (Some source) h) p.

Definition server_wire (p : packet) (source : Z) : result bytes :=
  b ← encode_packet (with_source source p); Ok (b ++ END_RESPONSE).

Definition client_wire (p : packet) (confirmation : option bytes) (basic : bool) : result bytes :=
  body ← encode_packet p;
  let body := if is_special_client p || basic then body else 92 :: body in
  Ok (body ++ default [] confirmation ++ END_COMMAND).

(** [add_cbus_checksum(body).hex().upper().encode() + END_RESPONSE] *)
Definition raw_wire (body : bytes) : bytes := b16encode (add_cbus_checksum body) ++ END_RESPONSE.

(** A text of ASCII as bytes. *)
Definition ascii_bytes_of (s : string) : bytes := txt s.

(** [l[i % len(l)]] *)
Definition cycle (l : list Z) (i : nat) : Z := nth (i mod length l) l 0.

Definition product {A B} (l : list A) (m : list B) : list (A * B) :=
  flat_map (fun x => map (pair x) m) l.

Definition enumerate {A} (l : list A) : list (nat * A) := combine (seq 0 (length l)) l.

(** ** [gen_decode_from_pci], section by section *)

(** The counters of sources, applications and levels in the loops are the positions. *)
Definition sources : list Z := [1; 5; 99; 200; 255].

Definition fp (slug : string) (wire : bytes) : gen unit := decode_case "fp" slug wire from_pci_settings.
Definition fp_note (slug note : string) (wire : bytes) : gen unit :=
  decode_case "fp" slug wire (noted note from_pci_settings).
Definition fp_once (slug note : string) (wire : bytes) : gen unit :=
  decode_case "fp" slug wire (not_reencodable (noted note from_pci_settings)).

(** A packet of the interface and its source. *)
Definition fp_packet (slug : string) (p : result packet) (source : Z) : gen unit :=
  p ← lift p; w ← lift (server_wire p source); fp slug w.

Definition fp_sals (slug : string) (sals : list (result SAL)) (source : Z) : gen unit :=
  fp_packet slug (sals ← mapM_result id sals; pm true sals) source.

Definition from_pci_specials : gen unit :=
  _ ← fp "power-on" [43];
  _ ← fp_note "power-on-double" "consumes only 1 byte" [43; 43];
  _ ← fp "pci-error" [33];
  _ ← each (fun code =>
        _ ← fp ("confirm-" +:+ chr code +:+ "-ok") [code; 46];
        fp ("confirm-" +:+ chr code +:+ "-fail") [code; 35]) CONFIRMATION_CODES;
  _ ← fp "empty-needs-more" [];
  _ ← fp "incomplete-no-crlf" (txt "0538");
  fp "empty-line" [13; 10].

Definition light_ctors : list (string * (Z -> Z -> LightingSAL)) :=
  [("on", LightingOnSAL); ("off", LightingOffSAL); ("term", LightingTerminateRampSAL)].

Definition from_pci_lights : gen unit :=
  each (fun '(i, (app, (ga, (name, ctor)))) =>
    fp_sals ("pm-light-" +:+ name +:+ "-app" +:+ x02 app +:+ "-ga" +:+ str_int ga)
      [light (ctor ga app)] (cycle sources i))
    (enumerate (product [0x30; 0x38; 0x45; 0x5F]
      (product [0; 1; 2; 63; 64; 127; 128; 200; 254; 255] light_ctors))).

(** [sorted(_LIGHT_RAMP_RATES.items())] *)
Definition ramp_rates : list (Z * Z) :=
  map (fun '(c, d) => (value c, d)) (py_sorted (fun '(c, _) => value c) _LIGHT_RAMP_RATES).

Definition from_pci_ramps : gen unit :=
  each (fun '(i, ((code, duration), level)) =>
    fp_sals ("pm-ramp-" +:+ x02 code +:+ "-lvl" +:+ str_int level)
      [light (LightingRampSAL (cycle [1; 100; 255] i) (cycle [0x38; 0x30] i) duration level)]
      (cycle sources i))
    (enumerate (product ramp_rates [0; 1; 127; 128; 254; 255])).

Definition from_pci_several : gen unit :=
  _ ← each (fun count =>
        fp_sals ("pm-multi-" +:+ str_int count +:+ "sal")
          (map (fun k => light ((if k mod 2 =? 0 then LightingOnSAL else LightingOffSAL) (k + 1) 0x38))
             (seqZ 0 count)) 10) [2; 3; 5; 9];
  _ ← fp_sals "pm-multi-mixed"
        [light (LightingOnSAL 1 0x38); light (LightingRampSAL 2 0x38 12 128);
         light (LightingOffSAL 3 0x38)] 11;
  each (fun ga =>
    s ← lift (light (LightingOnSAL ga 0x38)); p ← lift (pm false [s]); w ← lift (server_wire p 3);
    decode_case "fp" ("pm-nochecksum-ga" +:+ str_int ga) w (no_checksum from_pci_settings))
    [1; 100; 255].

(** [ClockUpdateSAL(time(h, m, s))] and [ClockUpdateSAL(date(y, mo, d))] *)
Definition time_sal (h m s : Z) : result SAL :=
  t ← time_call h m s; Ok (SClock (ClockUpdateSAL (VTime t))).
Definition date_sal (y m d : Z) : result SAL :=
  d ← date_call y m d; Ok (SClock (ClockUpdateSAL (VDate d))).

(** [clock_update_sal(datetime(...))] *)
Definition datetime_sals (y m d h mi s : Z) : result (list SAL) :=
  d ← date_call y m d; t ← time_call h mi s;
  sals ← clock_update_sal (ADatetime d t); Ok (map SClock sals).

Definition from_pci_clock : gen unit :=
  _ ← each (fun '(h, m, s) =>
        fp_sals ("pm-clock-time-" +:+ padded 2 h +:+ padded 2 m +:+ padded 2 s) [time_sal h m s] 1)
        [(0, 0, 0); (12, 30, 45); (23, 59, 59); (6, 7, 8)];
  _ ← each (fun '(y, mo, d) =>
        fp_sals ("pm-clock-date-" +:+ str_int y +:+ padded 2 mo +:+ padded 2 d) [date_sal y mo d] 1)
        [(2000, 1, 1); (2026, 7, 20); (2099, 12, 31); (2024, 2, 29)];
  _ ← fp_packet "pm-clock-datetime" (sals ← datetime_sals 2026 7 20 10 20 30; pm true sals) 1;
  _ ← fp_sals "pm-clock-request" [Ok (SClock ClockRequestSAL)] 20;
  fp_once "pm-clock-time-dst0" "dst byte 0x00 on wire; python re-encodes dst as 0xFF"
    (raw_wire [0x05; 0x01; 0xDF; 0x00; 0x0D; 0x01; 0x0A; 0x14; 0x1E; 0x00]).

Definition from_pci_other_sals : gen unit :=
  _ ← each (fun '(ga, tb) =>
        fp_sals ("pm-temp-ga" +:+ str_int ga +:+ "-x" +:+ str_int tb)
          [Ok (STemperature (TemperatureBroadcastSAL ga (Qmake tb 4)))] 30)
        (product [0; 1; 100; 255] [0; 1; 2; 100; 254; 255]);
  _ ← each (fun '(var, val) =>
        fp_sals ("pm-enable-" +:+ str_int var +:+ "-" +:+ str_int val)
          [Ok (SEnable (EnableSetNetworkVariableSAL var val))] 31)
        (product [0; 1; 127; 255] [0; 66; 255]);
  each (fun '(level, (app, block)) =>
    fp_sals ("pm-statusreq-" +:+ (if level : bool then "lvl" else "bin") +:+ "-app" +:+ x02 app +:+
             "-b" +:+ str_int block)
      [Ok (SStatusRequest {| sr_level_request := level; sr_group_address := block;
                             sr_child_application := app |})] 40)
    (product [false; true] (product [0x38; 0x30; 0xFF] [0; 32; 224])).

Definition from_pci_raw_sals : gen unit :=
  _ ← fp_once "pm-statusreq-fa-form" "0xFA deprecated form; re-encode canonicalises to 0x7A"
        (raw_wire [0x05; 0x28; 0xFF; 0x00; 0xFA; 0x38; 0x20]);
  _ ← fp_note "pm-statusreq-bad-block" "group_address & 0x1f != 0 raises -> invalid"
        (raw_wire [0x05; 0x28; 0xFF; 0x00; 0x7A; 0x38; 0x21]);
  _ ← fp_note "pm-unregistered-app-ca" "application 0xCA (trigger/hvac) has no handler -> invalid"
        (raw_wire [0x05; 0x09; 0xCA; 0x00; 0x02; 0x25; 0x64]);
  fp_note "pm-nonzero-routing" "data[1] != 0x00 raises 'Routing data in PM message?'"
    (raw_wire [0x05; 0x09; 0x38; 0x01; 0x79; 0x01]).

Definition fp_cals (slug : string) (u : Z) (cals : list AnyCAL) (source : Z) : gen unit :=
  fp_packet slug (pp u cals) source.

(** [for attr in range(0x00, 0x12)], left after the first turn but for unit 16 *)
Definition identify_cases : list (Z * Z) :=
  flat_map (fun u => map (pair u) (if u =? 16 then seqZ 0 0x12 else [0])) [0; 1; 16; 254].

Definition from_pci_units : gen unit :=
  _ ← each (fun '(u, attr) =>
        fp_cals ("pp-identify-u" +:+ str_int u +:+ "-a" +:+ x02 attr) u [IdentifyCAL attr] 1)
        identify_cases;
  _ ← each (fun '(param, count) =>
        fp_cals ("pp-recall-" +:+ x02 param +:+ "-" +:+ str_int count) 16 [RecallCAL param count] 1)
        [(0x10, 4); (0x3E, 1); (0xFA, 44); (0xFB, 9); (0x20, 12); (0x2C, 12); (0x23, 6); (0x2A, 6)];
  _ ← each (fun dlen =>
        fp_cals ("pp-reply-len" +:+ str_int dlen) 0x10
          [ReplyCAL 0x01 (map (fun i => Z.land (0x40 + i) 0xff) (seqZ 0 dlen))] 1)
        [0; 1; 4; 8; 9; 12; 20; 30];
  fp_cals "pp-multi-cal" 5 [IdentifyCAL 0x01; IdentifyCAL 0x02] 1.

Definition golden_reports : list (string * string) :=
  [("exstat-s91-block0", "86999900F9003800A8AA0200000000000000000000000000000000000000C3");
   ("exstat-s91-block88", "86999900F900385800000000000000000000000000000000000000000000BF");
   ("exstat-s91-block176", "86999900F70038B0000000000000000000000000000000000000000069");
   ("exstat-level-block0", "86FFFF00F90738000000AAAAAAAAAAAAAAAAAAAAAAAAAAAAAAAA00000000A4");
   ("exstat-level-block11", "86FFFF00F907380B0000000000000000000000000000000000000000000039");
   ("exstat-level-block22", "86FFFF00F7073816000000000000000000000000000000000000000030");
   ("exstat-level-real", "86141000F9403800AAAAAAA66A5666AA65A60A00000000000000000000005C")].

Definition from_pci_golden : gen unit :=
  each (fun '(slug, wire) =>
    fp_note slug "golden literal from pytest suite" (txt wire ++ END_RESPONSE)) golden_reports.

Definition missing_levels : list (option Z) :=
  [None; Some 0; Some 255; None; Some 128; Some 1; None; Some 254].

Definition from_pci_reports : gen unit :=
  let report slug ext start r := fp_cals slug 0x10 [ExtendedCAL ext 0x38 start r] 0x14 in
  _ ← each (fun start =>
        report ("pp-exstat-levels-" +:+ str_int start) false start
          (LevelStatusReport (map (fun k => Some (Z.land (start + k) 0xff)) (seqZ 0 8))))
        (map (Z.mul 32) (seqZ 0 8));
  _ ← report "pp-exstat-levels-missing" false 0 (LevelStatusReport missing_levels);
  _ ← report "pp-exstat-extinit" true 32 (LevelStatusReport [Some 1; Some 2; Some 3; Some 4]);
  let four := [GroupState.MISSING; GroupState.ON; GroupState.OFF; GroupState.ERROR] in
  _ ← report "pp-exstat-binary-all-states" false 64 (BinaryStatusReport (four ++ four ++ four ++ four));
  let payload := [0x07; 0x38; 0x00; 0x1f; 0x00; 0xaa; 0xaa] in
  fp_once "pp-exstat-manchester-invalid" "invalid manchester nibbles decode to null level"
    (raw_wire ([0x86; 0x14; 0x10; 0x00] ++ [Z.lor 0xE0 (len payload)] ++ payload)).

Definition from_pci_bridged : gen unit :=
  each (fun '(blen_code, nhops) =>
    fp_once ("pp-bridged-" +:+ str_int nhops +:+ "hops")
      "bridged PP decode; encode is NotImplemented in python"
      (raw_wire ([0x06; 0x22; 0xAA; blen_code] ++ seqZ 0x50 nhops ++ [0x33; 0x21; 0x02])))
    [(0x09, 0); (0x12, 1); (0x1B, 2); (0x24, 3); (0x2D, 4); (0x36, 5)].

Definition from_pci_direct : gen unit :=
  _ ← each (fun '(slug, wire) =>
        fp_once slug
          "direct CAL reply (flags byte is CAL header); source_address=None unit_address=0"
          (txt wire ++ END_RESPONSE))
        [("direct-reply-type-name", "890150435F434E49454421"); ("direct-reply-dm", "8220104E");
         ("direct-reply-gav", "872AB64CF6BB1A9EE4")];
  each (fun dlen =>
    body ← lift (cal_encode (ReplyCAL 0x01 (map (fun i => Z.land (i * 7) 0xff) (seqZ 0 dlen))));
    b0 ← lift (item body 0);
    if existsb (Z.eqb (Z.land b0 0x07)) [3; 5; 6] then mret tt
    else fp_once ("direct-reply-len" +:+ str_int dlen) "" (raw_wire body))
    [0; 1; 6; 8; 9; 14; 16; 22; 24; 30].

(** [bad[-4:-2] = b'00' if bad[-4:-2] != b'00' else b'01'] *)
Definition corrupted (wire : bytes) : bytes :=
  let n := length wire in
  let pair := take 2 (drop (n - 4) wire) in
  take (n - 4) wire ++ (if bool_decide (pair = [48; 48]) then [48; 49] else [48; 48]) ++
  drop (n - 2) wire.

Definition from_pci_broken : gen unit :=
  s ← lift (light (LightingOnSAL 1 0x38)); p ← lift (pm true [s]); w ← lift (server_wire p 9);
  let bad := corrupted w in
  _ ← fp_note "bad-checksum-strict" "strict: invalid packet" bad;
  _ ← decode_case "fp" "bad-checksum-lenient" bad
        (not_reencodable (lenient (noted "non-strict: warn and decode anyway (checksum stripped)"
                                     from_pci_settings)));
  _ ← fp_note "non-hex-input" "invalid: non-base16" (txt "05zz0079" ++ [13; 10]);
  fp_note "lowercase-hex-input" "lowercase hex is NOT accepted" (txt "05380079ab" ++ [13; 10]).

Definition in_order (l : list (gen unit)) : gen unit := each id l.

Definition gen_decode_from_pci : gen unit :=
  in_order [from_pci_specials; from_pci_lights; from_pci_ramps; from_pci_several; from_pci_clock;
            from_pci_other_sals; from_pci_raw_sals; from_pci_units; from_pci_golden; from_pci_reports;
            from_pci_bridged; from_pci_direct; from_pci_broken].

(** ** [gen_decode_to_pci] *)

Definition tp (slug : string) (wire : bytes) : gen unit := decode_case "tp" slug wire to_pci_settings.
Definition tp_plain (slug : string) (wire : bytes) : gen unit :=
  decode_case "tp" slug wire (no_checksum to_pci_settings).
Definition tp_plain_note (slug note : string) (wire : bytes) : gen unit :=
  decode_case "tp" slug wire (no_checksum (noted note to_pci_settings)).

Definition tp_packet (slug : string) (p : result packet) (conf : option bytes) : gen unit :=
  p ← lift p; w ← lift (client_wire p conf false); tp slug w.

Definition tp_sals (slug : string) (sals : list (result SAL)) (conf : option bytes) : gen unit :=
  tp_packet slug (sals ← mapM_result id sals; pm true sals) conf.

(** [f'A3{param:02X}00{value:02X}'.encode()] *)
Definition dm_text (param value : Z) : bytes := b16encode [0xA3; param; 0; value].

Definition to_pci_specials : gen unit :=
  _ ← tp_plain "reset" [126]; _ ← tp_plain "smart-connect" [124; 13];
  _ ← tp_plain "smart-connect-double" [124; 124; 13];
  _ ← tp_plain_note "toolkit-null" "toolkit bug workaround: consume 4 bytes, no packet" (txt "null");
  _ ← tp_plain_note "cancel-question-mark" "data before ? is discarded (s4.2.4)" (txt "0538?" ++ [13]);
  _ ← tp_plain "empty-command" [13];
  _ ← each (fun '(param, value) =>
        decode_case "tp" ("dm-basic-at-" +:+ x02 param +:+ "-" +:+ x02 value)
          (64 :: dm_text param value ++ [13])
          (noted "@ prefix forces checksum off for this command" to_pci_settings))
        [(0x21, 0xFF); (0x22, 0xFF); (0x42, 0x0E); (0x30, 0x79); (0x30, 0x59); (0x3E, 0x00); (0x41, 0x30)];
  each (fun '((param, value), conf) =>
    tp_plain ("dm-init-" +:+ x02 param +:+ "-" +:+ chr conf) (dm_text param value ++ [conf; 13]))
    [((0x21, 0xFF), 104); ((0x22, 0xFF), 105); ((0x42, 0x0E), 106); ((0x30, 0x79), 107)].

Definition to_pci_lights : gen unit :=
  _ ← each (fun '(i, (app, ga)) =>
        let conf := Some [cycle CONFIRMATION_CODES i] in
        let at_light := "app" +:+ x02 app +:+ "-ga" +:+ str_int ga in
        _ ← tp_sals ("light-on-" +:+ at_light) [light (LightingOnSAL ga app)] conf;
        tp_sals ("light-off-" +:+ at_light) [light (LightingOffSAL ga app)] conf)
        (enumerate (product [0x38; 0x30; 0x5F] [0; 1; 10; 100; 255]));
  _ ← each (fun '(code, duration) =>
        tp_sals ("light-ramp-" +:+ x02 code) [light (LightingRampSAL 44 0x38 duration 200)] (Some [103]))
        ramp_rates;
  _ ← tp_sals "light-terminate" [light (LightingTerminateRampSAL 7 0x38)] (Some [122]);
  tp_sals "light-on-multi5" (map (fun g => light (LightingOnSAL g 0x38)) [1; 2; 3; 4; 5]) (Some [109]).

Definition to_pci_requests : gen unit :=
  _ ← each (fun '(app, block) =>
        tp_sals ("statusreq-app" +:+ x02 app +:+ "-b" +:+ str_int block)
          [Ok (SStatusRequest {| sr_level_request := true; sr_group_address := block;
                                 sr_child_application := app |})] (Some [104]))
        (product [0x30; 0x38; 0x5F] (map (Z.mul 32) (seqZ 0 8)));
  _ ← each (fun attr => tp_packet ("pp-identify-" +:+ x02 attr) (pp 0x10 [IdentifyCAL attr]) (Some [105]))
        [0x01; 0x02; 0x04];
  _ ← tp_packet "pp-recall-fa" (pp 0x10 [RecallCAL 0xFA 44]) (Some [106]);
  _ ← tp_plain_note "pp-identify-interrogator-style"
        "UnitInterrogator sends flags 0x46 and no checksum" (92 :: txt "4610002101h" ++ [13]);
  _ ← tp_packet "clock-datetime" (sals ← datetime_sals 2026 7 20 9 8 7; pm true sals) (Some [107]);
  _ ← tp_sals "light-on-noconf" [light (LightingOnSAL 1 0x38)] None;
  s ← lift (light (LightingOnSAL 1 0x38)); p ← lift (pm true [s]); w ← lift (client_wire p (Some [97]) false);
  _ ← decode_case "tp" "bad-conf-code-strict" w
        (noted "confirmation char outside g..z: invalid in strict mode" to_pci_settings);
  decode_case "tp" "bad-conf-code-lenient" w
    (lenient (noted "non-strict: warn, decode anyway, confirmation=a" to_pci_settings)).

Definition gen_decode_to_pci : gen unit := in_order [to_pci_specials; to_pci_lights; to_pci_requests].

(** ** [gen_encode] *)

Definition emitted (slug : string) (obj : result built) (pjson : built -> result json)
    (packet_level : bool) : gen unit :=
  obj ← lift obj; pj ← lift (pjson obj);
  _ ← lift (emit "" obj pj packet_level);
  id ← _vid "en" slug; v ← lift (emit id obj pj packet_level); append v.

(** [packet_to_json(p)] *)
Definition built_json (b : built) : result json :=
  match b with BPacket p => packet_to_json (Some (DPacket p)) | _ => Raise TypeError end.

Definition en_packet (slug : string) (p : result packet) : gen unit :=
  emitted slug (BPacket <$> p) built_json true.

Definition en_given (slug : string) (p : result packet) (fields : list (string * json)) : gen unit :=
  emitted slug (BPacket <$> p) (fun _ => Ok (JObject fields)) true.

Definition en_sals (slug : string) (sals : list (result SAL)) : gen unit :=
  en_packet slug (sals ← mapM_result id sals; pm true sals).

(** The vectors of messages and reports alone. *)
Definition json_fields (j : json) : list (string * json) := match j with JObject l => l | _ => [] end.

Definition en_sal (slug : string) (s : result SAL) : gen unit :=
  emitted slug (BSal <$> s)
    (fun b => match b with
              | BSal s => Ok (JObject (("type", JString "sal") :: json_fields (sal_to_json s)))
              | _ => Raise TypeError
              end) false.

Definition en_cal (slug : string) (c : AnyCAL) : gen unit :=
  emitted slug (Ok (BCal c)) (fun _ => Ok (JObject (("type", JString "cal") :: cal_fields c))) false.

(** A record with a note at its end. *)
Definition with_last_note (note : string) (g : gen unit) : gen unit := fun s =>
  '(s, u) ← g s;
  Ok ({| counters := counters s;
         vecs := match last (vecs s) with
                 | Some v => removelast (vecs s) ++ [JObject (json_fields v ++ [("note", JString note)])]
                 | None => vecs s
                 end |}, u).

Definition en_levels (slug : string) (levels : list (option Z)) : gen unit :=
  emitted slug (Ok (BReport (LevelStatusReport levels)))
    (fun _ => Ok (JObject [("type", JString "level_report"); ("levels", JArray (map level_json levels))]))
    false.

Definition en_states (slug : string) (states : list GroupState.t) : gen unit :=
  emitted slug (Ok (BReport (BinaryStatusReport states)))
    (fun _ => Ok (JObject [("type", JString "binary_report");
                           ("group_states", JArray (map (fun g => JInt (value g)) states))])) false.

Definition encode_specials : gen unit :=
  _ ← en_given "reset" (Ok ResetPacket) [("type", JString "reset")];
  _ ← en_given "smart-connect" (Ok SmartConnectShortcutPacket) [("type", JString "smart_connect")];
  _ ← each (fun success : bool =>
        en_given ("confirm-" +:+ (if success then "True" else "False")) (confirmation_new [104] success)
          [("type", JString "confirmation"); ("code", JString "h"); ("success", JBool success)])
        [true; false];
  each (fun '(cs, (param, v)) =>
    en_packet ("dm-" +:+ x02 param +:+ "-" +:+ x02 v +:+ "-cs" +:+ str_int (Z.b2z cs))
      (Ok (dm_new cs PriorityClass.CLASS_2 param v)))
    (product [false; true]
       [(0x21, 0xFF); (0x22, 0xFF); (0x42, 0x0E); (0x30, 0x79); (0x00, 0x00); (0xFF, 0xFF)]).

Definition encode_lights : gen unit :=
  _ ← each (fun '(app, ga) =>
        _ ← en_sals ("pm-on-" +:+ x02 app +:+ "-" +:+ str_int ga) [light (LightingOnSAL ga app)];
        en_sals ("pm-off-" +:+ x02 app +:+ "-" +:+ str_int ga) [light (LightingOffSAL ga app)])
        (product [0x30; 0x38; 0x4A; 0x5F] [0; 1; 100; 255]);
  _ ← each (fun '((code, duration), level) =>
        en_sals ("pm-ramp-" +:+ x02 code +:+ "-" +:+ str_int level)
          [light (LightingRampSAL 5 0x38 duration level)])
        (product ramp_rates [0; 128; 255]);
  each (fun dur => en_sals ("pm-ramp-snap-" +:+ str_int dur) [light (LightingRampSAL 5 0x38 dur 128)])
    [1; 2; 3; 5; 7; 10; 15; 25; 35; 50; 75; 100; 150; 250; 350; 500; 700; 1000; 1019; 1021; 5000; 100000].

(** [d.isoformat()] of a year of four digits *)
Definition isoformat (y m d : Z) : string := padded 4 y +:+ "-" +:+ padded 2 m +:+ "-" +:+ padded 2 d.

Definition encode_clock : gen unit :=
  _ ← each (fun '(h, m, s) =>
        en_sals ("pm-clock-t" +:+ padded 2 h +:+ padded 2 m +:+ padded 2 s) [time_sal h m s])
        [(0, 0, 0); (23, 59, 59); (11, 22, 33)];
  _ ← each (fun '(y, m, d) => en_sals ("pm-clock-d" +:+ isoformat y m d) [date_sal y m d])
        [(2026, 7, 20); (2026, 7, 21); (2026, 7, 22); (2026, 7, 23); (2026, 7, 24); (2026, 7, 25);
         (2026, 7, 26); (2000, 1, 1); (2099, 12, 31); (2024, 2, 29)];
  _ ← en_packet "pm-clock-datetime" (sals ← datetime_sals 2026 7 20 10 20 30; pm true sals);
  en_sals "pm-clock-request" [Ok (SClock ClockRequestSAL)].

Definition status_sal (level : bool) (block app : Z) : SAL :=
  SStatusRequest {| sr_level_request := level; sr_group_address := block; sr_child_application := app |}.

Definition encode_other_sals : gen unit :=
  _ ← each (fun tb => en_sals ("pm-temp-" +:+ str_int tb)
                        [Ok (STemperature (TemperatureBroadcastSAL 20 (Qmake tb 4)))])
        (map (Z.mul 5) (seqZ 0 52));
  _ ← each (fun '(var, val) => en_sals ("pm-enable-" +:+ str_int var +:+ "-" +:+ str_int val)
                                 [Ok (SEnable (EnableSetNetworkVariableSAL var val))])
        [(0, 0); (255, 255); (33, 66)];
  each (fun '(level, (app, block)) =>
    en_sals ("pm-sr-" +:+ str_int (Z.b2z level) +:+ "-" +:+ x02 app +:+ "-" +:+ str_int block)
      [Ok (status_sal level block app)])
    (product [false; true] (product [0x30; 0x38; 0xFF] (map (Z.mul 32) (seqZ 0 8)))).

Definition encode_units : gen unit :=
  _ ← each (fun u => en_packet ("pp-identify-u" +:+ str_int u) (pp u [IdentifyCAL 0x01])) [0; 1; 16; 255];
  _ ← en_packet "pp-recall" (pp 16 [RecallCAL 0xFA 44]);
  _ ← en_packet "pp-reply" (pp 16 [ReplyCAL 0x01 (txt "PC_CNIED")]);
  en_packet "pp-reply-clipped" (pp 16 [ReplyCAL 0x02 (seqZ 0 0x40)]).

Definition encode_alone : gen unit :=
  _ ← each (fun app => en_sal ("sal-on-" +:+ x02 app) (light (LightingOnSAL 9 app))) [0x30; 0x38; 0x5F];
  _ ← en_sal "sal-ramp" (light (LightingRampSAL 9 0x38 90 77));
  _ ← en_sal "sal-sr-binary" (Ok (status_sal false 0x40 0x38));
  _ ← en_cal "cal-identify" (IdentifyCAL 0x02);
  _ ← en_cal "cal-recall" (RecallCAL 0x3E 1);
  _ ← en_cal "cal-reply" (ReplyCAL 0x01 (txt "KEYGL5  "));
  _ ← en_cal "cal-exstat-level"
        (ExtendedCAL false 0x38 0 (LevelStatusReport [Some 0; Some 128; Some 255; None]));
  with_last_note "encode pads binary report to multiple of 4"
    (en_cal "cal-exstat-binary-pad"
       (ExtendedCAL true 0x38 32
          (BinaryStatusReport [GroupState.ON; GroupState.OFF; GroupState.MISSING]))).

Definition encode_reports : gen unit :=
  _ ← each (fun lvl => en_levels ("levelreport-" +:+ x02 lvl) [Some lvl]) (seqZ 0 256);
  _ ← en_levels "levelreport-missing" [None];
  each (fun n =>
    states ← lift (mapM_result (fun i => enum_call (i mod 3 + 1)) (seqZ 0 n));
    en_states ("binreport-" +:+ str_int n) states) [1; 2; 3; 4; 5; 88].

Definition gen_encode : gen unit :=
  in_order [encode_specials; encode_lights; encode_clock; encode_other_sals; encode_units; encode_alone;
            encode_reports].

(** ** The other suites *)

Definition gen_checksum : gen unit :=
  each (fun '(i, data) =>
    id ← _vid "ck" ("s" +:+ str_int (Z.of_nat i)); append (checksum_vector id data))
    (enumerate
       ([[]; [0]; [0xff]; [0x05; 0x38; 0x00; 0x79; 0x01]; replicate 4 0; replicate 4 0xff; seqZ 0 256;
         [0x05; 0xff; 0x00; 0x73; 0x07; 0x38; 0x00]; replicate 100 0x80] ++
        map (fun i => [i]) (seqZ 0 256))).

Definition gen_ramp_rates : gen unit :=
  _ ← each (fun d => id ← _vid "rr" ("d" +:+ str_int d); append (duration_vector id d))
        (seqZ 0 1025 ++ [1500; 5000; 100000]);
  each (fun '(code, _) =>
    _ ← lift (rate_vector "" code);
    id ← _vid "rr" ("c" +:+ x02 code); v ← lift (rate_vector id code); append v) ramp_rates.

Definition topic_combos : list (Z * Z) :=
  map (fun ga => (ga, 0x38)) (seqZ 0 256) ++
  flat_map (fun app => if app =? 0x38 then [] else map (fun ga => (ga, app)) [0; 1; 9; 10; 99; 100; 255])
    (seqZ 0x30 0x30).

Definition gen_mqtt_topics : gen unit :=
  _ ← each (fun '(ga, app) =>
        id ← _vid "mt" ("a" +:+ x02 app +:+ "-g" +:+ str_int ga); append (format_vector id ga app))
        topic_combos;
  _ ← each (fun t => id ← _vid "mt" "parse"; v ← lift (parse_vector id t); append v)
        ["homeassistant/light/cbus_0/set"; "homeassistant/light/cbus_1/set";
         "homeassistant/light/cbus_255/set"; "homeassistant/light/cbus_048_011/set";
         "homeassistant/light/cbus_095_255/set"; "homeassistant/light/cbus_56_001/set";
         "homeassistant/light/cbus_10/state"; "homeassistant/light/cbus_10/set"];
  each (fun t => id ← _vid "mt" "parse-err"; v ← lift (parse_vector id t); append v)
    ["homeassistant/switch/cbus_1/set"; "homeassistant/light/cbus_999/set";
     "homeassistant/light/cbus_xx/set"].

Definition ha_labels : labels :=
  [(0x38, ("Lighting", [(1, "Kitchen Bench"); (10, "Lounge")])); (0x30, ("Lighting 48", [(11, "Deck")]))].

Definition gen_ha_discovery : gen unit :=
  _ ← each (fun '(ga, app, lab) =>
        _ ← lift (ha_vector "" ga app lab);
        id ← _vid "ha" ("a" +:+ x02 app +:+ "-g" +:+ str_int ga +:+
                        match lab with Some _ => "-lab" | None => "" end);
        v ← lift (ha_vector id ga app lab); append v)
        (map (fun ga => (ga, 0x38, None)) (seqZ 0 256) ++
         [(1, 0x38, Some ha_labels); (10, 0x38, Some ha_labels); (11, 0x30, Some ha_labels);
          (0, 0x30, None); (255, 0x5F, None); (100, 0x45, None)]);
  id ← _vid "ha" "meta-config"; v ← lift (meta_vector id); append v.

(** ** [gen_behavioral_expectations] *)

(** [.decode()] of what a packet encodes to *)
Definition packet_text (p : result packet) : result string :=
  p ← p; b ← encode_packet p; Ok (decode_latin1 b).

Definition pm_wire (sals : list (result SAL)) (source : Z) : result string :=
  sals ← mapM_result id sals; p ← pm true sals; w ← server_wire p source; Ok (decode_latin1 w).

Definition pp_wire (p : result packet) (source : Z) : result string :=
  p ← p; w ← server_wire p source; Ok (decode_latin1 w).

Definition cmd_payload (sals : list (result SAL)) : result string :=
  packet_text (sals ← mapM_result id sals; pm true sals).

Definition init_frames : list json :=
  map (fun t => JObject [("payload", JString t); ("conf", JBool false)])
    ["~"; "~"; "~"; "|"; "A32100FF"; "A32200FF"; "A342000E"; "A3300079"].

(** [assert got == expect] *)
Definition sane_init : result unit :=
  _ ← mapM_result (fun '((param, value), want) =>
        got ← packet_text (Ok (dm_new false PriorityClass.CLASS_2 param value));
        if String.eqb got want then Ok tt else Raise AssertionError)
        [((0x21, 0xFF), "A32100FF"); ((0x22, 0xFF), "A32200FF"); ((0x42, 0x0E), "A342000E");
         ((0x30, 0x79), "A3300079")];
  Ok tt.

Definition status_requests : result (list (string * json)) :=
  mapM_result (fun '(app, block) =>
    t ← packet_text (pm true [status_sal true block app]);
    Ok (x02 app +:+ ":" +:+ x02 block, JString t))
    (product (seqZ 0x30 0x30) (map (Z.mul 32) (seqZ 0 8))).

Definition state_json (state : string) (brightness transition : Z) (source : json) : json :=
  JObject [("state", JString state); ("brightness", JInt brightness); ("transition", JInt transition);
           ("cbus_source_addr", source)].

Definition injected_light (g a : Z) (wire : string) (payload : json) : json :=
  JObject [("wire", JString wire); ("state_topic", JString (state_topic g a)); ("state_payload", payload);
           ("sensor_topic", JString (bin_sensor_state_topic g a)); ("sensor_payload", JString "ON")].

Definition command_case (g a : Z) (state : string) (sal : result SAL) (echo : json) : result json :=
  t ← cmd_payload [sal];
  Ok (JObject [("topic", JString (set_topic g a)); ("payload", JObject [("state", JString state)]);
               ("expect_pci_payload", JString t); ("echo_state_topic", JString (state_topic g a));
               ("echo_state_payload", echo)]).

(** The configuration that is published for a light. *)
Definition light_config (g a : Z) (ls : option labels) : result json :=
  rec ← recorded (publish_light g a ls);
  c ← find_published (conf_topic g a) (published_json rec); Ok c.1.1.

Definition label_configs : result (list json) :=
  mapM_result (fun '(app, (ga, name)) =>
    c ← light_config ga app (Some ha_labels);
    Ok (JObject [("group_addr", JInt ga); ("app_addr", JInt app); ("label", JString name);
                 ("config_topic", JString (conf_topic ga app)); ("config", c)]))
    (flat_map (fun '(app, (_, groups)) => map (pair app) (groups : list (Z * string))) ha_labels).

Definition injected_levels : result json :=
  w ← pp_wire (pp 0x10 [ExtendedCAL false 0x38 0 (LevelStatusReport [None; Some 255; Some 0; Some 128])]) 0x99;
  let state g s b := JObject [("topic", JString (state_topic g 0x38)); ("payload", state_json s b 0 (JInt 0))] in
  Ok (JObject [("wire", JString w);
               ("expect_states", JArray [state 1 "ON" 255; state 2 "OFF" 0; state 3 "ON" 128])]).

Definition gen_behavioral_expectations : result json :=
  _ ← sane_init;
  requests ← status_requests;
  on ← pm_wire [light (LightingOnSAL 10 0x38)] 5;
  ramp ← pm_wire [light (LightingRampSAL 11 0x38 12 128)] 7;
  clock ← pm_wire [Ok (SClock ClockRequestSAL)] 20;
  levels ← injected_levels;
  off_case ← command_case 10 0x38 "OFF" (light (LightingOffSAL 10 0x38)) (state_json "OFF" 0 0 JNull);
  on_case ← command_case 11 0x30 "ON" (light (LightingOnSAL 11 0x30)) (state_json "ON" 255 0 JNull);
  configs ← label_configs;
  meta ← recorded (publish_all_lights []);
  '(meta_topic, meta_config, _, _) ← or_raise IndexError (head (published_json meta));
  lazy_config ← light_config 2 0x38 None;
  Ok (JObject
    [("init_frames", JArray init_frames); ("status_requests", JObject requests);
     ("configured_sweep",
      JArray (map JString ["05FF007A300052"; "05FF007307300052"; "05FF007A38004A"; "05FF00730738004A"]));
     ("inject_lighting_on", injected_light 10 0x38 on (state_json "ON" 255 0 (JInt 5)));
     ("inject_lighting_ramp", injected_light 11 0x38 ramp (state_json "ON" 128 12 (JInt 7)));
     ("inject_clock_request", JObject [("wire", JString clock); ("expect_app_hex", JString "DF")]);
     ("inject_level_report", levels); ("mqtt_cmd_off_default_app", off_case);
     ("mqtt_cmd_on_alt_app", on_case);
     ("project_labels", JObject
        [("app_56_groups", JObject [("1", JString "Kitchen Bench"); ("10", JString "Lounge")]);
         ("app_48_groups", JObject [("11", JString "Deck")])]);
     ("label_configs", JArray configs);
     ("meta_config", JObject [("topic", JString meta_topic); ("config", meta_config)]);
     ("lazy_config_ga2", JObject [("topic", JString (conf_topic 2 0x38)); ("config", lazy_config)])]).

(** ** Properties *)

Definition generated (g : gen unit) : list json :=
  match g {| counters := ∅; vecs := [] |} with Ok (s, _) => vecs s | Raise _ => [] end.

(** How many vectors a suite has, when the checker accepts all of them. *)
Definition accepted {M} (check : json -> load (option M)) (g : gen unit) : option nat :=
  if forallb (fun v => match check v with Loaded None => true | _ => false end) (generated g)
  then Some (length (generated g)) else None.

(** The generator makes its seven suites without an exception, and the checker accepts
    every vector of them. *)
Theorem suites_accepted :
  accepted check_decode gen_decode_from_pci = Some 419%nat /\
  accepted check_decode gen_decode_to_pci = Some 98%nat /\
  accepted check_encode gen_encode = Some 516%nat /\
  accepted check_checksum gen_checksum = Some 265%nat /\
  accepted check_ramp gen_ramp_rates = Some 1044%nat /\
  accepted check_topic gen_mqtt_topics = Some 596%nat /\
  accepted check_ha gen_ha_discovery = Some 263%nat.
Proof. vm_compute. repeat split. Qed.

(** The expectations of the behavioural suite are what the daemon does: bytes of the
    interface on its connection, and what its MQTT client then retains. *)
Definition after_wire (wire : result string) (topic : string) : option payload :=
  match wire with
  | Ok w =>
      Gateway.retained (calls (mq (gateway_run (Some ha_labels) (heard (cbus_init pci_init) [txt w])))) topic
  | Raise _ => None
  end.

Example expectations_met :
  let on := pm_wire [light (LightingOnSAL 10 0x38)] 5 in
  let ramp := pm_wire [light (LightingRampSAL 11 0x38 12 128)] 7 in
  let levels := pp_wire (pp 0x10 [ExtendedCAL false 0x38 0
    (LevelStatusReport [None; Some 255; Some 0; Some 128])]) 0x99 in
  after_wire on (state_topic 10 0x38) = Some (PJson (state_json "ON" 255 0 (JInt 5))) /\
  after_wire on (bin_sensor_state_topic 10 0x38) = Some (PText "ON") /\
  after_wire ramp (state_topic 11 0x38) = Some (PJson (state_json "ON" 128 12 (JInt 7))) /\
  map (fun g => after_wire levels (state_topic g 0x38)) [1; 2; 3] =
    [Some (PJson (state_json "ON" 255 0 (JInt 0))); Some (PJson (state_json "OFF" 0 0 (JInt 0)));
     Some (PJson (state_json "ON" 128 0 (JInt 0)))].
Proof. vm_compute. repeat split. Qed.

(** Lines of the recorded files, [vectors/decode_from_pci.jsonl] and
    [vectors/decode_to_pci.jsonl]. *)
Definition recorded_report : json :=
  JObject [("checksum", JBool true); ("expect_consumed", JInt 52); ("expect_packet", JObject
  [("bridged", JBool false); ("cals", JArray [JObject [("block_start", JInt 0); ("cal", JString
  "extended_status"); ("child_application", JInt 56); ("externally_initiated", JBool false);
  ("report", JObject [("levels", JArray [JNull; JInt 0; JInt 255; JNull; JInt 128; JInt 1; JNull;
  JInt 254]); ("report", JString "level")])]]); ("checksum", JBool true); ("confirmation", JNull);
  ("hops", JArray []); ("priority_class", JInt 0); ("source_address", JInt 20); ("type", JString
  "point_to_point"); ("unit_address", JInt 16)]); ("expect_reencode", JString
  "06141000F30738000000AAAA55550000AA6AA9AA0000565594"); ("from_pci", JBool true); ("id", JString
  "fp-0393-pp-exstat-levels-missing"); ("note", JString ""); ("strict", JBool true); ("wire_hex",
  JString
  "30363134313030304633303733383030303030304141414135353535303030304141364141394141303030303536353539340d0a")].

Definition recorded_command : json :=
  JObject [("checksum", JBool true); ("expect_consumed", JInt 31); ("expect_packet", JObject
  [("application", JInt 56); ("checksum", JBool true); ("confirmation", JString "m");
  ("priority_class", JInt 0); ("sals", JArray [JObject [("application", JInt 56);
  ("group_address", JInt 1); ("sal", JString "lighting_on")]; JObject [("application", JInt 56);
  ("group_address", JInt 2); ("sal", JString "lighting_on")]; JObject [("application", JInt 56);
  ("group_address", JInt 3); ("sal", JString "lighting_on")]; JObject [("application", JInt 56);
  ("group_address", JInt 4); ("sal", JString "lighting_on")]; JObject [("application", JInt 56);
  ("group_address", JInt 5); ("sal", JString "lighting_on")]]); ("source_address", JNull);
  ("type", JString "point_to_multipoint")]); ("expect_reencode", JString
  "0538007901790279037904790557"); ("from_pci", JBool false); ("id", JString
  "tp-0065-light-on-multi5"); ("note", JString ""); ("strict", JBool true); ("wire_hex", JString
  "5c303533383030373930313739303237393033373930343739303535376d0d")].

Example recorded_lines :
  option_map (json_eq recorded_report) (generated gen_decode_from_pci !! 392%nat) = Some true /\
  option_map (json_eq recorded_command) (generated gen_decode_to_pci !! 64%nat) = Some true.
Proof. by vm_compute. Qed.
