(* ===== verification/Behavioral.v ===== *)
(** * The behavioural suite: [suites/behavioral.py]

    The script of [src/rust-migration-harness] that runs a daemon against the scripted
    interface ([Harness]) and the broker ([Broker]), looks at both again and again, and
    records what it finds. What the daemon does is [world]: the time and the state of
    the two each time the script looks after a sleep. The text of JSON is a parameter
    ([json.loads], [json.dumps]). Starting and stopping the process and printing are
    left out. *)

From Stdlib Require Import String Ascii.
From stdpp Require Import strings gmap options.
From S2P Require Import Prelude Common Hex Text Topics Packet Confirm Pci Gateway Harness Broker PyJson Vectors Suites.
Import Harness.Wire Harness.FakePci.

Local Open Scope string_scope.
Local Open Scope list_scope.
Local Open Scope Z_scope.

(** ** Expectations: the fields of [EXPECT] *)

Record light_case := {
  case_wire : bytes;
  case_state : text * json;
  case_sensor : text * bytes
}.

Record command := {
  command_topic : text;
  command_payload : json;
  pci_payload : text;
  echo : text * json
}.

Record expectations := {
  init_payloads : list text;
  meta_config : text * json;
  label_configs : list (text * json);
  configured_sweep : list text;
  lighting_on : light_case;
  lighting_ramp : light_case;
  level_wire : bytes;
  level_states : list (text * json);
  lazy_config : text * json;
  clock_wire : bytes;
  cmd_off : command;
  cmd_alt : command
}.

Definition text_at (d : json) (key : string) : load text := j ← get d key; s ← as_text j; Loaded (txt s).

Definition pair_at (d : json) (topic payload : string) : load (text * json) :=
  t ← text_at d topic; p ← get d payload; Loaded (t, p).

Definition list_at (d : json) (key : string) : load (list json) := j ← get d key; as_list j.

Definition light_case_of (d : json) : load light_case :=
  w ← text_at d "wire"; s ← pair_at d "state_topic" "state_payload";
  t ← text_at d "sensor_topic"; p ← text_at d "sensor_payload";
  Loaded {| case_wire := w; case_state := s; case_sensor := (t, p) |}.

Definition command_of (d : json) : load command :=
  t ← text_at d "topic"; p ← get d "payload"; x ← text_at d "expect_pci_payload";
  r ← pair_at d "echo_state_topic" "echo_state_payload";
  Loaded {| command_topic := t; command_payload := p; pci_payload := x; echo := r |}.

Definition A3 : text := txt "A3".

Definition expectations_of (d : json) : load expectations :=
  fs ← list_at d "init_frames"; fs ← mapM_load (fun f => text_at f "payload") fs;
  m ← get d "meta_config"; m ← pair_at m "topic" "config";
  ls ← list_at d "label_configs"; ls ← mapM_load (fun l => pair_at l "config_topic" "config") ls;
  sw ← list_at d "configured_sweep"; sw ← mapM_load (fun j => s ← as_text j; Loaded (txt s)) sw;
  on ← get d "inject_lighting_on"; on ← light_case_of on;
  ramp ← get d "inject_lighting_ramp"; ramp ← light_case_of ramp;
  lv ← get d "inject_level_report"; w ← text_at lv "wire"; sts ← list_at lv "expect_states";
  sts ← mapM_load (fun l => pair_at l "topic" "payload") sts;
  lz ← get d "lazy_config_ga2"; lz ← pair_at lz "topic" "config";
  ck ← get d "inject_clock_request"; ck ← text_at ck "wire";
  off ← get d "mqtt_cmd_off_default_app"; off ← command_of off;
  alt ← get d "mqtt_cmd_on_alt_app"; alt ← command_of alt;
  Loaded {| init_payloads := List.filter (startswith A3) fs; meta_config := m; label_configs := ls;
            configured_sweep := sw; lighting_on := on; lighting_ramp := ramp; level_wire := w;
            level_states := sts; lazy_config := lz; clock_wire := ck; cmd_off := off; cmd_alt := alt |}.

(** ** What the script looks at *)

Record obs := { pci_side : fake; mqtt_side : broker; proc_alive : bool }.

Inductive injection := InjectPci (wire : bytes) | InjectMqtt (topic : text) (payload : bytes).

(** Where the script is: how often it has slept, what it recorded and injected. *)
Record progress := {
  slept : nat;
  results : list (string * bool);
  injected : list injection
}.

Definition script (A : Type) : Type := progress -> progress * result A.

#[export] Instance script_ret : MRet script := fun A a p => (p, Ok a).
#[export] Instance script_bind : MBind script := fun A B f m p =>
  match m p with (p, Ok a) => f a p | (p, Raise e) => (p, Raise e) end.

(** [Results.record] *)
Definition record (name : string) (ok : bool) : script unit := fun p =>
  ({| slept := slept p; results := results p ++ [(name, ok)]; injected := injected p |}, Ok tt).

Definition failed (p : progress) : list (string * bool) := List.filter (fun r => negb r.2) (results p).

Definition note_injection (i : injection) : script unit := fun p =>
  ({| slept := slept p; results := results p; injected := injected p ++ [i] |}, Ok tt).

Definition lift {A} (r : result A) : script A := fun p => (p, r).

(** [latest_publish] *)
Definition latest_publish (br : broker) (topic : text) : option publication :=
  last (find_publishes topic br).

Section run.
Context (loads : bytes -> option json) (dumps : json -> bytes).
Context (world : nat -> Z * obs).
Context (e : expectations).

Definition json_payload_equals (pub : option publication) (expected : json) : bool :=
  match pub with
  | None => false
  | Some p => match loads (p_payload p) with Some j => json_eq j expected | None => false end
  end.

Definition shows (br : broker) (x : text * json) : bool :=
  json_payload_equals (latest_publish br x.1) x.2.

(** ** [wait_for] *)

Fixpoint poll (fuel : nat) (pred : obs -> bool) (deadline : Z) (k : nat) : option (bool * nat) :=
  let '(t, o) := world k in
  if pred o then Some (true, k)
  else if deadline <? t then Some (false, k)
  else match fuel with O => None | S fuel => poll fuel pred deadline (S k) end.

(** A sleep lasts a tenth of a second at least; times are milliseconds. *)
Definition polls (timeout : Z) : nat := S (Z.to_nat (timeout / 100)).

Definition wait_for (timeout : Z) (pred : obs -> bool) : script bool := fun p =>
  match poll (polls timeout) pred ((world (slept p)).1 + timeout) (slept p) with
  | Some (v, k) => ({| slept := k; results := results p; injected := injected p |}, Ok v)
  | None => (p, Raise OutOfFuel)
  end.

Definition look : script obs := fun p => (p, Ok (world (slept p)).2).

(** [ok = await wait_for(...)] and [res.record(...)] *)
Definition check (name : string) (timeout : Z) (pred : obs -> bool) : script bool :=
  ok ← wait_for timeout pred; _ ← record name ok; mret ok.

(** ** The predicates *)

Definition is_none {A} (o : option A) : bool := match o with None => true | Some _ => false end.

(** [dm_sequence] *)
Definition dm_sequence (o : obs) : bool :=
  let want := init_payloads e in
  let got := List.filter (fun f => bool_decide (payload f ∈ want)) (frames (pci_side o)) in
  bool_decide (take 4 (map payload got) = want) && forallb (fun f => is_none (conf f)) (take 4 got).

Definition is_status (p : text) : bool :=
  startswith (txt "05FF0073") p || startswith (txt "05FF007A") p.

(** [sweep_done] *)
Definition sweep_done (o : obs) : bool :=
  len (configured_sweep e) <=? len (List.filter is_status (payloads (pci_side o))).

Definition swept (o : obs) : bool :=
  let seen := List.filter (fun f => is_status (payload f)) (frames (pci_side o)) in
  bool_decide (map payload (take (length (configured_sweep e)) seen) = configured_sweep e) &&
  forallb (fun f => is_none (conf f)) seen.

(** [frame_kind]: whether it is ['init'] *)
Definition init_frame (f : ClientFrame) : bool :=
  is_reset f || is_smart_connect f || startswith A3 (payload f).

Definition init_first (o : obs) : bool :=
  let kinds := map init_frame (frames (pci_side o)) in
  match list_find (fun k => k = false) kinds with
  | Some (first_other, _) =>
      (8 <=? len (List.filter id (take first_other kinds))) && negb (existsb id (drop first_other kinds))
  | None => true
  end.

(** [clock_reply] *)
Definition clock_reply (mark : nat) (o : obs) : bool :=
  existsb (fun f => match payload_bytes f with
                    | Some pb => (2 <=? len pb) && (default 0 (pb !! 1%nat) =? 0xDF)
                    | None => false
                    end) (drop mark (frames (pci_side o))).

(** ** The steps *)

Definition inject_pci (wire : bytes) : script unit :=
  o ← look; _ ← lift (FakePci.inject wire (pci_side o)); note_injection (InjectPci wire).

Definition inject_mqtt (c : command) : script unit :=
  o ← look; _ ← lift (Broker.inject (command_topic c) (dumps (command_payload c)) (mqtt_side o));
  note_injection (InjectMqtt (command_topic c) (dumps (command_payload c))).

Definition check_init : script unit :=
  ok ← check "pci-connect" 20000 (fun o => 1 <=? connections (pci_side o));
  o ← look;
  if negb (ok && proc_alive o) then lift (Raise RuntimeError)
  else
    _ ← check "pci-init-reset-x3" 20000 (fun o => 3 <=? reset_count (pci_side o));
    _ ← check "pci-init-smart-connect" 10000 (fun o => 1 <=? smart_connect_count (pci_side o));
    _ ← check "pci-init-dm-sequence" 15000 dm_sequence;
    mret tt.

(** [check_config] for each light *)
Fixpoint check_configs (l : list (text * json)) (all_ok : bool) : script bool :=
  match l with
  | [] => mret all_ok
  | lc :: l =>
      good ← wait_for 20000 (fun o => shows (mqtt_side o) lc);
      check_configs l (all_ok && good)
  end.

Definition check_mqtt : script unit :=
  ok ← check "mqtt-connect" 20000 (fun o => existsb connected (clients (mqtt_side o)));
  if negb ok then lift (Raise RuntimeError)
  else
    _ ← check "mqtt-subscribe-wildcard" 15000
          (fun o => has_subscription (txt "homeassistant/light/+/set") (mqtt_side o));
    ok ← wait_for 15000 (fun o => shows (mqtt_side o) (meta_config e));
    o ← look;
    let good := match latest_publish (mqtt_side o) (meta_config e).1 with
                | Some pub => (p_qos pub =? 1) && p_retain pub
                | None => false
                end in
    _ ← record "meta-config-publish" (ok && good);
    all_ok ← check_configs (label_configs e) true;
    record "label-configs-publish" all_ok.

Definition check_traffic : script unit :=
  ok ← wait_for 40000 sweep_done;
  o ← look;
  _ ← record "status-requests-configured-sweep" (ok && swept o);
  record "init-before-all-traffic" (init_first o).

Definition check_event (name : string) (c : light_case) : script unit :=
  _ ← inject_pci (case_wire c);
  ok ← wait_for 15000 (fun o => shows (mqtt_side o) (case_state c));
  o ← look;
  good ← (if ok : bool then
            match latest_publish (mqtt_side o) (case_sensor c).1 with
            | None => mret false : script bool
            | Some sp => t ← lift (decode_utf8 (p_payload sp)); mret (bool_decide (t = (case_sensor c).2))
            end
          else mret false : script bool);
  record name good.

Definition check_levels : script unit :=
  _ ← inject_pci (level_wire e);
  _ ← check "level-report-to-mqtt" 15000 (fun o => forallb (shows (mqtt_side o)) (level_states e));
  _ ← check "lazy-discovery-config" 10000 (fun o => shows (mqtt_side o) (lazy_config e));
  mret tt.

Definition check_clock : script unit :=
  o ← look;
  let mark := length (frames (pci_side o)) in
  _ ← inject_pci (clock_wire e);
  _ ← check "clock-request-response" 15000 (clock_reply mark);
  _ ← check "retry-unconfirmed-frame" 25000 (fun o => 2 <=? withheld_seen (pci_side o));
  mret tt.

Definition check_command (name : string) (timeout : Z) (c : command) : script unit :=
  ok ← wait_for timeout (fun o => 1 <=? count_payload (pci_payload c) (pci_side o));
  ok ← (if ok : bool then wait_for 10000 (fun o => shows (mqtt_side o) (echo c)) else mret false : script bool);
  record name ok.

Definition check_commands (skip_slow : bool) : script unit :=
  if skip_slow then mret tt
  else
    _ ← inject_mqtt (cmd_off e);
    _ ← inject_mqtt (cmd_alt e);
    _ ← check_command "mqtt-cmd-off-to-pci" 170000 (cmd_off e);
    check_command "mqtt-cmd-alt-app-to-pci" 40000 (cmd_alt e).

Definition check_alive : script unit :=
  o ← look; if proc_alive o then mret tt else record "process-stayed-up" false.

Definition checks (skip_slow : bool) : script unit :=
  _ ← check_init;
  _ ← check_mqtt;
  _ ← check_traffic;
  _ ← check_event "pci-event-on-to-mqtt" (lighting_on e);
  _ ← check_event "pci-event-ramp-to-mqtt" (lighting_ramp e);
  _ ← check_levels;
  _ ← check_clock;
  _ ← check_commands skip_slow;
  check_alive.

Definition start_of_run : progress := {| slept := 0; results := []; injected := [] |}.

Definition is_runtime_error (x : exn) : bool := bool_decide (x = RuntimeError).

(** [run]: the exit code, unless another exception leaves it. The binary of the other
    implementation may be [missing]. *)
Definition run (missing skip_slow : bool) : result Z * progress :=
  if missing then (Ok 3, start_of_run)
  else
    let '(p, r) := checks skip_slow start_of_run in
    let code p := Ok (if bool_decide (failed p = []) then 0 else 1) in
    match r with
    | Ok _ => (code p, p)
    | Raise x =>
        if is_runtime_error x then let p := (record "fatal" false p).1 in (code p, p) else (Raise x, p)
    end.

(** ** Lemmas *)

(** *** Polling *)

(** Between two looks the clock advances by a sleep. *)
Definition sleeps : Prop := forall k, (world k).1 + 100 <= (world (S k)).1.

Hypothesis Hsleep : sleeps.

Lemma poll_decides fuel pred deadline k :
  deadline < (world k).1 + 100 * Z.of_nat fuel ->
  exists v k', poll fuel pred deadline k = Some (v, k') /\ (k <= k')%nat /\ pred (world k').2 = v /\
    (v = false -> deadline < (world k').1) /\
    forall j, (k <= j < k')%nat -> pred (world j).2 = false /\ (world j).1 <= deadline.
Proof using Hsleep.
  revert k. induction fuel as [|fuel IH]; intros k Hf; cbn [poll];
    destruct (world k) as [t o] eqn:Ek; cbn [fst] in Hf; destruct (pred o) eqn:Ep.
  1, 3: exists true, k; rewrite Ek; repeat split; try done; lia.
  - replace (deadline <? t) with true by lia. exists false, k. rewrite Ek. repeat split; try done; simpl; lia.
  - destruct (Z.ltb_spec deadline t).
    { exists false, k. rewrite Ek. repeat split; try done; simpl; lia. }
    destruct (IH (S k)) as (v & k' & -> & Hk & Hp & Hd & Hj).
    { pose proof (Hsleep k) as Hs. rewrite Ek in Hs. cbn [fst] in Hs. lia. }
    exists v, k'. split; [done|]. split; [lia|]. split; [done|]. split; [done|]. intros j Hkj.
    destruct (decide (j = k)) as [->|]; [by rewrite Ek|apply Hj; lia].
Qed.

(** *** What every script does: it ends, and it only adds results *)

Definition orderly {A} (m : script A) : Prop :=
  forall p, (m p).2 <> Raise OutOfFuel /\ exists l, results (m p).1 = results p ++ l.

Lemma orderly_bind {A B} (m : script A) (f : A -> script B) :
  orderly m -> (forall a, orderly (f a)) -> orderly (m ≫= f).
Proof using Type.
  intros Hm Hf p. unfold mbind, script_bind. destruct (Hm p) as [Ho [l Hl]].
  destruct (m p) as [p' [a|x]]; cbn in *.
  - destruct (Hf a p') as [Ho' [l' Hl']]. split; [done|]. exists (l ++ l').
    by rewrite Hl', Hl, app_assoc.
  - split; [|by exists l]. by intros [= ->].
Qed.

Lemma orderly_ret {A} (a : A) : orderly (mret a : script A).
Proof using Type. intros p. split; [done|]. exists []. by rewrite app_nil_r. Qed.

Lemma orderly_lift {A} (r : result A) : r <> Raise OutOfFuel -> orderly (lift r).
Proof using Type. intros H p. split; [exact H|]. exists []. by rewrite app_nil_r. Qed.

Lemma orderly_record name ok : orderly (record name ok).
Proof using Type. intros p. split; [done|]. by eexists. Qed.

Lemma orderly_note i : orderly (note_injection i).
Proof using Type. intros p. split; [done|]. exists []. by rewrite app_nil_r. Qed.

Lemma orderly_look : orderly look.
Proof using Type. intros p. split; [done|]. exists []. by rewrite app_nil_r. Qed.

Lemma polls_enough timeout k :
  0 <= timeout -> (world k).1 + timeout < (world k).1 + 100 * Z.of_nat (polls timeout).
Proof using Type.
  intros H. unfold polls. pose proof (Z.div_mod timeout 100 ltac:(lia)).
  pose proof (Z.mod_pos_bound timeout 100 ltac:(lia)). rewrite Nat2Z.inj_succ, Z2Nat.id by (apply Z.div_pos; lia).
  lia.
Qed.

Lemma orderly_wait timeout pred : 0 <= timeout -> orderly (wait_for timeout pred).
Proof using Hsleep.
  intros H p. unfold wait_for.
  destruct (poll_decides (polls timeout) pred ((world (slept p)).1 + timeout) (slept p)
    (polls_enough timeout (slept p) H)) as (v & k' & -> & _).
  split; [done|]. exists []. by rewrite app_nil_r.
Qed.

Lemma orderly_inject_pci wire : orderly (inject_pci wire).
Proof using Type.
  apply orderly_bind; [apply orderly_look|]. intros o. apply orderly_bind; [|intros; apply orderly_note].
  apply orderly_lift. unfold FakePci.inject. by destruct (writer (pci_side o)).
Qed.

Lemma decode_utf8_fuel b : decode_utf8 b <> Raise OutOfFuel.
Proof using Type. unfold decode_utf8. by destruct (utf8 b). Qed.

Lemma orderly_inject_mqtt c : orderly (inject_mqtt c).
Proof using Type.
  apply orderly_bind; [apply orderly_look|]. intros o. apply orderly_bind; [|intros; apply orderly_note].
  apply orderly_lift. unfold Broker.inject, _fanout, _publish_packet, to_bytes2, mk_bytes.
  repeat case_match; cbn; try done; repeat case_match; done.
Qed.

(** [orderly] of what a step is made of. *)
Local Ltac orderly :=
  repeat first
    [ apply orderly_ret | apply orderly_record | apply orderly_look | apply orderly_inject_pci
    | apply orderly_inject_mqtt | apply orderly_wait; lia
    | apply orderly_lift; (apply decode_utf8_fuel || discriminate)
    | apply orderly_bind; [|intros ?] | progress case_match ].

Lemma orderly_check_init : orderly check_init.
Proof using Hsleep. unfold check_init, check. orderly. Qed.

Lemma orderly_check_configs l ok : orderly (check_configs l ok).
Proof using Hsleep.
  revert ok. induction l as [|lc l IH]; intros ok; cbn [check_configs]; [orderly|].
  apply orderly_bind; [orderly|]. intros good. apply IH.
Qed.

Lemma orderly_check_mqtt : orderly check_mqtt.
Proof using Hsleep. unfold check_mqtt, check. orderly. apply orderly_check_configs. Qed.

Lemma orderly_check_event name c : orderly (check_event name c).
Proof using Hsleep. unfold check_event. orderly. Qed.

Lemma orderly_check_command name t c : 0 <= t -> orderly (check_command name t c).
Proof using Hsleep. intros Ht. unfold check_command. orderly. Qed.

(** What follows the start-up of the interface. *)
Definition later_checks (skip_slow : bool) : script unit :=
  _ ← check_mqtt; _ ← check_traffic;
  _ ← check_event "pci-event-on-to-mqtt" (lighting_on e);
  _ ← check_event "pci-event-ramp-to-mqtt" (lighting_ramp e);
  _ ← check_levels; _ ← check_clock; _ ← check_commands skip_slow; check_alive.

Lemma orderly_later skip_slow : orderly (later_checks skip_slow).
Proof using Hsleep.
  unfold later_checks. apply orderly_bind; [apply orderly_check_mqtt|]. intros _.
  apply orderly_bind; [unfold check_traffic; orderly|]. intros _.
  apply orderly_bind; [apply orderly_check_event|]. intros _.
  apply orderly_bind; [apply orderly_check_event|]. intros _.
  apply orderly_bind; [unfold check_levels, check; orderly|]. intros _.
  apply orderly_bind; [unfold check_clock, check; orderly|]. intros _.
  apply orderly_bind; [|intros _; unfold check_alive; orderly].
  unfold check_commands. destruct skip_slow; [orderly|].
  apply orderly_bind; [orderly|]. intros _. apply orderly_bind; [orderly|]. intros _.
  apply orderly_bind; [by apply orderly_check_command|]. intros _. by apply orderly_check_command.
Qed.

(** *** A result that fails *)

(** The script records a failure, or raises. *)
Definition fails {A} (m : script A) : Prop :=
  forall p, match m p with (p, Ok _) => Exists (fun r => r.2 = false) (results p) | _ => True end.

Lemma fails_bind_l {A B} (m : script A) (f : A -> script B) :
  fails m -> (forall a, orderly (f a)) -> fails (m ≫= f).
Proof using Type.
  intros Hm Hf p. unfold mbind, script_bind. specialize (Hm p). destruct (m p) as [p' [a|x]]; [|done].
  destruct (Hf a p') as [_ [l Hl]]. destruct (f a p') as [p2 [b|x]]; [|done]. cbn in Hl. rewrite Hl.
  apply Exists_app. by left.
Qed.

Lemma fails_bind_r {A B} (m : script A) (f : A -> script B) :
  (forall a, fails (f a)) -> fails (m ≫= f).
Proof using Type.
  intros Hf p. unfold mbind, script_bind. destruct (m p) as [p' [a|x]]; [|done]. apply Hf.
Qed.

(** A predicate that never holds. *)
Lemma fails_check name timeout pred :
  0 <= timeout -> (forall k, pred (world k).2 = false) -> fails (check name timeout pred).
Proof using Hsleep.
  intros Ht Hp p. unfold check, wait_for, mbind, script_bind.
  destruct (poll_decides (polls timeout) pred ((world (slept p)).1 + timeout) (slept p)
    (polls_enough timeout (slept p) Ht)) as (v & k' & -> & _ & Hv & _).
  rewrite Hp in Hv. subst v. cbn. apply Exists_app. right. by constructor.
Qed.

Lemma run_of_checks skip_slow :
  run false skip_slow =
    let '(p, r) := (_ ← check_init; later_checks skip_slow) start_of_run in
    let code p := Ok (if bool_decide (failed p = []) then 0 else 1) in
    match r with
    | Ok _ => (code p, p)
    | Raise x =>
        if is_runtime_error x then let p := (record "fatal" false p).1 in (code p, p) else (Raise x, p)
    end.
Proof using Type. done. Qed.

Lemma failed_some p : Exists (fun r => r.2 = false) (results p) -> failed p <> [].
Proof using Type.
  unfold failed. intros [[n b] [Hin Hb]]%Exists_exists. cbn in Hb. subst b.
  intros H. assert ((n, false) ∈ List.filter (fun r => negb r.2) (results p)) as Hr.
  { apply list_elem_of_In, List.filter_In. by split; [apply list_elem_of_In|]. }
  rewrite H in Hr. by apply not_elem_of_nil in Hr.
Qed.

Lemma failing_run skip_slow :
  fails (_ ← check_init; later_checks skip_slow) -> (run false skip_slow).1 <> Ok 0.
Proof using Type.
  intros Hf. rewrite run_of_checks. specialize (Hf start_of_run).
  destruct ((_ ← check_init; later_checks skip_slow) start_of_run) as [p [u|x]].
  - cbn [fst]. rewrite bool_decide_false by by apply failed_some. done.
  - destruct (is_runtime_error x); [|done]. cbn [fst]. rewrite bool_decide_false; [done|].
    apply failed_some. cbn. apply Exists_app. right. by constructor.
Qed.
End run.

(** *** Frames of the library *)

(** A frame as the interface makes it. *)
Definition framed (f : ClientFrame) : Prop := exists raw, f = client_frame raw.

Lemma strip_resets_framed chunk : Forall framed (strip_resets chunk).1.
Proof.
  induction chunk as [|c chunk IH]; [constructor|]. cbn [strip_resets]. destruct (c =? 126); [|constructor].
  destruct (strip_resets chunk) as [fs rest]. constructor; [by eexists|exact IH].
Qed.

Lemma chunk_framed chunk : Forall framed (chunk_frames chunk).
Proof.
  unfold chunk_frames. pose proof (strip_resets_framed chunk) as H.
  destruct (strip_resets chunk) as [fs [|c rest]]; cbn in H; apply Forall_app; split; try done.
  constructor; [by eexists|constructor].
Qed.

Lemma lines_framed s : Forall framed (line_frames s).
Proof.
  unfold line_frames. induction (fst (cut s)) as [|l ls IH]; [constructor|]. cbn [flat_map].
  apply Forall_app. split; [apply chunk_framed|exact IH].
Qed.

(** What looks like an option of the interface carries a confirmation code. *)
Definition option_coded (f : ClientFrame) : Prop := startswith A3 (payload f) = true -> conf f <> None.

Lemma token_payload raw :
  is_reset (client_frame raw) || is_smart_connect (client_frame raw) = true ->
  startswith A3 (payload (client_frame raw)) = false.
Proof.
  intros H.
  assert (raw = [126] \/ raw = [124] \/ raw = [124; 124]) as [->|[->| ->]]; [|by vm_compute..].
  unfold client_frame in H. destruct (last _) as [c|]; [destruct (negb _ && _ && _)|]; cbn in H;
    apply orb_true_iff in H as [H|H]; try (apply orb_true_iff in H as [H|H]);
    apply bool_decide_eq_true in H; tauto.
Qed.

(** A call of the client asks for a confirmation, and gets a code. *)
Definition asks (s : sent) : Prop := want_confirmation s.1.1 = true.

Lemma prepared_code call t now st st' data code :
  _prepare_packet call t now st = Ok (st', data, code) ->
  is_special_client (cmd call) = false -> want_confirmation call = true -> code <> None.
Proof.
  intros H Hs Hw. unfold _prepare_packet in H. cbv zeta in H.
  apply result_bind_Ok in H as (text & _ & H).
  assert (negb (is_special_client (cmd call)) && want_confirmation call = true) as E by by rewrite Hs, Hw.
  rewrite E in H. destruct (_get_confirmation_code t now st) as [st1 k]. by injection H as _ _ <-.
Qed.

Lemma recorded_conf s f :
  sent_ok s -> asks s -> recorded s f -> is_reset f || is_smart_connect f = true \/ conf f <> None.
Proof.
  destruct s as [[call data] code]. intros (_ & t & now & st & st' & _ & _ & Hp) Ha Hr.
  unfold asks in Ha. cbn [fst] in Ha. pose proof (prepared_code _ _ _ _ _ _ _ Hp) as Hc.
  clear Hp. unfold recorded in Hr. destruct call as [p w b]. cbn [cmd want_confirmation] in *.
  destruct (is_special_client p) eqn:Hs.
  - left. destruct p; try done; destruct Hr as [-> _]; by rewrite ?orb_true_r.
  - right. specialize (Hc eq_refl Ha). destruct p; try done; destruct Hr as (_ & _ & -> & _);
      by destruct code.
Qed.

Lemma recorded_coded s f : sent_ok s -> asks s -> recorded s f -> framed f -> option_coded f.
Proof.
  intros Hs Ha Hr [raw Hf] H3. destruct (recorded_conf s f Hs Ha Hr) as [H|H]; [|exact H].
  rewrite Hf in H. apply token_payload in H. rewrite <- Hf in H. congruence.
Qed.

(** The interface [st] has read the start of a stream of calls of the client. *)
Definition serves_library (st : fake) : Prop :=
  exists i chunks rest (l : list sent),
    st = serve true i chunks /\ Forall (fun c => c <> []) chunks /\
    Forall sent_ok l /\ Forall asks l /\
    concat chunks ++ rest = concat (map (fun s => snd (fst s)) l).

Lemma library_coded st : serves_library st -> Forall option_coded (frames st).
Proof.
  intros (i & chunks & rest & l & -> & Hne & Hok & Ha & Hs).
  assert (Forall option_coded (line_frames (concat chunks ++ rest))) as Hall.
  { rewrite Hs. destruct (FakePciFacts.sent_lines l Hok) as [Hr _].
    pose proof (lines_framed (concat (map (fun s => snd (fst s)) l))) as Hf.
    clear Hs Hne. revert Hok Ha Hf. induction Hr as [|s f l' fs Hr _ IH]; intros Hok Ha Hf; [constructor|].
    apply Forall_cons in Hok as [Hok1 Hok2]. apply Forall_cons in Ha as [Ha1 Ha2].
    apply Forall_cons in Hf as [Hf1 Hf2].
    constructor; [by eapply recorded_coded|by apply IH]. }
  rewrite WireFacts.line_frames_app in Hall. apply Forall_app in Hall as [Hall _].
  destruct (FakePciFacts.serve_taken true i chunks Hne) as (fs & buf & (k & -> & _) & ->).
  destruct (FakePciFacts.handled true i (line_frames (concat chunks) ++ WireFacts.resets k)) as (Hf & _).
  cbn [frames set_buffers]. rewrite Hf. apply Forall_app. split; [exact Hall|].
  unfold WireFacts.resets. apply Forall_replicate. intros H. by vm_compute in H.
Qed.

(** ** Properties *)

(** Polling ends, and decides: it returns true at the first look at which its
    predicate holds, and false only at a look after the deadline, when the predicate
    held at none. *)
Theorem wait_for_decides world timeout pred p :
  sleeps world -> 0 <= timeout ->
  exists v k, wait_for world timeout pred p =
      ({| slept := k; results := results p; injected := injected p |}, Ok v) /\
    (slept p <= k)%nat /\ pred (world k).2 = v /\
    (v = false -> (world (slept p)).1 + timeout < (world k).1) /\
    forall j, (slept p <= j < k)%nat -> pred (world j).2 = false.
Proof.
  intros Hs Ht. unfold wait_for.
  destruct (poll_decides world Hs (polls timeout) pred ((world (slept p)).1 + timeout) (slept p)
    (polls_enough world timeout (slept p) Ht)) as (v & k & -> & Hk & Hv & Hd & Hj).
  exists v, k. split; [done|]. split; [done|]. split; [done|]. split; [done|].
  intros j Hjk. by apply Hj.
Qed.

(** The suite ends, with an exit code or an exception, whatever the daemon does. *)
Theorem suite_ends loads dumps world e missing skip_slow :
  sleeps world -> (run loads dumps world e missing skip_slow).1 <> Raise OutOfFuel.
Proof.
  intros Hs. destruct missing; [done|]. rewrite run_of_checks.
  assert (orderly (_ ← check_init world e; later_checks loads dumps world e skip_slow)) as Ho.
  { apply orderly_bind; [by apply orderly_check_init|]. intros _. by apply orderly_later. }
  destruct (Ho start_of_run) as [Hr _].
  destruct ((_ ← check_init world e; later_checks loads dumps world e skip_slow) start_of_run) as [p [u|x]];
    [done|]. cbn in Hr. destruct (is_runtime_error x); [done|]. cbn. congruence.
Qed.

(** The library cannot pass the suite. The suite wants the options of the interface
    without confirmation codes, and every call of the client asks for one: an interface
    that reads the client's stream, of which any part has arrived at each look, never
    shows them, and the run does not exit with 0. *)
Theorem library_fails_suite loads dumps world e skip_slow :
  sleeps world -> Forall (fun p => startswith A3 p = true) (init_payloads e) -> init_payloads e <> [] ->
  (forall k, serves_library (pci_side (world k).2)) ->
  (run loads dumps world e false skip_slow).1 <> Ok 0.
Proof.
  intros Hs Ha Hne Hl. apply failing_run, fails_bind_l; [|intros _; by apply orderly_later].
  unfold check_init. apply fails_bind_r. intros ok. apply fails_bind_r. intros o.
  destruct (negb (ok && proc_alive o)); [by intros p|]. apply fails_bind_r. intros _.
  apply fails_bind_r. intros _. apply fails_bind_l; [|intros _; apply orderly_ret].
  apply fails_check; [done|done|]. intros k. pose proof (library_coded _ (Hl k)) as Hc.
  unfold dm_sequence. destruct (List.filter _ _) as [|f fs] eqn:Ef.
  { cbn. rewrite bool_decide_false; [done|]. by intros H; symmetry in H. }
  assert (f ∈ frames (pci_side (world k).2) /\ payload f ∈ init_payloads e) as [Hin Hp].
  { assert (f ∈ f :: fs) as H by apply list_elem_of_here. rewrite <- Ef in H.
    apply list_elem_of_In, List.filter_In in H as [H1 H2%bool_decide_eq_true].
    by split; [apply list_elem_of_In|]. }
  pose proof (proj1 (Forall_forall _ _) Hc f Hin (proj1 (Forall_forall _ _) Ha _ Hp)) as Hk.
  cbn. destruct (conf f); [|done]. by rewrite andb_false_r.
Qed.

(** *** A daemon that passes *)

(** The expectations that the generator records. *)
Definition recorded_expectations : option expectations :=
  match gen_behavioral_expectations with
  | Ok j => match expectations_of j with Loaded e => Some e | _ => None end
  | Raise _ => None
  end.

Definition line (t : text) : bytes := t ++ [13].

(** What a daemon as the suite wants it sends and publishes, up to the clock request
    and after it. The message [i] of the table has the payload [[i]]. *)
Definition wanted_table (e : expectations) : list (text * json) :=
  meta_config e :: label_configs e ++ [case_state (lighting_on e); case_state (lighting_ramp e)] ++
  level_states e ++ [lazy_config e; echo (cmd_off e); echo (cmd_alt e)].

Definition wanted_loads (e : expectations) (b : bytes) : option json :=
  match b with [i] => snd <$> wanted_table e !! Z.to_nat i | _ => None end.

Definition wanted_publishes (e : expectations) (n : nat) : list publication :=
  imap (fun i x => {| p_topic := x.1; p_payload := [Z.of_nat i]; p_qos := 1; p_retain := true |})
    (take n (wanted_table e)) ++
  map (fun x => {| p_topic := x.1; p_payload := x.2; p_qos := 1; p_retain := true |})
    [case_sensor (lighting_on e); case_sensor (lighting_ramp e)].

Definition wanted_broker (e : expectations) (n : nat) : broker :=
  {| clients := [set_connected (add_subscription (txt "homeassistant/light/+/set") new_client)];
     publishes := wanted_publishes e n; all_subscriptions := [txt "homeassistant/light/+/set"];
     errors := []; retained := ∅ |}.

Definition wanted_start (e : expectations) : bytes :=
  flat_map line ([[126]; [126]; [126]; [124]] ++ init_payloads e ++ map (cons 92) (configured_sweep e)).

Definition wanted_rest (e : expectations) : bytes :=
  let reply := txt "\05DF000D010A0000FFh" in
  flat_map line [reply; reply; [92] ++ pci_payload (cmd_off e) ++ txt "i"; [92] ++ pci_payload (cmd_alt e) ++ txt "j"].

Definition wanted_world (e : expectations) (k : nat) : Z * obs :=
  (100 * Z.of_nat k,
   {| pci_side := serve true 0 (wanted_start e :: match k with O => [] | S _ => [wanted_rest e] end);
      mqtt_side := wanted_broker e (match k with O => length (wanted_table e) - 2 | S _ => length (wanted_table e) end);
      proc_alive := true |}).

(** The suite can be passed: a daemon that does as the recorded expectations say gets
    eighteen results, all good, and the exit code 0. *)
Example suite_passable :
  match recorded_expectations with
  | Some e =>
      let '(code, p) := run (wanted_loads e) (fun _ => []) (wanted_world e) e false false in
      code = Ok 0 /\ length (results p) = 18%nat /\ failed p = [] /\ slept p = 1%nat
  | None => False
  end.
Proof. vm_compute. repeat split. Qed.

(** The library resets its interface, and sends the last option of the sequence. *)
Definition library_calls (data : bytes) (k : Z) : list sent :=
  [(special ResetPacket, [126; 13], None); (harness_option, data, Some k)].

Definition library_world (data : bytes) (n : nat) : Z * obs :=
  (100 * Z.of_nat n,
   {| pci_side := serve true 0 [[126; 13]; data]; mqtt_side := broker_init; proc_alive := true |}).

Example library_fails_suite_witness :
  exists e data, recorded_expectations = Some e /\
    len (frames (pci_side (library_world data 0).2)) = 2 /\
    (run (fun _ => None) (fun _ => []) (library_world data) e false true).1 <> Ok 0.
Proof.
  assert (exists st' data k, _prepare_packet harness_option 0 0 no_confirmations =
    Ok (st', data, Some k)) as (st' & data & k & H)
    by (eexists _, _, _; vm_compute; reflexivity).
  destruct recorded_expectations as [e|] eqn:He; [|vm_compute in He; discriminate He].
  exists e, data. split; [reflexivity|]. split.
  { vm_compute in H. injection H as _ <- _. reflexivity. }
  assert (Forall sent_ok (library_calls data k)) as Hl.
  { constructor; [split|constructor; [split|constructor]].
    - right. by left.
    - exists 0, 0, no_confirmations, no_confirmations.
      split; [exact no_confirmations_inv|]. split; [|reflexivity].
      by intros c x ?%not_elem_of_nil.
    - left. by repeat split.
    - exists 0, 0, no_confirmations, st'.
      split; [exact no_confirmations_inv|]. split; [|exact H].
      by intros c x ?%not_elem_of_nil. }
  vm_compute in He. injection He as <-.
  apply (library_fails_suite _ _ (library_world data)).
  - intros n. cbn. lia.
  - repeat constructor.
  - discriminate.
  - intros n. exists 0%nat, [[126; 13]; data], [], (library_calls data k).
    split; [reflexivity|]. split; [|split; [exact Hl|split; [repeat constructor|]]].
    + vm_compute in H. injection H as _ <- _. by repeat constructor.
    + cbn. by rewrite app_nil_r.
Defined.
