(* ===== verification/TransportTasks.v ===== *)
(** * Coroutines on one transport: [cbus/transport/base.py], [tcp.py], [serial.py]

    [Transport] runs one coroutine at a time. Here any number of calls of
    [connect], [disconnect] and [handle_connection_lost] and the reconnection
    loops they start run on one transport, each a task that stops at its awaits:
    the lock of [connect] (an [asyncio.Lock], with its queue of waiters), the
    wait for [_do_connect], the sleep of the loop, and the task that [disconnect]
    cancelled. What the event loop runs next is the sequence of events. *)

From stdpp Require Import list numbers sorting.
From S2P Require Import Prelude Transport.
From stdpp Require Import options.

(** ** Definitions *)

(** Where a task stands; [loop] says that [connect] was called by the
    reconnection loop, not by a caller outside. *)
Inductive stage :=
| LoopCreated                (* [create_task(self._reconnect_loop())] *)
| Sleeping                   (* [await asyncio.sleep(...)] *)
| Queued (loop : bool)       (* [async with self._connect_lock] *)
| Connecting (loop : bool)   (* [await asyncio.wait_for(self._do_connect(), ...)] *)
| AwaitsTask (j : nat)       (* [await self._reconnect_task] *)
| Finished (e : ending).

(** A task, and whether it was cancelled since it last ran. *)
Record task := { stage_of : stage; cancelling : bool }.

(** The transport with its tasks. [woken] is the waiter of the lock that was
    told to run and has not yet; the lock is free then. *)
Record sys := {
  conn : transport;
  _protocol : bool;
  lock : option nat;
  woken : option nat;
  waiters : list nat;
  tasks : list task;
  _reconnect_task : option nat;
  closed : nat               (* calls of [close()] on a connection *)
}.

Definition sys_init : sys :=
  {| conn := transport_init; _protocol := false; lock := None; woken := None; waiters := [];
     tasks := []; _reconnect_task := None; closed := 0 |}.

Definition with_conn (c : transport) (s : sys) : sys :=
  {| conn := c; _protocol := _protocol s; lock := lock s; woken := woken s; waiters := waiters s;
     tasks := tasks s; _reconnect_task := _reconnect_task s; closed := closed s |}.

Definition with_lock (l w : option nat) (q : list nat) (s : sys) : sys :=
  {| conn := conn s; _protocol := _protocol s; lock := l; woken := w; waiters := q;
     tasks := tasks s; _reconnect_task := _reconnect_task s; closed := closed s |}.

Definition with_tasks (ts : list task) (s : sys) : sys :=
  {| conn := conn s; _protocol := _protocol s; lock := lock s; woken := woken s;
     waiters := waiters s; tasks := ts; _reconnect_task := _reconnect_task s; closed := closed s |}.

Definition with_reconnect_task (r : option nat) (s : sys) : sys :=
  {| conn := conn s; _protocol := _protocol s; lock := lock s; woken := woken s;
     waiters := waiters s; tasks := tasks s; _reconnect_task := r; closed := closed s |}.

Definition with_protocol (p : bool) (n : nat) (s : sys) : sys :=
  {| conn := conn s; _protocol := p; lock := lock s; woken := woken s; waiters := waiters s;
     tasks := tasks s; _reconnect_task := _reconnect_task s; closed := n |}.

(** [_do_connect] of either kind of transport, from the outcome of
    [create_connection] or of [create_serial_connection], which is [None] where
    its package is not installed. *)
Inductive kind := Tcp | Serial (installed : bool).

Definition _do_connect (k : kind) (o : connect_outcome) (s : sys) : sys * connect_outcome :=
  match k, o with
  | Serial false, (Established | TimedOut | Refused) => (s, Refused)
  | _, Established => (with_protocol true (closed s) s, Established)
  | _, _ => (s, o)
  end.

(** [_do_disconnect], the same in both. *)
Definition _do_disconnect (s : sys) : sys :=
  with_protocol false (if _asyncio_transport (conn s) then S (closed s) else closed s) s.

Definition set_stage (i : nat) (st : stage) (s : sys) : sys :=
  with_tasks (<[i := {| stage_of := st; cancelling := false |}]> (tasks s)) s.

(** A new coroutine; its number is the length of [tasks]. *)
Definition spawn (st : stage) (s : sys) : sys :=
  with_tasks (tasks s ++ [{| stage_of := st; cancelling := false |}]) s.

Definition finished (st : stage) : bool := match st with Finished _ => true | _ => false end.

Definition cancelled (s : sys) (i : nat) : bool :=
  match tasks s !! i with Some t => cancelling t | None => false end.

(** [Task.cancel], of a task that is not done. *)
Definition cancel (i : nat) (s : sys) : sys :=
  match tasks s !! i with
  | Some t =>
      if finished (stage_of t) then s
      else with_tasks (<[i := {| stage_of := stage_of t; cancelling := true |}]> (tasks s)) s
  | None => s
  end.

(** [Lock._wake_up_first]: a waiter whose future was cancelled is not woken. *)
Definition _wake_up_first (s : sys) : sys :=
  match waiters s with
  | i :: _ => if cancelled s i then s else with_lock (lock s) (Some i) (waiters s) s
  | [] => s
  end.

(** [Lock.release]. *)
Definition release (s : sys) : sys := _wake_up_first (with_lock None (woken s) (waiters s) s).

(** The test of [Lock.acquire]: the lock is free, and the future of every waiter
    was cancelled (that of one that was woken first was not). *)
Definition free_for_all (s : sys) : bool :=
  bool_decide (lock s = None) &&
  forallb (fun w => cancelled s w && negb (bool_decide (woken s = Some w))) (waiters s).

(** The head of the loop of [_reconnect_loop]. *)
Definition loop_turn (cfg : TransportConfig) (i : nat) (s : sys) : sys :=
  if negb (bool_decide (_state (conn s) = RECONNECTING)) then set_stage i (Finished Returned) s
  else
    let attempts := (_reconnect_attempts (conn s) + 1)%Z in
    let c := with_link (_asyncio_transport (conn s)) attempts (conn s) in
    if (0 <? max_reconnect_attempts cfg)%Z && (max_reconnect_attempts cfg <? attempts)%Z
    then set_stage i (Finished Returned) (with_conn (_set_state ERROR c) s)
    else set_stage i Sleeping (with_conn c s).

(** [connect] ended in [e]: what its caller does. *)
Definition connect_over (cfg : TransportConfig) (i : nat) (loop : bool) (e : ending) (s : sys) : sys :=
  if loop then
    match e with
    | RaisedTransportError => loop_turn cfg i s
    | Returned | RaisedCancelled => set_stage i (Finished Returned) s
    end
  else set_stage i (Finished e) s.

(** [connect] from where it has the lock to its wait. *)
Definition enter (cfg : TransportConfig) (i : nat) (loop : bool) (s : sys) : sys :=
  let s := with_lock (Some i) (woken s) (waiters s) s in
  if is_connected (conn s) then connect_over cfg i loop Returned (release s)
  else set_stage i (Connecting loop) (with_conn (connect_starts (conn s)) s).

(** [connect] from its start. *)
Definition acquire (cfg : TransportConfig) (i : nat) (loop : bool) (s : sys) : sys :=
  if free_for_all s then enter cfg i loop s
  else set_stage i (Queued loop) (with_lock (lock s) (woken s) (waiters s ++ [i]) s).

(** [connect] after its wait. *)
Definition leave (cfg : TransportConfig) (i : nat) (loop : bool) (o : connect_outcome) (s : sys) : sys :=
  let '(c, e) := connect_ends o (conn s) in connect_over cfg i loop e (release (with_conn c s)).

(** A waiter takes itself off the queue. *)
Definition unqueue (i : nat) (s : sys) : sys :=
  with_lock (lock s) (if bool_decide (woken s = Some i) then None else woken s)
    (filter (fun w => w <> i) (waiters s)) s.

(** [disconnect] after it has dealt with the loop. *)
Definition disconnect_ends (s : sys) : sys :=
  let s := _do_disconnect (with_conn (_set_state DISCONNECTED (conn s)) s) in
  with_conn (with_link false (_reconnect_attempts (conn s)) (conn s)) s.

Definition unfinished (s : sys) (i : nat) : bool :=
  match tasks s !! i with Some t => negb (finished (stage_of t)) | None => false end.

(** [disconnect] from its start. *)
Definition call_disconnect (s : sys) : sys :=
  match _state (conn s), _reconnect_task s with
  | DISCONNECTED, _ => spawn (Finished Returned) s
  | _, Some j =>
      if unfinished s j then spawn (AwaitsTask j) (cancel j s)
      else spawn (Finished Returned) (disconnect_ends s)
  | _, None => spawn (Finished Returned) (disconnect_ends s)
  end.

(** [handle_connection_lost]. *)
Definition connection_lost (cfg : TransportConfig) (s : sys) : sys :=
  let '(c, starts) := handle_connection_lost cfg (conn s) in
  let s := with_conn c s in
  if starts then with_reconnect_task (Some (length (tasks s))) (spawn LoopCreated s) else s.

(** A call from outside, or a task that the event loop runs. *)
Inductive event :=
| CallConnect | CallDisconnect | ConnectionLost | Cancel (i : nat)
| LoopStarts (i : nat) | SleepEnds (i : nat) | Granted (i : nat)
| Outcome (i : nat) (o : connect_outcome) | CancelledAt (i : nat) | Resumes (i : nat).

(** The events that only the event loop makes happen. *)
Definition internal (e : event) : bool :=
  match e with CallConnect | CallDisconnect | ConnectionLost | Cancel _ => false | _ => true end.

(** [CancelledError] at the await of task [i]. *)
Definition cancelled_at (cfg : TransportConfig) (i : nat) (st : stage) (s : sys) : option sys :=
  match st with
  | LoopCreated => Some (set_stage i (Finished RaisedCancelled) s)
  | Sleeping => Some (set_stage i (Finished Returned) s)
  | Queued loop =>
      let s := unqueue i s in
      let s := if bool_decide (lock s = None) then _wake_up_first s else s in
      Some (connect_over cfg i loop RaisedCancelled s)
  | Connecting loop => Some (leave cfg i loop Cancelled s)
  | AwaitsTask _ | Finished _ => None
  end.

(** A cancelled task meets [CancelledError] the next time it runs, unless the
    connection was made or failed first. To cancel a task that awaits another
    cancels that other one, so that [disconnect] goes on. *)
Definition run_task (cfg : TransportConfig) (k : kind) (e : event) (i : nat) (t : task) (s : sys)
    : option sys :=
  match e, stage_of t with
  | LoopStarts _, LoopCreated =>
      if cancelling t then None
      else Some (loop_turn cfg i (with_conn (_set_state RECONNECTING (conn s)) s))
  | SleepEnds _, Sleeping =>
      if cancelling t then None
      else if bool_decide (_state (conn s) = DISCONNECTED)
      then Some (set_stage i (Finished Returned) s)
      else Some (acquire cfg i true s)
  | Granted _, Queued loop =>
      if negb (cancelling t) && bool_decide (woken s = Some i)
      then Some (enter cfg i loop (unqueue i s)) else None
  | Outcome _ Cancelled, _ => None
  | Outcome _ o, Connecting loop =>
      let '(s, o) := _do_connect k o s in Some (leave cfg i loop o s)
  | CancelledAt _, st => if cancelling t then cancelled_at cfg i st s else None
  | Resumes _, AwaitsTask j =>
      if unfinished s j then None
      else Some (set_stage i (Finished Returned) (disconnect_ends (with_reconnect_task None s)))
  | Cancel _, AwaitsTask j => Some (cancel j s)
  | Cancel _, _ => Some (cancel i s)
  | _, _ => None
  end.

Definition step (cfg : TransportConfig) (k : kind) (e : event) (s : sys) : option sys :=
  match e with
  | CallConnect => Some (acquire cfg (length (tasks s)) false (spawn (Queued false) s))
  | CallDisconnect => Some (call_disconnect s)
  | ConnectionLost => Some (connection_lost cfg s)
  | Cancel i | LoopStarts i | SleepEnds i | Granted i | Outcome i _ | CancelledAt i | Resumes i =>
      t ← tasks s !! i; run_task cfg k e i t s
  end.

Fixpoint steps (cfg : TransportConfig) (k : kind) (es : list event) (s : sys) : option sys :=
  match es with
  | [] => Some s
  | e :: es => s ← step cfg k e s; steps cfg k es s
  end.

(** ** The lock *)

Definition connecting (s : sys) (i : nat) : bool :=
  match tasks s !! i with Some {| stage_of := Connecting _ |} => true | _ => false end.

Definition queued (s : sys) (i : nat) : bool :=
  match tasks s !! i with Some {| stage_of := Queued _ |} => true | _ => false end.

(** What the lock, its queue and the tasks have to do with one another, but for
    task [x], which is running. *)
Record lock_pre (x : option nat) (s : sys) : Prop := {
  li_lock : forall i, x <> Some i -> (connecting s i = true <-> lock s = Some i);
  li_waiters : forall i, i ∈ waiters s <-> queued s i = true /\ x <> Some i;
  li_nodup : NoDup (waiters s);
  li_woken : forall i, woken s = Some i -> lock s = None /\ head (waiters s) = Some i
}.

(** No wakeup is lost. *)
Definition awake (s : sys) : Prop :=
  forall i, lock s = None -> head (waiters s) = Some i -> cancelled s i = false -> woken s = Some i.

Definition lock_inv (x : option nat) (s : sys) : Prop := lock_pre x s /\ awake s.

Lemma connecting_set_stage s i j st :
  i <> j -> connecting (set_stage i st s) j = connecting s j.
Proof. intros. unfold connecting. cbn. by rewrite list_lookup_insert_ne. Qed.

Lemma queued_set_stage s i j st : i <> j -> queued (set_stage i st s) j = queued s j.
Proof. intros. unfold queued. cbn. by rewrite list_lookup_insert_ne. Qed.

Lemma cancelled_set_stage s i j st :
  i <> j -> cancelled (set_stage i st s) j = cancelled s j.
Proof. intros. unfold cancelled. cbn. by rewrite list_lookup_insert_ne. Qed.

Lemma lookup_set_stage s i st :
  tasks (set_stage i st s) !! i = None \/
  tasks (set_stage i st s) !! i = Some {| stage_of := st; cancelling := false |}.
Proof.
  cbn. destruct (decide (i < length (tasks s))).
  - right. by apply list_lookup_insert_eq.
  - left. apply lookup_ge_None. rewrite length_insert. lia.
Qed.

Lemma head_elem {A} (l : list A) x : head l = Some x -> x ∈ l.
Proof. destruct l; [done|]. intros [= ->]. by left. Qed.

(** A task that does not wait for the lock may run. *)
Lemma lock_inv_run s i : lock_inv None s -> queued s i = false -> lock_inv (Some i) s.
Proof.
  intros [[H1 H2 H3 H4] H5] Hq. split; [|done]. split; [|intros j; rewrite H2|done..].
  - intros j _. by apply H1.
  - split; [|by intros []]. intros [Hj _]. split; [done|]. intros [= <-]. congruence.
Qed.

(** The stages of other tasks do not change. *)
Lemma lock_inv_stage s i st :
  lock_inv (Some i) s ->
  (connecting (set_stage i st s) i = true <-> lock s = Some i) ->
  queued (set_stage i st s) i = false ->
  lock_inv None (set_stage i st s).
Proof.
  intros [[H1 H2 H3 H4] H5] Hc Hq. split; [split; [| |done..]|].
  - intros j _. cbn [lock set_stage with_tasks]. destruct (decide (i = j)) as [<-|Hij]; [done|].
    rewrite connecting_set_stage by done. apply H1. congruence.
  - intros j. cbn [waiters set_stage with_tasks]. destruct (decide (i = j)) as [<-|Hij].
    + rewrite H2, Hq. by split; intros [].
    + rewrite H2, queued_set_stage by done. split; intros []; split; congruence.
  - intros j El Eh Hcan. apply H5; [done..|]. rewrite cancelled_set_stage in Hcan; [done|].
    intros <-. apply head_elem, H2 in Eh. by destruct Eh.
Qed.

(** ... and stop where it has nothing to do with the lock. *)
Lemma lock_inv_stop s i st :
  lock_inv (Some i) s -> lock s <> Some i ->
  (forall b, st <> Connecting b) -> (forall b, st <> Queued b) ->
  lock_inv None (set_stage i st s).
Proof.
  intros H Hl Hc Hq.
  assert (connecting (set_stage i st s) i = false /\ queued (set_stage i st s) i = false) as [Ec Eq].
  { unfold connecting, queued. destruct (lookup_set_stage s i st) as [->| ->]; [done|].
    destruct st; try done; [destruct (Hq loop eq_refl)|destruct (Hc loop eq_refl)]. }
  apply lock_inv_stage; [done| |done]. by rewrite Ec.
Qed.

(** ... or with the lock, which it took. *)
Lemma lock_inv_connect s i b :
  lock_inv (Some i) s -> lock s = Some i -> i < length (tasks s) ->
  lock_inv None (set_stage i (Connecting b) s).
Proof.
  intros H Hl Hi.
  assert (tasks (set_stage i (Connecting b) s) !! i
    = Some {| stage_of := Connecting b; cancelling := false |}) as E
    by (cbn; by apply list_lookup_insert_eq).
  apply lock_inv_stage; [done|unfold connecting|unfold queued]; by rewrite E.
Qed.

(** ... or in the queue. *)
Lemma lock_inv_queue s i b :
  lock_inv (Some i) s -> lock s <> Some i -> free_for_all s = false -> i < length (tasks s) ->
  lock_inv None (set_stage i (Queued b) (with_lock (lock s) (woken s) (waiters s ++ [i]) s)).
Proof.
  intros [[H1 H2 H3 H4] H5] Hl Hf Hi.
  set (s' := set_stage i (Queued b) _).
  assert (tasks s' !! i = Some {| stage_of := Queued b; cancelling := false |}) as E
    by (cbn; by apply list_lookup_insert_eq).
  assert (i ∉ waiters s) as Hni by (rewrite H2; tauto).
  assert (lock s = None -> exists h q, waiters s = h :: q) as Hne.
  { intros El. destruct (waiters s) as [|h q] eqn:Eq; [|eauto].
    unfold free_for_all in Hf. rewrite El, Eq, bool_decide_eq_true_2 in Hf by done. done. }
  split; [split|].
  - intros j _. cbn [lock s' set_stage with_tasks]. destruct (decide (i = j)) as [<-|Hij].
    + unfold connecting. rewrite E. by split.
    + unfold s'. rewrite connecting_set_stage by done. apply H1. congruence.
  - intros j. cbn [waiters s' set_stage with_tasks with_lock]. rewrite elem_of_app, list_elem_of_singleton, H2.
    destruct (decide (i = j)) as [<-|Hij].
    + unfold queued at 2. rewrite E. split; [done|]. by right.
    + unfold s'. rewrite queued_set_stage by done.
      change (queued (with_lock _ _ _ s) j) with (queued s j).
      split; [intros [[]|]; [split; congruence|congruence]|intros []; left; split; congruence].
  - cbn. apply NoDup_app. split; [done|]. split; [set_solver|apply NoDup_singleton].
  - cbn. intros w Hw. destruct (H4 w Hw) as [Hw1 Hw2]. split; [done|]. by destruct (waiters s).
  - intros j El Eh Hcan. cbn in El, Eh. destruct (Hne El) as (h & q & Eq). rewrite Eq in Eh.
    injection Eh as [= ->]. change (woken s = Some j). apply H5; [done|by rewrite Eq|].
    unfold s' in Hcan. rewrite cancelled_set_stage in Hcan; [done|].
    intros <-. apply Hni. rewrite Eq. by left.
Qed.

Lemma lock_inv_wake x s : lock_pre x s -> lock s = None -> lock_inv x (_wake_up_first s).
Proof.
  intros [H1 H2 H3 H4] Hl. unfold _wake_up_first.
  destruct (waiters s) as [|i q] eqn:Eq.
  { split; [split; rewrite ?Eq; done|]. intros j _. by rewrite Eq. }
  destruct (cancelled s i) eqn:Ec.
  - split; [split; rewrite ?Eq; done|]. intros j _. rewrite Eq. intros [= <-]. congruence.
  - split; [split; cbn; [done..|]|]; [by intros j [= <-]|]. by intros j _ [= <-].
Qed.

(** The lock is given back by the task that has it. *)
Lemma lock_inv_release s i :
  lock_pre (Some i) s -> lock s = Some i -> lock_inv (Some i) (release s).
Proof.
  intros [H1 H2 H3 H4] Hl. apply lock_inv_wake; [|done]. split; cbn; [|done..|].
  - intros j Hj. rewrite (H1 j) by done. rewrite Hl. split; congruence.
  - intros w Hw. destruct (H4 w Hw). congruence.
Qed.

(** A running task takes the lock. *)
Lemma lock_inv_take s i :
  lock_pre (Some i) s -> lock s = None -> woken s = None ->
  lock_inv (Some i) (with_lock (Some i) (woken s) (waiters s) s).
Proof.
  intros [H1 H2 H3 H4] Hl Hw. split; [split; cbn; [|done..|congruence]|intros j; cbn; congruence].
  intros j Hj. rewrite (H1 j) by done. rewrite Hl. split; congruence.
Qed.

(** A waiter runs. *)
Lemma lock_inv_unqueue s i : lock_pre None s -> lock_pre (Some i) (unqueue i s).
Proof.
  intros [H1 H2 H3 H4]. split; cbn.
  - intros j _. by apply H1.
  - intros j. rewrite list_elem_of_filter, H2. split.
    + intros [Hj []]. split; [done|]. by intros [= <-].
    + intros [Hj Hij]. split; [by intros ->|done].
  - by apply NoDup_filter.
  - intros w Hw. case_bool_decide as Hi; [done|]. destruct (H4 w Hw) as [Hl Hh]. split; [done|].
    destruct (waiters s) as [|h q]; [done|]. injection Hh as ->.
    by rewrite filter_cons_True by (intros ->; congruence).
Qed.

Lemma lock_inv_same x s s' :
  tasks s' = tasks s -> lock s' = lock s -> woken s' = woken s -> waiters s' = waiters s ->
  lock_inv x s -> lock_inv x s'.
Proof.
  intros Et El Ew Eq [[H1 H2 H3 H4] H5]. unfold lock_inv, awake, connecting, queued, cancelled in *.
  split; [split; unfold connecting, queued|unfold cancelled]; by rewrite ?Et, ?El, ?Ew, ?Eq.
Qed.

Lemma tasks_wake s : tasks (_wake_up_first s) = tasks s.
Proof. unfold _wake_up_first. destruct (waiters s); [done|]. by destruct (cancelled s _). Qed.

Lemma lock_wake s : lock (_wake_up_first s) = lock s.
Proof. unfold _wake_up_first. destruct (waiters s); [done|]. by destruct (cancelled s _). Qed.

Lemma conn_wake s : conn (_wake_up_first s) = conn s.
Proof. unfold _wake_up_first. destruct (waiters s); [done|]. by destruct (cancelled s _). Qed.

Lemma lock_inv_loop_turn cfg i s :
  lock_inv (Some i) s -> lock s <> Some i -> lock_inv None (loop_turn cfg i s).
Proof.
  intros H Hl. unfold loop_turn.
  destruct (negb _); [by apply lock_inv_stop|]. cbv zeta.
  destruct (_ && _); (apply lock_inv_stop; [|done..]); by eapply lock_inv_same; [..|exact H].
Qed.

Lemma lock_inv_connect_over cfg i loop e s :
  lock_inv (Some i) s -> lock s <> Some i -> lock_inv None (connect_over cfg i loop e s).
Proof.
  intros H Hl. destruct loop; [|by apply lock_inv_stop].
  destruct e; [by apply lock_inv_stop..|by apply lock_inv_loop_turn].
Qed.

Lemma lock_inv_enter cfg i loop s :
  lock_pre (Some i) s -> lock s = None -> woken s = None -> i < length (tasks s) ->
  lock_inv None (enter cfg i loop s).
Proof.
  intros H Hl Hw Hi. pose proof (lock_inv_take s i H Hl Hw) as Ht. unfold enter.
  destruct (is_connected _).
  - apply lock_inv_connect_over.
    + apply lock_inv_release; [apply Ht|done].
    + unfold release. by rewrite lock_wake.
  - apply lock_inv_connect; [|done..]. by eapply lock_inv_same; [..|exact Ht].
Qed.

Lemma free_woken x s : lock_pre x s -> free_for_all s = true -> lock s = None /\ woken s = None.
Proof.
  intros [H1 H2 H3 H4] Hf. apply andb_true_iff in Hf as [Hl Hf].
  apply bool_decide_eq_true_1 in Hl. split; [done|].
  destruct (woken s) as [w|] eqn:Ew; [|done]. destruct (H4 w eq_refl) as [_ Hh].
  apply head_elem in Hh. rewrite forallb_forall in Hf. apply list_elem_of_In in Hh.
  apply Hf in Hh. rewrite bool_decide_eq_true_2, andb_false_r in Hh by done. done.
Qed.

Lemma lock_inv_acquire cfg i loop s :
  lock_inv (Some i) s -> lock s <> Some i -> i < length (tasks s) ->
  lock_inv None (acquire cfg i loop s).
Proof.
  intros H Hl Hi. unfold acquire. destruct (free_for_all s) eqn:Ef; [|by apply lock_inv_queue].
  destruct (free_woken _ _ (proj1 H) Ef). by apply lock_inv_enter; [apply H|..].
Qed.

Lemma lock_inv_leave cfg i loop o s :
  lock_inv None s -> connecting s i = true -> lock_inv None (leave cfg i loop o s).
Proof.
  intros H Hc. unfold leave. destruct (connect_ends o (conn s)) as [c e].
  assert (lock s = Some i) as Hl by (apply (li_lock _ _ (proj1 H)); done).
  apply lock_inv_connect_over; [|unfold release; by rewrite lock_wake].
  apply lock_inv_release; [|done]. apply (lock_inv_same _ s); [done..|].
  apply lock_inv_run; [done|]. unfold connecting in Hc. unfold queued.
  destruct (tasks s !! i) as [[[]]|]; done.
Qed.

Lemma lock_inv_spawning s st :
  lock_inv None s ->
  lock_inv (Some (length (tasks s))) (spawn st s) /\ lock s <> Some (length (tasks s)).
Proof.
  intros [[H1 H2 H3 H4] H5]. set (n := length (tasks s)).
  assert (tasks s !! n = None) as En by (by apply lookup_ge_None).
  assert (lock s <> Some n) as Hl.
  { intros E. apply H1 in E; [|done]. unfold connecting in E. by rewrite En in E. }
  assert (forall i, i <> n -> tasks (spawn st s) !! i = tasks s !! i) as Et.
  { intros i Hi. cbn. destruct (decide (i < n)); [by apply lookup_app_l|].
    rewrite !(proj2 (lookup_ge_None _ _)); [done|..]; rewrite ?length_app; cbn; subst n; lia. }
  split; [|done]. split; [split; cbn [lock waiters woken spawn with_tasks]; [| |done..]|].
  - intros i Hi. unfold connecting. rewrite Et by congruence. by apply H1.
  - intros i. rewrite H2. unfold queued. destruct (decide (i = n)) as [->|Hi].
    + rewrite En. by split; intros [].
    + rewrite Et by done. split; intros []; split; congruence.
  - intros i E Eh Hc. apply H5; [done..|]. unfold cancelled in *. rewrite Et in Hc; [done|].
    intros ->. apply head_elem, H2 in Eh as [Eh _]. unfold queued in Eh. by rewrite En in Eh.
Qed.

Lemma lock_inv_spawn s st :
  lock_inv None s -> (forall b, st <> Connecting b) -> (forall b, st <> Queued b) ->
  lock_inv None (spawn st s).
Proof.
  intros H Hc Hq. destruct (lock_inv_spawning s st H) as [Hs Hl].
  eapply lock_inv_same; [| | | |apply (lock_inv_stop _ _ st Hs Hl Hc Hq)]; [|done..].
  cbn. by rewrite insert_app_r_alt, Nat.sub_diag by done.
Qed.

Lemma lock_inv_cancel s j : lock_inv None s -> lock_inv None (cancel j s).
Proof.
  intros H. unfold cancel. destruct (tasks s !! j) as [t|] eqn:Et; [|done].
  destruct (finished _); [done|]. destruct H as [[H1 H2 H3 H4] H5].
  pose proof (lookup_lt_Some _ _ _ Et) as Hj.
  split; [split; cbn [lock waiters woken with_tasks]; [| |done..]|].
  - intros i Hi. rewrite <- H1 by done. unfold connecting. cbn.
    destruct (decide (j = i)) as [<-|Hij]; [by rewrite list_lookup_insert_eq, Et by done; destruct t|].
    by rewrite list_lookup_insert_ne.
  - intros i. rewrite H2. unfold queued. cbn.
    destruct (decide (j = i)) as [<-|Hij]; [by rewrite list_lookup_insert_eq, Et by done; destruct t|].
    by rewrite list_lookup_insert_ne.
  - intros i El Eh Hc. apply H5; [done..|]. unfold cancelled in *. cbn in Hc.
    destruct (decide (j = i)) as [<-|Hij]; [by rewrite list_lookup_insert_eq in Hc by done|].
    by rewrite list_lookup_insert_ne in Hc.
Qed.

Lemma cancelled_task s i t : tasks s !! i = Some t -> cancelled s i = cancelling t.
Proof. unfold cancelled. by intros ->. Qed.

Lemma lock_inv_cancelled_at cfg i t s s' :
  lock_inv None s -> tasks s !! i = Some t -> cancelled_at cfg i (stage_of t) s = Some s' ->
  lock_inv None s'.
Proof.
  intros H Et Hs. pose proof (li_lock _ _ (proj1 H) i) as Hl.
  assert ((forall b, stage_of t <> Connecting b) -> lock s <> Some i) as Hnl.
  { intros Hb El. apply Hl in El; [|done]. unfold connecting in El. rewrite Et in El.
    destruct t as [[| |b|b|j|e]]; try done. by destruct (Hb b). }
  assert (queued s i = match stage_of t with Queued _ => true | _ => false end) as Hq.
  { unfold queued. rewrite Et. by destruct t. }
  assert (connecting s i = match stage_of t with Connecting _ => true | _ => false end) as Hc.
  { unfold connecting. rewrite Et. by destruct t. }
  destruct (stage_of t) eqn:Es; cbn in Hs; simplify_eq.
  - apply lock_inv_stop; [by apply lock_inv_run|by apply Hnl|done..].
  - apply lock_inv_stop; [by apply lock_inv_run|by apply Hnl|done..].
  - assert (lock s <> Some i) as Hi by (by apply Hnl).
    pose proof (lock_inv_unqueue s i (proj1 H)) as Hu.
    change (lock (unqueue i s)) with (lock s).
    apply lock_inv_connect_over.
    + case_bool_decide as El; [by apply lock_inv_wake|]. by split; [|intros j].
    + case_bool_decide; [|done]. by rewrite lock_wake.
  - by apply (lock_inv_leave cfg i loop Cancelled).
Qed.

Lemma lock_inv_do_connect k o s s' o' :
  _do_connect k o s = (s', o') ->
  (lock_inv None s -> lock_inv None s') /\ tasks s' = tasks s /\ lock s' = lock s /\
  conn s' = conn s /\ (o <> Cancelled -> o' <> Cancelled).
Proof.
  intros H. destruct k as [|[]], o; cbn in H; injection H as <- <-; (split; [|done]);
    by (done || apply lock_inv_same).
Qed.

Lemma lock_inv_disconnect_ends x s : lock_inv x s -> lock_inv x (disconnect_ends s).
Proof. by apply lock_inv_same. Qed.

(** The lock stays consistent in every step. *)
Lemma lock_inv_call_disconnect s : lock_inv None s -> lock_inv None (call_disconnect s).
Proof.
  intros H. unfold call_disconnect.
  pose proof (lock_inv_spawn s (Finished Returned) H) as H1.
  pose proof (lock_inv_spawn _ (Finished Returned) (lock_inv_disconnect_ends _ _ H)) as H2.
  assert (forall j, lock_inv None (spawn (AwaitsTask j) (cancel j s))) as H3.
  { intros j. by apply lock_inv_spawn; [apply lock_inv_cancel|..]. }
  specialize (H1 ltac:(done) ltac:(done)). specialize (H2 ltac:(done) ltac:(done)).
  destruct (_state _), (_reconnect_task s) as [j|]; (assumption || by destruct (unfinished s j)).
Qed.

Lemma lock_inv_connection_lost cfg s : lock_inv None s -> lock_inv None (connection_lost cfg s).
Proof.
  intros H. unfold connection_lost. destruct (handle_connection_lost _ _) as [c []].
  - eapply lock_inv_same; [..|apply (lock_inv_spawn s LoopCreated H)]; done.
  - by eapply lock_inv_same; [..|exact H].
Qed.

Lemma lock_inv_step cfg k e s s' : lock_inv None s -> step cfg k e s = Some s' -> lock_inv None s'.
Proof.
  intros H Hs.
  assert (forall i t, tasks s !! i = Some t -> queued s i = false -> connecting s i = false ->
    lock_inv (Some i) s /\ lock s <> Some i /\ i < length (tasks s)) as Hrun.
  { intros i t Et Hq Hc. split; [by apply lock_inv_run|]. split; [|by eapply lookup_lt_Some].
    intros El. apply (li_lock _ _ (proj1 H)) in El; [congruence|done]. }
  destruct e as [| | |i|i|i|i|i o|i|i]; cbn [step] in Hs.
  - injection Hs as <-. destruct (lock_inv_spawning s (Queued false) H) as [H' Hl].
    apply lock_inv_acquire; [done..|]. cbn. rewrite length_app. cbn. lia.
  - injection Hs as <-. by apply lock_inv_call_disconnect.
  - injection Hs as <-. by apply lock_inv_connection_lost.
  - destruct (tasks s !! i) as [[st c]|]; [|done]. cbn in Hs.
    destruct st; simplify_eq; by apply lock_inv_cancel.
  - destruct (tasks s !! i) as [[[] c]|] eqn:Et; try done. cbn in Hs. destruct c; [done|].
    injection Hs as <-. destruct (Hrun i _ Et) as (Hi & Hl & _); [unfold queued, connecting; by rewrite Et..|].
    apply lock_inv_loop_turn; [|done]. by eapply lock_inv_same; [..|exact Hi].
  - destruct (tasks s !! i) as [[[] c]|] eqn:Et; try done. cbn in Hs. destruct c; [done|].
    destruct (Hrun i _ Et) as (Hi & Hl & Hlen); [unfold queued, connecting; by rewrite Et..|].
    destruct (bool_decide _); injection Hs as <-; [by apply lock_inv_stop|by apply lock_inv_acquire].
  - destruct (tasks s !! i) as [[[] c]|] eqn:Et; try done. cbn in Hs.
    destruct (negb c); [|done]. case_bool_decide as Hw; [|done]. injection Hs as <-.
    destruct (li_woken _ _ (proj1 H) i Hw) as [Hl Hh].
    apply lock_inv_enter; [apply lock_inv_unqueue, H|done| |by eapply lookup_lt_Some].
    cbn. by rewrite bool_decide_eq_true_2.
  - destruct (tasks s !! i) as [[[] c]|] eqn:Et; try (by destruct o). cbn in Hs.
    assert (connecting s i = true) as Hc by (unfold connecting; by rewrite Et).
    destruct (_do_connect k o s) as [s1 o1] eqn:Ed.
    destruct (lock_inv_do_connect _ _ _ _ _ Ed) as (H1 & Ht & _).
    assert (lock_inv None (leave cfg i loop o1 s1)) as Hv.
    { apply lock_inv_leave; [by apply H1|]. unfold connecting. by rewrite Ht. }
    by destruct o; simplify_eq.
  - destruct (tasks s !! i) as [t|] eqn:Et; [|done]. cbn in Hs.
    destruct (cancelling t); [|done]. by eapply lock_inv_cancelled_at.
  - destruct (tasks s !! i) as [[[] c]|] eqn:Et; try done. cbn in Hs.
    destruct (unfinished s j); [done|]. injection Hs as <-.
    destruct (Hrun i _ Et) as (Hi & Hl & _); [unfold queued, connecting; by rewrite Et..|].
    apply lock_inv_stop; [|done..]. by eapply lock_inv_same; [..|exact Hi].
Qed.

(** ** The tasks *)

(** The awaits that a task has before it at most. *)
Definition rank (st : stage) : nat :=
  match st with
  | LoopCreated => 4 | Sleeping => 3 | Queued _ => 2 | Connecting _ | AwaitsTask _ => 1
  | Finished _ => 0
  end.

(** A stage of [_reconnect_loop], unless it is over. *)
Definition loop_stage (st : stage) : bool :=
  match st with
  | LoopCreated | Sleeping | Queued true | Connecting true | Finished _ => true
  | _ => false
  end.

(** Task [i] goes on to a stage in [P], and no other task moves. *)
Definition goes (i : nat) (P : stage -> Prop) (s s' : sys) : Prop :=
  _reconnect_task s' = _reconnect_task s /\
  exists st, tasks s' = <[i := {| stage_of := st; cancelling := false |}]> (tasks s) /\ P st.

Lemma goes_mono i (P Q : stage -> Prop) s s0 s' :
  goes i P s s' -> tasks s = tasks s0 -> _reconnect_task s = _reconnect_task s0 ->
  (forall st, P st -> Q st) -> goes i Q s0 s'.
Proof. intros [Hr (st & Et & Hst)] E Er HPQ. split; [congruence|]. exists st. rewrite <- E. auto. Qed.

Lemma goes_stage i (P : stage -> Prop) s st : P st -> goes i P s (set_stage i st s).
Proof. intros H. split; [done|]. by exists st. Qed.

Lemma goes_stage_of i (P : stage -> Prop) s s0 st :
  P st -> tasks s = tasks s0 -> _reconnect_task s = _reconnect_task s0 ->
  goes i P s0 (set_stage i st s).
Proof. intros H E Er. apply (goes_mono i P P s); [by apply goes_stage|done..]. Qed.

Definition turn_stage (st : stage) : Prop := st = Sleeping \/ st = Finished Returned.

Lemma loop_turn_goes cfg i s : goes i turn_stage s (loop_turn cfg i s).
Proof.
  unfold loop_turn. destruct (negb _); [by apply goes_stage; right|]. cbv zeta.
  destruct (_ && _); split; try done; eexists; (split; [done|]); [by right|by left].
Qed.

Lemma loop_turn_over cfg i s :
  _state (conn s) <> RECONNECTING -> loop_turn cfg i s = set_stage i (Finished Returned) s.
Proof. intros H. unfold loop_turn. by rewrite bool_decide_eq_false_2. Qed.

Lemma reconnect_task_wake s : _reconnect_task (_wake_up_first s) = _reconnect_task s.
Proof. unfold _wake_up_first. destruct (waiters s); [done|]. by destruct (cancelled s _). Qed.

Lemma enter_goes cfg i loop s :
  goes i (fun st => st = Finished Returned \/ st = Connecting loop) s (enter cfg i loop s).
Proof.
  unfold enter. destruct (is_connected _).
  - assert (connect_over cfg i loop Returned (release (with_lock (Some i) (woken s) (waiters s) s))
      = set_stage i (Finished Returned) (release (with_lock (Some i) (woken s) (waiters s) s))) as ->
      by (by destruct loop).
    unfold release. apply goes_stage_of; [by left|by rewrite tasks_wake|by rewrite reconnect_task_wake].
  - apply goes_stage_of; [by right|done..].
Qed.

Lemma acquire_goes cfg i loop s :
  goes i (fun st => st = Finished Returned \/ st = Connecting loop \/ st = Queued loop) s
    (acquire cfg i loop s).
Proof.
  unfold acquire. destruct (free_for_all s).
  - eapply goes_mono; [apply enter_goes|done..|]. intros st []; tauto.
  - apply goes_stage_of; [right; by right|done..].
Qed.

(** A task that leaves the wait for the connection is over. *)
Lemma leave_goes cfg i loop o s : goes i (fun st => finished st) s (leave cfg i loop o s).
Proof.
  unfold leave. destruct (connect_ends o (conn s)) as [c e] eqn:E.
  assert (forall u, _state (conn u) = _state c ->
    exists r, connect_over cfg i loop e u = set_stage i (Finished r) u) as Ho.
  { intros u Hu. destruct loop; [|by eexists]. destruct e; [by eexists..|].
    exists Returned. apply loop_turn_over. rewrite Hu.
    destruct o; injection E as <-; try done; by rewrite set_state_state. }
  destruct (Ho (release (with_conn c s))) as [r ->].
  { unfold release. by rewrite conn_wake. }
  unfold release. apply goes_stage_of; [done|by rewrite tasks_wake|by rewrite reconnect_task_wake].
Qed.

Lemma connect_over_goes cfg i loop s :
  goes i (fun st => finished st) s (connect_over cfg i loop RaisedCancelled s).
Proof. destruct loop; by apply goes_stage. Qed.

Lemma cancelled_at_goes cfg i st s s' :
  cancelled_at cfg i st s = Some s' -> goes i (fun st' => finished st') s s' /\ 0 < rank st.
Proof.
  intros H. destruct st; try done; injection H as <-; (split; [|cbn; lia]).
  - by apply goes_stage.
  - by apply goes_stage.
  - eapply goes_mono; [apply connect_over_goes| | |done];
      case_bool_decide; by rewrite ?tasks_wake, ?reconnect_task_wake.
  - apply (leave_goes cfg i loop Cancelled).
Qed.

(** What a step of the event loop does to the tasks. *)
Record runs (i : nat) (t : task) (s s' : sys) : Prop := {
  runs_task : tasks s !! i = Some t;
  runs_goes : exists st, tasks s' = <[i := {| stage_of := st; cancelling := false |}]> (tasks s) /\
    rank st < rank (stage_of t) /\ (forall j, st <> AwaitsTask j) /\
    (loop_stage (stage_of t) -> loop_stage st) /\ (cancelling t -> finished st);
  runs_reconnect : _reconnect_task s' = _reconnect_task s \/ _reconnect_task s' = None
}.

Lemma runs_intro i t s s' (P : stage -> Prop) :
  tasks s !! i = Some t -> goes i P s s' ->
  (forall st, P st -> rank st < rank (stage_of t) /\ (forall j, st <> AwaitsTask j) /\
    (loop_stage (stage_of t) -> loop_stage st) /\ (cancelling t -> finished st)) ->
  runs i t s s'.
Proof. intros Et [Hr (st & Es & Hst)] H. split; [done|exists st; auto|by left]. Qed.

Lemma finished_goes_on (t : task) st :
  0 < rank (stage_of t) -> finished st ->
  rank st < rank (stage_of t) /\ (forall j, st <> AwaitsTask j) /\
  (loop_stage (stage_of t) -> loop_stage st) /\ (cancelling t -> finished st).
Proof. by destruct st. Qed.

(** The task that an event runs. *)
Definition task_of (e : event) : nat :=
  match e with
  | CallConnect | CallDisconnect | ConnectionLost => 0
  | Cancel i | LoopStarts i | SleepEnds i | Granted i | Outcome i _ | CancelledAt i | Resumes i => i
  end.

Lemma internal_runs cfg k e s s' :
  internal e = true -> step cfg k e s = Some s' -> exists t, runs (task_of e) t s s'.
Proof.
  intros He Hs. destruct e as [| | |i|i|i|i|i o|i|i]; try done; cbn [step task_of] in *;
    destruct (tasks s !! i) as [t|] eqn:Et; try done; exists t; cbn in Hs.
  - destruct t as [[] []]; try done. injection Hs as <-.
    eapply runs_intro; [done|eapply goes_mono; [apply loop_turn_goes|done..]|].
    intros st [->| ->]; cbn; (split; [lia|done]).
  - destruct t as [[] []]; try done. cbn in Hs.
    destruct (bool_decide _); injection Hs as <-; (eapply runs_intro; [done| |]).
    + apply goes_stage with (P := fun st => finished st). done.
    + intros st Hst. apply finished_goes_on; [cbn; lia|done].
    + apply acquire_goes.
    + intros st [->|[->| ->]]; cbn; (split; [lia|done]).
  - destruct t as [[] []]; try done. cbn in Hs. destruct (bool_decide _); [|done]. injection Hs as <-.
    eapply runs_intro; [done|eapply goes_mono; [apply enter_goes|done..]|].
    intros st [->| ->]; cbn; (split; [lia|done]).
  - destruct (stage_of t) as [| | |loop| |] eqn:Es; try (by destruct o).
    destruct (_do_connect k o s) as [s1 o1] eqn:Ed.
    destruct (lock_inv_do_connect _ _ _ _ _ Ed) as (_ & Ht & _).
    assert (_reconnect_task s1 = _reconnect_task s) as Hr.
    { destruct k as [|[]], o; cbn in Ed; by injection Ed as <- <-. }
    assert (s' = leave cfg i loop o1 s1) as -> by (by destruct o; simplify_eq).
    eapply runs_intro; [done|eapply goes_mono; [apply leave_goes|done..]|].
    intros st Hst. apply finished_goes_on; [rewrite Es; cbn; lia|done].
  - destruct (cancelling t); [|done]. apply cancelled_at_goes in Hs as [Hg Hrk].
    eapply runs_intro; [done|exact Hg|]. intros st Hst. by apply finished_goes_on.
  - destruct (stage_of t) as [| | | |j|] eqn:Es; try done. destruct (unfinished s j); [done|].
    injection Hs as <-. split; [done| |by right].
    exists (Finished Returned). split; [done|]. apply finished_goes_on; [rewrite Es; cbn; lia|done].
Qed.

(** What [disconnect] cancels is a reconnection loop, and what it waits for is one
    that is over or was cancelled. *)
Definition loop_task (s : sys) (j : nat) : Prop :=
  exists t, tasks s !! j = Some t /\ loop_stage (stage_of t).

Definition doomed (s : sys) (j : nat) : Prop :=
  exists t, tasks s !! j = Some t /\ loop_stage (stage_of t) /\ (finished (stage_of t) \/ cancelling t).

Record wait_inv (s : sys) : Prop := {
  wi_reconnect : forall j, _reconnect_task s = Some j -> loop_task s j;
  wi_awaits : forall i j c, tasks s !! i = Some {| stage_of := AwaitsTask j; cancelling := c |} ->
    doomed s j
}.

(** Tasks only go that way. *)
Definition evolves (s s' : sys) : Prop :=
  forall j t, tasks s !! j = Some t -> exists t', tasks s' !! j = Some t' /\
    (loop_stage (stage_of t) -> loop_stage (stage_of t')) /\
    (finished (stage_of t) \/ cancelling t -> finished (stage_of t') \/ cancelling t').

Lemma loop_task_evolves s s' j : evolves s s' -> loop_task s j -> loop_task s' j.
Proof. intros H (t & Et & Ht). destruct (H j t Et) as (t' & Et' & Hl & _). exists t'. auto. Qed.

Lemma doomed_evolves s s' j : evolves s s' -> doomed s j -> doomed s' j.
Proof. intros H (t & Et & Ht & Hd). destruct (H j t Et) as (t' & Et' & Hl & Hc). exists t'. auto. Qed.

Lemma wait_inv_evolves s s' :
  wait_inv s -> evolves s s' ->
  (forall j, _reconnect_task s' = Some j -> _reconnect_task s = Some j \/ loop_task s' j) ->
  (forall i j c, tasks s' !! i = Some {| stage_of := AwaitsTask j; cancelling := c |} ->
    (exists c', tasks s !! i = Some {| stage_of := AwaitsTask j; cancelling := c' |}) \/ doomed s' j) ->
  wait_inv s'.
Proof.
  intros [H1 H2] He Hr Ha. split.
  - intros j Hj. destruct (Hr j Hj) as [Hj'|]; [|done]. by eapply loop_task_evolves; [|apply H1].
  - intros i j c Hi. destruct (Ha i j c Hi) as [[c' Hc']|]; [|done].
    by eapply doomed_evolves; [|eapply H2].
Qed.

Lemma evolves_spawn st s : evolves s (spawn st s).
Proof.
  intros j t Et. exists t. cbn. split; [|auto]. rewrite lookup_app_l; [done|by eapply lookup_lt_Some].
Qed.

Lemma evolves_trans s1 s2 s3 : evolves s1 s2 -> evolves s2 s3 -> evolves s1 s3.
Proof.
  intros H1 H2 j t Et. destruct (H1 j t Et) as (t' & Et' & Hl & Hc).
  destruct (H2 j t' Et') as (t'' & Et'' & Hl' & Hc'). exists t''. auto.
Qed.

Lemma evolves_cancel i s : evolves s (cancel i s).
Proof.
  intros j t Et. unfold cancel. destruct (tasks s !! i) as [u|] eqn:Eu; [|by exists t].
  destruct (finished _); [by exists t|]. cbn. destruct (decide (i = j)) as [<-|Hij].
  - rewrite Eu in Et. injection Et as ->. eexists. rewrite list_lookup_insert_eq by (by eapply lookup_lt_Some).
    split; [done|]. cbn. auto.
  - exists t. rewrite list_lookup_insert_ne by done. auto.
Qed.

Lemma lookup_spawn st s i t :
  tasks (spawn st s) !! i = Some t ->
  tasks s !! i = Some t \/ (i = length (tasks s) /\ t = {| stage_of := st; cancelling := false |}).
Proof.
  cbn. intros H. apply lookup_app_Some in H as [|[Hi H]]; [by left|right].
  apply list_lookup_singleton_Some in H as [? <-]. split; [lia|done].
Qed.

Lemma awaits_cancel i s k t :
  tasks (cancel i s) !! k = Some t -> exists c, tasks s !! k = Some {| stage_of := stage_of t; cancelling := c |}.
Proof.
  unfold cancel. destruct (tasks s !! i) as [u|] eqn:Eu; [|destruct t; eauto].
  destruct (finished _); [destruct t; eauto|]. cbn.
  intros [[-> [<- _]]|[_ H]]%list_lookup_insert_Some; [|destruct t; eauto].
  rewrite Eu. destruct u; eauto.
Qed.

Lemma wait_inv_runs i t s s' : wait_inv s -> runs i t s s' -> wait_inv s'.
Proof.
  intros H [Et (st & Es & Hrk & Hna & Hl & Hc) Hr].
  pose proof (lookup_lt_Some _ _ _ Et) as Hi.
  apply (wait_inv_evolves s s' H).
  - intros j u Eu. rewrite Es. destruct (decide (i = j)) as [<-|Hij].
    + rewrite Et in Eu. injection Eu as <-. eexists. rewrite list_lookup_insert_eq by done.
      split; [done|]. cbn. split; [done|]. intros [Hf|Hcan]; [|auto].
      destruct (stage_of t); try done. cbn in Hrk. lia.
    + exists u. rewrite list_lookup_insert_ne by done. auto.
  - intros j Hj. left. destruct Hr; congruence.
  - intros k j c Hk. left. rewrite Es in Hk. apply list_lookup_insert_Some in Hk as [[-> [E _]]|[_ Hk]].
    + injection E as E _. by destruct (Hna j E).
    + eauto.
Qed.

Lemma wait_inv_same s s' :
  wait_inv s -> tasks s' = tasks s -> _reconnect_task s' = _reconnect_task s -> wait_inv s'.
Proof.
  intros H Et Er. apply (wait_inv_evolves s); [done|intros j t; rewrite Et; eauto|rewrite Er; auto|].
  intros i j c. rewrite Et. eauto.
Qed.

Lemma doomed_cancel s j : loop_task s j -> unfinished s j = true -> doomed (cancel j s) j.
Proof.
  intros (t & Et & Hl) Hu. unfold unfinished in Hu. rewrite Et in Hu. unfold cancel. rewrite Et.
  destruct (finished (stage_of t)); [done|]. eexists. cbn.
  rewrite list_lookup_insert_eq by (by eapply lookup_lt_Some). split; [done|]. cbn. auto.
Qed.

Lemma wait_inv_step cfg k e s s' : wait_inv s -> step cfg k e s = Some s' -> wait_inv s'.
Proof.
  intros H Hs. destruct (internal e) eqn:He.
  { destruct (internal_runs _ _ _ _ _ He Hs) as [t Hr]. by eapply wait_inv_runs. }
  assert (forall s0 st, wait_inv s0 -> (forall j, st = AwaitsTask j -> doomed s0 j) ->
    wait_inv (spawn st s0)) as Hsp.
  { intros s0 st H0 Hst. apply (wait_inv_evolves s0); [done|apply evolves_spawn|auto|].
    intros i j c Hi. apply lookup_spawn in Hi as [|[_ Hi]]; [left; eauto|].
    injection Hi as <- _. right. eapply doomed_evolves; [apply evolves_spawn|auto]. }
  assert (forall i, wait_inv (cancel i s)) as Hca.
  { intros i. apply (wait_inv_evolves s); [done|apply evolves_cancel| |].
    - intros j Hj. left. unfold cancel in Hj. destruct (tasks s !! i); [|done]. by destruct (finished _).
    - intros i' j c Hk. left. by eapply awaits_cancel in Hk. }
  destruct e as [| | |i|i|i|i|i o|i|i]; try done; cbn [step] in Hs.
  - injection Hs as <-.
    destruct (acquire_goes cfg (length (tasks s)) false (spawn (Queued false) s)) as [Hr (st & Es & Hst)].
    apply (wait_inv_same (spawn st s)); [|by rewrite Es; cbn; rewrite insert_app_r_alt, Nat.sub_diag by lia|done].
    apply Hsp; [done|]. intros j ->. by destruct Hst as [|[]].
  - injection Hs as <-. unfold call_disconnect.
    assert (wait_inv (disconnect_ends s)) as Hd by (by apply (wait_inv_same s)).
    assert (forall s0, wait_inv s0 -> wait_inv (spawn (Finished Returned) s0)) as Hf
      by (intros; by apply Hsp).
    destruct (_state _), (_reconnect_task s) as [j|] eqn:Ej; try (by apply Hf);
      (destruct (unfinished s j) eqn:Eu; [|by apply Hf]);
      (apply Hsp; [apply Hca|intros ? [= <-]; by apply doomed_cancel; [apply (wi_reconnect _ H)|]]).
  - injection Hs as <-. unfold connection_lost. destruct (handle_connection_lost _ _) as [c []];
      [|by apply (wait_inv_same s)].
    apply (wait_inv_evolves (spawn LoopCreated s));
      [by apply Hsp|intros j t ?; exists t; auto| |intros i j b Hi; left; by exists b].
    intros j [= <-]. right.
    exists {| stage_of := LoopCreated; cancelling := false |}. split; [|done].
    cbn. by rewrite lookup_app_r, Nat.sub_diag by lia.
  - destruct (tasks s !! i) as [[[] c]|]; [..|done]; cbn in Hs; injection Hs as <-; apply Hca.
Qed.

(** ** The connection *)

(** The reported changes lead to the state, the lock is held while connecting, and
    a connection has its protocol. *)
Definition conn_ok (c : transport) (l : option nat) (p : bool) : Prop :=
  changes_ok c /\ (_state c = CONNECTING -> l <> None) /\ (_asyncio_transport c -> p).

Definition conn_inv (s : sys) : Prop := conn_ok (conn s) (lock s) (_protocol s).

Lemma link_set_state st c : _asyncio_transport (_set_state st c) = _asyncio_transport c.
Proof. unfold _set_state. by case_bool_decide. Qed.

Lemma conn_ok_set st c l l' p :
  st <> CONNECTING \/ l' <> None -> conn_ok c l p -> conn_ok (_set_state st c) l' p.
Proof.
  intros Hst (H1 & H2 & H3). split; [by apply set_state_ok|]. rewrite set_state_state, link_set_state.
  split; [|done]. intros ->. by destruct Hst.
Qed.

Lemma conn_inv_loop_turn cfg i s : conn_inv s -> conn_inv (loop_turn cfg i s).
Proof.
  intros H. unfold loop_turn. destruct (negb _); [done|]. cbv zeta.
  destruct (_ && _); [|done]. apply (conn_ok_set ERROR _ (lock s)); [by left|done].
Qed.

Lemma conn_inv_connect_over cfg i loop e s : conn_inv s -> conn_inv (connect_over cfg i loop e s).
Proof. intros H. destruct loop; [|done]. destruct e; [done..|by apply conn_inv_loop_turn]. Qed.

Lemma protocol_wake s : _protocol (_wake_up_first s) = _protocol s.
Proof. unfold _wake_up_first. destruct (waiters s); [done|]. by destruct (cancelled s _). Qed.

Lemma conn_inv_release s : conn_ok (conn s) None (_protocol s) -> conn_inv (release s).
Proof. intros H. unfold conn_inv, release. by rewrite conn_wake, lock_wake, protocol_wake. Qed.

Lemma conn_inv_enter cfg i loop s : conn_inv s -> conn_inv (enter cfg i loop s).
Proof.
  intros H. unfold enter. destruct (is_connected _) eqn:Ec.
  - apply conn_inv_connect_over, conn_inv_release. apply bool_decide_eq_true_1 in Ec.
    destruct H as (H1 & _ & H3). split; [done|]. split; [cbn in Ec |- *; congruence|done].
  - apply (conn_ok_set CONNECTING _ (lock s)); [by right|done].
Qed.

Lemma conn_inv_acquire cfg i loop s : conn_inv s -> conn_inv (acquire cfg i loop s).
Proof. intros H. unfold acquire. destruct (free_for_all s); [by apply conn_inv_enter|done]. Qed.

Lemma conn_inv_leave cfg i loop o s :
  conn_inv s -> (o = Established -> _protocol s) -> conn_inv (leave cfg i loop o s).
Proof.
  intros H Ho. unfold leave. destruct (connect_ends o (conn s)) as [c e] eqn:E.
  apply conn_inv_connect_over, conn_inv_release. cbn.
  destruct o; injection E as <- <-; apply (conn_ok_set _ _ (lock s)); try (by left); try done.
  destruct H as (H1 & H2 & _). split; [done|]. split; [done|]. intros _. by apply Ho.
Qed.

Lemma conn_inv_disconnect_ends s : conn_inv s -> conn_inv (disconnect_ends s).
Proof.
  intros H. destruct (conn_ok_set DISCONNECTED (conn s) (lock s) (lock s) (_protocol s)) as (H1 & H2 & _);
    [by left|done|]. by split.
Qed.

Lemma conn_inv_cancelled_at cfg i st s s' :
  conn_inv s -> cancelled_at cfg i st s = Some s' -> conn_inv s'.
Proof.
  intros H Hs. destruct st; try done; injection Hs as <-; [done..| |].
  - apply conn_inv_connect_over. case_bool_decide; [|done].
    unfold conn_inv. by rewrite conn_wake, lock_wake, protocol_wake.
  - by apply (conn_inv_leave cfg i loop Cancelled).
Qed.

Lemma do_connect_protocol k o s s' o' :
  _do_connect k o s = (s', o') ->
  (_protocol s -> _protocol s') /\ (o' = Established -> _protocol s').
Proof. intros H. destruct k as [|[]], o; cbn in H; by injection H as <- <-. Qed.

Lemma conn_inv_cancel i s : conn_inv s -> conn_inv (cancel i s).
Proof. intros H. unfold cancel. destruct (tasks s !! i); [|done]. by destruct (finished _). Qed.

Lemma conn_inv_step cfg k e s s' : conn_inv s -> step cfg k e s = Some s' -> conn_inv s'.
Proof.
  intros H Hs.
  destruct e as [| | |i|i|i|i|i o|i|i]; cbn [step] in Hs;
    try (destruct (tasks s !! i) as [t|] eqn:Et; [|done]; cbn in Hs).
  - injection Hs as <-. by apply conn_inv_acquire.
  - injection Hs as <-. unfold call_disconnect.
    pose proof (conn_inv_disconnect_ends s H) as Hd.
    destruct (_state _), (_reconnect_task s) as [j|]; try done;
      (destruct (unfinished s j); [|done]); by apply conn_inv_cancel.
  - injection Hs as <-. unfold connection_lost, handle_connection_lost. destruct H as (H1 & H2 & H3).
    by destruct (_ && _).
  - destruct (stage_of t); injection Hs as <-; by apply conn_inv_cancel.
  - destruct t as [[] []]; try done. injection Hs as <-. apply conn_inv_loop_turn.
    apply (conn_ok_set _ _ (lock s)); [by left|done].
  - destruct t as [[] []]; try done. cbn in Hs. destruct (bool_decide _); injection Hs as <-;
      [done|by apply conn_inv_acquire].
  - destruct t as [[] []]; try done. cbn in Hs. destruct (bool_decide _); [|done]. injection Hs as <-.
    by apply conn_inv_enter.
  - destruct (stage_of t); try (by destruct o). destruct (_do_connect k o s) as [s1 o1] eqn:Ed.
    destruct (lock_inv_do_connect _ _ _ _ _ Ed) as (_ & _ & El & Ec & _).
    destruct (do_connect_protocol _ _ _ _ _ Ed) as [Hp1 Hp2].
    assert (s' = leave cfg i loop o1 s1) as -> by (by destruct o; simplify_eq).
    apply conn_inv_leave; [|done]. unfold conn_inv. rewrite El, Ec.
    destruct H as (H1 & H2 & H3). split; [done|]. split; [done|]. auto.
  - destruct (cancelling t); [|done]. by eapply conn_inv_cancelled_at.
  - destruct (stage_of t); try done. destruct (unfinished s j); [done|]. injection Hs as <-.
    by apply conn_inv_disconnect_ends.
Qed.

(** ** The invariant *)

Record sys_inv (s : sys) : Prop := {
  si_lock : lock_inv None s;
  si_wait : wait_inv s;
  si_conn : conn_inv s
}.

Lemma sys_inv_init : sys_inv sys_init.
Proof.
  split; [split; [split|done]|split; done|by split].
  - intros i _. by split.
  - intros i. split; [by intros ?%elem_of_nil|by intros []].
  - constructor.
  - done.
Qed.

Lemma sys_inv_step cfg k e s s' : sys_inv s -> step cfg k e s = Some s' -> sys_inv s'.
Proof.
  intros [H1 H2 H3] Hs. split;
    [by eapply lock_inv_step|by eapply wait_inv_step|by eapply conn_inv_step].
Qed.

Lemma sys_inv_steps cfg k es s s' : sys_inv s -> steps cfg k es s = Some s' -> sys_inv s'.
Proof.
  revert s. induction es as [|e es IH]; intros s H Hs; cbn in Hs; [by simplify_eq|].
  destruct (step cfg k e s) as [s1|] eqn:E; [|done]. eapply IH; [|done]. by eapply sys_inv_step.
Qed.

(** ** Progress *)

Definition all_finished (s : sys) : Prop := forall i t, tasks s !! i = Some t -> finished (stage_of t).

Definition awaits_left (s : sys) : nat := sum_list_with (fun t => rank (stage_of t)) (tasks s).

Lemma sum_list_with_insert {A} (f : A -> nat) l i x y :
  l !! i = Some x -> sum_list_with f (<[i := y]> l) + f x = sum_list_with f l + f y.
Proof.
  revert i. induction l as [|z l IH]; intros [|i] H; try done.
  - injection H as ->. cbn. lia.
  - pose proof (IH i H) as E.
    change (f z + sum_list_with f (<[i := y]> l) + f x = f z + sum_list_with f l + f y). lia.
Qed.

Lemma awaits_left_runs i t s s' : runs i t s s' -> awaits_left s' < awaits_left s.
Proof.
  intros [Et (st & Es & Hrk & _) _]. unfold awaits_left. rewrite Es.
  pose proof (sum_list_with_insert (fun t => rank (stage_of t)) (tasks s) i t
    {| stage_of := st; cancelling := false |} Et) as H. cbn in H. lia.
Qed.

Lemma internal_bounded cfg k es s s' :
  forallb internal es = true -> steps cfg k es s = Some s' ->
  length es + awaits_left s' <= awaits_left s.
Proof.
  revert s. induction es as [|e es IH]; intros s Hi Hs; cbn in *; [simplify_eq; lia|].
  apply andb_true_iff in Hi as [He Hi]. destruct (step cfg k e s) as [s1|] eqn:E; [|done].
  destruct (internal_runs _ _ _ _ _ He E) as [t Hr]. apply awaits_left_runs in Hr.
  specialize (IH s1 Hi Hs). lia.
Qed.

Lemma awaits_left_tasks s : awaits_left s <= 4 * length (tasks s).
Proof.
  unfold awaits_left. induction (tasks s) as [|t l IH]; cbn; [lia|].
  assert (rank (stage_of t) <= 4) by (destruct (stage_of t); cbn; lia). lia.
Qed.

(** A task that was cancelled, or that does not wait for another, can run. *)
Lemma cancelled_runs cfg k s i t :
  tasks s !! i = Some t -> cancelling t = true -> loop_stage (stage_of t) ->
  finished (stage_of t) = false -> exists s', step cfg k (CancelledAt i) s = Some s'.
Proof.
  intros Et Hc Hl Hf. cbn. rewrite Et. cbn. rewrite Hc. destruct (stage_of t); try done; by eexists.
Qed.

Lemma connecting_runs cfg k s i :
  connecting s i = true -> exists s', step cfg k (Outcome i Refused) s = Some s'.
Proof.
  unfold connecting. intros H. cbn. destruct (tasks s !! i) as [[[] c]|]; try done. cbn.
  destruct (_do_connect k Refused s). by eexists.
Qed.

(** If a task waits then some task can run. *)
Lemma progress cfg k s i t :
  sys_inv s -> tasks s !! i = Some t -> finished (stage_of t) = false ->
  exists e s', internal e = true /\ step cfg k e s = Some s'.
Proof.
  intros [[Hl Hw] [_ Ha] _] Et Hf.
  assert (forall j u, tasks s !! j = Some u -> queued s j = true ->
    (cancelling u = true \/ (lock s = None /\ head (waiters s) = Some j)) ->
    exists e s', internal e = true /\ step cfg k e s = Some s') as Hq.
  { intros j u Eu Hq Hj. unfold queued in Hq. rewrite Eu in Hq. destruct u as [[] []]; try done.
    - exists (CancelledAt j). cbn. rewrite Eu. cbn. by eexists.
    - destruct Hj as [|[El Eh]]; [done|]. exists (Granted j). cbn. rewrite Eu. cbn.
      rewrite (Hw j El Eh) by (by rewrite (cancelled_task _ _ _ Eu)).
      rewrite bool_decide_eq_true_2 by done. by eexists. }
  destruct (stage_of t) as [| |b|b|j|] eqn:Es; [| | | | |done].
  - destruct (cancelling t) eqn:Ec; [exists (CancelledAt i)|exists (LoopStarts i)];
      cbn; rewrite Et; cbn; rewrite ?Es, Ec; by eexists.
  - destruct (cancelling t) eqn:Ec; [exists (CancelledAt i)|exists (SleepEnds i)];
      cbn; rewrite Et; cbn; rewrite ?Es, Ec; [by eexists|]. destruct (bool_decide _); by eexists.
  - assert (queued s i = true) as Hi by (unfold queued; rewrite Et; by destruct t as [[] ?]).
    destruct (lock s) as [h|] eqn:El.
    + destruct (connecting_runs cfg k s h) as [s' Hs']; [by apply (li_lock _ _ Hl)|by exists (Outcome h Refused), s'].
    + assert (i ∈ waiters s) as Hin by (by apply (li_waiters _ _ Hl)).
      destruct (waiters s) as [|h q] eqn:Eq; [by apply elem_of_nil in Hin|].
      assert (queued s h = true) as Hh by (apply (li_waiters _ _ Hl); rewrite Eq; by left).
      destruct (tasks s !! h) as [u|] eqn:Eu; [|unfold queued in Hh; by rewrite Eu in Hh].
      apply (Hq h u); [done..|by right].
  - destruct (connecting_runs cfg k s i) as [s' Hs']; [|by exists (Outcome i Refused), s'].
    unfold connecting. rewrite Et. by destruct t as [[] ?].
  - assert (exists c, tasks s !! i = Some {| stage_of := AwaitsTask j; cancelling := c |}) as [c Ei].
    { exists (cancelling t). by rewrite Et; destruct t as [? ?]; cbn in Es; subst. }
    destruct (Ha i j c Ei) as (u & Eu & Hlu & Hu). destruct (finished (stage_of u)) eqn:Ef.
    + exists (Resumes i). cbn. rewrite Et. cbn. rewrite Es. unfold unfinished. rewrite Eu, Ef. by eexists.
    + destruct Hu as [Hu|Hu]; [done|]. apply Is_true_eq_true in Hu.
      destruct (cancelled_runs cfg k s j u) as [s' Hs']; [done..|].
      by exists (CancelledAt j), s'.
Qed.

Lemma all_finished_dec s : all_finished s \/ exists i t, tasks s !! i = Some t /\ finished (stage_of t) = false.
Proof.
  destruct (decide (Forall (fun t => finished (stage_of t) = true) (tasks s))) as [H|H].
  - left. intros i t Et. rewrite Forall_lookup in H. by rewrite (H i t Et).
  - right. apply not_Forall_Exists, Exists_exists in H as (t & Hin & Ht); [|apply _].
    apply list_elem_of_lookup in Hin as [i Hi]. exists i, t. split; [done|]. by apply not_true_is_false.
Qed.

Lemma all_finished_free s : lock_inv None s -> all_finished s -> lock s = None /\ waiters s = [].
Proof.
  intros [[H1 H2 _ _] _] H. split.
  - destruct (lock s) as [i|] eqn:E; [|done]. assert (connecting s i = true) as Hc by (by apply H1).
    unfold connecting in Hc. destruct (tasks s !! i) as [t|] eqn:Et; [|done].
    specialize (H i t Et). by destruct t as [[] ?].
  - destruct (waiters s) as [|i q] eqn:E; [done|].
    assert (queued s i = true) as Hq by (apply H2; by left).
    unfold queued in Hq. destruct (tasks s !! i) as [t|] eqn:Et; [|done].
    specialize (H i t Et). by destruct t as [[] ?].
Qed.

Lemma runs_to_end cfg k n s :
  sys_inv s -> awaits_left s <= n ->
  exists es s', forallb internal es = true /\ steps cfg k es s = Some s' /\ all_finished s'.
Proof.
  revert s. induction n as [|n IH]; intros s H Hn;
    (destruct (all_finished_dec s) as [Hf|(i & t & Et & Hf)]; [by exists [], s|];
     destruct (progress cfg k s i t H Et Hf) as (e & s1 & He & Hs);
     destruct (internal_runs _ _ _ _ _ He Hs) as [u Hr]; apply awaits_left_runs in Hr; try lia).
  destruct (IH s1) as (es & s' & Hes & Hs' & Hend); [by eapply sys_inv_step|lia|].
  exists (e :: es), s'. cbn. by rewrite He, Hs.
Qed.

(** ** Disconnecting *)

(** The connection is closed, and nothing is left of it. *)
Definition settled (s : sys) : Prop :=
  _state (conn s) = DISCONNECTED /\ _asyncio_transport (conn s) = false /\ _protocol s = false.

Lemma disconnect_ends_settled s : settled (disconnect_ends s).
Proof. split; [apply set_state_state|done]. Qed.

(** [disconnect], task [d], waits for the loop [j], or all is over. *)
Definition settling (j d : nat) (s : sys) : Prop :=
  (doomed s j /\ (exists c, tasks s !! d = Some {| stage_of := AwaitsTask j; cancelling := c |}) /\
   forall i, unfinished s i = true -> i = j \/ i = d) \/
  (all_finished s /\ settled s).

Lemma all_finished_unfinished s : (forall i, unfinished s i = false) <-> all_finished s.
Proof.
  unfold unfinished. split.
  - intros H i t Et. specialize (H i). rewrite Et in H. by destruct (finished _).
  - intros H i. destruct (tasks s !! i) as [t|] eqn:Et; [|done]. specialize (H i t Et).
    by destruct (finished _).
Qed.

Lemma unfinished_insert s s' i st k :
  tasks s' = <[i := {| stage_of := st; cancelling := false |}]> (tasks s) ->
  unfinished s' k = true -> (i = k /\ finished st = false) \/ (i <> k /\ unfinished s k = true).
Proof.
  intros Es. unfold unfinished. rewrite Es. destruct (decide (i = k)) as [<-|Hik].
  - destruct (decide (i < length (tasks s))) as [Hi|Hi].
    + rewrite list_lookup_insert_eq by done. cbn. left. by destruct (finished st).
    + rewrite list_insert_ge, (proj2 (lookup_ge_None _ _)) by lia. done.
  - rewrite list_lookup_insert_ne by done. by right.
Qed.

Lemma settling_step cfg k j d e s s' :
  settling j d s -> internal e = true -> step cfg k e s = Some s' -> settling j d s'.
Proof.
  intros H He Hs. destruct (internal_runs _ _ _ _ _ He Hs) as [t Hr].
  set (i := task_of e) in *. pose proof (runs_task _ _ _ _ Hr) as Et.
  destruct Hr as [_ (st & Es & Hrk & _ & Hl & Hc) _].
  assert (finished (stage_of t) = false) as Hf by (destruct (stage_of t); cbn in Hrk |- *; (done || lia)).
  destruct H as [(Hd & [c Ed] & Hu)|[Hall _]]; [|specialize (Hall i t Et); by rewrite Hf in Hall].
  destruct (Hu i) as [Hi|Hi]; [unfold unfinished; by rewrite Et, Hf| |].
  - left. destruct Hd as (u & Eu & Hlu & Hfu). rewrite <- Hi, Et in Eu. injection Eu as <-.
    assert (finished st) as Hst by (apply Hc; destruct Hfu as [Hfu|]; [by rewrite Hf in Hfu|done]).
    assert (i <> d) as Hid.
    { intros E. rewrite E, Ed in Et. by injection Et as <-. }
    split; [|split].
    + exists {| stage_of := st; cancelling := false |}. rewrite Es, Hi, list_lookup_insert_eq; [cbn; auto|].
      rewrite <- Hi. by eapply lookup_lt_Some.
    + exists c. by rewrite Es, list_lookup_insert_ne.
    + intros m Hm. destruct (unfinished_insert _ _ _ _ _ Es Hm) as [[<- Hm']|[_ Hm']]; [|auto].
      by rewrite Hm' in Hst.
  - right. rewrite Hi, Ed in Et. injection Et as <-.
    destruct e as [| | |n|n|n|n|n o|n|n]; try done; unfold i in *; cbn in Hi; subst n;
      cbn in Hs; rewrite Ed in Hs; cbn in Hs; try done; try (by destruct o); try (by destruct c).
    destruct (unfinished s j) eqn:Ej; [done|]. injection Hs as <-.
    split; [|apply disconnect_ends_settled]. apply all_finished_unfinished. intros m.
    apply not_true_is_false. intros Hm.
    destruct (unfinished_insert _ _ _ _ m Es Hm) as [[_ Hst]|[Hdm Hm']].
    + destruct st; cbn in Hrk, Hst; (done || lia).
    + cbn in Hdm. destruct (Hu m Hm') as [->|]; congruence.
Qed.

Lemma settling_steps cfg k j d es s s' :
  settling j d s -> forallb internal es = true -> steps cfg k es s = Some s' -> settling j d s'.
Proof.
  revert s. induction es as [|e es IH]; intros s H Hi Hs; cbn in *; [by simplify_eq|].
  apply andb_true_iff in Hi as [He Hi]. destruct (step cfg k e s) as [s1|] eqn:E; [|done].
  eapply IH; [|done..]. by eapply settling_step.
Qed.

(** ** With one coroutine *)

Lemma outcome_step cfg k s i loop c o :
  tasks s !! i = Some {| stage_of := Connecting loop; cancelling := c |} -> o <> Cancelled ->
  step cfg k (Outcome i o) s = Some (let '(s, o) := _do_connect k o s in leave cfg i loop o s).
Proof.
  intros Et Ho. cbn [step]. rewrite Et. cbn [mbind option_bind run_task stage_of].
  destruct o; [..|done]; by destruct (_do_connect k _ s).
Qed.

(** The call of a coroutine from outside leaves the lock. *)
Lemma leave_alone cfg i o s :
  let '(c, e) := connect_ends o (conn s) in
  let s' := leave cfg i false o s in
  conn s' = c /\ lock s' = None /\
  tasks s' = <[i := {| stage_of := Finished e; cancelling := false |}]> (tasks s).
Proof.
  unfold leave. destruct (connect_ends o (conn s)) as [c e]. unfold connect_over, release. cbn.
  by rewrite conn_wake, lock_wake, tasks_wake.
Qed.

(** Alone, a call of [connect] does what that of [Transport] does. *)
Theorem connect_alone cfg s o :
  lock s = None -> waiters s = [] -> o <> Cancelled -> is_connected (conn s) = false ->
  exists s', steps cfg Tcp [CallConnect; Outcome (length (tasks s)) o] s = Some s' /\
    conn s' = (connect o (conn s)).1 /\ lock s' = None /\
    tasks s' = tasks s ++ [{| stage_of := Finished (connect o (conn s)).2; cancelling := false |}].
Proof.
  intros Hl Hw Ho Hc. set (n := length (tasks s)).
  set (s1 := set_stage n (Connecting false) (with_conn (connect_starts (conn s))
    (with_lock (Some n) (woken s) (waiters s) (spawn (Queued false) s)))).
  assert (step cfg Tcp CallConnect s = Some s1) as H1.
  { cbn [step]. unfold acquire, free_for_all. cbn [lock waiters spawn with_tasks].
    rewrite Hl, Hw, bool_decide_eq_true_2 by done. cbn [forallb andb]. unfold enter. cbn [conn with_lock].
    change (conn (spawn (Queued false) s)) with (conn s). rewrite Hc. reflexivity. }
  assert (tasks s1 = tasks s ++ [{| stage_of := Connecting false; cancelling := false |}]) as Et.
  { cbn. subst n. by rewrite insert_app_r_alt, Nat.sub_diag by lia. }
  assert (tasks s1 !! n = Some {| stage_of := Connecting false; cancelling := false |}) as En.
  { rewrite Et. subst n. by rewrite lookup_app_r, Nat.sub_diag by lia. }
  set (s2 := (_do_connect Tcp o s1).1).
  assert (_do_connect Tcp o s1 = (s2, o) /\ conn s2 = connect_starts (conn s) /\ tasks s2 = tasks s1)
    as (Hd & Hc2 & Ht2) by (by destruct o).
  exists (leave cfg n false o s2). unfold steps. rewrite H1. cbn [mbind option_bind].
  rewrite (outcome_step _ _ _ _ _ _ _ En Ho), Hd. cbn [mbind option_bind]. split; [done|].
  pose proof (leave_alone cfg n o s2) as Hv. rewrite Hc2 in Hv. unfold connect. rewrite Hc.
  destruct (connect_ends o _) as [c e]. destruct Hv as (Hv1 & Hv2 & Hv3). split; [done|]. split; [done|].
  rewrite Hv3, Ht2, Et. subst n. by rewrite insert_app_r_alt, Nat.sub_diag by lia.
Qed.

Definition loss_config : TransportConfig := {| reconnect := true; max_reconnect_attempts := 0 |}.

Example connect_alone_witness :
  exists s', steps loss_config Tcp [CallConnect; Outcome 0 Established] sys_init = Some s' /\
    conn s' = connected_transport /\ lock s' = None /\
    tasks s' = [{| stage_of := Finished Returned; cancelling := false |}].
Proof. exact (connect_alone loss_config sys_init Established eq_refl eq_refl ltac:(done) eq_refl). Defined.

(** A [disconnect] of a connected transport does what that of [Transport] does. *)
Theorem disconnect_alone cfg k s :
  unfinished s (default (length (tasks s)) (_reconnect_task s)) = false ->
  step cfg k CallDisconnect s = Some (spawn (Finished Returned)
    (if bool_decide (_state (conn s) = DISCONNECTED) then s else disconnect_ends s)) /\
  forall s', step cfg k CallDisconnect s = Some s' -> conn s' = disconnect (conn s).
Proof.
  intros Hu. assert (step cfg k CallDisconnect s = Some (spawn (Finished Returned)
    (if bool_decide (_state (conn s) = DISCONNECTED) then s else disconnect_ends s))) as E.
  { cbn [step]. unfold call_disconnect. destruct (_state (conn s)), (_reconnect_task s);
      cbn in Hu; rewrite ?Hu; done. }
  split; [done|]. intros s' Hs. rewrite E in Hs. injection Hs as <-. unfold disconnect.
  destruct (_state (conn s)) eqn:Es; try (by rewrite bool_decide_eq_true_2);
    rewrite bool_decide_eq_false_2 by done; cbn; unfold _set_state; rewrite Es; by rewrite bool_decide_eq_false_2.
Qed.

Example disconnect_alone_witness : exists s,
  steps loss_config Tcp [CallConnect; Outcome 0 Established] sys_init = Some s /\
  forall s', step loss_config Tcp CallDisconnect s = Some s' -> conn s' = disconnect (conn s).
Proof.
  eexists. split; [reflexivity|]. refine (proj2 (disconnect_alone loss_config Tcp _ _)). reflexivity.
Defined.

(** ** Properties *)

(** C9. However calls of connect, disconnect and handle_connection_lost, their
    cancellations, the outcomes of connecting and the tasks of one transport
    interleave: at most one task has a connection in the making, it is the one
    that holds the lock, and the transport is CONNECTING only then; the queue of
    the lock is exactly the tasks that stopped at it, each once, only its head is
    ever woken, and a head that was not cancelled is woken as soon as the lock is
    free; disconnect waits only for a reconnection loop that is over or was
    cancelled; a connection has its protocol; and the reported changes of state
    lead to the state. *)
Theorem coroutines_consistent cfg k es s :
  steps cfg k es sys_init = Some s ->
  (forall i j, connecting s i = true -> connecting s j = true -> i = j) /\
  (forall i, connecting s i = true <-> lock s = Some i) /\
  (_state (conn s) = CONNECTING -> exists i, connecting s i = true) /\
  (forall i, i ∈ waiters s <-> queued s i = true) /\ NoDup (waiters s) /\
  (forall i, woken s = Some i -> lock s = None /\ head (waiters s) = Some i) /\
  (forall i, lock s = None -> head (waiters s) = Some i -> cancelled s i = false -> woken s = Some i) /\
  (forall i j c, tasks s !! i = Some {| stage_of := AwaitsTask j; cancelling := c |} -> doomed s j) /\
  (_asyncio_transport (conn s) = true -> _protocol s = true) /\
  changes_ok (conn s).
Proof.
  intros Hs. destruct (sys_inv_steps _ _ _ _ _ sys_inv_init Hs)
    as [[[Hl Hq Hn Hw] Ha] [_ Hd] (Hch & Hco & Hp)].
  assert (forall i, connecting s i = true <-> lock s = Some i) as Hl' by (intros i; by apply Hl).
  split; [intros i j Hi%Hl' Hj%Hl'; congruence|]. split; [done|]. split.
  { intros E. destruct (lock s) as [i|] eqn:El; [|by destruct (Hco E)]. exists i. by apply Hl'. }
  split; [intros i; rewrite Hq; split; [by intros []|done]|].
  repeat (split; [done|]). split; [|done]. intros E. rewrite E in Hp. by apply Is_true_eq_true, Hp.
Qed.

(** Two callers and a loss: the first is connecting, the second waits, and the
    loop has not started. *)
Example coroutines_consistent_witness : exists s,
  steps loss_config Tcp [CallConnect; CallConnect; ConnectionLost] sys_init = Some s /\
  waiters s = [1] /\ forall i, connecting s i = true <-> lock s = Some i.
Proof.
  eexists. split; [reflexivity|]. split; [reflexivity|].
  apply (coroutines_consistent loss_config Tcp [CallConnect; CallConnect; ConnectionLost] _ eq_refl).
Defined.

(** C10. No coroutine of a transport waits for ever and none goes on for ever: from
    any state that calls and tasks lead to, once nobody calls any more, every
    sequence of steps of the event loop is at most four for each task long, the
    tasks can all be run to their end, and where no step is left they are all
    over, with the lock free and nobody in its queue. In particular no loop of
    reconnections goes on for more than one attempt. *)
Theorem coroutines_end cfg k es s :
  steps cfg k es sys_init = Some s ->
  (forall es' s', forallb internal es' = true -> steps cfg k es' s = Some s' ->
    length es' <= 4 * length (tasks s) /\
    ((forall e, internal e = true -> step cfg k e s' = None) ->
      all_finished s' /\ lock s' = None /\ waiters s' = [])) /\
  exists es' s', forallb internal es' = true /\ steps cfg k es' s = Some s' /\ all_finished s'.
Proof.
  intros Hs. pose proof (sys_inv_steps _ _ _ _ _ sys_inv_init Hs) as H. split.
  - intros es' s' Hi Hs'. split.
    + pose proof (internal_bounded _ _ _ _ _ Hi Hs'). pose proof (awaits_left_tasks s). lia.
    + intros Hno. pose proof (sys_inv_steps _ _ _ _ _ H Hs') as H'.
      assert (all_finished s') as Hall.
      { destruct (all_finished_dec s') as [|(i & t & Et & Hf)]; [done|].
        destruct (progress cfg k s' i t H' Et Hf) as (e & s1 & He & Hs1). rewrite (Hno e He) in Hs1. done. }
      split; [done|]. apply all_finished_free; [apply H'|done].
  - by apply (runs_to_end cfg k (awaits_left s)).
Qed.

(** A caller that waits behind one that is cancelled, and a loop. *)
Example coroutines_end_witness :
  exists s, steps loss_config Tcp [CallConnect; CallConnect; Cancel 0; ConnectionLost] sys_init = Some s /\
  exists es' s', forallb internal es' = true /\ steps loss_config Tcp es' s = Some s' /\ all_finished s'.
Proof.
  let s := eval vm_compute in (default sys_init (steps loss_config Tcp
    [CallConnect; CallConnect; Cancel 0; ConnectionLost] sys_init)) in exists s.
  split; [vm_compute; reflexivity|].
  apply (coroutines_end loss_config Tcp [CallConnect; CallConnect; Cancel 0; ConnectionLost]).
  vm_compute. reflexivity.
Defined.

(** [disconnect] with nothing but the reconnection loop of the last loss under
    way ends every run disconnected, without connection or protocol, and with
    nothing left to change that. *)
Theorem disconnect_settles cfg k es s s1 es' s' :
  steps cfg k es sys_init = Some s ->
  _state (conn s) <> DISCONNECTED ->
  (forall i, unfinished s i = true -> _reconnect_task s = Some i) ->
  step cfg k CallDisconnect s = Some s1 ->
  forallb internal es' = true -> steps cfg k es' s1 = Some s' ->
  (forall e, internal e = true -> step cfg k e s' = None) ->
  all_finished s' /\ settled s'.
Proof.
  intros Hs Hst Hu H1 Hi Hs' Hno. pose proof (sys_inv_steps _ _ _ _ _ sys_inv_init Hs) as H.
  pose proof (sys_inv_step _ _ _ _ _ H H1) as HI1. pose proof (sys_inv_steps _ _ _ _ _ HI1 Hs') as HI'.
  assert (exists j d, settling j d s1) as (j & d & Hd).
  { cbn [step] in H1. injection H1 as <-. unfold call_disconnect in *.
    assert ((forall i, unfinished s i = false) ->
      settling 0 0 (spawn (Finished Returned) (disconnect_ends s))) as Hend.
    { intros Hall. right. split; [|apply disconnect_ends_settled]. intros i t Et.
      apply lookup_spawn in Et as [Et|[_ ->]]; [|done]. by apply (proj1 (all_finished_unfinished s) Hall i t). }
    assert (forall j, _reconnect_task s = Some j -> unfinished s j = true ->
      settling j (length (tasks s)) (spawn (AwaitsTask j) (cancel j s))) as Hwait.
    { intros j Ej Eu. left.
      assert (length (tasks (cancel j s)) = length (tasks s)) as Hlen.
      { unfold cancel. destruct (tasks s !! j); [|done]. destruct (finished _); [done|].
        cbn. by rewrite length_insert. }
      split; [|split].
      - eapply doomed_evolves; [apply evolves_spawn|]. apply doomed_cancel; [|done].
        by apply (wi_reconnect _ (si_wait _ H)).
      - exists false. cbn. by rewrite <- Hlen, lookup_app_r, Nat.sub_diag by lia.
      - intros i Hui. unfold unfinished in Hui.
        destruct (tasks (spawn (AwaitsTask j) (cancel j s)) !! i) as [t|] eqn:Et; [|done].
        apply lookup_spawn in Et as [Et|[-> _]]; [left|right; done].
        apply awaits_cancel in Et as [c Et]. assert (unfinished s i = true) as Hi'
          by (unfold unfinished; rewrite Et; done).
        specialize (Hu i Hi'). congruence. }
    assert (_reconnect_task s = None -> forall i, unfinished s i = false) as Hnone.
    { intros E i. apply not_true_is_false. intros Hi'. specialize (Hu i Hi'). congruence. }
    assert (forall j, _reconnect_task s = Some j -> unfinished s j = false ->
      forall i, unfinished s i = false) as Hdone.
    { intros j Ej Eu i. apply not_true_is_false. intros Hi'. specialize (Hu i Hi'). congruence. }
    destruct (_state (conn s)); try done;
      (destruct (_reconnect_task s) as [j|]; [destruct (unfinished s j) eqn:Eu|]); eauto. }
  destruct (settling_steps _ _ _ _ _ _ _ Hd Hi Hs') as [(_ & [c Ec] & _)|]; [|done].
  destruct (progress cfg k s' d _ HI' Ec eq_refl) as (e & s2 & He & Hs2). by rewrite (Hno e He) in Hs2.
Qed.

(** A loss while connected, and a caller that disconnects while the loop sleeps. *)
Example disconnect_settles_witness : exists s',
  steps loss_config Tcp [CallConnect; Outcome 0 Established; ConnectionLost; LoopStarts 1;
    CallDisconnect; CancelledAt 1; Resumes 2] sys_init = Some s' /\ all_finished s' /\ settled s'.
Proof.
  let s' := eval vm_compute in (default sys_init (steps loss_config Tcp
    [CallConnect; Outcome 0 Established; ConnectionLost; LoopStarts 1; CallDisconnect; CancelledAt 1;
     Resumes 2] sys_init)) in exists s'.
  split; [vm_compute; reflexivity|].
  let s0 := eval vm_compute in (default sys_init (steps loss_config Tcp
    [CallConnect; Outcome 0 Established; ConnectionLost; LoopStarts 1] sys_init)) in
  let s1 := eval vm_compute in (default sys_init (step loss_config Tcp CallDisconnect s0)) in
  apply (disconnect_settles loss_config Tcp
    [CallConnect; Outcome 0 Established; ConnectionLost; LoopStarts 1] s0 s1 [CancelledAt 1; Resumes 2]);
    try (vm_compute; reflexivity).
  - discriminate.
  - intros [|[|i]] H; [discriminate H|reflexivity|discriminate H].
  - intros e H. destruct e as [| | |i|i|i|i|i o|i|i]; try discriminate H;
      destruct i as [|[|[|i]]]; try reflexivity; destruct o; reflexivity.
Defined.

(** What [disconnect] does not settle. A caller that is connecting is neither
    cancelled nor waited for, and connects after [disconnect] has returned. *)
Example disconnect_overtaken :
  (s ← steps loss_config Tcp [CallConnect; CallDisconnect; Outcome 0 Established] sys_init;
   Some (map stage_of (tasks s), _state (conn s)))
  = Some ([Finished Returned; Finished Returned], CONNECTED).
Proof. vm_compute. reflexivity. Qed.

(** After two losses only the second loop is cancelled. *)
Example first_loop_survives :
  (s ← steps loss_config Tcp [CallConnect; Outcome 0 Established; ConnectionLost; LoopStarts 1;
     SleepEnds 1; ConnectionLost; CallDisconnect; CancelledAt 2; Resumes 3; Outcome 1 Established] sys_init;
   Some (map stage_of (tasks s), _state (conn s)))
  = Some ([Finished Returned; Finished Returned; Finished RaisedCancelled; Finished Returned], CONNECTED).
Proof. vm_compute. reflexivity. Qed.

(** A loss leaves the state [CONNECTED] until the loop starts, which it never does
    without [reconnect]: [connect] returns at once, and nothing is connected. *)
Theorem connect_after_loss cfg k s :
  sys_inv s -> is_connected (conn s) = true -> lock s = None -> waiters s = [] ->
  reconnect cfg = false ->
  exists s', steps cfg k [ConnectionLost; CallConnect] s = Some s' /\
    tasks s' = tasks s ++ [{| stage_of := Finished Returned; cancelling := false |}] /\
    is_connected (conn s') = true /\ _asyncio_transport (conn s') = false.
Proof.
  intros H Hc Hl Hw Hr. cbn [steps step mbind option_bind]. eexists. split; [reflexivity|].
  unfold connection_lost, handle_connection_lost. rewrite Hr. cbn [andb].
  unfold acquire, free_for_all. cbn [lock waiters woken spawn with_tasks with_conn].
  rewrite Hl, Hw, bool_decide_eq_true_2 by done. cbn [forallb andb]. unfold enter.
  cbn [conn with_lock with_conn spawn with_tasks].
  change (is_connected (with_link false (_reconnect_attempts (conn s)) (conn s)))
    with (is_connected (conn s)). rewrite Hc. unfold connect_over, release. cbn.
  rewrite tasks_wake, conn_wake. cbn. rewrite insert_app_r_alt, Nat.sub_diag by lia. done.
Qed.

Example connect_after_loss_witness : exists s',
  steps {| reconnect := false; max_reconnect_attempts := 0 |} Tcp
    [CallConnect; Outcome 0 Established; ConnectionLost; CallConnect] sys_init = Some s' /\
  is_connected (conn s') = true /\ _asyncio_transport (conn s') = false.
Proof.
  set (cfg := {| reconnect := false; max_reconnect_attempts := 0 |}).
  destruct (connect_after_loss cfg Tcp (default sys_init
    (steps cfg Tcp [CallConnect; Outcome 0 Established] sys_init))) as (s' & H1 & _ & H2 & H3);
    [|done..|].
  - by apply (sys_inv_steps cfg Tcp [CallConnect; Outcome 0 Established] sys_init); [apply sys_inv_init|].
  - exists s'. split; [exact H1|]. split; [exact H2|exact H3].
Defined.
