(* ===== verification/VectorFiles.v ===== *)
(** * The vector programs: [main] of [generate_vectors.py] and [verify_vectors.py]

    The generator of [src/rust-migration-harness] writes the seven suites of
    [Suites] to files and checks its fixture; the checker reads the files back and
    ends with an exit code. A line of a file is the record it encodes; the text of
    JSON is left out, and so is the directory of the files. *)

From Stdlib Require Import String.
From stdpp Require Import strings gmap options.
From S2P Require Import Prelude Common Text Topics Gateway PyJson Vectors Suites Toolkit.

Local Open Scope string_scope.
Local Open Scope list_scope.
Local Open Scope nat_scope.

(** ** Files and output *)

(** What the programs print. *)
Inductive printed :=
| Generating
| Written (name : string) (n : nat)
| DocumentWritten (name : string)
| TotalWritten (n : nat)
| FileChecked (name : string) (ok n : nat) (pass : bool)
| Failure (vid : json) (why : string + complaint)
| MoreFailures (n : nat)
| TotalChecked (passed total : nat).

(** The files of [VEC_DIR], the expectations in [FIX_DIR], and the output. *)
Record world := {
  vec_dir : gmap string (list json);
  fix_dir : option json;
  output : list printed
}.

Definition prints (l : list printed) (w : world) : world :=
  {| vec_dir := vec_dir w; fix_dir := fix_dir w; output := output w ++ l |}.

(** ** The generator *)

(** [write_jsonl] *)
Definition write_jsonl (name : string) (vecs : list json) (w : world) : world * nat :=
  (prints [Written name (length vecs)]
     {| vec_dir := <[name := vecs]> (vec_dir w); fix_dir := fix_dir w; output := output w |},
   length vecs).

(** The seven calls of [main]; the counters of identifiers are global. *)
Definition suites_written : list (string * gen unit) :=
  [("decode_from_pci.jsonl", gen_decode_from_pci); ("decode_to_pci.jsonl", gen_decode_to_pci);
   ("encode.jsonl", gen_encode); ("checksum.jsonl", gen_checksum);
   ("ramp_rates.jsonl", gen_ramp_rates); ("mqtt_topics.jsonl", gen_mqtt_topics);
   ("ha_discovery.jsonl", gen_ha_discovery)].

Fixpoint write_suites (l : list (string * gen unit)) (cs : gmap string Z) (total : nat) (w : world)
    : world * result nat :=
  match l with
  | [] => (w, Ok total)
  | (name, g) :: l =>
      match g {| counters := cs; vecs := [] |} with
      | Raise e => (w, Raise e)
      | Ok (s, _) =>
          let '(w, n) := write_jsonl name (vecs s) w in write_suites l (counters s) (total + n) w
      end
  end.

(** [labels == expect]: dicts are equal whatever their order. *)
Definition labels_dict (l : backup_labels)
    : gmap (option Z) (option string * gmap (option Z) (option string)) :=
  list_to_map (map (fun '(a, (t, gs)) => (a, (t, list_to_map gs))) l).

Definition expect_labels : backup_labels :=
  [(Some 56, (Some "Lighting", [(Some 1, Some "Kitchen Bench"); (Some 10, Some "Lounge")]));
   (Some 48, (Some "Lighting 48", [(Some 11, Some "Deck")]))]%Z.

(** [check_fixture_project], of the root of [project.xml] *)
Definition check_fixture_project (root : element) : result unit :=
  ls ← read_cbz_labels root NoNetwork;
  require (bool_decide (labels_dict ls = labels_dict expect_labels)) AssertionError.

(** [main]: what it wrote until it ended or raised. *)
Definition generate_main (project : element) (w : world) : world * result unit :=
  match write_suites suites_written ∅ 0 (prints [Generating] w) with
  | (w, Raise e) => (w, Raise e)
  | (w, Ok total) =>
      match _ ← check_fixture_project project; gen_behavioral_expectations with
      | Raise e => (w, Raise e)
      | Ok exp =>
          (prints [DocumentWritten "behavioral_expectations.json"; TotalWritten total]
             {| vec_dir := vec_dir w; fix_dir := Some exp; output := output w |}, Ok tt)
      end
  end.

(** ** The checker *)

(** A message of a checker. *)
Definition explain_mismatch (m : mismatch) : string + complaint :=
  match m with EncodeMismatch got | EncodePacketMismatch got => inl got end.

Definition checker : Type := json -> load (option (string + complaint)).

Definition with_messages {M} (f : M -> string + complaint) (check : json -> load (option M)) : checker :=
  fun v => option_map f <$> check v.

Definition files_checked : list (string * checker) :=
  [("decode_from_pci.jsonl", with_messages inr check_decode);
   ("decode_to_pci.jsonl", with_messages inr check_decode);
   ("encode.jsonl", with_messages explain_mismatch check_encode);
   ("checksum.jsonl", with_messages inr check_checksum);
   ("ramp_rates.jsonl", with_messages inr check_ramp);
   ("mqtt_topics.jsonl", with_messages inr check_topic);
   ("ha_discovery.jsonl", with_messages inr check_ha)].

(** The loop over the lines of a file: the accepted, and the failures. *)
Fixpoint check_lines (check : checker) (l : list json) : load (nat * list (json * (string + complaint))) :=
  match l with
  | [] => Loaded (0, [])
  | v :: l =>
      err ← check v;
      match err with
      | None => '(ok, failures) ← check_lines check l; Loaded (S ok, failures)
      | Some e =>
          vid ← get v "id";
          '(ok, failures) ← check_lines check l; Loaded (ok, (vid, e) :: failures)
      end
  end.

(** Up to five failures of a file are printed. *)
Definition report_failures (failures : list (json * (string + complaint))) : list printed :=
  map (fun '(vid, e) => Failure vid e) (take 5 failures) ++
  if 5 <? length failures then [MoreFailures (length failures - 5)] else [].

(** [sys.exit], or an exception that ends the program. *)
Inductive exit := Exit (code : nat) | Died (e : exn) | IllTyped.

(** [main] *)
Fixpoint check_files (l : list (string * checker)) (passed total : nat) (any_fail : bool) (w : world)
    : world * exit :=
  match l with
  | [] =>
      (prints [TotalChecked passed total] w,
       Exit (if any_fail || negb (passed =? total) then 1 else 0))
  | (fname, check) :: l =>
      match vec_dir w !! fname with
      | None => (w, Died IOError)
      | Some vs =>
          match check_lines check vs with
          | Failed e => (w, Died e)
          | Untyped => (w, IllTyped)
          | Loaded (ok, failures) =>
              let n := length vs in
              let w := prints (FileChecked fname ok n (ok =? n) :: report_failures failures) w in
              check_files l (passed + ok) (total + n)
                (any_fail || negb (bool_decide (failures = []))) w
          end
      end
  end.

Definition verify_main (w : world) : world * exit := check_files files_checked 0 0 false w.

(** ** Lemmas *)

Lemma check_lines_counts check l ok failures :
  check_lines check l = Loaded (ok, failures) ->
  ok + length failures = length l /\ (failures = [] <-> Forall (fun v => check v = Loaded None) l).
Proof.
  revert ok failures. induction l as [|v l IH]; intros ok failures H; cbn [check_lines] in H.
  { injection H as <- <-. split; [done|]. split; [constructor|done]. }
  destruct (check v) as [[e|]|e|] eqn:Ev; try done; cbn in H.
  - destruct (get v "id"); try done. cbn in H.
    destruct (check_lines check l) as [[ok' fs]|e'|]; try done. cbn in H. injection H as <- <-.
    destruct (IH _ _ eq_refl) as [IH1 _]. cbn. split; [lia|]. split; [done|].
    intros [H _]%Forall_cons. congruence.
  - destruct (check_lines check l) as [[ok' fs]|e'|]; try done. cbn in H. injection H as <- <-.
    destruct (IH _ _ eq_refl) as [IH1 IH2]. cbn. split; [lia|]. rewrite IH2. split.
    + by constructor.
    + by intros [_ ?]%Forall_cons.
Qed.

Lemma check_lines_accepts check l :
  Forall (fun v => check v = Loaded None) l -> check_lines check l = Loaded (length l, []).
Proof. induction 1 as [|v l Hv _ IH]; [done|]. cbn. by rewrite Hv, IH. Qed.

(** The file [f] of the disk is there and every vector of it is accepted. *)
Definition file_passes (w : world) (f : string * checker) : Prop :=
  exists vs, vec_dir w !! f.1 = Some vs /\ Forall (fun v => f.2 v = Loaded None) vs.

Lemma file_passes_prints w out f : file_passes (prints out w) f <-> file_passes w f.
Proof. done. Qed.

Lemma check_files_passes l passed total any_fail w :
  passed <= total ->
  (check_files l passed total any_fail w).2 = Exit 0 <->
  any_fail = false /\ passed = total /\ Forall (file_passes w) l.
Proof.
  revert passed total any_fail w. induction l as [|[fname check] l IH]; intros passed total any_fail w Hle.
  { cbn. destruct any_fail; cbn; [by split; [|intros []]|].
    destruct (Nat.eqb_spec passed total); cbn; split; try done; by intros (_ & ? & _). }
  cbn [check_files]. rewrite Forall_cons.
  destruct (vec_dir w !! fname) as [vs|] eqn:Ef; cycle 1.
  { split; [done|]. intros (_ & _ & (vs & Hvs & _) & _). cbn in Hvs. congruence. }
  destruct (check_lines check vs) as [[ok failures]|e|] eqn:Ec.
  - destruct (check_lines_counts _ _ _ _ Ec) as [Hn Hf]. cbv zeta. rewrite IH by lia.
    assert (file_passes w (fname, check) <-> failures = []) as ->.
    { unfold file_passes. cbn. rewrite Ef. split.
      - intros (vs' & [= <-] & H). by apply Hf.
      - intros H. exists vs. split; [done|]. by apply Hf. }
    rewrite orb_false_iff, negb_false_iff, bool_decide_eq_true.
    destruct failures as [|f failures]; cbn in Hn.
    + split; [intros ([-> _] & ? & ?)|intros (-> & ? & _ & ?)];
        split_and!; (done || lia).
    + split; [by intros ([_ ?] & _)|by intros (_ & _ & ? & _)].
  - split; [done|]. intros (_ & _ & (vs' & Hvs & H) & _). cbn in Hvs, H. rewrite Ef in Hvs.
    injection Hvs as <-. by rewrite (check_lines_accepts _ _ H) in Ec.
  - split; [done|]. intros (_ & _ & (vs' & Hvs & H) & _). cbn in Hvs, H. rewrite Ef in Hvs.
    injection Hvs as <-. by rewrite (check_lines_accepts _ _ H) in Ec.
Qed.

(** ** Properties *)

(** The checker ends with the exit code 0 exactly when all seven files are there and
    it accepts every vector of each. *)
Theorem verify_exits_0_iff w :
  (verify_main w).2 = Exit 0 <-> Forall (file_passes w) files_checked.
Proof.
  unfold verify_main. rewrite check_files_passes by done. split; [by intros (_ & _ & ?)|done].
Qed.

(** The vectors that [write_suites] makes, whatever the disk. *)
Fixpoint suite_vectors (l : list (string * gen unit)) (cs : gmap string Z)
    : result (list (string * list json)) :=
  match l with
  | [] => Ok []
  | (name, g) :: l =>
      '(s, _) ← g {| counters := cs; vecs := [] |};
      rest ← suite_vectors l (counters s); Ok ((name, vecs s) :: rest)
  end.

Definition written (vss : list (string * list json)) (d : gmap string (list json))
    : gmap string (list json) :=
  foldl (fun d f => <[f.1 := f.2]> d) d vss.

Lemma write_suites_vectors l cs total w vss :
  suite_vectors l cs = Ok vss ->
  exists w', write_suites l cs total w = (w', Ok (total + sum_list_with (fun f => length f.2) vss)) /\
    vec_dir w' = written vss (vec_dir w).
Proof.
  revert cs total w vss. induction l as [|[name g] l IH]; intros cs total w vss H;
    cbn [suite_vectors write_suites] in H |- *.
  { injection H as <-. exists w. cbn. by rewrite Nat.add_0_r. }
  destruct (g _) as [[s u]|e]; [|done]. cbn in H.
  destruct (suite_vectors l (counters s)) as [rest|e] eqn:Er; [|done]. injection H as <-.
  unfold write_jsonl.
  destruct (IH _ (total + length (vecs s)) (prints [Written name (length (vecs s))]
    {| vec_dir := <[name := vecs s]> (vec_dir w); fix_dir := fix_dir w; output := output w |}) _ Er)
    as (w' & Hw & Hd).
  exists w'. cbn [sum_list_with]. by rewrite Nat.add_assoc.
Qed.

Lemma written_lookup_ne n vss d : n ∉ map fst vss -> written vss d !! n = d !! n.
Proof.
  unfold written. revert d. induction vss as [|[m v] vss IH]; intros d H; [done|].
  cbn in *. apply not_elem_of_cons in H as [Hm H]. rewrite IH by done. by rewrite lookup_insert_ne.
Qed.

Lemma written_lookup n v vss d :
  NoDup (map fst vss) -> (n, v) ∈ vss -> written vss d !! n = Some v.
Proof.
  revert d. induction vss as [|[m u] vss IH]; intros d Hn Hin; [by apply elem_of_nil in Hin|].
  cbn in Hn. apply NoDup_cons in Hn as [Hm Hn]. apply elem_of_cons in Hin as [[= -> ->]|Hin].
  - change (written vss (<[m := u]> d) !! m = Some u). rewrite written_lookup_ne by done.
    by rewrite lookup_insert_eq.
  - by apply IH.
Qed.

(** Each file with its checker, by computation. *)
Definition accepted_by (f : string * checker) (vs : string * list json) : bool :=
  String.eqb f.1 vs.1 &&
  forallb (fun v => match f.2 v with Loaded None => true | _ => false end) vs.2.

Fixpoint all_accepted (fs : list (string * checker)) (vss : list (string * list json)) : bool :=
  match fs, vss with
  | [], [] => true
  | f :: fs, vs :: vss => accepted_by f vs && all_accepted fs vss
  | _, _ => false
  end.

Lemma all_accepted_passes fs vss w d :
  NoDup (map fst vss) -> all_accepted fs vss = true -> vec_dir w = written vss d ->
  Forall (file_passes w) fs.
Proof.
  intros Hn H Hw.
  assert (forall vss', incl vss' vss -> all_accepted fs vss' = true -> Forall (file_passes w) fs) as Hall.
  { clear H. induction fs as [|f fs IH]; intros [|vs vss'] Hin H; try done.
    cbn in H. apply andb_true_iff in H as [Ha H]. apply andb_true_iff in Ha as [Hname Ha].
    apply String.eqb_eq in Hname. constructor.
    - exists vs.2. rewrite Hw, Hname. split.
      + apply written_lookup; [done|]. apply list_elem_of_In, Hin. left. by destruct vs.
      + apply Forall_forall. intros v Hv. rewrite forallb_forall in Ha.
        apply list_elem_of_In, Ha in Hv. by destruct (f.2 v) as [[]| |].
    - apply (IH vss'); [|done]. intros x Hx. apply Hin. by right. }
  apply (Hall vss); [apply incl_refl|done].
Qed.

(** Whatever the disk held, the generator ends without an exception on the fixture of
    the repository, and the checker then accepts all of the 3201 vectors it wrote and
    ends with the exit code 0. *)
Theorem generated_files_pass w :
  exists w', generate_main fixture w = (w', Ok tt) /\ last (output w') = Some (TotalWritten 3201) /\
    (verify_main w').2 = Exit 0.
Proof.
  assert (match suite_vectors suites_written ∅ with
          | Ok vss => bool_decide (NoDup (map fst vss)) && all_accepted files_checked vss &&
              (sum_list_with (fun f => length f.2) vss =? 3201)
          | Raise _ => false end = true) as Hall by (vm_compute; reflexivity).
  assert (check_fixture_project fixture = Ok tt) as Hf by (vm_compute; reflexivity).
  assert (is_Ok gen_behavioral_expectations = true) as Hb by (vm_compute; reflexivity).
  destruct (suite_vectors suites_written ∅) as [vss|e] eqn:Ev; [|discriminate Hall].
  destruct gen_behavioral_expectations as [exp|e] eqn:Eb; [|discriminate Hb].
  apply andb_true_iff in Hall as [Hall Hsum]. apply andb_true_iff in Hall as [Hn Hall].
  apply bool_decide_eq_true_1 in Hn. apply Nat.eqb_eq in Hsum.
  destruct (write_suites_vectors _ _ 0 (prints [Generating] w) _ Ev) as (w1 & Hw1 & Hd). rewrite Hsum in Hw1.
  unfold generate_main. rewrite Hw1, Hf, Eb. cbn [mbind result_bind]. eexists. split; [reflexivity|].
  split; [cbn; by rewrite last_app|]. apply verify_exits_0_iff. by apply (all_accepted_passes _ vss _ (vec_dir w)).
Qed.
