(* ===== verification/Launch.v ===== *)
(** * Starting the programs: [logging_config.py], [run_simulator.py], [simulator/server.py]

    The level of the loggers and what their handlers print; the listening socket of
    the simulator, its clients and its end; and the length of its delays. The clients
    themselves are in [Simulator]. *)

From Stdlib Require Import String Ascii QArith Lqa.
From stdpp Require Import strings gmap.
From S2P Require Import Prelude Text SimState Simulator.
From stdpp Require Import options.

Local Open Scope string_scope.
Local Open Scope list_scope.
Local Open Scope Z_scope.

(** ** Levels *)

(** [str.upper] of ASCII *)
Definition upper_ascii (c : ascii) : ascii :=
  let n := nat_of_ascii c in
  if ((97 <=? n) && (n <=? 122))%nat then ascii_of_nat (n - 32) else c.

Fixpoint upper (s : string) : string :=
  match s with "" => "" | String c s => String (upper_ascii c) (upper s) end.

Definition DEBUG : Z := 10.
Definition INFO : Z := 20.
Definition WARNING : Z := 30.
Definition ERROR : Z := 40.
Definition CRITICAL : Z := 50.

(** [VALID_LOG_LEVELS], and [log_level_map] of [run_simulator.py] *)
Definition VALID_LOG_LEVELS : gmap string Z :=
  list_to_map [("CRITICAL", CRITICAL); ("ERROR", ERROR); ("WARNING", WARNING); ("INFO", INFO);
               ("DEBUG", DEBUG)].

(** [setup_logging] of [run_simulator.py]: the level of the root logger. *)
Definition setup_logging (verbose : bool) (env_log_level : option string) : Z :=
  let env_log_level := upper (default "INFO" env_log_level) in
  if verbose then DEBUG else default INFO (VALID_LOG_LEVELS !! env_log_level).

(** ** Loggers *)

(** A logger of the module [logging] by the parts of its dotted name; [[]] is the
    root. Its level, when it was set, and the levels of its handlers. *)
Record logger := { logger_level : option Z; handlers : list Z }.

Notation loggers := (gmap (list string) logger).

Definition no_logger : logger := {| logger_level := None; handlers := [] |}.

(** [logging.getLogger] *)
Definition getLogger (name : list string) (ls : loggers) : logger := default no_logger (ls !! name).

(** [verbosity], and whether it printed a warning. *)
Definition read_verbosity (env : option string) (default_level : string) : string * bool :=
  let verbosity := upper (default default_level env) in
  match VALID_LOG_LEVELS !! verbosity with
  | Some _ => (verbosity, false)
  | None => (default_level, true)
  end.

Definition configure_logging (env : option string) (logger_name : list string) (default_level : string)
    (ls : loggers) : result loggers :=
  level ← or_raise KeyError (VALID_LOG_LEVELS !! (read_verbosity env default_level).1);
  let lg := getLogger logger_name ls in
  let ls := <[logger_name := {| logger_level := Some level;
                                handlers := match handlers lg with [] => [level] | hs => hs end |}]> ls in
  let root := getLogger [] ls in
  Ok (if bool_decide (logger_name = ["cbus"]) && bool_decide (handlers root = [])
      then <[[] := {| logger_level := Some level; handlers := [] |}]> ls else ls).

(** [Logger.getEffectiveLevel]: of the nearest logger above that has one; the root
    is made with WARNING. [above] lists the names from the logger to the root. *)
Fixpoint above (name : list string) : list (list string) :=
  match name with
  | [] => [[]]
  | c :: name => map (cons c) (above name) ++ [[]]
  end.

Fixpoint effective_level (names : list (list string)) (ls : loggers) : Z :=
  match names with
  | [] => WARNING
  | name :: names => match logger_level (getLogger name ls) with
                     | Some l => l
                     | None => effective_level names ls
                     end
  end.

(** How often a record of level [l] is printed: once by every handler of the logger
    and of those above it that takes the level. *)
Definition times_printed (name : list string) (l : Z) (ls : loggers) : nat :=
  if effective_level (above name) ls <=? l
  then length (filter (fun h => h <= l) (concat (map (fun n => handlers (getLogger n ls)) (above name))))
  else 0.

(** ** Properties of logging *)

Definition logger_of (level : Z) : logger := {| logger_level := Some level; handlers := [level] |}.

Lemma configure_fresh env name default_level level ls :
  VALID_LOG_LEVELS !! (read_verbosity env default_level).1 = Some level ->
  ls !! name = None -> name <> [] -> ls !! [] = None ->
  configure_logging env name default_level ls =
    Ok (if bool_decide (name = ["cbus"])
        then <[[] := {| logger_level := Some level; handlers := [] |}]> (<[name := logger_of level]> ls)
        else <[name := logger_of level]> ls).
Proof.
  intros Hl Hn Hne Hroot. unfold configure_logging. rewrite Hl. cbn [or_raise mbind result_bind].
  unfold getLogger. rewrite Hn. cbn [default handlers no_logger].
  rewrite (lookup_insert_ne _ name []), Hroot by done. cbn [default handlers no_logger].
  rewrite (bool_decide_eq_true_2 ([] = [])) by done. by rewrite andb_true_r.
Qed.

(** Records of a module that configures its own logger, as [pciprotocol.py] does,
    are printed twice once [cbus] is configured too. *)
Theorem logged_twice env default_level level m l :
  VALID_LOG_LEVELS !! (read_verbosity env default_level).1 = Some level ->
  exists ls, (ls ← configure_logging env ["cbus"; "protocol"; m] default_level ∅;
              configure_logging env ["cbus"] default_level ls) = Ok ls /\
    times_printed ["cbus"; "protocol"; m] l ls = if level <=? l then 2%nat else 0%nat.
Proof.
  intros Hl. rewrite (configure_fresh _ _ _ _ _ Hl) by (done || apply lookup_empty).
  rewrite bool_decide_eq_false_2 by done. cbn [mbind result_bind].
  rewrite (configure_fresh _ _ _ _ _ Hl); [|by rewrite lookup_insert_ne by done|done|by rewrite lookup_insert_ne by done].
  rewrite bool_decide_eq_true_2 by done. eexists. split; [reflexivity|].
  set (ls := <[[] := _]> _). unfold times_printed. cbn [above map app effective_level concat].
  assert (getLogger ["cbus"; "protocol"; m] ls = logger_of level /\
    getLogger ["cbus"; "protocol"] ls = no_logger /\ getLogger ["cbus"] ls = logger_of level /\
    handlers (getLogger [] ls) = []) as (-> & -> & -> & ->).
  { unfold getLogger, ls. split_and!; by simplify_map_eq. }
  cbn [logger_level logger_of handlers no_logger app]. destruct (Z.leb_spec level l); [|done].
  by rewrite !filter_cons_True by done.
Qed.

(** The level of a second call does not reach the handler of the first: a record is
    printed only from the higher of the two on. *)
Theorem second_level_ignored name a b l :
  name <> [] -> name <> ["cbus"] ->
  VALID_LOG_LEVELS !! (read_verbosity None a).1 = Some l ->
  forall l', VALID_LOG_LEVELS !! (read_verbosity None b).1 = Some l' ->
  exists ls, (ls ← configure_logging None name a ∅; configure_logging None name b ls) = Ok ls /\
    getLogger name ls = {| logger_level := Some l'; handlers := [l] |}.
Proof.
  intros Hn Hc Hl l' Hl'. rewrite (configure_fresh _ _ _ _ _ Hl) by (done || apply lookup_empty).
  rewrite bool_decide_eq_false_2 by done. cbn [mbind result_bind]. unfold configure_logging.
  rewrite Hl'. cbn [or_raise mbind result_bind]. rewrite (bool_decide_eq_false_2 (name = ["cbus"])) by done.
  eexists. split; [reflexivity|]. unfold getLogger. by simplify_map_eq.
Qed.

Example logging_witness :
  (exists ls, (ls ← configure_logging (Some "debug") ["cbus"; "protocol"; "pciprotocol"] "INFO" ∅;
               configure_logging (Some "debug") ["cbus"] "INFO" ls) = Ok ls /\
     times_printed ["cbus"; "protocol"; "pciprotocol"] INFO ls = 2%nat) /\
  (exists ls, (ls ← configure_logging None ["cbus"; "daemon"] "INFO" ∅;
               configure_logging None ["cbus"; "daemon"] "DEBUG" ls) = Ok ls /\
     getLogger ["cbus"; "daemon"] ls = {| logger_level := Some DEBUG; handlers := [INFO] |}).
Proof.
  split.
  - exact (logged_twice (Some "debug") "INFO" DEBUG "pciprotocol" INFO eq_refl).
  - exact (second_level_ignored ["cbus"; "daemon"] "INFO" "DEBUG" INFO ltac:(done) ltac:(done) eq_refl
      DEBUG eq_refl).
Defined.

(** A default level that is not written in capitals is looked up as it is when the
    variable holds no level: [KeyError]. *)
Example lower_case_default :
  configure_logging (Some "loud") ["cbus"] "info" ∅ = Raise KeyError /\
  is_Ok (configure_logging None ["cbus"] "info" ∅) = true.
Proof. by vm_compute. Qed.

(** ** The server of the simulator *)

(** [DEFAULT_CONFIG_PATH] *)
Definition default_config_path (exists_ : string -> bool) (env : option string) : string :=
  if exists_ "/app/config/simulator-config.json" then "/app/config/simulator-config.json"
  else if exists_ "config/simulator-config.json" then "config/simulator-config.json"
  else default "config/simulator-config.json" env.

(** [load_configuration], called with a path that is not empty: the configuration of
    the file, [None] without a file or where it raises. *)
Definition load_configuration (path : option string) (files : string -> option (result config))
    : option config :=
  match path with
  | None | Some "" => None
  | Some path => match files path with Some (Ok c) => Some c | _ => None end
  end.

(** What [asyncio.start_server] does for a port: an [OSError] with its number, or
    another exception, as for a port above 65535. *)
Inductive bound := Listening | OSErr (errno : Z) | OtherError.

#[export] Instance bound_eq_dec : EqDecision bound.
Proof. solve_decision. Defined.

Inductive started := Serving (port : Z) | ShutDown (port : Z).

(** [start]: with each address in use, the next port. *)
Fixpoint start (fuel : nat) (bind : Z -> bound) (port : Z) : result started :=
  match fuel with
  | O => Raise OutOfFuel
  | S fuel =>
      match bind port with
      | Listening => Ok (Serving port)
      | OSErr e => if e =? 48 then start fuel bind (port + 1) else Ok (ShutDown port)
      | OtherError => Ok (ShutDown port)
      end
  end.

(** The clients of a server, and the connections that were closed. *)
Record listener := { clients : list nat; closed : list nat; server_closed : bool }.

Definition listener_init : listener := {| clients := []; closed := []; server_closed := false |}.

Inductive listener_event := ClientComes (c : nat) | ClientGoes (c : nat) | Shutdown.

(** [handle_client] at its two ends, and [shutdown]. *)
Definition listener_step (l : listener) (e : listener_event) : listener :=
  match e with
  | ClientComes c => {| clients := clients l ++ [c]; closed := closed l; server_closed := server_closed l |}
  | ClientGoes c =>
      {| clients := filter (fun x => x <> c) (clients l); closed := closed l ++ [c];
         server_closed := server_closed l |}
  | Shutdown => {| clients := clients l; closed := closed l ++ clients l; server_closed := true |}
  end.

(** ** Properties of the server *)

(** From a port on the server takes the first that is not in use, and stops at the
    first that fails otherwise; the ports run out at 65535. *)
Theorem start_takes_first_free bind port :
  0 <= port <= 65536 -> (forall p, 65535 < p -> bind p = OtherError) ->
  exists n : nat, port + Z.of_nat n <= 65536 /\ (forall m : nat, (m < n)%nat -> bind (port + Z.of_nat m) = OSErr 48) /\
    start (Z.to_nat (65537 - port)) bind port =
      Ok (match bind (port + Z.of_nat n) with Listening => Serving (port + Z.of_nat n) | _ => ShutDown (port + Z.of_nat n) end) /\
    bind (port + Z.of_nat n) <> OSErr 48.
Proof.
  intros Hp Hb. remember (Z.to_nat (65537 - port)) as fuel eqn:Ef.
  revert port Hp Ef. induction fuel as [|fuel IH]; intros port Hp Ef; [lia|]. cbn [start].
  destruct (decide (bind port = OSErr 48)) as [E|E].
  - rewrite E. cbn. destruct (decide (port = 65536)) as [->|Hne'].
    { rewrite Hb in E by lia. done. }
    destruct (IH (port + 1)) as (k & Hk & Hm & Hs & Hne); [lia..|].
    exists (S k). replace (port + Z.of_nat (S k)) with (port + 1 + Z.of_nat k) by lia. split_and!; [done| |done|done].
    intros [|m] Hlt; [by rewrite Z.add_0_r|].
    replace (port + Z.of_nat (S m)) with (port + 1 + Z.of_nat m) by lia. apply Hm. lia.
  - exists 0%nat. rewrite Z.add_0_r. split_and!; [lia|lia| |done].
    destruct (bind port) as [|e|]; try done. destruct (Z.eqb_spec e 48); congruence.
Qed.

(** Two ports in use, and one that is free; and on Linux, where the number of the
    error is 98, the first port in use ends the server. *)
Example start_witness :
  let mac := fun p => if p <? 10003 then OSErr 48 else if p <? 65536 then Listening else OtherError in
  (exists n : nat, start (Z.to_nat (65537 - 10001)) mac 10001 =
     Ok (match mac (10001 + Z.of_nat n) with Listening => Serving (10001 + Z.of_nat n) | _ => ShutDown (10001 + Z.of_nat n) end)) /\
  start 1 mac 10003 = Ok (Serving 10003) /\
  start 1 (fun _ => OSErr 98) 10001 = Ok (ShutDown 10001).
Proof.
  intros mac. split; [|by split].
  destruct (start_takes_first_free mac 10001) as (n & _ & _ & H & _); [lia| |by exists n].
  intros p Hp. unfold mac. destruct (Z.ltb_spec p 10003); [lia|]. destruct (Z.ltb_spec p 65536); [lia|done].
Defined.

(** The end of the server closes the connection of every client that ever came. *)
Theorem shutdown_closes_all evs c :
  ClientComes c ∈ evs -> c ∈ closed (foldl listener_step listener_init (evs ++ [Shutdown])).
Proof.
  intros H. rewrite foldl_app. cbn. apply elem_of_app.
  induction evs as [|e evs IH] using rev_ind; [by apply elem_of_nil in H|].
  rewrite foldl_app. cbn [foldl].
  apply elem_of_app in H as [H%IH|E%list_elem_of_singleton]; [|subst e; right; apply elem_of_app; right; by left].
  destruct e as [k|k|]; cbn; rewrite ?elem_of_app.
  - destruct H; auto.
  - destruct (decide (c = k)) as [->|]; [left; right; by left|].
    destruct H; [by auto|]. right. by rewrite list_elem_of_filter.
  - destruct H; auto.
Qed.

Example shutdown_closes_all_witness :
  2%nat ∈ closed (foldl listener_step listener_init ([ClientComes 1; ClientComes 2; ClientGoes 1] ++ [Shutdown])).
Proof. apply shutdown_closes_all. right. by left. Defined.

(** ** Delays *)

Local Open Scope Q_scope.

(** [_simulate_delay] in seconds, with the numbers that [random] gave; a packet that
    is lost is only delayed twice as long. *)
Definition _simulate_delay (delay_min_ms delay_max_ms loss_prob r loss : Q) : Q :=
  let delay_min := delay_min_ms / 1000 in
  let delay_max := delay_max_ms / 1000 in
  let delay := delay_min + (delay_max - delay_min) * r in
  if Qlt_le_dec loss loss_prob then delay * 2 else delay.

Theorem delay_bounds lo hi prob r loss :
  0 <= lo <= hi -> 0 <= r <= 1 ->
  lo / 1000 <= _simulate_delay lo hi prob r loss <= 2 * (hi / 1000).
Proof.
  intros [H0 H1] [H2 H3]. unfold _simulate_delay. set (a := lo / 1000). set (b := hi / 1000).
  assert (0 <= a) by (apply Qmult_le_0_compat; [done|discriminate]).
  assert (a <= b) by (apply Qmult_le_compat_r; [done|discriminate]).
  destruct (Qlt_le_dec loss prob); split; nra.
Qed.

Example delay_bounds_witness :
  10 / 1000 <= _simulate_delay 10 50 (1 # 10) (1 # 2) (1 # 20) <= 2 * (50 / 1000).
Proof. apply delay_bounds; split; discriminate. Defined.
