(* ===== verification/ProxyText.v ===== *)
(** * What the protocol analyser prints: [PacketAnalyzer] of [cbus-proxy/proxy.py]

    The text of an analysis, over the state that [Proxy] keeps. Parameters are the
    colours of [colorama], the text of an exception and the text of the seconds
    between two times; a line is a text in UTF-8. *)

From Stdlib Require Import String Ascii.
From stdpp Require Import strings gmap options.
From S2P Require Import Prelude Common Hex Report Cal Lighting Clock StatusRequest Application.
From S2P Require Import Packet Decode PyDict Text Proxy.

Local Open Scope string_scope.
Local Open Scope list_scope.
Local Open Scope Z_scope.

(** ** Numbers *)

(** [f'{b:02X}'] of a byte, and of any other number that is not negative. *)
Fixpoint hex_upper (fuel : nat) (n : Z) (acc : string) : string :=
  match fuel with
  | O => acc
  | S fuel =>
      let acc := String (ascii_of_nat (Z.to_nat (hex_digit (Z.land n 15)))) acc in
      if n <? 16 then acc else hex_upper fuel (Z.shiftr n 4) acc
  end.

Definition fmt02X (n : Z) : string :=
  let s := hex_upper (S (Z.to_nat (Z.log2 n))) n "" in
  if (String.length s <? 2)%nat then "0" +:+ s else s.

Fixpoint spaces (n : nat) : string := match n with O => "" | S n => " " +:+ spaces n end.

(** [f'{s:<k}'] *)
Definition left_in (k : nat) (s : string) : string := s +:+ spaces (k - String.length s).

(** [level / 255 * 100] to one place and to none. No level lies half way between
    two results, so that the rounding of the float does not matter. *)
Definition percent_tenths (level : Z) : Z := (2000 * level + 255) / 510.
Definition percent_1 (level : Z) : string :=
  str_int (percent_tenths level / 10) +:+ "." +:+ str_int (percent_tenths level mod 10).
Definition percent_0 (level : Z) : string := str_int ((200 * level + 255) / 510).

(** ** Bytes *)

Definition join (sep : string) (l : list string) : string :=
  match l with [] => "" | s :: l => s +:+ foldr (fun s acc => sep +:+ s +:+ acc) "" l end.

Definition ascii_or_dot (b : Z) : Z := if (32 <=? b) && (b <? 127) then b else 46.

Definition format_hex (data : bytes) : string :=
  left_in 48 (join " " (map fmt02X data)) +:+ " | " +:+ text_of (map ascii_or_dot data).

(** [b.decode('ascii', errors='ignore')] *)
Definition ascii_ignore (b : bytes) : string := text_of (filter (fun c => c < 128) b).

(** ** Names *)

Definition app_names : list (Z * string) :=
  [(0x19, "Temperature"); (0xDF, "Clock"); (0xCA, "Trigger"); (0xCB, "Enable"); (0xFF, "Status Request")].

Definition get_application_name (app_id : Z) : string :=
  if (0x30 <=? app_id) && (app_id <=? 0x5f) then "Lighting App " +:+ fmt02X app_id
  else default ("Unknown App " +:+ fmt02X app_id) (dict_get app_names app_id).

(** [type(packet).__name__] *)
Definition type_name (d : decoded) : string :=
  match d with
  | DPacket PowerOnPacket => "PowerOnPacket"
  | DPacket PCIErrorPacket => "PCIErrorPacket"
  | DPacket ResetPacket => "ResetPacket"
  | DPacket SmartConnectShortcutPacket => "SmartConnectShortcutPacket"
  | DPacket (ConfirmationPacket _ _) => "ConfirmationPacket"
  | DPacket (InvalidPacket _ _) => "InvalidPacket"
  | DPacket (PointToMultipointPacket _ _ _) => "PointToMultipointPacket"
  | DPacket (PointToPointPacket _ _ _ _ _) => "PointToPointPacket"
  | DPacket (DeviceManagementPacket _ _ _) => "DeviceManagementPacket"
  | DCal (IdentifyCAL _) => "IdentifyCAL"
  | DCal (RecallCAL _ _) => "RecallCAL"
  | DCal (ReplyCAL _ _) => "ReplyCAL"
  | DCal (ExtendedCAL _ _ _ _) => "ExtendedCAL"
  end.

(** The description kept of a command. *)
Definition description_text (d : description) : string :=
  match d with
  | LightOn g => "Light ON Group " +:+ str_int g
  | LightOff g => "Light OFF Group " +:+ str_int g
  | LightRamp g l => "Light RAMP Group " +:+ str_int g +:+ " to " +:+ percent_0 l +:+ "%"
  | StatusRequest app start count =>
      "Status Request App " +:+ fmt02X app +:+ " Groups " +:+ str_int start +:+ "-" +:+
      str_int (start + count - 1)
  end.

(** ** The analysis *)

Inductive colour := Cyan | Yellow | Blue | Green | Red | Magenta | White.

Section text.
Context (Fore : colour -> string) (reset_all : string).
Context (exn_text : option exn -> string) (date_text : clock_val -> string).
Context (elapsed : nat -> Z -> Z -> string) (* places, from, to *).

Definition paint (c : colour) (s : string) : string := Fore c +:+ s +:+ reset_all.

(** [f"  Group: {g} (0x{g:02X})"] and the like *)
Definition number_line (label : string) (n : Z) : string :=
  label +:+ str_int n +:+ " (0x" +:+ fmt02X n +:+ ")".

Definition lighting_lines (title : string) (app g : Z) : list string :=
  [paint Cyan title; "  Application: " +:+ get_application_name app; number_line "  Group: " g].

(** The lines of [_analyze_sal]. A [StatusRequestSAL] has no [group_start] and no
    [group_count]. *)
Definition sal_lines (sal : SAL) : list string :=
  match sal with
  | SLighting (LightingOnSAL g app) => lighting_lines "━━ Lighting ON Command ━━" app g
  | SLighting (LightingOffSAL g app) => lighting_lines "━━ Lighting OFF Command ━━" app g
  | SLighting (LightingRampSAL g app duration level) =>
      lighting_lines "━━ Lighting RAMP Command ━━" app g ++
      [number_line "  Target Level: " level +:+ " = " +:+
         (if level =? 0 then "0.0" else percent_1 level) +:+ "%";
       "  Duration: " +:+ str_int duration +:+ " seconds"]
  | SLighting (LightingTerminateRampSAL g app) =>
      lighting_lines "━━ Lighting TERMINATE RAMP Command ━━" app g
  | SClock ClockRequestSAL =>
      [paint Cyan "━━ Clock Request ━━"; "  Requesting current time from network"]
  | SClock (ClockUpdateSAL v) => [paint Cyan "━━ Clock Update ━━"; "  Time: " +:+ date_text v]
  | SStatusRequest _ =>
      [paint Cyan "━━ Status Request ━━";
       "  Application: " +:+ get_application_name (sal_application sal);
       number_line "  Group Start: " 0; "  Group Count: " +:+ str_int 0;
       "  Groups: " +:+ str_int 0 +:+ " to " +:+ str_int (0 + 0 - 1)]
  | _ => []
  end.

(** [_analyze_cal]. The reports have neither [levels] nor [states], so that
    [hasattr] finds nothing to list. *)
Definition _analyze_cal (cal : AnyCAL) : list string :=
  match cal with
  | ExtendedCAL _ app_val block_start report =>
      [paint Cyan (match report with LevelStatusReport _ => "━━ Level Status Report ━━"
                                   | BinaryStatusReport _ => "━━ Binary Status Report ━━" end);
       "  Application: " +:+ get_application_name app_val;
       number_line "  Block Start: Group " block_start;
       match report with LevelStatusReport _ => "  Levels:" | BinaryStatusReport _ => "  States:" end]
  | _ => []
  end.

(** [f"... {code} (0x{code:02X}, '{...}')"] *)
Definition code_line (code_int : Z) (code : bytes) : string :=
  paint Magenta "Confirmation Code:" +:+ " " +:+ str_int code_int +:+ " (0x" +:+ fmt02X code_int +:+
  ", '" +:+ ascii_ignore code +:+ "')".

Definition source_line (n : Z) : string :=
  number_line (paint Magenta "Source Address:" +:+ " ") n.

(** The line for a confirmed command. *)
Definition confirms_line (now : Z) (w : waiting_command) : string :=
  let '(sent, desc, origin) := w in
  paint Magenta "Confirms:" +:+ " " +:+ description_text desc +:+ " (sent " +:+ elapsed 3 sent now +:+
  "s ago" +:+ match origin with Some o => ", origin " +:+ o | None => "" end +:+ ")".

(** [packet_info], without exceptions; [confirms] is the command that
    [analyze_decoded] found. *)
Definition packet_info (d : decoded) (confirms : option waiting_command) (now : Z) : list string :=
  (paint Green "Packet Type:" +:+ " " +:+ type_name d) ::
  match d with
  | DPacket ResetPacket => [paint Magenta "Action:" +:+ " PCI Reset Request"]
  | DPacket (ConfirmationPacket code success) =>
      [code_line (hd 0 code) code;
       paint Magenta "Status:" +:+ " " +:+
         (if success then paint Green "SUCCESS" else paint Red "FAILURE")] ++
      match confirms with Some w => [confirms_line now w] | None => [] end
  | DPacket PCIErrorPacket =>
      [paint Red "ERROR: PCI cannot accept data (buffer full or invalid checksum)"]
  | DPacket PowerOnPacket => [paint Magenta "Event:" +:+ " PCI Power On"]
  | DPacket (PointToMultipointPacket h _ sals) =>
      [match source_address h with
       | Some s => source_line s
       | None => paint Magenta "Source Address:" +:+ " None (command originated locally)"
       end] ++
      match confirmation h with
      | Some (c :: _ as code) => [code_line c code] | _ => [] end ++
      flat_map sal_lines sals
  | DPacket (PointToPointPacket h _ _ unit_address cals) =>
      [number_line (paint Magenta "Destination:" +:+ " Unit ") unit_address] ++
      match source_address h with Some s => [source_line s] | None => [] end ++
      flat_map _analyze_cal cals
  | DPacket (DeviceManagementPacket _ _ _) => [paint Magenta "Device Management Command"]
  | DPacket (InvalidPacket _ e) => [paint Red "INVALID PACKET"; paint Red "Error:" +:+ " " +:+ exn_text e]
  | _ => []
  end.

Definition newline : string := String "010" "".

(** [analyze_packet]: what it returns, and the analyser after it. *)
Definition analysis_text (raw_data : bytes) (direction : Direction) (client : option string) (now : Z)
    (a : PacketAnalyzer) : PacketAnalyzer * string :=
  let '(a', r) := analyze_packet raw_data direction client now a in
  let header_color := match direction with FROM_CLIENT => Cyan | FROM_CNI => Yellow end in
  let arrow := match direction with FROM_CLIENT => "CLIENT→CNI" | FROM_CNI => "CNI→CLIENT" end in
  let client_tag := match client, direction with
                    | Some c, FROM_CLIENT => " [" +:+ c +:+ "]" | _, _ => "" end in
  let header := newline +:+ paint header_color ("━━━ Packet #" +:+ str_int (packet_count a + 1) +:+ " " +:+
                  arrow +:+ client_tag +:+ " ━━━") in
  let raw_display := paint Blue "Raw Data:" +:+ newline +:+ format_hex raw_data in
  (a', header +:+ newline +:+ raw_display +:+ newline +:+
       match r with
       | AFailed => paint Red "Failed to decode packet"
       | AException e => paint Red ("Exception during analysis: " +:+ exn_text (Some e))
       | ADecoded d confirms => newline +:+ join newline (packet_info d confirms now)
       end).

(** [print_summary]; the waiting commands in the order of the dict. *)
Definition print_summary (now : Z) (a : PacketAnalyzer) : list string :=
  [newline +:+ paint Cyan "━━━ Session Summary ━━━";
   "Total Packets: " +:+ str_int (packet_count a); "Errors: " +:+ str_int (error_count a)] ++
  match confirmation_map a with
  | [] => []
  | m =>
      ("Unconfirmed Commands: " +:+ str_int (Z.of_nat (length m))) ::
      map (fun '(code, (sent, desc, origin)) =>
        "  - " +:+ description_text desc +:+ " (code " +:+ str_int code +:+ ", origin " +:+
        default "unknown" origin +:+ ", waiting " +:+ elapsed 1 sent now +:+ "s)") m
  end.
End text.

(** ** Properties *)

Lemma fmt02X_byte b : byte_ok b -> txt (fmt02X b) = b16encode [b].
Proof.
  intros Hb. assert (forallb (fun b => bool_decide (txt (fmt02X b) = b16encode [b])) (seqZ 0 256) = true)
    as H by (by vm_compute).
  exact (bool_decide_eq_true_1 _ (byte_forall _ H b Hb)).
Qed.

Lemma fromhex_byte b rest : byte_ok b ->
  fromhex (b16encode [b] ++ rest) = (r ← fromhex rest; Ok (b :: r)).
Proof.
  intros Hb. assert (forallb (fun b => match b16encode [b] with
    | [h; l] => negb (is_blank h) && bool_decide (xdigit_value h = Some (Z.shiftr b 4)) &&
        bool_decide (xdigit_value l = Some (Z.land b 15)) &&
        bool_decide (Z.lor (Z.shiftl (Z.shiftr b 4) 4) (Z.land b 15) = b)
    | _ => false end) (seqZ 0 256) = true) as H by (by vm_compute).
  pose proof (byte_forall _ H b Hb) as Hc. clear H. cbv beta in Hc.
  destruct (b16encode [b]) as [|h [|l [|]]]; try discriminate Hc.
  bool_hyps. rewrite bool_decide_eq_true in *. cbn [app fromhex]. repeat match goal with H : is_blank _ = _ |- _ => rewrite H
    | H : xdigit_value _ = _ |- _ => rewrite H end.
  match goal with H : Z.lor _ _ = _ |- _ => by rewrite H end.
Qed.

Lemma fromhex_spaces n : fromhex (txt (spaces n)) = Ok [].
Proof. induction n as [|n IH]; [done|exact IH]. Qed.

Lemma fromhex_column data rest : bytes_ok data -> fromhex rest = Ok [] ->
  fromhex (txt (foldr (fun s acc => " " +:+ s +:+ acc) "" (map fmt02X data)) ++ rest) = Ok data.
Proof.
  intros Hd Hr. induction Hd as [|b data Hb Hd IH]; [done|]. cbn [map foldr].
  rewrite !txt_app, fmt02X_byte by done. change (txt " ") with [32]. rewrite <- !app_assoc.
  cbn [app]. match goal with |- fromhex (32 :: ?l) = _ => change (fromhex (32 :: l)) with (fromhex l) end.
  rewrite fromhex_byte by done. by rewrite IH.
Qed.

(** The raw bytes can be read back from the first column of a dump, at whatever
    width. *)
Theorem format_hex_read_back data : bytes_ok data ->
  fromhex (txt (left_in 48 (join " " (map fmt02X data)))) = Ok data.
Proof.
  intros Hd. unfold left_in. rewrite txt_app. destruct Hd as [|b data Hb Hd]; [apply fromhex_spaces|].
  cbn [map join]. rewrite txt_app, <- app_assoc, fmt02X_byte, fromhex_byte by done.
  rewrite fromhex_column by (done || apply fromhex_spaces). done.
Qed.

(** The tenth of a percent that is printed is the nearest, and there are no ties. *)
Theorem percent_nearest level : 2 * Z.abs (1000 * level - 255 * percent_tenths level) < 255.
Proof.
  unfold percent_tenths. pose proof (Z.div_mod (2000 * level + 255) 510 ltac:(lia)).
  pose proof (Z.mod_pos_bound (2000 * level + 255) 510 ltac:(lia)). lia.
Qed.

Example format_hex_read_back_witness : fromhex (txt (left_in 48 (join " " (map fmt02X [5; 255; 65])))) = Ok [5; 255; 65].
Proof. apply format_hex_read_back. by repeat constructor. Defined.

(** A report of levels, as the analyser prints it: no level. *)
Example levels_not_shown :
  _analyze_cal (fun _ => "") "" (ExtendedCAL false 56 0 (LevelStatusReport [Some 255; Some 0; None])) =
    ["━━ Level Status Report ━━"; "  Application: Lighting App 38"; "  Block Start: Group 0 (0x00)";
     "  Levels:"] /\
  forall Fore reset ext app start l l',
    _analyze_cal Fore reset (ExtendedCAL ext app start (BinaryStatusReport l)) =
    _analyze_cal Fore reset (ExtendedCAL ext app start (BinaryStatusReport l')).
Proof. split; [by vm_compute|done]. Qed.

(** A light that another unit switched on. *)
Example analysis_text_of_light :
  let '(a, t) := analysis_text (fun _ => "") "" (fun _ => "") (fun _ => "") (fun _ _ _ => "")
    (txt "05053800790A3B" ++ [13; 10]) FROM_CNI None 0 analyzer_init in
  packet_count a = 1 /\
  t = newline +:+ "━━━ Packet #1 CNI→CLIENT ━━━" +:+ newline +:+ "Raw Data:" +:+ newline +:+
      "30 35 30 35 33 38 30 30 37 39 30 41 33 42 0D 0A  | 05053800790A3B.." +:+ newline +:+ newline +:+
      "Packet Type: PointToMultipointPacket" +:+ newline +:+ "Source Address: 5 (0x05)" +:+ newline +:+
      "━━ Lighting ON Command ━━" +:+ newline +:+ "  Application: Lighting App 38" +:+ newline +:+
      "  Group: 10 (0x0A)".
Proof. by vm_compute. Qed.
