(* ===== verification/InterrogatorSession.v ===== *)
(** * Sessions of the unit interrogator: [protocol/interrogator.py]

    [Interrogator] has the questions and the reading of replies. Here are the
    connection they go through ([connect], [disconnect], [async with]), the codes and
    bytes of several interrogations, and what a late reply does to those after it. *)

From S2P Require Import Prelude Common Hex Cal Emulator Interrogator.
From stdpp Require Import options.

Local Open Scope Z_scope.

(** ** Definitions *)

(** [_writer] and [_reader] are set together. *)
Record interrogator := {
  _writer : bool;
  _conf_idx : nat;
  sent : list bytes;
  closed : nat
}.

Definition interrogator_init : interrogator :=
  {| _writer := false; _conf_idx := 0; sent := []; closed := 0 |}.

(** [_send_raw], of the data with the end that it adds. *)
Definition _send_raw (data : bytes) (s : interrogator) : interrogator * result unit :=
  if _writer s
  then ({| _writer := true; _conf_idx := _conf_idx s; sent := sent s ++ [data]; closed := closed s |}, Ok tt)
  else (s, Raise AttributeError).

(** [connect]: how the connection was opened, and the read that drops what the
    interface says; a [ConnectionError] there escapes. *)
Definition connect (opened : bool) (events : list read_event) (s : interrogator)
    : interrogator * (list read_event * result unit) :=
  if opened then
    let s := {| _writer := true; _conf_idx := _conf_idx s; sent := sent s; closed := closed s |} in
    let '(s, _) := _send_raw ([124; 124] ++ END_COMMAND) s in
    match events with
    | Failed :: events => (s, (events, Raise IOError))
    | _ :: events => (s, (events, Ok tt))
    | [] => (s, ([], Ok tt))
    end
  else (s, (events, Raise IOError)).

Definition disconnect (s : interrogator) : interrogator :=
  if _writer s
  then {| _writer := false; _conf_idx := _conf_idx s; sent := sent s; closed := S (closed s) |}
  else s.

(** [_next_conf] and [_send_raw] of one question after another. *)
Fixpoint ask_all (unit_address : Z) (qs : list (CAL.t * DeviceAttribute.t)) (s : interrogator)
    : interrogator * result unit :=
  match qs with
  | [] => (s, Ok tt)
  | q :: qs =>
      let s' := {| _writer := _writer s; _conf_idx := S (_conf_idx s); sent := sent s; closed := closed s |} in
      match attribute_command (_conf_idx s) unit_address q with
      | Raise e => (s', Raise e)
      | Ok cmd =>
          match _send_raw cmd s' with
          | (s, Ok _) => ask_all unit_address qs s
          | (s, Raise e) => (s, Raise e)
          end
      end
  end.

(** [interrogate] in a session: a question that cannot be sent ends it. *)
Definition interrogate_in (unit_address : Z) (events : list read_event) (s : interrogator)
    : interrogator * result (UnitInfo * list read_event) :=
  match ask_all unit_address _INTERROGATION_ATTRS s with
  | (s', Ok _) => (s', interrogate unit_address (_conf_idx s) events)
  | (s', Raise e) => (s', Raise e)
  end.

(** [async with UnitInterrogator(...) as i: await i.interrogate(unit)]; when
    [connect] raises, [__aexit__] is not called. *)
Definition interrogate_once (opened : bool) (unit_address : Z) (events : list read_event) (s : interrogator)
    : interrogator * result UnitInfo :=
  match connect opened events s with
  | (s, (_, Raise e)) => (s, Raise e)
  | (s, (events, Ok _)) =>
      let '(s, r) := interrogate_in unit_address events s in
      (disconnect s, fst <$> r)
  end.

(** ** Lemmas *)

Lemma attribute_command_ok idx a q :
  byte_ok a -> In q _INTERROGATION_ATTRS -> is_Ok (attribute_command idx a q) = true.
Proof.
  intros Ha Hq. assert (byte_okb a = true) as Hb.
  { unfold byte_okb. unfold byte_ok in Ha. apply andb_true_iff. rewrite Z.leb_le, Z.ltb_lt. lia. }
  repeat (destruct Hq as [<-|Hq]; [unfold attribute_command, mk_bytes; cbn [app forallb]; by rewrite Hb|]).
  destruct Hq.
Qed.

(** The commands of the questions, with the codes from [idx] on. *)
Definition commands (a : Z) (idx : nat) (qs : list (CAL.t * DeviceAttribute.t)) : list bytes :=
  imap (fun k q => match attribute_command (idx + k) a q with Ok c => c | Raise _ => [] end) qs.

Lemma ask_all_ok a qs s :
  byte_ok a -> incl qs _INTERROGATION_ATTRS -> _writer s = true ->
  ask_all a qs s =
    ({| _writer := true; _conf_idx := _conf_idx s + length qs;
        sent := sent s ++ commands a (_conf_idx s) qs; closed := closed s |}, Ok tt).
Proof.
  intros Ha. revert s. induction qs as [|q qs IH]; intros s Hqs Hw.
  { cbn. rewrite app_nil_r, Nat.add_0_r. destruct s; cbn in *; by subst. }
  cbn [ask_all]. pose proof (attribute_command_ok (_conf_idx s) a q Ha (Hqs q (or_introl eq_refl))) as Hc.
  destruct (attribute_command (_conf_idx s) a q) as [cmd|e] eqn:Ec; [|done].
  unfold _send_raw. cbn [_writer]. rewrite Hw, IH; [|intros x Hx; apply Hqs; by right|done].
  cbn [_conf_idx sent closed length]. f_equal. f_equal; [lia|]. rewrite <- app_assoc. f_equal.
  unfold commands. rewrite imap_cons, Nat.add_0_r, Ec. cbn [app]. f_equal. apply imap_ext.
  intros k x _. unfold compose. by rewrite Nat.add_succ_r.
Qed.

(** ** Properties *)

(** A session with a unit of the emulator: what the interface says first is dropped,
    the unit is read as by [Interrogator], the connection is closed, and every
    question was sent once, with the next codes. *)
Theorem session_reads_unit em a u greeting events s :
  byte_ok a -> unit_ok u -> units em !! a = Some u -> greeting <> Failed ->
  talks em a (_conf_idx s) _INTERROGATION_ATTRS events ->
  exists s', interrogate_once true a (greeting :: events) s =
      (s', Ok (foldl (fun info q => learn info q (answer q u)) (unit_info a) _INTERROGATION_ATTRS)) /\
    _writer s' = false /\ closed s' = S (closed s) /\ _conf_idx s' = (_conf_idx s + 11)%nat /\
    sent s' = sent s ++ [[124; 124; 13]] ++ commands a (_conf_idx s) _INTERROGATION_ATTRS.
Proof.
  intros Ha Hu Hem Hg Ht. unfold interrogate_once, connect, _send_raw. cbn [_writer].
  set (s1 := {| _writer := true; _conf_idx := _ |}).
  assert (interrogate_in a events s1 =
    ({| _writer := true; _conf_idx := _conf_idx s1 + 11;
        sent := sent s1 ++ commands a (_conf_idx s1) _INTERROGATION_ATTRS; closed := closed s1 |},
     Ok (foldl (fun info q => learn info q (answer q u)) (unit_info a) _INTERROGATION_ATTRS, []))) as Hi.
  { unfold interrogate_in. rewrite (ask_all_ok a _INTERROGATION_ATTRS s1 Ha (incl_refl _) eq_refl).
    unfold interrogate. by rewrite (interrogate_loop_ok em a u). }
  destruct greeting; try done; rewrite Hi; (eexists; split; [reflexivity|]);
    (split; [done|]); (split; [done|]); (split; [done|]); cbn; by rewrite <- app_assoc.
Qed.

(** Without a connection an interrogation raises [AttributeError], which its handler of
    timeouts and connection errors lets pass; the first code is used up. *)
Theorem not_connected_raises a events s :
  byte_ok a -> _writer s = false ->
  interrogate_in a events s =
    ({| _writer := false; _conf_idx := S (_conf_idx s); sent := sent s; closed := closed s |},
     Raise AttributeError).
Proof.
  intros Ha Hw. unfold interrogate_in, _INTERROGATION_ATTRS. cbn [ask_all].
  match goal with |- context [attribute_command ?i a ?q] =>
    pose proof (attribute_command_ok i a q Ha (or_introl eq_refl)) as Hc;
    destruct (attribute_command i a q); [|done] end.
  unfold _send_raw. cbn [_writer]. by rewrite Hw.
Qed.

(** A reply is not compared with the question. When the reply to the first question
    comes after its time, each reply from there on is taken as the answer to the next
    question. *)
Definition reply_line (line data : bytes) : Prop := line <> [] /\ scan line = (Some data, []).

Theorem late_reply_shifts a q qs idx lines ds info :
  byte_ok a -> incl (q :: qs) _INTERROGATION_ATTRS -> length ds = length qs ->
  Forall2 reply_line lines ds ->
  interrogate_loop a (q :: qs) idx (TimedOut :: map Chunk lines) info =
    Ok (foldl (fun info '(q, d) => learn info q d) info (combine qs ds), []).
Proof.
  intros Ha Hqs Hlen Hl. cbn [interrogate_loop].
  pose proof (attribute_command_ok idx a q Ha (Hqs q (or_introl eq_refl))) as Hc.
  destruct (attribute_command idx a q); [|done]. rewrite bind_Ok. cbn [_read_reply].
  assert (incl qs _INTERROGATION_ATTRS) as Hqs' by (intros x Hx; apply Hqs; by right).
  clear Hqs Hc. generalize (S idx). intros i. revert i info ds lines Hlen Hl.
  induction qs as [|q' qs IH]; intros i info [|d ds] lines Hlen Hl; try done.
  { by inversion Hl. }
  inversion Hl as [|line ? lines' ? [Hne Hs] Hl']; subst. cbn [interrogate_loop map combine foldl].
  pose proof (attribute_command_ok i a q' Ha (Hqs' q' (or_introl eq_refl))) as Hc.
  destruct (attribute_command i a q'); [|done]. rewrite bind_Ok.
  destruct line as [|x line]; [done|]. cbn [_read_reply app]. rewrite Hs.
  apply IH; [intros y Hy; apply Hqs'; by right|by injection Hlen|done].
Qed.

(** What the emulator writes for each question, each as one chunk. *)
Definition reply_lines (em : emulator) (a : Z) (idx : nat) (qs : list (CAL.t * DeviceAttribute.t))
    : list bytes :=
  imap (fun k q => match attribute_command (idx + k) a q with
                   | Ok cmd => let '(_, _, (ws, _)) := emulator_process cmd em in concat ws
                   | Raise _ => []
                   end) qs.

Lemma reply_lines_answer em a u idx qs :
  byte_ok a -> unit_ok u -> units em !! a = Some u -> qs ⊆ _INTERROGATION_ATTRS ->
  Forall2 reply_line (reply_lines em a idx qs) (map (fun q => answer q u) qs).
Proof.
  intros Ha Hu Hem. unfold reply_lines. revert idx. induction qs as [|q qs IH]; intros idx Hqs; [constructor|].
  rewrite imap_cons. cbn [map]. constructor.
  - destruct (question_answered (idx + 0) a u q em Ha Hu Hem) as (cmd & ws & Hc & He & Hs & Hne).
    { apply Hqs. left. }
    rewrite Hc, He. split; [|done]. intros E. rewrite E in Hs. discriminate Hs.
  - eapply Forall2_impl; [|done]. erewrite imap_ext; [apply (IH (S idx)); intros x Hx; apply Hqs; by right|].
    intros k x _. unfold compose. by rewrite Nat.add_succ_r.
Qed.

(** With the emulator: when the first reply comes too late, every field holds the
    answer to the question before. *)
Theorem late_reply_misreads_unit em a u idx :
  byte_ok a -> unit_ok u -> units em !! a = Some u ->
  interrogate a idx (TimedOut :: map Chunk (reply_lines em a idx (removelast _INTERROGATION_ATTRS))) =
    Ok (foldl (fun info '(q, d) => learn info q d) (unit_info a)
          (combine (tail _INTERROGATION_ATTRS) (map (fun q => answer q u) (removelast _INTERROGATION_ATTRS))), []).
Proof.
  intros Ha Hu Hem. unfold interrogate. apply (late_reply_shifts a _ (tail _INTERROGATION_ATTRS));
    [done|apply incl_refl|done|].
  apply reply_lines_answer; try done. intros x Hx. cbn in *. set_solver.
Qed.

Lemma unit_3_ok : unit_ok unit_3.
Proof. repeat split; repeat constructor; vm_compute; intuition congruence. Qed.

(** The firmware version is then the name of the type. *)
Example late_reply_witness :
  (info ← interrogate 3 0 (TimedOut :: map Chunk
     (reply_lines (emulator_init 256) 3 0 (removelast _INTERROGATION_ATTRS)));
   Ok (i_type_name (fst info), i_firmware_version (fst info))) =
  Ok ([], take 8 (ljust 8 32 (type_name unit_3))).
Proof.
  rewrite (late_reply_misreads_unit (emulator_init 256) 3 unit_3 0 ltac:(done) unit_3_ok eq_refl).
  vm_compute. reflexivity.
Defined.

Example session_witness : exists s',
  interrogate_once true 3 (TimedOut :: dialogue (emulator_init 256) 3 0 _INTERROGATION_ATTRS)
    interrogator_init =
    (s', Ok (foldl (fun info q => learn info q (answer q unit_3)) (unit_info 3) _INTERROGATION_ATTRS)) /\
  closed s' = 1%nat.
Proof.
  destruct (session_reads_unit (emulator_init 256) 3 unit_3 TimedOut
    (dialogue (emulator_init 256) 3 0 _INTERROGATION_ATTRS) interrogator_init) as (s' & H & _ & Hc & _);
    [done|exact unit_3_ok|done|done|by apply (dialogue_talks (emulator_init 256) 3 unit_3); [|apply unit_3_ok|..]|].
  exists s'. split; [exact H|exact Hc].
Defined.
