(* ===== verification/Lifecycle.v ===== *)
(** * Start and end of the emulated bridge: [esp32/emulator/device.py], [serial_port.py]

    [start], [stop] and the registry of clients of [ESP32Emulator], whose [stop] goes
    through the list of clients while their tasks take themselves off it; and
    [VirtualSerialPair], the two ends of a pseudo terminal. What the clients are served
    is in [EmulatorServer]. *)

From Stdlib Require Import String.
From stdpp Require Import strings list.
From S2P Require Import Prelude Text.
From stdpp Require Import options.

Local Open Scope string_scope.
Local Open Scope list_scope.
Local Open Scope nat_scope.

(** ** The server of the bridge *)

(** A client is numbered; [closed] are the writers that were closed. *)
Record registry := {
  clients : list nat;
  closed : list nat;
  is_running : bool;
  actual_port : Z
}.

Definition registry_init : registry :=
  {| clients := []; closed := []; is_running := false; actual_port := 0 |}.

(** [start], with the port that the socket got. *)
Definition start (port : Z) (r : registry) : registry :=
  {| clients := clients r; closed := closed r; is_running := true; actual_port := port |}.

(** [_handle_client] at its two ends. *)
Definition client_comes (c : nat) (r : registry) : registry :=
  {| clients := clients r ++ [c]; closed := closed r; is_running := is_running r;
     actual_port := actual_port r |}.

Definition client_goes (c : nat) (r : registry) : registry :=
  {| clients := filter (fun x => x <> c) (clients r); closed := closed r ++ [c];
     is_running := is_running r; actual_port := actual_port r |}.

Definition close_writer (c : nat) (r : registry) : registry :=
  {| clients := clients r; closed := closed r ++ [c]; is_running := is_running r;
     actual_port := actual_port r |}.

(** The loop of [stop], at the index [i] of the list: it closes a writer and waits,
    and a task that was waiting for data ends meanwhile, as its read returns nothing;
    one that sleeps before a reply does not ([idle]). *)
Fixpoint stop_loop (fuel : nat) (idle : nat -> bool) (i : nat) (r : registry) : registry :=
  match fuel with
  | O => r
  | S fuel =>
      match clients r !! i with
      | None => r
      | Some c => stop_loop fuel idle (S i) (if idle c then client_goes c r else close_writer c r)
      end
  end.

Definition stop (idle : nat -> bool) (r : registry) : registry :=
  let r := stop_loop (length (clients r)) idle 0 r in
  {| clients := []; closed := closed r; is_running := false; actual_port := 0 |}.

(** ** Which clients [stop] closes *)

(** Every other element. *)
Fixpoint evens {A} (l : list A) : list A :=
  match l with x :: _ :: l => x :: evens l | _ => l end.

Lemma list_pair_ind {A} (P : list A -> Prop) :
  P [] -> (forall x, P [x]) -> (forall x y l, P l -> P (x :: y :: l)) -> forall l, P l.
Proof.
  intros H0 H1 H2. fix IH 1. intros [|x [|y l]]; [exact H0|apply H1|apply H2, IH].
Qed.

Lemma filter_ne_id {A} `{EqDecision A} (c : A) (l : list A) : c ∉ l -> filter (fun x => x <> c) l = l.
Proof.
  induction l as [|x l IH]; intros H; [done|]. apply not_elem_of_cons in H as [Hx H].
  rewrite filter_cons_True by (by intros E; apply Hx). by rewrite IH.
Qed.

Lemma stop_loop_idle rest pre cl fuel run port :
  NoDup (pre ++ rest) -> length rest <= fuel ->
  closed (stop_loop fuel (fun _ => true) (length pre)
    {| clients := pre ++ rest; closed := cl; is_running := run; actual_port := port |}) = cl ++ evens rest.
Proof.
  revert pre cl fuel. induction rest as [|x|x y rest IH] using list_pair_ind; intros pre cl fuel Hn Hf.
  - rewrite app_nil_r. destruct fuel; cbn [stop_loop clients closed]; [by rewrite app_nil_r|].
    rewrite (proj2 (lookup_ge_None pre (length pre))) by lia. cbn. by rewrite app_nil_r.
  - cbn in Hf. destruct fuel; [lia|]. cbn [stop_loop clients].
    rewrite list_lookup_middle by done. unfold client_goes. cbn [clients closed].
    apply NoDup_app in Hn as (_ & Hx & _). rewrite filter_app, filter_cons_False, app_nil_r by (by intros ?).
    rewrite filter_ne_id by (intros ?; apply (Hx x); [done|by left]).
    destruct fuel; cbn [stop_loop clients closed]; [done|].
    by rewrite (proj2 (lookup_ge_None pre (S (length pre)))) by lia.
  - cbn in Hf. destruct fuel; [lia|]. cbn [stop_loop clients].
    rewrite list_lookup_middle by done. unfold client_goes. cbn [clients closed is_running actual_port].
    assert (filter (fun z => z <> x) (pre ++ x :: y :: rest) = (pre ++ [y]) ++ rest) as ->.
    { apply NoDup_app in Hn as (_ & Hx & Hr). apply NoDup_cons in Hr as [Hr _].
      rewrite filter_app, filter_cons_False by (by intros ?).
      rewrite !filter_ne_id by ((by intros ?%Hr) || (intros ?; apply (Hx x); [done|by left])).
      by rewrite <- app_assoc. }
    replace (S (length pre)) with (length (pre ++ [y])) by (rewrite length_app; cbn; lia).
    rewrite IH; [cbn; by rewrite <- app_assoc| |lia].
    apply NoDup_app in Hn as (Hp & Hx & Hr). apply NoDup_cons in Hr as [_ Hr].
    rewrite <- app_assoc. apply NoDup_app. split; [done|]. split; [|done].
    intros z Hz Hin. apply (Hx z Hz). right. exact Hin.
Qed.

Lemma stop_loop_busy rest pre cl fuel run port :
  length rest <= fuel ->
  closed (stop_loop fuel (fun _ => false) (length pre)
    {| clients := pre ++ rest; closed := cl; is_running := run; actual_port := port |}) = cl ++ rest.
Proof.
  revert pre cl fuel. induction rest as [|x rest IH]; intros pre cl fuel Hf.
  - rewrite app_nil_r. destruct fuel; cbn [stop_loop clients closed]; [by rewrite app_nil_r|].
    rewrite (proj2 (lookup_ge_None pre (length pre))) by lia. cbn. by rewrite app_nil_r.
  - cbn in Hf. destruct fuel; [lia|]. cbn [stop_loop clients].
    rewrite list_lookup_middle by done. unfold close_writer. cbn [clients closed is_running actual_port].
    specialize (IH (pre ++ [x]) (cl ++ [x]) fuel ltac:(lia)). rewrite length_app in IH. cbn in IH.
    rewrite Nat.add_1_r, <- !app_assoc in IH. exact IH.
Qed.

(** [stop] forgets all clients, but while they wait for data it closes only every
    other: as one leaves the list the next takes its place, and the loop goes past it.
    Those that are busy stay in the list, and are all closed. *)
Theorem stop_skips_clients r :
  NoDup (clients r) ->
  closed (stop (fun _ => true) r) = closed r ++ evens (clients r) /\
  closed (stop (fun _ => false) r) = closed r ++ clients r /\
  forall idle, clients (stop idle r) = [] /\ is_running (stop idle r) = false.
Proof.
  intros Hn. split; [|split; [|done]]; destruct r as [cs cl run port]; cbn [clients closed] in *;
    unfold stop; cbn [closed clients].
  - by apply (stop_loop_idle cs [] cl).
  - by apply (stop_loop_busy cs [] cl).
Qed.

Example stop_skips_clients_witness :
  closed (stop (fun _ => true) (client_comes 3 (client_comes 2 (client_comes 1 (start 10001 registry_init)))))
    = [1; 3].
Proof.
  apply (stop_skips_clients (client_comes 3 (client_comes 2 (client_comes 1 (start 10001 registry_init))))).
  repeat constructor; cbn; rewrite ?elem_of_cons, ?elem_of_nil; intuition discriminate.
Defined.

(** ** The pseudo terminal *)

(** The two descriptors and the names of the ports; [open_fds] is what the process has
    open. *)
Record serial_pair := {
  _master_fd : option Z;
  _slave_fd : option Z;
  _device_port : option string;
  _client_port : option string;
  open_fds : list Z
}.

Definition pair_init (fds : list Z) : serial_pair :=
  {| _master_fd := None; _slave_fd := None; _device_port := None; _client_port := None; open_fds := fds |}.

(** [os.ttyname], or the name in [/dev/fd] where it raises. *)
Definition port_name (ttyname : Z -> option string) (fd : Z) : string :=
  default ("/dev/fd/" +:+ str_int fd) (ttyname fd).

(** [create], with the descriptors of [pty.openpty]. *)
Definition create (ttyname : Z -> option string) (master slave : Z) (p : serial_pair) : serial_pair :=
  {| _master_fd := Some master; _slave_fd := Some slave;
     _device_port := Some (port_name ttyname master); _client_port := Some (port_name ttyname slave);
     open_fds := master :: slave :: open_fds p |}.

Definition os_close (fd : option Z) (fds : list Z) : list Z :=
  match fd with Some fd => filter (fun x => x <> fd) fds | None => fds end.

Definition close (p : serial_pair) : serial_pair :=
  pair_init (os_close (_slave_fd p) (os_close (_master_fd p) (open_fds p))).

(** What [create] opened [close] closes, and nothing else; a pair that was created
    twice keeps the descriptors of the first time open. *)
Theorem close_undoes_create ttyname m s p :
  m ∉ open_fds p -> s ∉ open_fds p -> close (create ttyname m s p) = pair_init (open_fds p).
Proof.
  intros Hm Hs. unfold close, create. cbn [_slave_fd _master_fd open_fds os_close]. f_equal.
  rewrite filter_cons_False by (by intros ?).
  assert (forall l, filter (fun x => x <> s) (filter (fun x => x <> m) (s :: l)) =
    filter (fun x => x <> s) (filter (fun x => x <> m) l)) as ->.
  { intros l. destruct (decide (s = m)) as [->|Hsm].
    - by rewrite filter_cons_False by (by intros ?).
    - rewrite filter_cons_True by done. by rewrite filter_cons_False by (by intros ?). }
  by rewrite !filter_ne_id by (rewrite ?filter_ne_id by done; done).
Qed.

Example close_undoes_create_witness :
  close (create (fun _ => None) 7 8 (pair_init [0; 1; 2]%Z)) = pair_init [0; 1; 2]%Z /\
  _device_port (create (fun _ => None) 7 8 (pair_init [0; 1; 2]%Z)) = Some "/dev/fd/7" /\
  open_fds (close (create (fun _ => None) 9 10 (create (fun _ => None) 7 8 (pair_init [])))) = [7; 8]%Z.
Proof.
  split; [|by vm_compute]. apply (close_undoes_create (fun _ => None) 7 8 (pair_init [0; 1; 2]%Z));
    cbn; rewrite !elem_of_cons, elem_of_nil; intuition discriminate.
Defined.
